(* ===== verification/_CoqProject ===== *)
-Q . S2P
Prelude.v
GoStrings.v
Sdk.v
SdkRef.v
Types.v
MakerTypes.v
VeTypes.v
SdkExt.v
SdkExtRef.v
OracleTypes.v
GaugeTypes.v
VestingTypes.v
World.v
OracleKeeper.v
OracleBallot.v
OracleEnd.v
OracleMedian.v
OracleOrder.v
OracleReward.v
OracleHistory.v
MakerKeeper.v
MakerCalc.v
MakerMsg.v
MakerGov.v
MakerInv.v
MakerEffects.v
MakerSafety.v
MakerDemo.v
MakerProps.v
MakerValue.v
MakerValueProps.v
MakerQuery.v
OracleProps.v
VeKeeper.v
VeVoting.v
VeMsg.v
VeEmission.v
VeInv.v
VeSafety.v
VeHistory.v
VeCheckpoint.v
VeDemo.v
GaugeKeeper.v
GaugeBase.v
GaugeSearch.v
Voter.v
GaugeHistory.v
GaugeRun.v
VoterVotes.v
VoterBallots.v
GaugeProps.v
SdkStaking.v
SdkStakingRef.v
StakingTypes.v
Staking.v
StakingSlash.v
StakingBook.v
StakingUnbond.v
StakingInv.v
StakingQueues.v
StakingSteps.v
StakingProps.v
SdkEvm.v
SdkEvmRef.v
Erc20Types.v
Erc20Keeper.v
Bank.v
Erc20Inv.v
BankInv.v
BankSafety.v
BankProps.v
Vesting.v
VestingProps.v
VeProps.v
VeNft.v
App.v
Payments.v
Machine.v
MachineProps.v
Keys.v
