(* ===== verification/Prelude.v ===== *)
(** * The economic core of the gridiron chain, verified

    The repository is a Cosmos-SDK chain.  Its own logic is in the modules
    under [src/x/]: [maker] issues the stablecoin grid ([uusm]) against
    backing coins, collateral and the chain's coin iron ([airon]); [ve] locks
    iron for voting power; [voter] and [gauge] direct emissions with that power;
    [oracle] votes on exchange rates; [vesting], [staking], [bank] and [erc20]
    extend the SDK's modules.  [src/app/] puts them together.  This development
    models all of them as far as they change state, with most of their queries,
    the shared helpers of [src/types/], and the application: which messages are
    delivered, what a block does, genesis.

    ** How code is modelled

    A Go function that returns an error or can panic is a function into
    [outcome] ([Ok], [Err], [Panic], below); [fail_if b with e ;; k] is an early
    return, [x ← e; k] a call whose error is returned.  State is passed: a
    handler takes the block context [Ctx] (height and time) and a [World]
    ([World.v]): the store of each module, one field per key prefix of its
    [keys.go] ([Keys.v] shows that this is faithful to the bytes), and the
    state of the bank and nft keepers.  A transaction that
    ends in [Err] or [Panic] leaves the world as it was, as the SDK discards its
    writes.  [sdk.Int] and [sdk.Dec] are integers ([Dec] in units of 10^-18)
    under the SDK's own operations, which panic on overflow; [uint64] and
    [int64] arithmetic is written with [u64] and [i64].  Events, gas and codecs
    are not modelled.

    ** Code outside the repository

    The SDK's numbers, coins and addresses, the bank keeper and the nft keeper
    are the classes [Sdk], [BankKeeper] and [NftKeeper] of [Sdk.v]; what the
    code relies on are the laws [SdkLaws], [BankLaws] and [NftLaws] (exact
    results and rounding of the arithmetic, when it fits, what a transfer, mint
    or burn does to balances and supplies, tokens and their owners).  [SdkRef.v]
    is an instance of all of them that computes, so that every theorem is
    applied to concrete chains ([MakerDemo.v], [VeDemo.v]).  The function the
    staking module gives to [ve] ([getDelegatedAmount]) is a parameter.
    [SdkExt.v] adds what the other modules use: the order in which a loop
    visits a Go map ([MapOrder], any permutation), [sort.Sort] ([GoSort], any
    sorted permutation), decimal coins, validators, the staking and
    distribution keepers; [SdkExtRef.v] has instances that compute.
    [Vesting.v] has the account keeper and the community pool.
    [SdkStaking.v] is the SDK's staking keeper, which [x/staking/] extends
    ([SdkStakingRef.v]: an instance), and [SdkEvm.v] the host of [x/bank/] and
    [x/erc20/]: the SDK's bank keeper, accounts, the EVM with the token
    contracts, hexadecimal addresses and the ABI ([SdkEvmRef.v]: an instance).
    The laws of the EVM say what a message that did not fail has done to the
    balances of a contract of the module; nothing is assumed of others.

    ** Files

    - [Prelude.v]: outcomes, machine integers, sums over maps, tactics, the hint
      database [gridiron].  [GoStrings.v]: the functions of Go's [strings].
      [Sdk.v], [SdkRef.v]: above.
    - [Types.v]: [src/types/].  [World.v]: the chain state.
    - [MakerTypes.v]: [x/maker/types/]: records, messages, [ValidateBasic],
      parameters, proposals.  [MakerKeeper.v]: store access, backing ratio,
      end blocker, genesis.  [MakerCalc.v]: [keeper/calculate.go] and the helpers
      of [msg_server.go].  [MakerMsg.v]: the nine handlers of [msg_server.go].
      [MakerGov.v]: [proposal_handler.go], [handler.go] and the step relation
      [maker_step].  [MakerQuery.v]: [grpc_query.go].
    - [MakerInv.v]: the accounting invariant [maker_inv], what the books owe
      ([obligation]) and the two shapes of effect every handler has.
      [MakerEffects.v]: each handler has such an effect.  [MakerSafety.v]:
      governance, the end blocker, reachability ([maker_reach]) and the
      invariant by induction on it.  [MakerValue.v]: values and rounding of the
      calculations.  [MakerDemo.v]: a concrete chain.
    - [VeTypes.v]: [x/ve/types/].  [VeKeeper.v]: store access and
      [checkpoint.go].  [VeVoting.v]: voting powers and queries
      ([grpc_query.go]).  [VeMsg.v]: [msg_server.go], [staking.go], genesis.
      [VeEmission.v]: [emission.go], [distribution.go].  [VeNft.v]: the URI of a
      token and the queries for tokens.
    - [VeInv.v]: the effect of each ve handler on locks, tokens and balances.
      [VeSafety.v]: the step relation [ve_step], reachability [ve_reach], the
      invariant [ve_inv].  [VeHistory.v]: histories stay sorted, and the binary
      search on them.  [VeCheckpoint.v]: when checkpoints return, voting powers,
      the distribution over weeks.  [VeDemo.v]: a concrete chain.
    - [OracleTypes.v]: [x/oracle/types/]: parameters, votes and their text,
      hashes, messages.  [OracleKeeper.v]: store access, queries, genesis, and
      the [Chain] the module runs on.  [OracleBallot.v]: ballots, medians, the
      tally.  [OracleEnd.v]: [abci.go], rewards, slashing, messages, proposals.
    - [OracleMedian.v]: the weighted median.  [OracleOrder.v]: the end of a
      block under two orders of map iteration.  [OracleReward.v]: rewards and
      the pool, slashing.  [OracleHistory.v]: commits and reveals along a run,
      export and import.
    - [GaugeTypes.v]: keys and records of [x/gauge/] and [x/voter/].
      [GaugeKeeper.v]: [x/gauge/keeper/store.go].  [GaugeBase.v]: [base.go]:
      checkpoints, rewards per ticket, claims.  [Voter.v]: [bribe.go],
      [gauge.go] and [x/voter/].
    - [GaugeSearch.v]: the search in a history and what a history records.
      [GaugeHistory.v]: what each operation does to tickets and histories.
      [GaugeRun.v]: runs.  [VoterVotes.v], [VoterBallots.v]: the abstract map of
      votes, the loops over it, that abstaining returns, the specification of
      the voter and each operation's step.
    - [VestingTypes.v]: [x/vesting/types/].  [Vesting.v]: its keeper, messages,
      genesis and end blocker.

    - [StakingTypes.v]: [x/staking/types/].  [Staking.v]: [keeper/delegation.go].
      [StakingSlash.v]: [slash.go], [msg_server.go], [val_state_change.go],
      genesis.  The state is an [SChain]: a [World], the SDK's staking state
      and the extension's store.
    - [StakingBook.v]: what is booked for a lock, and the effect [book_step].
      [StakingBook.v], [StakingUnbond.v], [StakingInv.v]: each operation has
      one.  [StakingQueues.v]: the extension's records beside the SDK's.
      [StakingSteps.v]: steps and reachability, the extension beside the ve
      module, and failures.
    - [Erc20Types.v]: [x/erc20/types/] and the monad [XM] over host and token
      pairs, which keeps the state also after an error, since some callers go
      on.  [Erc20Keeper.v]: [x/erc20/keeper/] and genesis.  [Bank.v]: [x/bank/]
      and the EVM hook of [x/erc20/], which calls it.
    - [Erc20Inv.v]: pairs, what calls of contracts do, export and import.
      [BankInv.v]: coins and contracts against a ledger, the operations as
      commands and their specification.  [BankSafety.v]: queries, the hook, the
      second name of a contract.
    - [App.v]: [src/app/sigverify.go] and [tps_counter.go].
    - [Payments.v]: what each message, proposal and end blocker of [maker], [ve],
      [oracle], [voter] and [vesting] may write, and whose balances it may lower
      (the relation [effect]).  [Machine.v]: [src/app/app.go], the services that
      the [module.go] of the modules register, the old handlers, the signers of
      messages: delivery of transactions, governance routes, blocks, genesis,
      module accounts.  The ante handler, the SDK's modules, the EVM, IBC, the
      bridge and the extended bank, erc20 and staking modules, with their
      messages, are the parameters [OtherModules]; their laws in
      [MachineProps.v], which C1 does not use, say that they write no store of
      the modules here but slash locks as the staking module does, and take
      coins from any account other than those of [maker] and [ve].
    - [Keys.v]: the key functions of every [keys.go], byte for byte, the
      interface [Layout] between a record of maps and a byte store (the calls of
      the key functions, and the entry of the record that each names), and an
      instance for each of the eight stores.
    - The files with the properties also hold the concrete chains on which they
      are applied, where [MakerDemo.v] and [VeDemo.v] do not.

    ** What is shown

    - [MachineProps.v] (C1, C2, C39, C40): the messages, proposals and ends of
      blocks of these modules take coins from signers and module accounts only
      (fees and the messages of other modules are outside); in every state the
      application reaches, each of [maker] and [ve] is in a state it reaches on
      its own, so that the promises of both hold together whatever is
      interleaved that takes nothing from their accounts; as the services are registered no ve
      message is ever delivered; a vote period without a price for the stable
      coin ends the chain.
    - [MakerProps.v] (C3-C9): the module account covers the books in every
      reachable state; each message moves coins exactly as it books them; totals,
      pools and accounts agree; grid and iron are minted and burned only against
      the books; governance keeps risk parameters ordered; the backing ratio
      stays in range.  Besides, it moves by one step per cooldown and needs a
      price.
    - [MakerValueProps.v] (C10-C12): no swap creates value beyond rounding;
      a loan cannot be liquidated in its own block; liquidations are guarded.
      Besides, slippage limits and ceilings, buybacks within the excess,
      redemptions, interest, a zero catalytic ratio, the burn price bias,
      missing ceilings.
    - [VeProps.v] (C13-C18): the module account covers the locks; locks and
      tokens correspond; the recorded total follows the locks except in a merge,
      which counts twice; withdrawals pay the owner (whether or not the
      lock is delegated); voting power decays to zero; when the end blocker takes
      a checkpoint, and when it panics.  Besides, what
      create and merge do, that attached tokens are frozen, that the search on
      the history is right, that identifiers round-trip, and that a distribution
      over a week boundary assigns more than it has.
    - [StakingProps.v] (C19-C24): what is booked for a lock covers its delegated
      amount; the extension's records stay in step with the SDK's when genesis
      has no unbondings and redelegations; delegated amounts stay within the
      locks under every operation of the extension, and under a message of the
      ve module exactly when it takes away no delegated lock, which the program
      does not check; unbonding takes shares in a fixed order (a reference
      definition); a slashed unbonding cannot be completed and stops the end of
      the block that tries; who can delegate a lock.  Besides, the part of a slash that the pools bear, and
      the end of a block that panics.
    - [BankProps.v] (C25-C28): bank and contracts together refine one ledger; the
      module's own invariant holds along runs; token pairs are well formed;
      genesis round-trips.  Besides, two defects: the hook moves tokens twice,
      and a contract has a second denomination under which tokens move alone.
    - [OracleProps.v] (C29-C32): the weighted median is exact; the end of a
      block does not depend on the order of map iteration; every stored vote was
      committed to in the period before; rewards stay within the pool.  Besides,
      rates that pass validation can make the end blocker panic.
    - [GaugeProps.v] (C33-C36): the search in a history ends and is right;
      checkpoints answer what tickets were at any earlier time; the voter
      refines a map of votes; votes can always be taken back.  Besides, claims
      that pay again, panics of claims, pokes and distributions.
    - [VestingProps.v] (C37): airdrops stay within their cap.  Besides, the
      allocation at genesis mints what it should.
    - [Keys.v] (C38): the records refine byte stores; iterators over the keys of
      one kind stay within their prefix; in six modules no two keys share their
      bytes, in the gauge and voter modules exactly the given ones do, and the
      iterator over the rewards of a pool visits those of pools whose key
      continues its own.
    - Besides, [VeNft.v]: the URI of a token is read back, and differs from the
      one a test expects; [App.v]: gas is charged for exactly the Ethereum keys
      that signed, nested multisigs included, and the reports of the transaction
      counter lose and double nothing under any interleaving.

    ** Loops and bounds

    The loop of [regulateCheckpoint] has two rounds in the source and panics in
    the third: that is the fuel of [regulate_rounds].  The binary searches have
    65 rounds; an interval of 64-bit epochs is halved to nothing in 64
    ([ve_find_time_epoch] and C33 prove the result, not only its correctness
    when it ends; C33 relates the rounds to the unbounded loop).  The loops of rewards have as many rounds
    as epochs, the loops over stores and messages are structural.  The loops over
    weeks ([future_power], [distribute_periods], [claim_periods]) have one round
    per week between their two times, and one more.  The loop of [Unbond] has as
    many rounds as the delegation has locked parts, of which each round passes
    or removes one.  Theorems about the code's
    success bound amounts by 2^180 and times and heights by 2^62, far from the
    limits of the types and from any value of a running chain.

    ** Not modelled

    The paginated queries of [vesting] and [erc20], the iterators of the bank
    that only forward to the SDK's and fee claims through the EVM are not
    modelled.  Of the application, the construction of keepers, the export for a
    restart from height zero (calls of the SDK's keepers), upgrades, the API
    server and simulation are not modelled; command lines and generated code have
    no logic of the chain.  In [Machine.v] a proposal changes the parameters of
    [maker] only, and the reachable states of C2 have those in which others
    changed the stores of [oracle], [gauge], [voter] and [vesting]; a change of
    the denomination that [ve] locks is outside of them.  [maker], [oracle], [gauge], [voter], [vesting] and [ve]
    run on the interface of the SDK's bank ([BankKeeper]), whose laws the
    extension meets for native coins (C25) as long as tokens are not moved on the
    EVM alone. *)

From stdpp Require Import base gmap strings list fin_maps sorting.
From Stdlib Require Import ZArith Lia.

#[local] Open Scope Z_scope.

(** ** Outcomes

    A Go function of the repository ends in one of three ways: it returns a
    value, it returns a non-nil [error], or it panics.  Errors are either
    registered by a module of the repository
    ([sdkerrors.Register(ModuleName, code, ...)]) or sentinels of a library. *)

Inductive error :=
| ErrReg (codespace : string) (code : Z)
| ErrExt (name : string).

Inductive outcome (A : Type) :=
| Ok (a : A)
| Err (e : error)
| Panic.
Arguments Ok {_} _.
Arguments Err {_} _.
Arguments Panic {_}.

#[export] Instance error_eq_dec : EqDecision error.
Proof. solve_decision. Defined.

#[export] Instance outcome_ret : MRet outcome := fun A a => Ok a.

#[export] Instance outcome_bind : MBind outcome := fun A B f m =>
  match m with Ok a => f a | Err e => Err e | Panic => Panic end.

#[export] Instance outcome_fmap : FMap outcome := fun A B f m =>
  match m with Ok a => Ok (f a) | Err e => Err e | Panic => Panic end.

Definition is_ok {A} (m : outcome A) : bool :=
  match m with Ok _ => true | _ => false end.

Definition is_panic {A} (m : outcome A) : bool :=
  match m with Panic => true | _ => false end.

(** The value of a computation that returns. *)
Definition ok_or {A} (d : A) (m : outcome A) : A := match m with Ok a => a | _ => d end.

Lemma is_ok_or {A} (d : A) (m : outcome A) : is_ok m = true → m = Ok (ok_or d m).
Proof. by destruct m. Qed.

(** [guard_err b e k]: the early return [if b { return e }; k]. *)
Definition guard_err {A} (b : bool) (e : error) (k : outcome A) : outcome A :=
  if b then Err e else k.

Declare Scope go_scope.
Delimit Scope go_scope with go.
Open Scope go_scope.

Notation "'fail_if' b 'with' e ;; k" := (guard_err b e k)
  (at level 100, b at level 99, e at level 99, k at level 200,
   right associativity) : go_scope.

Lemma bind_Ok {A B} (m : outcome A) (f : A → outcome B) b :
  m ≫= f = Ok b ↔ ∃ a, m = Ok a ∧ f a = Ok b.
Proof.
  split; [destruct m; intros H; try discriminate H; eauto|].
  intros (a & -> & H). exact H.
Qed.

Lemma guard_err_Ok {A} b e (k : outcome A) a :
  guard_err b e k = Ok a ↔ b = false ∧ k = Ok a.
Proof. destruct b; simpl; split; [discriminate|intros [? _]; discriminate|tauto|tauto]. Qed.

(** A loop whose body can fail: [for _, x := range xs { acc = f(acc, x) }]. *)
Fixpoint for_each {A S} (f : S → A → outcome S) (xs : list A) (s : S) : outcome S :=
  match xs with
  | [] => Ok s
  | x :: xs => s ← f s x; for_each f xs s
  end.

(** [inv_ok H] decomposes [H : ... = Ok _], one monadic step at a time, into
    the equations of the steps that returned. *)
Ltac inv_ok_step H :=
  lazymatch type of H with
  | Ok _ = Ok _ => injection H as H
  | _ ≫= _ = Ok _ =>
      apply bind_Ok in H;
      let a := fresh "r" in let Ha := fresh "E" in
      destruct H as (a & Ha & H)
  | guard_err _ _ _ = Ok _ =>
      apply guard_err_Ok in H;
      let Hb := fresh "G" in destruct H as [Hb H]
  | Err _ = Ok _ => discriminate H
  | Panic = Ok _ => discriminate H
  | (let _ := _ in _) = Ok _ => cbv zeta in H
  | (let '(_, _) := ?p in _) = Ok _ => destruct p
  | (if ?b then _ else _) = Ok _ =>
      let Hb := fresh "B" in destruct b eqn:Hb
  | match ?o with Some _ => _ | None => _ end = Ok _ =>
      let Ho := fresh "O" in destruct o eqn:Ho
  end.
Ltac inv_ok H := repeat (inv_ok_step H; try (simpl in H; idtac)).

(** ** Machine integers

    [uint64] and [int64] values are kept in [Z]; the operations of the source
    that can wrap are written with [u64] and [i64]. *)

Definition u64 (x : Z) : Z := x mod 2 ^ 64.
Definition i64 (x : Z) : Z := (x + 2 ^ 63) mod 2 ^ 64 - 2 ^ 63.

Lemma u64_small x : 0 ≤ x < 2 ^ 64 → u64 x = x.
Proof. apply Z.mod_small. Qed.

Lemma i64_small x : - 2 ^ 63 ≤ x < 2 ^ 63 → i64 x = x.
Proof. intros H. unfold i64. rewrite Z.mod_small; lia. Qed.

Lemma u64_range x : 0 ≤ u64 x < 2 ^ 64.
Proof. apply Z.mod_pos_bound. lia. Qed.

Lemma i64_i64_add x y : i64 (i64 x + y) = i64 (x + y).
Proof.
  unfold i64. replace ((x + 2 ^ 63) mod 2 ^ 64 - 2 ^ 63 + y + 2 ^ 63) with ((x + 2 ^ 63) mod 2 ^ 64 + y) by lia.
  rewrite Z.add_mod_idemp_l by lia. f_equal. f_equal. lia.
Qed.

Lemma u64_u64_add x y : u64 (u64 x + y) = u64 (x + y).
Proof. unfold u64. by rewrite Z.add_mod_idemp_l by lia. Qed.

(** ** Sums over finite maps *)

Definition map_sum {K V} `{Countable K} (f : K → V → Z) (m : gmap K V) : Z :=
  map_fold (fun k v acc => f k v + acc) 0 m.

(** The contribution of one key. *)
Definition at_key {K V} `{Countable K} (f : K → V → Z) (m : gmap K V) (k : K) : Z :=
  from_option (f k) 0 (m !! k).

Section map_sum.
Context {K V : Type} `{Countable K} (f : K → V → Z).
Implicit Types (m : gmap K V).

Lemma map_sum_empty : map_sum f (∅ : gmap K V) = 0.
Proof. apply map_fold_empty. Qed.

Lemma map_sum_insert_None m k v :
  m !! k = None → map_sum f (<[k:=v]> m) = f k v + map_sum f m.
Proof.
  intros Hk. unfold map_sum.
  rewrite map_fold_insert_L; [done| |done]. intros. lia.
Qed.

Lemma map_sum_delete m k : map_sum f (delete k m) = map_sum f m - at_key f m k.
Proof.
  unfold at_key. destruct (m !! k) as [v|] eqn:Hk; simpl.
  - rewrite <- (insert_delete_id m k v Hk) at 2.
    rewrite map_sum_insert_None by apply lookup_delete_eq. lia.
  - rewrite delete_id by done. lia.
Qed.

Lemma map_sum_insert m k v :
  map_sum f (<[k:=v]> m) = map_sum f m - at_key f m k + f k v.
Proof.
  rewrite <- insert_delete_eq.
  rewrite map_sum_insert_None by apply lookup_delete_eq.
  rewrite map_sum_delete. lia.
Qed.

Lemma map_sum_nonneg m :
  (∀ k v, m !! k = Some v → 0 ≤ f k v) → 0 ≤ map_sum f m.
Proof.
  induction m as [|k v m Hk IH] using map_ind; intros Hf.
  - rewrite map_sum_empty. lia.
  - rewrite map_sum_insert_None by done.
    assert (0 ≤ f k v) by (apply (Hf k); apply lookup_insert_eq).
    assert (0 ≤ map_sum f m); [|lia].
    apply IH. intros k' v' Hk'. apply (Hf k').
    rewrite lookup_insert_ne; [done|]. intros ->. congruence.
Qed.

Lemma map_sum_lookup_le m k v :
  (∀ k v, m !! k = Some v → 0 ≤ f k v) → m !! k = Some v → f k v ≤ map_sum f m.
Proof.
  intros Hf Hk.
  pose proof (map_sum_delete m k) as E. unfold at_key in E. rewrite Hk in E; simpl in E.
  assert (0 ≤ map_sum f (delete k m)); [|lia].
  apply map_sum_nonneg. intros k' v' [_ Hk']%lookup_delete_Some. eauto.
Qed.
End map_sum.

(** The key-value pairs of a store prefix, in the order an iterator of the
    store visits them (ascending byte order of the keys). *)
Definition key_le {V} (a b : string * V) : Prop := String.leb a.1 b.1 = true.

#[export] Instance key_le_dec {V} : RelDecision (@key_le V).
Proof. intros a b. apply bool_eq_dec. Defined.

Definition kv_iter {V} (m : gmap string V) : list (string * V) :=
  merge_sort key_le (map_to_list m).

Lemma kv_iter_perm {V} (m : gmap string V) : kv_iter m ≡ₚ map_to_list m.
Proof. apply merge_sort_Permutation. Qed.

(** Sums over lists, and the sum over a map as the sum of what an iterator
    visits. *)
Definition list_sum {A} (g : A → Z) (l : list A) : Z := foldr (fun a acc => g a + acc) 0 l.

Lemma list_sum_perm {A} (g : A → Z) l l' : l ≡ₚ l' → list_sum g l = list_sum g l'.
Proof. induction 1; unfold list_sum in *; simpl; lia. Qed.

Lemma list_sum_app {A} (g : A → Z) l1 l2 : list_sum g (l1 ++ l2) = list_sum g l1 + list_sum g l2.
Proof. induction l1 as [|a l1 IH]; unfold list_sum in *; simpl; lia. Qed.

Lemma list_sum_cons {A} (g : A → Z) a l1 : list_sum g (a :: l1) = g a + list_sum g l1.
Proof. done. Qed.

Lemma list_sum_nil {A} (g : A → Z) : list_sum g [] = 0.
Proof. done. Qed.

Lemma list_sum_le {A} (g h : A → Z) l1 : Forall (fun a => g a ≤ h a) l1 → list_sum g l1 ≤ list_sum h l1.
Proof. induction 1; rewrite ?list_sum_cons, ?list_sum_nil; lia. Qed.

Lemma list_sum_ext {A} (g h : A → Z) l1 : Forall (fun a => g a = h a) l1 → list_sum g l1 = list_sum h l1.
Proof. induction 1; rewrite ?list_sum_cons, ?list_sum_nil; lia. Qed.

Lemma list_sum_nonneg {A} (g : A → Z) l1 : Forall (fun a => 0 ≤ g a) l1 → 0 ≤ list_sum g l1.
Proof. induction 1; rewrite ?list_sum_cons, ?list_sum_nil; lia. Qed.

Lemma list_sum_zero {A} (l1 : list A) : list_sum (fun _ => 0) l1 = 0.
Proof. induction l1; rewrite ?list_sum_cons, ?list_sum_nil; lia. Qed.

(** Either no element is below a bound, or one of them is the largest below it. *)
Lemma largest_below (m : Z) (l : list Z) :
  (∀ x, x ∈ l → m ≤ x) ∨ ∃ k, k ∈ l ∧ k < m ∧ ∀ x, x ∈ l → x < m → x ≤ k.
Proof.
  induction l as [|x l IH]; [left; intros ? ?%not_elem_of_nil; done|].
  destruct IH as [IH|(k & ? & ? & Hmax)], (Z.lt_ge_cases x m) as [Hx|Hx].
  - right. exists x. split_and!; [by left|done|].
    intros y [->|Hy]%elem_of_cons ?; [done|]. specialize (IH _ Hy). lia.
  - left. intros y [->|Hy]%elem_of_cons; auto.
  - right. exists (Z.max x k). split_and!; [|lia|].
    + destruct (Z.max_spec x k) as [[_ ->]|[_ ->]]; [by right|by left].
    + intros y [->|Hy]%elem_of_cons Hym; [lia|]. specialize (Hmax _ Hy Hym). lia.
  - right. exists k. split_and!; [by right|done|]. intros y [->|Hy]%elem_of_cons ?; [lia|auto].
Qed.

Lemma map_sum_kv_iter {V} (g : V → Z) (m : gmap string V) :
  list_sum g (kv_iter m).*2 = map_sum (fun _ v => g v) m.
Proof.
  unfold map_sum. rewrite map_fold_foldr.
  assert (∀ l : list (string * V), foldr (uncurry (fun _ v acc => g v + acc)) 0 l = list_sum g l.*2) as E.
  { induction l as [|[k v] l IH]; [done|]. simpl. unfold list_sum in *. simpl. by rewrite IH. }
  rewrite E. apply list_sum_perm. by rewrite kv_iter_perm.
Qed.

Lemma map_sum_to_list {K V} `{Countable K} (g : V → Z) (m : gmap K V) :
  map_sum (fun _ v => g v) m = list_sum (fun e => g e.2) (map_to_list m).
Proof.
  unfold map_sum. rewrite map_fold_foldr.
  induction (map_to_list m) as [|[k v] l IH]; [done|]. simpl. by rewrite IH.
Qed.

(** ** Loops whose order is left open

    A loop over the entries of a Go map visits them in any order.  When the
    steps of different entries commute, the result does not depend on it. *)

Section Loops.
Context {A S : Type} (key : A → string) (I : S → Prop).

Lemma foldl_perm (f : S → A → S) l l' :
  (∀ s x, I s → I (f s x)) →
  (∀ s x y, I s → key x ≠ key y → f (f s x) y = f (f s y) x) →
  l ≡ₚ l' → NoDup (key <$> l) → ∀ s, I s → foldl f s l = foldl f s l'.
Proof.
  intros HI Hc. induction 1 as [|x l l' Hp IH|x y l|l1 l2 l3 H1 IH1 H2 IH2]; intros Hn s Hs; simpl.
  - done.
  - rewrite fmap_cons in Hn. apply NoDup_cons in Hn as [_ Hn]. auto.
  - rewrite Hc; [done|done|]. rewrite !fmap_cons in Hn.
    apply NoDup_cons in Hn as [Hn _]. intros E. apply Hn. rewrite E. by left.
  - rewrite IH1 by done. apply IH2; [by rewrite <- H1|done].
Qed.
End Loops.

Lemma foldl_comm {A S} (f : S → A → S) l l' :
  (∀ s x y, f (f s x) y = f (f s y) x) → l ≡ₚ l' → ∀ s, foldl f s l = foldl f s l'.
Proof.
  intros Hc. induction 1 as [|x l l' Hp IH|x y l|l1 l2 l3 H1 IH1 H2 IH2]; intros s; simpl; auto.
  - by rewrite Hc.
  - by rewrite IH1.
Qed.

(** The value of a run that returned. *)
Definition returned {A} (m : outcome A) : option A :=
  match m with Ok a => Some a | _ => None end.

Lemma returned_bind {A B} (m m' : outcome A) (k k' : A → outcome B) :
  returned m = returned m' → (∀ a, m = Ok a → returned (k a) = returned (k' a)) →
  returned (m ≫= k) = returned (m' ≫= k').
Proof. destruct m, m'; simpl; intros E Hk; try done; injection E as <-; auto. Qed.

(** A loop whose body first computes, from the entry alone, what it needs, and
    then changes the state without failing. *)
Lemma for_each_perm {A S R} (key : A → string) (ev : A → outcome R) (ap : S → A → R → S)
    (f : S → A → outcome S) l l' :
  (∀ s x, f s x = (r ← ev x; Ok (ap s x r))) →
  (∀ s x y r r', key x ≠ key y → ap (ap s x r) y r' = ap (ap s y r') x r) →
  l ≡ₚ l' → NoDup (key <$> l) → ∀ s, returned (for_each f l s) = returned (for_each f l' s).
Proof.
  intros Hf Hc. induction 1 as [|x l l' Hp IH|x y l|l1 l2 l3 H1 IH1 H2 IH2]; intros Hn s; simpl.
  - done.
  - rewrite fmap_cons in Hn. apply NoDup_cons in Hn as [_ Hn].
    apply returned_bind; [done|]. intros. auto.
  - rewrite !fmap_cons in Hn. apply NoDup_cons in Hn as [Hn _].
    assert (key y ≠ key x) as Hne by (intros E; apply Hn; rewrite E; by left).
    rewrite !Hf. destruct (ev y) eqn:Ey, (ev x) eqn:Ex; simpl; rewrite ?Hf, ?Ex, ?Ey; simpl;
      try done. by rewrite Hc.
  - rewrite IH1 by done. apply IH2. by rewrite <- H1.
Qed.

(** Deleting every key an iterator visits empties the map. *)
Lemma delete_keys_lookup {V W} (l : list (string * W)) (m : gmap string V) k :
  foldl (fun m e => delete e.1 m) m l !! k = if decide (k ∈ l.*1) then None else m !! k.
Proof.
  revert m. induction l as [|[a w] l IH]; intros m; [done|]. cbn [foldl]. rewrite IH, fmap_cons.
  cbn [fst]. destruct (decide (k ∈ l.*1)) as [Hl|Hl].
  - rewrite decide_True; [done|]. apply elem_of_cons. by right.
  - destruct (decide (k ∈ a :: l.*1)) as [[->|?]%elem_of_cons|Ha]; [apply lookup_delete_eq|done|].
    rewrite lookup_delete_ne; [done|]. intros ->. apply Ha, elem_of_cons. by left.
Qed.

Lemma delete_all {V} (l : list (string * V)) (m : gmap string V) :
  l ≡ₚ map_to_list m → foldl (fun m e => delete e.1 m) m l = ∅.
Proof.
  intros Hl. apply map_eq. intros k. rewrite delete_keys_lookup, lookup_empty.
  case_decide as Hk; [done|]. destruct (m !! k) as [v|] eqn:E; [|done].
  destruct Hk. rewrite Hl. apply list_elem_of_fmap. exists (k, v). split; [done|].
  by apply elem_of_map_to_list.
Qed.

(** ** Booleans of the source's comparisons, as propositions *)

Ltac zbool :=
  repeat match goal with
  | H : (_ && _)%bool = true |- _ => apply andb_true_iff in H; destruct H
  | H : (_ || _)%bool = false |- _ => apply orb_false_iff in H; destruct H
  | H : negb _ = true |- _ => apply negb_true_iff in H
  | H : negb _ = false |- _ => apply negb_false_iff in H
  | H : false = _ |- _ => symmetry in H
  | H : true = _ |- _ => symmetry in H
  | H : (_ <? _) = true |- _ => apply Z.ltb_lt in H
  | H : (_ <? _) = false |- _ => apply Z.ltb_ge in H
  | H : (_ <=? _) = true |- _ => apply Z.leb_le in H
  | H : (_ <=? _) = false |- _ => apply Z.leb_gt in H
  | H : (_ =? _) = true |- _ => apply Z.eqb_eq in H
  | H : (_ =? _) = false |- _ => apply Z.eqb_neq in H
  end.

Create Rewrite HintDb gridiron.
#[export] Hint Rewrite @map_sum_empty @map_sum_insert @map_sum_delete : gridiron.
