(* ===== verification/GoStrings.v ===== *)
(** Byte strings and the functions of Go's [strings] package that the modules
    use. *)

From stdpp Require Import base strings list.
From Stdlib Require Import ZArith Lia.
From S2P Require Import Prelude.

#[local] Open Scope Z_scope.
#[local] Open Scope string_scope.

(** [strings.TrimSpace] drops the UTF-8 encodings of the characters
    [unicode.IsSpace] accepts from both ends; [strings.Split] by one byte. *)
Definition byte_str (l : list nat) : string :=
  foldr (fun n s => String (Ascii.ascii_of_nat n) s) "" l.

Definition space_encodings : list string := byte_str <$>
  [[9]; [10]; [11]; [12]; [13]; [32]; [194; 133]; [194; 160]; [225; 154; 128];
   [226; 128; 128]; [226; 128; 129]; [226; 128; 130]; [226; 128; 131]; [226; 128; 132];
   [226; 128; 133]; [226; 128; 134]; [226; 128; 135]; [226; 128; 136]; [226; 128; 137];
   [226; 128; 138]; [226; 128; 168]; [226; 128; 169]; [226; 128; 175]; [226; 129; 159];
   [227; 128; 128]]%nat.

Fixpoint strip_prefix (p s : string) : option string :=
  match p, s with
  | "", _ => Some s
  | String a p, String b s => if decide (a = b) then strip_prefix p s else None
  | String _ _, "" => None
  end.

Fixpoint strip_any (ps : list string) (s : string) : option string :=
  match ps with
  | [] => None
  | p :: ps => match strip_prefix p s with Some r => Some r | None => strip_any ps s end
  end.

(** Every round drops at least one byte: the length bounds the rounds. *)
Fixpoint trim_rounds (fuel : nat) (ps : list string) (s : string) : string :=
  match fuel with
  | O => s
  | S fuel => match strip_any ps s with Some r => trim_rounds fuel ps r | None => s end
  end.

Definition trim_left (ps : list string) (s : string) : string :=
  trim_rounds (String.length s) ps s.

Definition TrimSpace (s : string) : string :=
  String.rev (trim_left (String.rev <$> space_encodings)
    (String.rev (trim_left space_encodings s))).

Fixpoint Split (sep : Ascii.ascii) (s : string) : list string :=
  match s with
  | "" => [""]
  | String a s =>
      if decide (a = sep) then "" :: Split sep s
      else match Split sep s with
           | p :: ps => String a p :: ps
           | [] => [String a ""]
           end
  end.

Definition slash : Ascii.ascii := Ascii.ascii_of_nat 47.

(** [strings.SplitN(s, sep, 2)] by one byte: cut at the first one. *)
Fixpoint Split2 (sep : Ascii.ascii) (s : string) : list string :=
  match s with
  | "" => [""]
  | String a s =>
      if decide (a = sep) then [""; s]
      else match Split2 sep s with
           | p :: ps => String a p :: ps
           | [] => [String a ""]
           end
  end.

Definition HasPrefix (s p : string) : bool := match strip_prefix p s with Some _ => true | None => false end.

Fixpoint Contains (s sub : string) : bool :=
  HasPrefix s sub || match s with "" => false | String _ s => Contains s sub end.

(** [strings.ReplaceAll] of a text that is not empty, from the left; every
    round drops at least one byte. *)
Fixpoint replace_rounds (fuel : nat) (old new s : string) : string :=
  match fuel with
  | O => s
  | S fuel =>
      match strip_prefix old s with
      | Some r => new ++ replace_rounds fuel old new r
      | None => match s with "" => "" | String a s => String a (replace_rounds fuel old new s) end
      end
  end.

Definition ReplaceAll (s old new : string) : string := replace_rounds (String.length s) old new s.

(** [strings.ToLower] and [strings.ToUpper] on ASCII bytes. *)
Definition map_byte (f : nat → nat) : string → string :=
  fix go s := match s with "" => "" | String a s => String (Ascii.ascii_of_nat (f (Ascii.nat_of_ascii a))) (go s) end.

Definition lower_byte (n : nat) : nat := if (Nat.leb 65 n && Nat.leb n 90)%bool then (n + 32)%nat else n.
Definition upper_byte (n : nat) : nat := if (Nat.leb 97 n && Nat.leb n 122)%bool then (n - 32)%nat else n.

Fixpoint is_ascii (s : string) : bool :=
  match s with "" => true | String a s => Nat.ltb (Ascii.nat_of_ascii a) 128 && is_ascii s end.

Definition ascii_ToLower : string → string := map_byte lower_byte.
Definition ascii_ToUpper : string → string := map_byte upper_byte.

(** A text without the separator is its only part; one separator makes two. *)
Lemma Split_app sep p s : Split sep p = [p] → Split sep (p ++ String sep s) = p :: Split sep s.
Proof.
  induction p as [|a p IH]; simpl; intros E.
  - by rewrite decide_True.
  - case_decide; [injection E; intros; destruct (Split sep p); discriminate|].
    destruct (Split sep p) as [|q [|q' qs]] eqn:Eq; [|injection E as ->|discriminate].
    + destruct p; simpl in Eq; [discriminate|]. case_decide; [discriminate|]. by destruct (Split _ _).
    + by rewrite (IH eq_refl).
Qed.

Lemma string_app_inj_length (p p' s s' : string) :
  p ++ s = p' ++ s' → String.length p = String.length p' → p = p' ∧ s = s'.
Proof.
  revert p'. induction p as [|a p IH]; intros [|a' p'] E Hl; try discriminate; [done|].
  injection E as -> E. injection Hl as Hl. destruct (IH p' E Hl) as [-> ->]. done.
Qed.
