(* ===== verification/Sdk.v ===== *)
(** The Cosmos SDK as the repository uses it.

    [sdk.Int], [sdk.Dec], [sdk.Coin], addresses and the bank keeper are
    third-party code: their operations are the fields of the classes [Sdk] and
    [BankKeeper], and what the modules rely on is stated in [SdkLaws] and
    [BankLaws].  The values themselves are represented by what they hold: an
    [sdk.Int] by its integer, an [sdk.Dec] by its integer number of
    10^-18 units, so comparisons and sign tests are those of [Z]. *)

From stdpp Require Import base gmap strings list fin_maps.
From Stdlib Require Import ZArith Lia.
From S2P Require Import Prelude.

#[local] Open Scope Z_scope.

Abbreviation Addr := string (only parsing).
Abbreviation Dec := Z (only parsing).

(** One unit of [sdk.Dec]: 18 decimals. *)
Definition precision : Z := 10 ^ 18.
Definition OneDec : Dec := precision.
Definition ZeroDec : Dec := 0.

(** [sdk.NewDecWithPrec(i, prec)] and [Int.ToDec()]. *)
Definition NewDecWithPrec (i prec : Z) : Dec := i * 10 ^ (18 - prec).
Definition ToDec (i : Z) : Dec := i * precision.

Record Coin := mkCoin { Denom : string; Amount : Z }.
Abbreviation Coins := (list Coin).

#[export] Instance coin_eq_dec : EqDecision Coin.
Proof. solve_decision. Defined.

(** The amount of one denomination in a list of coins. *)
Fixpoint coins_amt (d : string) (cs : Coins) : Z :=
  match cs with
  | [] => 0
  | c :: cs => (if decide (Denom c = d) then Amount c else 0) + coins_amt d cs
  end.

(** Block header data a handler reads from [sdk.Context]: [BlockHeight()]
    and [BlockTime()], a time with nanoseconds; [BlockTime] is
    [BlockTime().Unix()]. *)
Record Ctx := mkCtx { BlockHeight : Z; BlockTimeNano : Z }.

Definition BlockTime (ctx : Ctx) : Z := BlockTimeNano ctx / 10 ^ 9.

Class Sdk := {
  (* sdk.Int; every operation panics on overflow, Quo on a zero divisor *)
  Int_Add : Z → Z → outcome Z;
  Int_Sub : Z → Z → outcome Z;
  Int_Mul : Z → Z → outcome Z;
  Int_Quo : Z → Z → outcome Z;
  (* sdk.Dec *)
  Dec_Add : Dec → Dec → outcome Dec;
  Dec_Sub : Dec → Dec → outcome Dec;
  Dec_Mul : Dec → Dec → outcome Dec;
  Dec_Quo : Dec → Dec → outcome Dec;
  Dec_QuoTruncate : Dec → Dec → outcome Dec;
  Dec_QuoRoundUp : Dec → Dec → outcome Dec;
  Dec_MulInt : Dec → Z → outcome Dec;
  Dec_QuoInt : Dec → Z → outcome Dec;
  Dec_RoundInt : Dec → outcome Z;
  Dec_TruncateInt : Dec → outcome Z;
  Dec_Ceil : Dec → outcome Dec;
  Dec_Power : Dec → Z → outcome Dec;
  (* sdk.Coin, sdk.Coins *)
  ValidDenom : string → bool;
  NewCoin : string → Z → outcome Coin;
  Coin_Add : Coin → Coin → outcome Coin;
  Coin_Sub : Coin → Coin → outcome Coin;
  Coin_IsLT : Coin → Coin → outcome bool;
  NewCoins : list Coin → outcome Coins;
  (* addresses *)
  AccAddressFromBech32 : string → outcome Addr;
  AccAddress_String : Addr → string;
  GetModuleAddress : string → Addr;
}.

(** [Coin.AddAmount]. *)
Definition Coin_AddAmount `{Sdk} (c : Coin) (x : Z) : outcome Coin :=
  a ← Int_Add (Amount c) x; Ok (mkCoin (Denom c) a).

(** [Dec.TruncateInt64]: panics when the result is not an [int64]. *)
Definition Dec_TruncateInt64 `{Sdk} (a : Dec) : outcome Z :=
  x ← Dec_TruncateInt a; if i64 x =? x then Ok x else Panic.

(** Ranges within which the SDK guarantees that an operation does not
    overflow: 255 bits for [sdk.Int], 315 bits for [sdk.Dec]. *)
Definition int_fits (x : Z) : Prop := Z.abs x < 2 ^ 255.
Definition dec_fits (x : Z) : Prop := Z.abs x < 2 ^ 314.

Class SdkLaws `{Sdk} : Prop := {
  Int_Add_Ok a b c : Int_Add a b = Ok c → c = a + b;
  Int_Sub_Ok a b c : Int_Sub a b = Ok c → c = a - b;
  Int_Mul_Ok a b c : Int_Mul a b = Ok c → c = a * b;
  Int_Quo_Ok a b c : Int_Quo a b = Ok c → b ≠ 0 ∧ c = Z.quot a b;
  Int_Add_fits a b : int_fits (a + b) → Int_Add a b = Ok (a + b);
  Int_Sub_fits a b : int_fits (a - b) → Int_Sub a b = Ok (a - b);
  Int_Mul_fits a b : int_fits (a * b) → Int_Mul a b = Ok (a * b);
  Int_Quo_fits a b : int_fits a → b ≠ 0 → Int_Quo a b = Ok (Z.quot a b);

  Dec_Add_Ok a b c : Dec_Add a b = Ok c → c = a + b;
  Dec_Sub_Ok a b c : Dec_Sub a b = Ok c → c = a - b;
  (* rounds to the nearest 10^-18, ties to even *)
  Dec_Mul_Ok a b c : Dec_Mul a b = Ok c → 2 * Z.abs (c * precision - a * b) ≤ precision;
  (* the result is less than one 10^-18 unit away from the quotient *)
  Dec_Quo_Ok a b c : Dec_Quo a b = Ok c → b ≠ 0 ∧ Z.abs (c * b - a * precision) < Z.abs b;
  Dec_QuoTruncate_Ok a b c :
    Dec_QuoTruncate a b = Ok c → b ≠ 0 ∧ c = Z.quot (a * precision) b;
  Dec_QuoRoundUp_Ok a b c :
    Dec_QuoRoundUp a b = Ok c →
    b ≠ 0 ∧ Z.abs (c * b - a * precision) < Z.abs b ∧
    (0 ≤ a → 0 < b → (a * precision - c * b) * precision < b);
  Dec_MulInt_Ok a i c : Dec_MulInt a i = Ok c → c = a * i;
  Dec_QuoInt_Ok a i c : Dec_QuoInt a i = Ok c → i ≠ 0 ∧ c = Z.quot a i;
  Dec_RoundInt_Ok a c : Dec_RoundInt a = Ok c → 2 * Z.abs (c * precision - a) ≤ precision;
  Dec_TruncateInt_Ok a c : Dec_TruncateInt a = Ok c → c = Z.quot a precision;
  Dec_Ceil_Ok a c : Dec_Ceil a = Ok c → c = - ((- a) / precision) * precision;
  Dec_Add_fits a b : dec_fits (a + b) → Dec_Add a b = Ok (a + b);
  Dec_Sub_fits a b : dec_fits (a - b) → Dec_Sub a b = Ok (a - b);
  Dec_Mul_fits a b : Z.abs (a * b) < precision * 2 ^ 314 → is_ok (Dec_Mul a b) = true;
  Dec_Quo_fits a b :
    b ≠ 0 → Z.abs (a * precision) < Z.abs b * 2 ^ 314 → is_ok (Dec_Quo a b) = true;
  Dec_Quo_zero a : Dec_Quo a 0 = Panic;
  Dec_MulInt_fits a i : dec_fits (a * i) → Dec_MulInt a i = Ok (a * i);
  Dec_QuoInt_fits a i : i ≠ 0 → Dec_QuoInt a i = Ok (Z.quot a i);
  Dec_TruncateInt_fits a : int_fits (Z.quot a precision) → Dec_TruncateInt a = Ok (Z.quot a precision);

  NewCoin_Ok d x c : NewCoin d x = Ok c → c = mkCoin d x ∧ 0 ≤ x;
  NewCoin_valid d x : ValidDenom d = true → 0 ≤ x → NewCoin d x = Ok (mkCoin d x);
  Coin_Add_Ok a b c :
    Coin_Add a b = Ok c → Denom b = Denom a ∧ c = mkCoin (Denom a) (Amount a + Amount b);
  Coin_Sub_Ok a b c :
    Coin_Sub a b = Ok c →
    Denom b = Denom a ∧ c = mkCoin (Denom a) (Amount a - Amount b) ∧ 0 ≤ Amount a - Amount b;
  Coin_IsLT_Ok a b r :
    Coin_IsLT a b = Ok r → Denom b = Denom a ∧ r = (Amount a <? Amount b);
  (* drops zero coins, sorts, and panics on a negative amount *)
  NewCoins_Ok l cs :
    NewCoins l = Ok cs → (∀ d, coins_amt d cs = coins_amt d l) ∧ Forall (fun c => 0 ≤ Amount c) l;
  (* an empty string is no address, and no address is empty *)
  AccAddressFromBech32_empty : is_ok (AccAddressFromBech32 ""%string) = false;
  AccAddressFromBech32_nonempty s a : AccAddressFromBech32 s = Ok a → a ≠ ""%string;
  (* module addresses are hashes of the names; no two modules share one *)
  GetModuleAddress_inj m m' : GetModuleAddress m = GetModuleAddress m' → m = m';
}.

Section DecLemmas.
Context `{SdkLaws}.

Lemma precision_pos : 0 < precision.
Proof. reflexivity. Qed.

(** Multiplying and dividing by one is exact. *)
Lemma Dec_Mul_One a c : Dec_Mul a OneDec = Ok c → c = a.
Proof.
  intros E%Dec_Mul_Ok. unfold OneDec in E. pose proof precision_pos.
  rewrite <- Z.mul_sub_distr_r, Z.abs_mul, (Z.abs_eq precision) in E by lia. nia.
Qed.

Lemma Dec_Quo_One a c : Dec_Quo a OneDec = Ok c → c = a.
Proof.
  intros [_ E]%Dec_Quo_Ok. unfold OneDec in E. pose proof precision_pos.
  rewrite <- Z.mul_sub_distr_r, Z.abs_mul, (Z.abs_eq precision) in E by lia. nia.
Qed.

(** Multiplying by an integer amount is exact. *)
Lemma Dec_Mul_ToDec a b c : Dec_Mul (ToDec a) b = Ok c → c = a * b.
Proof.
  intros E%Dec_Mul_Ok. unfold ToDec in E. pose proof precision_pos.
  replace (c * precision - a * precision * b) with ((c - a * b) * precision) in E by ring.
  rewrite Z.abs_mul, (Z.abs_eq precision) in E by lia. nia.
Qed.

(** Bounds without absolute values. *)
Lemma Dec_Mul_bounds a b c :
  Dec_Mul a b = Ok c → 2 * a * b - precision ≤ 2 * c * precision ≤ 2 * a * b + precision.
Proof. intros E%Dec_Mul_Ok. lia. Qed.

Lemma Dec_Mul_nonneg a b c : Dec_Mul a b = Ok c → 0 ≤ a → 0 ≤ b → 0 ≤ c.
Proof. intros E%Dec_Mul_bounds Ha Hb. pose proof precision_pos. nia. Qed.

Lemma Dec_Quo_bounds a b c :
  Dec_Quo a b = Ok c → 0 < b → a * precision - b < c * b < a * precision + b.
Proof. intros [_ E]%Dec_Quo_Ok Hb. lia. Qed.

Lemma Dec_Quo_nonneg a b c : Dec_Quo a b = Ok c → 0 ≤ a → 0 < b → 0 ≤ c.
Proof. intros E Ha Hb. apply Dec_Quo_bounds in E; [|done]. pose proof precision_pos. nia. Qed.

Lemma Dec_TruncateInt_bounds a c :
  Dec_TruncateInt a = Ok c → 0 ≤ a → 0 ≤ c ∧ c * precision ≤ a < (c + 1) * precision.
Proof.
  intros ->%Dec_TruncateInt_Ok Ha. pose proof precision_pos.
  rewrite Z.quot_div_nonneg by lia.
  pose proof (Z.div_mod a precision ltac:(lia)).
  pose proof (Z.mod_pos_bound a precision ltac:(lia)).
  pose proof (Z.div_pos a precision). lia.
Qed.

Lemma Dec_TruncateInt_pos a c : Dec_TruncateInt a = Ok c → 0 < c → c * precision ≤ a.
Proof.
  intros E Hc. destruct (Z.le_gt_cases 0 a) as [Ha|Ha];
    [by apply Dec_TruncateInt_bounds in E as (_ & ? & _)|].
  apply Dec_TruncateInt_Ok in E. pose proof precision_pos.
  pose proof (Z.quot_opp_l a precision). pose proof (Z.quot_pos (- a) precision). lia.
Qed.

Lemma Dec_QuoTruncate_bounds a b c :
  Dec_QuoTruncate a b = Ok c → 0 ≤ a → 0 < b → 0 ≤ c ∧ c * b ≤ a * precision.
Proof.
  intros [_ ->]%Dec_QuoTruncate_Ok Ha Hb. pose proof precision_pos.
  rewrite Z.quot_div_nonneg by lia.
  pose proof (Z.div_mod (a * precision) b ltac:(lia)).
  pose proof (Z.mod_pos_bound (a * precision) b ltac:(lia)).
  pose proof (Z.div_pos (a * precision) b). lia.
Qed.

Lemma Dec_RoundInt_bounds a c :
  Dec_RoundInt a = Ok c → 2 * a - precision ≤ 2 * c * precision ≤ 2 * a + precision.
Proof. intros E%Dec_RoundInt_Ok. lia. Qed.

Lemma Dec_QuoRoundUp_lower a b c :
  Dec_QuoRoundUp a b = Ok c → 0 ≤ a → 0 < b → (a * precision - c * b) * precision < b.
Proof. intros (_ & _ & E)%Dec_QuoRoundUp_Ok. auto. Qed.
End DecLemmas.

(** [sdk_inv] replaces every equation of an SDK operation that returned by
    what the laws say of its result. *)
Ltac sdk_inv :=
  repeat match goal with
  | H : Int_Add _ _ = Ok _ |- _ => apply Int_Add_Ok in H; subst
  | H : Int_Sub _ _ = Ok _ |- _ => apply Int_Sub_Ok in H; subst
  | H : Int_Mul _ _ = Ok _ |- _ => apply Int_Mul_Ok in H; subst
  | H : Int_Quo _ _ = Ok _ |- _ => apply Int_Quo_Ok in H; destruct H; subst
  | H : Dec_Add _ _ = Ok _ |- _ => apply Dec_Add_Ok in H; subst
  | H : Dec_Sub _ _ = Ok _ |- _ => apply Dec_Sub_Ok in H; subst
  | H : NewCoin _ _ = Ok _ |- _ => apply NewCoin_Ok in H; destruct H; subst
  | H : Coin_Add _ _ = Ok _ |- _ => apply Coin_Add_Ok in H; destruct H; subst
  | H : Coin_Sub _ _ = Ok _ |- _ => apply Coin_Sub_Ok in H; destruct H as (? & ? & ?); subst
  | H : Coin_IsLT _ _ = Ok _ |- _ => apply Coin_IsLT_Ok in H; destruct H; subst
  end.

(** ** The bank keeper interface

    The operations the modules call on [types.BankKeeper]; the state is the
    bank's own. *)
Class BankKeeper := {
  bank_state : Type;
  GetBalance : bank_state → Addr → string → Coin;
  GetSupply : bank_state → string → Coin;
  HasSupply : bank_state → string → bool;
  SpendableCoins : bank_state → Addr → Coins;
  SendCoins : bank_state → Addr → Addr → Coins → outcome bank_state;
  SendCoinsFromModuleToModule : bank_state → string → string → Coins → outcome bank_state;
  SendCoinsFromModuleToAccount : bank_state → string → Addr → Coins → outcome bank_state;
  SendCoinsFromAccountToModule : bank_state → Addr → string → Coins → outcome bank_state;
  MintCoins : bank_state → string → Coins → outcome bank_state;
  BurnCoins : bank_state → string → Coins → outcome bank_state;
}.

Definition bal `{BankKeeper} (b : bank_state) (a : Addr) (d : string) : Z :=
  Amount (GetBalance b a d).
Definition supply `{BankKeeper} (b : bank_state) (d : string) : Z :=
  Amount (GetSupply b d).

(** What a transfer, a mint and a burn do to balances and supply. *)
Definition if_addr (a a' : Addr) (x : Z) : Z := if decide (a = a') then x else 0.

Definition transferred `{BankKeeper} (b b' : bank_state) (from to : Addr) (cs : Coins) : Prop :=
  ∀ d, supply b' d = supply b d ∧
  ∀ a, bal b' a d = bal b a d - if_addr a from (coins_amt d cs) + if_addr a to (coins_amt d cs).

Definition minted `{BankKeeper} (b b' : bank_state) (to : Addr) (cs : Coins) : Prop :=
  ∀ d, supply b' d = supply b d + coins_amt d cs ∧
  ∀ a, bal b' a d = bal b a d + if_addr a to (coins_amt d cs).

Definition burned `{BankKeeper} (b b' : bank_state) (from : Addr) (cs : Coins) : Prop :=
  ∀ d, supply b' d = supply b d - coins_amt d cs ∧
  ∀ a, bal b' a d = bal b a d - if_addr a from (coins_amt d cs).

Class BankLaws `{Sdk, BankKeeper} : Prop := {
  SendCoins_Ok b b' from to cs :
    SendCoins b from to cs = Ok b' → transferred b b' from to cs;
  SendCoinsFromModuleToModule_Ok b b' m m' cs :
    SendCoinsFromModuleToModule b m m' cs = Ok b' →
    transferred b b' (GetModuleAddress m) (GetModuleAddress m') cs;
  SendCoinsFromModuleToAccount_Ok b b' m a cs :
    SendCoinsFromModuleToAccount b m a cs = Ok b' →
    transferred b b' (GetModuleAddress m) a cs;
  SendCoinsFromAccountToModule_Ok b b' a m cs :
    SendCoinsFromAccountToModule b a m cs = Ok b' →
    transferred b b' a (GetModuleAddress m) cs;
  MintCoins_Ok b b' m cs :
    MintCoins b m cs = Ok b' → minted b b' (GetModuleAddress m) cs;
  BurnCoins_Ok b b' m cs :
    BurnCoins b m cs = Ok b' → burned b b' (GetModuleAddress m) cs;
}.

(** ** The nft keeper interface *)
Class NftKeeper := {
  nft_state : Type;
  nft_HasClass : nft_state → string → bool;
  nft_SaveClass : nft_state → string → outcome nft_state;
  nft_HasNFT : nft_state → string → string → bool;
  nft_GetOwner : nft_state → string → string → Addr;
  nft_Mint : nft_state → string → string → Addr → outcome nft_state;
  nft_Burn : nft_state → string → string → outcome nft_state;
  nft_Send : nft_state → string → string → string → string → outcome nft_state;
}.

(** What the ve module relies on: a minted token exists with its owner, a
    burned one is gone, and other tokens are untouched. *)
Class NftLaws `{NftKeeper} : Prop := {
  nft_Mint_Ok s s' c i a :
    nft_Mint s c i a = Ok s' →
    nft_HasNFT s c i = false ∧ nft_HasNFT s' c i = true ∧ nft_GetOwner s' c i = a ∧
    ∀ c' i', (c', i') ≠ (c, i) →
      nft_HasNFT s' c' i' = nft_HasNFT s c' i' ∧ nft_GetOwner s' c' i' = nft_GetOwner s c' i';
  nft_Burn_Ok s s' c i :
    nft_Burn s c i = Ok s' →
    nft_HasNFT s c i = true ∧ nft_HasNFT s' c i = false ∧
    ∀ c' i', (c', i') ≠ (c, i) →
      nft_HasNFT s' c' i' = nft_HasNFT s c' i' ∧ nft_GetOwner s' c' i' = nft_GetOwner s c' i';
  nft_Send_Ok s s' c i sender receiver :
    nft_Send s c i sender receiver = Ok s' → ∀ c' i', nft_HasNFT s' c' i' = nft_HasNFT s c' i';
  nft_SaveClass_Ok s s' c :
    nft_SaveClass s c = Ok s' → ∀ c' i', nft_HasNFT s' c' i' = nft_HasNFT s c' i';
  (* the owner of a token that does not exist is the empty address *)
  nft_GetOwner_missing s c i : nft_HasNFT s c i = false → nft_GetOwner s c i = ""%string;
}.
