(* ===== verification/SdkRef.v ===== *)
(** A concrete instance of the [Sdk] and [BankKeeper] interfaces that
    satisfies their laws, so that the hypotheses of the theorems can be
    discharged and the handlers evaluated on concrete inputs.  The numeric
    operations follow the documented rounding of the SDK; the bank is a pair of
    finite maps, balances by account and denomination and supply by
    denomination. *)

From stdpp Require Import base gmap strings list fin_maps.
From Stdlib Require Import ZArith Lia.
From S2P Require Import Prelude GoStrings Sdk.

#[local] Open Scope Z_scope.

Module SdkRef.

Definition chk (bits x : Z) : outcome Z :=
  if Z.abs x <? 2 ^ bits then Ok x else Panic.

Definition chk_int := chk 255.
Definition chk_dec := chk 315.

(** Rounding to the nearest multiple, ties to even. *)
Definition round_even (a p : Z) : Z :=
  let q := a / p in let r := a mod p in
  if 2 * r <? p then q
  else if p <? 2 * r then q + 1
  else if Z.even q then q else q + 1.

Definition round_up (a p : Z) : Z :=
  if a <? 0 then Z.quot a p else - ((- a) / p).

Definition div0 (b : Z) (k : outcome Z) : outcome Z := if b =? 0 then Panic else k.

Definition valid_denom (d : string) : bool :=
  let n := Z.of_nat (String.length d) in (3 <=? n) && (n <=? 128).

Definition new_coin (d : string) (x : Z) : outcome Coin :=
  if valid_denom d && (0 <=? x) then Ok (mkCoin d x) else Panic.

Definition insert_coin (c : Coin) : Coins → Coins :=
  fix go cs :=
    match cs with
    | [] => [c]
    | c' :: cs' => if String.leb (Denom c) (Denom c') then c :: cs else c' :: go cs'
    end.

Fixpoint sort_coins (cs : Coins) : Coins :=
  match cs with
  | [] => []
  | c :: cs => if Amount c =? 0 then sort_coins cs else insert_coin c (sort_coins cs)
  end.

Fixpoint valid_coins (cs : Coins) : bool :=
  match cs with
  | [] => true
  | c :: cs =>
      valid_denom (Denom c) && (0 <? Amount c) &&
      match cs with
      | [] => true
      | c' :: _ => String.ltb (Denom c) (Denom c')
      end && valid_coins cs
  end.

Definition new_coins (l : list Coin) : outcome Coins :=
  let cs := sort_coins l in if valid_coins cs then Ok cs else Panic.

(** The address of a module: twenty bytes for names of at most twelve. *)
Definition zero_bytes (n : nat) : string := foldr (fun _ s => String Ascii.zero s) EmptyString (seq 0 n).
Definition module_addr (m : string) : string :=
  let n := String.length m in
  if Nat.leb n 12 then ("module" ++ String (Ascii.ascii_of_nat n) (m ++ zero_bytes (13 - n)))%string
  else ("modules" ++ m)%string.

Lemma module_addr_inj m m' : module_addr m = module_addr m' → m = m'.
Proof.
  unfold module_addr. destruct (Nat.leb_spec (String.length m) 12), (Nat.leb_spec (String.length m') 12); intros E.
  - injection E as En E. apply (f_equal Ascii.nat_of_ascii) in En. rewrite !Ascii.nat_ascii_embedding in En by lia.
    by apply string_app_inj_length in E as [-> _].
  - injection E as En _. apply (f_equal (fun c => Nat.leb (Ascii.nat_of_ascii c) 12)) in En. rewrite Ascii.nat_ascii_embedding in En by lia.
    rewrite (proj2 (Nat.leb_le (String.length m) 12)) in En by done. discriminate.
  - injection E as En _. apply (f_equal (fun c => Nat.leb (Ascii.nat_of_ascii c) 12)) in En. rewrite Ascii.nat_ascii_embedding in En by lia.
    rewrite (proj2 (Nat.leb_le (String.length m') 12)) in En by done. discriminate.
  - by injection E.
Qed.

#[export] Instance sdk : Sdk := {|
  Int_Add a b := chk_int (a + b);
  Int_Sub a b := chk_int (a - b);
  Int_Mul a b := chk_int (a * b);
  Int_Quo a b := div0 b (chk_int (Z.quot a b));
  Dec_Add a b := chk_dec (a + b);
  Dec_Sub a b := chk_dec (a - b);
  Dec_Mul a b := chk_dec (round_even (a * b) precision);
  Dec_Quo a b :=
    div0 b (chk_dec (round_even (Z.quot (a * precision * precision) b) precision));
  Dec_QuoTruncate a b := div0 b (chk_dec (Z.quot (a * precision) b));
  Dec_QuoRoundUp a b :=
    div0 b (chk_dec (round_up (Z.quot (a * precision * precision) b) precision));
  Dec_MulInt a i := chk_dec (a * i);
  Dec_QuoInt a i := div0 i (Ok (Z.quot a i));
  Dec_RoundInt a := chk_int (round_even a precision);
  Dec_TruncateInt a := chk_int (Z.quot a precision);
  Dec_Ceil a := Ok (- ((- a) / precision) * precision);
  Dec_Power a n :=
    Nat.iter (Z.to_nat n)
      (fun r => x ← r; chk_dec (round_even (x * a) precision)) (Ok precision);
  ValidDenom := valid_denom;
  NewCoin := new_coin;
  Coin_Add a b :=
    if decide (Denom b = Denom a) then
      x ← chk_int (Amount a + Amount b); Ok (mkCoin (Denom a) x)
    else Panic;
  Coin_Sub a b :=
    if decide (Denom b = Denom a) then
      x ← chk_int (Amount a - Amount b);
      if x <? 0 then Panic else Ok (mkCoin (Denom a) x)
    else Panic;
  Coin_IsLT a b :=
    if decide (Denom b = Denom a) then Ok (Amount a <? Amount b) else Panic;
  NewCoins := new_coins;
  AccAddressFromBech32 s :=
    if decide (s = ""%string) then Err (ErrExt "empty address string is not allowed") else Ok s;
  AccAddress_String a := a;
  GetModuleAddress := module_addr;
|}.

Lemma chk_Ok bits x y : chk bits x = Ok y → y = x.
Proof. unfold chk. destruct (_ <? _); congruence. Qed.

Lemma chk_fits bits x : Z.abs x < 2 ^ bits → chk bits x = Ok x.
Proof. intros H. unfold chk. by rewrite (proj2 (Z.ltb_lt _ _) H). Qed.

Lemma div0_Ok b k c : div0 b k = Ok c → b ≠ 0 ∧ k = Ok c.
Proof. unfold div0. destruct (Z.eqb_spec b 0); [discriminate|auto]. Qed.

Lemma round_even_spec a p : 0 < p → 2 * Z.abs (round_even a p * p - a) ≤ p.
Proof.
  intros Hp. unfold round_even.
  pose proof (Z.div_mod a p ltac:(lia)). pose proof (Z.mod_pos_bound a p Hp).
  set (q := a / p) in *. set (r := a mod p) in *.
  destruct (Z.ltb_spec (2 * r) p); [nia|].
  destruct (Z.ltb_spec p (2 * r)); [nia|].
  destruct (Z.even q); nia.
Qed.

Lemma quot_spec a b : b ≠ 0 → Z.abs (Z.quot a b * b - a) < Z.abs b.
Proof.
  intros Hb. pose proof (Z.quot_rem' a b).
  pose proof (Z.rem_bound_abs a b Hb). nia.
Qed.

Lemma round_up_spec a p : 0 < p → Z.abs (round_up a p * p - a) < p ∧ a ≤ round_up a p * p ∨ a < 0 ∧ Z.abs (round_up a p * p - a) < p.
Proof.
  intros Hp. unfold round_up. destruct (Z.ltb_spec a 0).
  - right. split; [done|]. pose proof (quot_spec a p ltac:(lia)). lia.
  - left. pose proof (Z.div_mod (- a) p ltac:(lia)).
    pose proof (Z.mod_pos_bound (- a) p Hp). nia.
Qed.

Lemma two_step a b p q c e :
  2 ≤ p → b ≠ 0 → Z.abs (q * b - a * p) < Z.abs b →
  2 * Z.abs (c * p - q) ≤ e → 0 ≤ e → e + 2 ≤ 2 * p →
  Z.abs (c * b - a) < Z.abs b.
Proof.
  intros Hp Hb H1 H2 He Hep.
  assert (Z.abs ((c * b - a) * p) * 2 < Z.abs b * p * 2) as Hm; [|].
  { replace ((c * b - a) * p) with ((c * p - q) * b + (q * b - a * p)) by ring.
    pose proof (Z.abs_triangle ((c * p - q) * b) (q * b - a * p)) as Ht.
    rewrite Z.abs_mul in Ht. nia. }
  rewrite Z.abs_mul, (Z.abs_eq p) in Hm by lia. nia.
Qed.

Lemma dec_quo_spec a b c :
  b ≠ 0 → c = round_even (Z.quot (a * precision * precision) b) precision →
  Z.abs (c * b - a * precision) < Z.abs b.
Proof.
  intros Hb ->.
  apply (two_step _ _ precision (Z.quot (a * precision * precision) b) _ precision);
    try (unfold precision; lia); [by apply quot_spec|].
  apply round_even_spec. unfold precision; lia.
Qed.

Lemma dec_roundup_spec a b c :
  b ≠ 0 → c = round_up (Z.quot (a * precision * precision) b) precision →
  Z.abs (c * b - a * precision) < Z.abs b ∧
  (0 ≤ a → 0 < b → (a * precision - c * b) * precision < b).
Proof.
  intros Hb Hc. set (q := Z.quot (a * precision * precision) b) in *.
  pose proof (quot_spec (a * precision * precision) b Hb) as Hq. fold q in Hq.
  assert (0 < precision) as Hp by (unfold precision; lia).
  pose proof (round_up_spec q precision Hp) as Hr. rewrite <- Hc in Hr.
  split.
  - apply (two_step _ _ precision q _ (2 * precision - 2));
      try (unfold precision in *; lia); done.
  - intros Ha Hb'. assert (0 ≤ q) by (apply Z.quot_pos; unfold precision; nia). nia.
Qed.

Lemma abs_lt_scale x B p : 0 < p → Z.abs (x * p) < (B + 1) * p → 1 ≤ B → Z.abs x < 2 * B.
Proof. intros. rewrite Z.abs_mul, (Z.abs_eq p) in * by lia. nia. Qed.

Lemma insert_coin_amt d c cs :
  coins_amt d (insert_coin c cs) = coins_amt d (c :: cs).
Proof.
  induction cs as [|c' cs IH]; [done|]. cbn [insert_coin].
  destruct (String.leb _ _); [done|]. cbn [coins_amt]. rewrite IH. cbn. lia.
Qed.

Lemma valid_coins_pos cs : valid_coins cs = true → Forall (fun c => 0 ≤ Amount c) cs.
Proof.
  induction cs as [|c cs IH]; [constructor|]. cbn [valid_coins]. intros H. zbool.
  constructor; [lia|auto].
Qed.

Lemma insert_coin_Forall (P : Coin → Prop) c cs :
  Forall P (insert_coin c cs) → P c ∧ Forall P cs.
Proof.
  induction cs as [|c' cs IH]; cbn [insert_coin].
  - by intros [? ?]%Forall_cons.
  - destruct (String.leb _ _); [by intros [? ?]%Forall_cons|].
    intros [? [? ?]%IH]%Forall_cons. auto.
Qed.

Lemma sort_coins_nonneg l :
  Forall (fun c => 0 ≤ Amount c) (sort_coins l) → Forall (fun c => 0 ≤ Amount c) l.
Proof.
  induction l as [|c l IH]; [done|]. cbn [sort_coins].
  destruct (Z.eqb_spec (Amount c) 0) as [E|E].
  - intros H. constructor; [lia|auto].
  - intros [? ?]%insert_coin_Forall. constructor; auto.
Qed.

Lemma sort_coins_amt d l : coins_amt d (sort_coins l) = coins_amt d l.
Proof.
  induction l as [|c l IH]; [done|]. cbn [sort_coins].
  destruct (Z.eqb_spec (Amount c) 0) as [E|E].
  - cbn. rewrite IH, E. destruct (decide _); lia.
  - rewrite insert_coin_amt. cbn. by rewrite IH.
Qed.

Ltac ref_inv :=
  repeat match goal with
  | H : div0 _ _ = Ok _ |- _ => apply div0_Ok in H; destruct H
  | H : chk_int _ = Ok _ |- _ => apply chk_Ok in H; subst
  | H : chk_dec _ = Ok _ |- _ => apply chk_Ok in H; subst
  | H : Ok _ = Ok _ |- _ => injection H as <-
  | H : mbind _ _ = Ok _ |- _ => inv_ok H
  | H : (if ?b then _ else _) = Ok _ |- _ => destruct b eqn:?; try discriminate H
  end.

#[export] Instance sdk_laws : SdkLaws.
Proof.
  assert (0 < precision) as Hp by (unfold precision; lia).
  assert (2 ^ 315 = 2 * 2 ^ 314) as E315 by reflexivity.
  constructor; simpl; intros;
    try (ref_inv; unfold chk_int, chk_dec, chk in *; zbool; subst; simpl in *; by auto).
  - by apply chk_fits.
  - by apply chk_fits.
  - by apply chk_fits.
  - unfold div0. rewrite (proj2 (Z.eqb_neq b 0)) by done. apply chk_fits.
    pose proof (Z.quot_abs a b ltac:(done)). unfold int_fits in *.
    assert (Z.abs (Z.quot a b) ≤ Z.abs a); [|lia].
    rewrite <- H1. apply Z.quot_le_upper_bound; nia.
  - ref_inv. by apply round_even_spec.
  - ref_inv. split; [done|]. by apply dec_quo_spec.
  - ref_inv. split; [done|]. by apply dec_roundup_spec.
  - ref_inv. by apply round_even_spec.
  - apply chk_fits. unfold dec_fits in *. lia.
  - apply chk_fits. unfold dec_fits in *. lia.
  - unfold chk_dec. rewrite chk_fits; [done|].
    pose proof (round_even_spec (a * b) precision Hp).
    rewrite E315. apply (abs_lt_scale _ (2 ^ 314) precision); lia.
  - unfold div0. rewrite (proj2 (Z.eqb_neq b 0)) by done.
    unfold chk_dec. rewrite chk_fits; [done|].
    pose proof (dec_quo_spec a b _ ltac:(done) eq_refl) as Hq.
    rewrite E315. apply (abs_lt_scale _ (2 ^ 314) (Z.abs b)); [lia| |lia].
    rewrite Z.abs_mul, Z.abs_idemp, <- Z.abs_mul. lia.
  - apply chk_fits. unfold dec_fits in *. lia.
  - unfold div0. by rewrite (proj2 (Z.eqb_neq i 0)).
  - by apply chk_fits.
  - unfold new_coin in *. ref_inv. zbool. done.
  - unfold new_coin. rewrite (proj2 (Z.leb_le 0 x)) by done.
    by rewrite H.
  - unfold new_coins in *. ref_inv. split; [intros; apply sort_coins_amt|].
    by apply sort_coins_nonneg, valid_coins_pos.
  - by apply module_addr_inj.
Qed.

(** ** The bank *)

Record ledger := mkLedger {
  balances : gmap (string * string) Z;
  supplies : gmap string Z;
}.

Definition get_bal (l : ledger) (a d : string) : Z := default 0 (balances l !! (a, d)).
Definition get_sup (l : ledger) (d : string) : Z := default 0 (supplies l !! d).

Definition add_bal (l : ledger) (a d : string) (x : Z) : ledger :=
  mkLedger (<[(a, d) := get_bal l a d + x]> (balances l)) (supplies l).
Definition add_sup (l : ledger) (d : string) (x : Z) : ledger :=
  mkLedger (balances l) (<[d := get_sup l d + x]> (supplies l)).

Definition insufficient : error := ErrExt "insufficient funds".

Definition sub1 (a : string) (l : ledger) (c : Coin) : outcome ledger :=
  fail_if get_bal l a (Denom c) <? Amount c with insufficient ;;
  Ok (add_bal l a (Denom c) (- Amount c)).
Definition add1 (a : string) (l : ledger) (c : Coin) : outcome ledger :=
  Ok (add_bal l a (Denom c) (Amount c)).
Definition mint1 (a : string) (l : ledger) (c : Coin) : outcome ledger :=
  Ok (add_sup (add_bal l a (Denom c) (Amount c)) (Denom c) (Amount c)).
Definition burn1 (a : string) (l : ledger) (c : Coin) : outcome ledger :=
  l ← sub1 a l c; Ok (add_sup l (Denom c) (- Amount c)).

Definition send (l : ledger) (from to : string) (cs : Coins) : outcome ledger :=
  l ← for_each (sub1 from) cs l; for_each (add1 to) cs l.

#[export] Instance bank : BankKeeper := {|
  bank_state := ledger;
  GetBalance l a d := mkCoin d (get_bal l a d);
  GetSupply l d := mkCoin d (get_sup l d);
  HasSupply l d := negb (get_sup l d =? 0);
  SpendableCoins l a :=
    (fun kv => mkCoin kv.1.2 kv.2) <$> filter (fun kv => kv.1.1 = a ∧ 0 < kv.2) (map_to_list (balances l));
  SendCoins := send;
  SendCoinsFromModuleToModule l m m' := send l (GetModuleAddress m) (GetModuleAddress m');
  SendCoinsFromModuleToAccount l m a := send l (GetModuleAddress m) a;
  SendCoinsFromAccountToModule l a m := send l a (GetModuleAddress m);
  MintCoins l m cs := for_each (mint1 (GetModuleAddress m)) cs l;
  BurnCoins l m cs := for_each (burn1 (GetModuleAddress m)) cs l;
|}.

Lemma get_bal_add l a d x a' d' :
  get_bal (add_bal l a d x) a' d' =
  get_bal l a' d' + (if decide (d = d') then if_addr a' a x else 0).
Proof.
  unfold get_bal at 1, add_bal, if_addr; simpl.
  rewrite lookup_insert. destruct (decide ((a, d) = (a', d'))) as [E|E].
  - simplify_eq. rewrite !decide_True by done. done.
  - unfold get_bal. repeat destruct (decide _); subst; try lia. by destruct E.
Qed.

Lemma get_sup_add l d x d' :
  get_sup (add_sup l d x) d' = get_sup l d' + (if decide (d = d') then x else 0).
Proof.
  unfold get_sup at 1, add_sup; simpl.
  rewrite lookup_insert. case_decide; subst; simpl; [done|]. unfold get_sup. lia.
Qed.

Lemma get_bal_sup l d x a d' : get_bal (add_sup l d x) a d' = get_bal l a d'.
Proof. done. Qed.

(** A loop that changes balances and supply coin by coin changes them by the
    amounts of the coins. *)
Lemma for_each_delta (f : ledger → Coin → outcome ledger) (kb : string → Z → Z) (ks : Z → Z) :
  (∀ a x y, kb a (x + y) = kb a x + kb a y) → (∀ x y, ks (x + y) = ks x + ks y) →
  (∀ l c l', f l c = Ok l' → ∀ d,
    get_sup l' d = get_sup l d + ks (if decide (Denom c = d) then Amount c else 0) ∧
    ∀ a, get_bal l' a d = get_bal l a d + kb a (if decide (Denom c = d) then Amount c else 0)) →
  ∀ cs l l', for_each f cs l = Ok l' → ∀ d,
    get_sup l' d = get_sup l d + ks (coins_amt d cs) ∧
    ∀ a, get_bal l' a d = get_bal l a d + kb a (coins_amt d cs).
Proof.
  intros Hb Hs Hf. induction cs as [|c cs IH]; simpl; intros l l' H d.
  - injection H as <-. specialize (Hs 0 0). change (0 + 0) with 0 in Hs.
    split; [lia|]. intros a. specialize (Hb a 0 0). change (0 + 0) with 0 in Hb. lia.
  - inv_ok H. destruct (Hf _ _ _ E d) as [S1 B1]. destruct (IH _ _ H d) as [S2 B2].
    split; [rewrite S2, S1, Hs; lia|]. intros a. rewrite B2, B1, Hb. lia.
Qed.

Lemma if_addr_add a a' x y : if_addr a a' (x + y) = if_addr a a' x + if_addr a a' y.
Proof. unfold if_addr. case_decide; lia. Qed.

Lemma if_addr_if a a' (b : bool) x :
  if_addr a a' (if b then x else 0) = if b then if_addr a a' x else 0.
Proof. unfold if_addr. destruct b; by case_decide. Qed.

Ltac ledger_step :=
  let l0 := fresh "l" in let c0 := fresh "c" in let l1 := fresh "l" in
  let Hf := fresh "Hf" in intros l0 c0 l1 Hf d'; unfold burn1, sub1, add1, mint1 in Hf; inv_ok Hf;
  repeat match goal with H : guard_err _ _ _ = Ok _ |- _ => inv_ok H end; subst;
  rewrite ?get_sup_add; unfold get_sup; simpl;
  split; [repeat case_decide; lia|];
  intros a'; rewrite ?get_bal_sup, ?get_bal_add; unfold if_addr; repeat case_decide; lia.

Lemma sub_delta a cs l l' : for_each (sub1 a) cs l = Ok l' → ∀ d,
  get_sup l' d = get_sup l d + 0 ∧
  ∀ a', get_bal l' a' d = get_bal l a' d + - if_addr a' a (coins_amt d cs).
Proof.
  apply (for_each_delta _ (fun a' x => - if_addr a' a x) (fun _ => 0)); [|done|].
  - intros. rewrite if_addr_add. lia.
  - ledger_step.
Qed.

Lemma add_delta a cs l l' : for_each (add1 a) cs l = Ok l' → ∀ d,
  get_sup l' d = get_sup l d + 0 ∧
  ∀ a', get_bal l' a' d = get_bal l a' d + if_addr a' a (coins_amt d cs).
Proof.
  apply (for_each_delta _ (fun a' x => if_addr a' a x) (fun _ => 0)); [|done|].
  - intros. apply if_addr_add.
  - ledger_step.
Qed.

Lemma send_Ok l l' from to cs : send l from to cs = Ok l' → transferred l l' from to cs.
Proof.
  unfold send. intros H d. inv_ok H.
  destruct (sub_delta _ _ _ _ E d) as [S1 B1]. destruct (add_delta _ _ _ _ H d) as [S2 B2].
  unfold supply, bal; simpl. split; [lia|]. intros a. rewrite B2, B1. lia.
Qed.

#[export] Instance bank_laws : BankLaws.
Proof.
  constructor; simpl; try (intros *; apply send_Ok).
  - intros b b' m cs H d. unfold supply, bal; simpl.
    revert cs b b' H d.
    apply (for_each_delta _ (fun a' x => if_addr a' _ x) (fun x => x)); [|done|].
    + intros. apply if_addr_add.
    + ledger_step.
  - intros b b' m cs H d. unfold supply, bal; simpl.
    revert cs b b' H d.
    apply (for_each_delta _ (fun a' x => - if_addr a' _ x) (fun x => - x)); [|intros; lia|].
    + intros. rewrite if_addr_add. lia.
    + ledger_step.
Qed.

(** ** The nft keeper: classes, and tokens by class and id with their owner *)

Record nfts := mkNfts {
  nft_classes : gmap string unit;
  nft_tokens : gmap (string * string) string;
}.

#[export] Instance nft : NftKeeper := {|
  nft_state := nfts;
  nft_HasClass s c := bool_decide (is_Some (nft_classes s !! c));
  nft_SaveClass s c :=
    fail_if bool_decide (is_Some (nft_classes s !! c)) with ErrExt "nft class already exists" ;;
    Ok (mkNfts (<[c := tt]> (nft_classes s)) (nft_tokens s));
  nft_HasNFT s c i := bool_decide (is_Some (nft_tokens s !! (c, i)));
  nft_GetOwner s c i := default ""%string (nft_tokens s !! (c, i));
  nft_Mint s c i a :=
    fail_if bool_decide (nft_classes s !! c = None) with ErrExt "nft class does not exist" ;;
    fail_if bool_decide (is_Some (nft_tokens s !! (c, i))) with ErrExt "nft already exists" ;;
    Ok (mkNfts (nft_classes s) (<[(c, i) := a]> (nft_tokens s)));
  nft_Burn s c i :=
    fail_if bool_decide (nft_classes s !! c = None) with ErrExt "nft class does not exist" ;;
    fail_if bool_decide (nft_tokens s !! (c, i) = None) with ErrExt "nft does not exist" ;;
    Ok (mkNfts (nft_classes s) (delete (c, i) (nft_tokens s)));
  nft_Send s c i sender receiver :=
    fail_if bool_decide (nft_tokens s !! (c, i) ≠ Some sender) with ErrExt "unauthorized" ;;
    Ok (mkNfts (nft_classes s) (<[(c, i) := receiver]> (nft_tokens s)));
|}.

#[export] Instance nft_laws : NftLaws.
Proof.
  constructor; simpl; intros s *; intros E; try (inv_ok E; subst; simpl).
  - split_and!; [done|by rewrite lookup_insert_eq|by rewrite lookup_insert_eq|].
    intros c' i' Hne. by rewrite !lookup_insert_ne by congruence.
  - apply bool_decide_eq_false in G0. split_and!.
    + apply bool_decide_eq_true. by apply not_eq_None_Some.
    + by rewrite lookup_delete_eq.
    + intros c' i' Hne. by rewrite !lookup_delete_ne by congruence.
  - intros c' i'. rewrite lookup_insert.
    apply bool_decide_eq_false, dec_stable in G.
    destruct (decide ((c, i) = (c', i'))) as [Ec|]; [|done]. simplify_eq.
    by rewrite G.
  - done.
  - apply bool_decide_eq_false, eq_None_not_Some in E. by rewrite E.
Qed.
End SdkRef.
