(* ===== verification/Types.v ===== *)
(** The repository's shared constants and helpers ([src/types/]). *)

From stdpp Require Import base gmap strings list.
From Stdlib Require Import ZArith Lia.
From S2P Require Import Prelude Sdk.

#[local] Open Scope Z_scope.

(** [types/assets.go] *)
Definition DisplayDenom : string := "iron".
Definition AttoIronDenom : string := "airon".
Definition BaseDenom : string := AttoIronDenom.
Definition MicroUSMDenom : string := "uusm".
Definition MicroUSMTarget : Dec := OneDec.

(** [types/blocks.go] *)
Definition BlocksPerMinute : Z := 10.
Definition BlocksPerHour : Z := BlocksPerMinute * 60.
Definition BlocksPerDay : Z := BlocksPerHour * 24.
Definition BlocksPerWeek : Z := BlocksPerDay * 7.
Definition BlocksPerMonth : Z := BlocksPerDay * 30.
Definition BlocksPerYear : Z := BlocksPerDay * 365.

(** Go's [%] on [uint64] panics on a zero divisor. *)
Definition IsPeriodLastBlock (ctx : Ctx) (blocksPerPeriod : Z) : outcome bool :=
  if blocksPerPeriod =? 0 then Panic
  else Ok (u64 (u64 (BlockHeight ctx) + 1) mod blocksPerPeriod =? 0).

(** [types/numbers.go]: [Min] and [Max] at the integer types they are used at. *)
Definition Min (x y : Z) : Z := if x <? y then x else y.
Definition Max (x y : Z) : Z := if y <? x then x else y.

(** [types/times.go] *)
Definition SecondsPerMinute : Z := 60.
Definition SecondsPerHour : Z := 60 * SecondsPerMinute.
Definition SecondsPerDay : Z := 24 * SecondsPerHour.
Definition SecondsPerWeek : Z := 7 * SecondsPerDay.
Definition DaysPer4Years : Z := 365 * 4 + 1.
Definition SecondsPer4Years : Z := DaysPer4Years * SecondsPerDay.

(** Dereferencing a pointer: a nil pointer panics. *)
Definition deref {A} (p : option A) : outcome A :=
  match p with Some a => Ok a | None => Panic end.

Lemma deref_Ok {A} (p : option A) a : deref p = Ok a ↔ p = Some a.
Proof. destruct p; simpl; split; congruence. Qed.

Lemma Min_spec x y : Min x y = Z.min x y.
Proof. unfold Min. destruct (Z.ltb_spec x y); lia. Qed.

Lemma Max_spec x y : Max x y = Z.max x y.
Proof. unfold Max. destruct (Z.ltb_spec y x); lia. Qed.

(** Library error sentinels the modules return. *)
Definition ErrInvalidAddress := ErrExt "sdk/invalid address".
Definition ErrInvalidCoins := ErrExt "sdk/invalid coins".
Definition ErrInvalidRequest := ErrExt "sdk/invalid request".
Definition ErrUnauthorized := ErrExt "sdk/unauthorized".

(** [fmt.Errorf(msg)]: an error without a registered code. *)
Definition Errorf (msg : string) : error := ErrExt msg.

(** The bech32 check every [ValidateBasic] starts with: the error of the
    parser is wrapped into [ErrInvalidAddress]. *)
Definition check_bech32 `{Sdk} (s : string) : outcome unit :=
  match AccAddressFromBech32 s with
  | Ok _ => Ok tt
  | Err _ => Err ErrInvalidAddress
  | Panic => Panic
  end.

(** The same for an optional [To] field: checked when non-empty. *)
Definition check_bech32_opt `{Sdk} (s : string) : outcome unit :=
  if decide (s = ""%string) then Ok tt else check_bech32 s.

(** [getSenderReceiver] of [x/maker/keeper/msg_server.go] (the ve module has
    the same helper): the receiver is the sender unless given. *)
Definition getSenderReceiver `{Sdk} (senderStr toStr : string) : outcome (Addr * Addr) :=
  sender ← AccAddressFromBech32 senderStr;
  if decide (toStr = ""%string) then Ok (sender, sender)
  else receiver ← AccAddressFromBech32 toStr; Ok (sender, receiver).
