(* ===== verification/MakerTypes.v ===== *)
(** Data of the maker module ([src/x/maker/types/]): risk parameters, pool and
    account records, module parameters, messages, proposals and their
    stateless validation. *)

From stdpp Require Import base gmap strings list.
From Stdlib Require Import ZArith Lia.
From S2P Require Import Prelude Sdk Types.

#[local] Open Scope Z_scope.

Definition maker_ModuleName : string := "maker".
Definition oracle_ModuleName : string := "oracle".

(** ** Sentinel errors ([errors.go]) *)

Definition maker_err (code : Z) : error := ErrReg maker_ModuleName code.
Definition ErrGridPriceTooLow := maker_err 2.
Definition ErrGridPriceTooHigh := maker_err 3.
Definition ErrBackingParamsInvalid := maker_err 4.
Definition ErrCollateralParamsInvalid := maker_err 5.
Definition ErrBackingCoinDisabled := maker_err 6.
Definition ErrCollateralCoinDisabled := maker_err 7.
Definition ErrBackingCoinAlreadyExists := maker_err 8.
Definition ErrCollateralCoinAlreadyExists := maker_err 9.
Definition ErrBackingCoinNotFound := maker_err 10.
Definition ErrCollateralCoinNotFound := maker_err 11.
Definition ErrGridSlippage := maker_err 12.
Definition ErrBackingCeiling := maker_err 15.
Definition ErrCollateralCeiling := maker_err 16.
Definition ErrGridCeiling := maker_err 17.
Definition ErrBackingCoinInsufficient := maker_err 18.
Definition ErrCollateralCoinInsufficient := maker_err 19.
Definition ErrIronCoinInsufficient := maker_err 20.
Definition ErrAccountNoCollateral := maker_err 21.
Definition ErrAccountInsufficientCollateral := maker_err 22.
Definition ErrAccountNoDebt := maker_err 23.
Definition ErrNotUndercollateralized := maker_err 24.
Definition ErrOverSlippage := maker_err 26.

(** ** Stored records ([maker.proto]); pointer fields are options. *)

Record BackingRiskParams := mkBackingRiskParams {
  brp_BackingDenom : string;
  brp_Enabled : bool;
  brp_MaxBacking : option Z;
  brp_MaxGridMint : option Z;
  brp_MintFee : option Dec;
  brp_BurnFee : option Dec;
  brp_BuybackFee : option Dec;
  brp_RebackFee : option Dec;
}.

Record CollateralRiskParams := mkCollateralRiskParams {
  crp_CollateralDenom : string;
  crp_Enabled : bool;
  crp_MaxCollateral : option Z;
  crp_MaxGridMint : option Z;
  crp_LiquidationThreshold : option Dec;
  crp_LoanToValue : option Dec;
  crp_BasicLoanToValue : option Dec;
  crp_CatalyticIronRatio : option Dec;
  crp_LiquidationFee : option Dec;
  crp_MintFee : option Dec;
  crp_InterestFee : option Dec;
}.

Record TotalBacking := mkTotalBacking {
  tb_BackingValue : Z;
  tb_GridMinted : Coin;
  tb_IronBurned : Coin;
}.

Record PoolBacking := mkPoolBacking {
  pb_GridMinted : Coin;
  pb_Backing : Coin;
  pb_IronBurned : Coin;
}.

Record TotalCollateral := mkTotalCollateral {
  tc_GridDebt : Coin;
  tc_IronCollateralized : Coin;
}.

Record PoolCollateral := mkPoolCollateral {
  pc_Collateral : Coin;
  pc_GridDebt : Coin;
  pc_IronCollateralized : Coin;
}.

Record AccountCollateral := mkAccountCollateral {
  ac_Account : string;
  ac_Collateral : Coin;
  ac_GridDebt : Coin;
  ac_IronCollateralized : Coin;
  ac_LastInterest : Coin;
  ac_LastSettlementBlock : Z;
}.

(** ** Module parameters ([params.go]) *)

Record MakerParams := mkMakerParams {
  mp_BackingRatioStep : Dec;
  mp_BackingRatioPriceBand : Dec;
  mp_BackingRatioCooldownPeriod : Z;
  mp_MintPriceBias : Dec;
  mp_BurnPriceBias : Dec;
  mp_RebackBonus : Dec;
  mp_LiquidationCommissionFee : Dec;
}.

Definition maker_DefaultParams : MakerParams := {|
  mp_BackingRatioStep := NewDecWithPrec 25 4;
  mp_BackingRatioPriceBand := NewDecWithPrec 5 3;
  mp_BackingRatioCooldownPeriod := BlocksPerHour;
  mp_MintPriceBias := NewDecWithPrec 1 2;
  mp_BurnPriceBias := NewDecWithPrec 1 2;
  mp_RebackBonus := NewDecWithPrec 75 4;
  mp_LiquidationCommissionFee := NewDecWithPrec 10 2;
|}.

Definition maker_Params_Validate (p : MakerParams) : outcome unit :=
  fail_if negb (0 <? mp_BackingRatioStep p) || (OneDec <? mp_BackingRatioStep p)
    with Errorf "backing ratio adjusting step should be a value between (0,1]" ;;
  fail_if negb (0 <? mp_BackingRatioPriceBand p) || (OneDec <? mp_BackingRatioPriceBand p)
    with Errorf "price band for adjusting backing ratio should be a value between (0,1]" ;;
  fail_if mp_BackingRatioCooldownPeriod p <=? 0
    with Errorf "cooldown period for adjusting backing ratio should be positive" ;;
  fail_if negb (0 <? mp_MintPriceBias p) || (OneDec <? mp_MintPriceBias p)
    with Errorf "mint price bias ratio should be a value between (0,1]" ;;
  fail_if negb (0 <? mp_BurnPriceBias p) || (OneDec <? mp_BurnPriceBias p)
    with Errorf "burn price bias ratio should be a value between (0,1]" ;;
  fail_if (mp_RebackBonus p <? 0) || (OneDec <? mp_RebackBonus p)
    with Errorf "reback bonus ratio should be a value between [0,1]" ;;
  fail_if (mp_LiquidationCommissionFee p <? 0) || (OneDec <? mp_LiquidationCommissionFee p)
    with Errorf "liquidation commission fee ratio should be a value between [0,1]" ;;
  Ok tt.

(** The per-key validators of [ParamSetPairs]; a parameter-change proposal
    goes through them one key at a time. *)
Definition validateBackingRatioStep (v : Dec) : outcome unit :=
  fail_if v <? 0 with Errorf "backing ratio adjusting step must be nonnegative" ;;
  fail_if OneDec <? v with Errorf "backing ratio adjusting step is too large" ;;
  Ok tt.

Definition validateBackingRatioPriceBand (v : Dec) : outcome unit :=
  fail_if negb (0 <? v) with Errorf "price band for adjusting backing ratio must be positive" ;;
  fail_if OneDec <? v with Errorf "price band for adjusting backing ratio is too large" ;;
  Ok tt.

Definition validateBackingRatioCooldownPeriod (v : Z) : outcome unit :=
  fail_if v <=? 0 with Errorf "cooldown period for adjusting backing ratio must be positive" ;;
  Ok tt.

Definition validateMintBurnPriceBias (v : Dec) : outcome unit :=
  fail_if negb (0 <? v) with Errorf "mint/burn price bias ratio must be positive" ;;
  fail_if OneDec <? v with Errorf "mint/burn price bias ratio is too large" ;;
  Ok tt.

Definition validateRebackBonus (v : Dec) : outcome unit :=
  fail_if v <? 0 with Errorf "reback bonus ratio must be positive or zero" ;;
  fail_if OneDec <? v with Errorf "reback bonus ratio is too large" ;;
  Ok tt.

Definition validateLiquidationCommissionFee (v : Dec) : outcome unit :=
  fail_if v <? 0 with Errorf "liquidation commission fee ratio must be positive or zero" ;;
  fail_if OneDec <? v with Errorf "liquidation commission fee ratio is too large" ;;
  Ok tt.

(** ** Genesis ([genesis.go]) *)

Record MakerGenesisState := mkMakerGenesis {
  mg_Params : MakerParams;
  mg_BackingRatio : Dec;
}.

Definition maker_DefaultGenesis : MakerGenesisState :=
  mkMakerGenesis maker_DefaultParams OneDec.

Definition maker_GenesisState_Validate (gs : MakerGenesisState) : outcome unit :=
  maker_Params_Validate (mg_Params gs).

(** ** Messages ([tx.proto]) and their [ValidateBasic] ([msgs.go]) *)

Record MsgMintBySwap := mkMsgMintBySwap {
  mbs_Sender : string; mbs_To : string;
  mbs_BackingInMax : Coin; mbs_IronInMax : Coin; mbs_MintOutMin : Coin;
  mbs_FullBacking : bool;
}.

Definition MsgMintBySwap_ValidateBasic `{Sdk} (m : MsgMintBySwap) : outcome unit :=
  _ ← check_bech32 (mbs_Sender m);
  _ ← check_bech32_opt (mbs_To m);
  fail_if bool_decide (Denom (mbs_MintOutMin m) ≠ MicroUSMDenom) with ErrInvalidCoins ;;
  fail_if bool_decide (Denom (mbs_IronInMax m) ≠ AttoIronDenom) with ErrInvalidCoins ;;
  fail_if negb (0 <? Amount (mbs_MintOutMin m)) with ErrInvalidCoins ;;
  fail_if Amount (mbs_BackingInMax m) <? 0 with ErrInvalidCoins ;;
  fail_if Amount (mbs_IronInMax m) <? 0 with ErrInvalidCoins ;;
  fail_if (Amount (mbs_BackingInMax m) =? 0) && (Amount (mbs_IronInMax m) =? 0)
    with ErrInvalidCoins ;;
  fail_if mbs_FullBacking m && (0 <? Amount (mbs_IronInMax m)) with ErrInvalidCoins ;;
  Ok tt.

Record MsgMintBySwapResponse := mkMsgMintBySwapResponse {
  mbsr_BackingIn : Coin; mbsr_IronIn : Coin; mbsr_MintOut : Coin; mbsr_MintFee : Coin;
}.

Record MsgBurnBySwap := mkMsgBurnBySwap {
  bbs_Sender : string; bbs_To : string;
  bbs_BurnIn : Coin; bbs_BackingOutMin : Coin; bbs_IronOutMin : Coin;
}.

Definition MsgBurnBySwap_ValidateBasic `{Sdk} (m : MsgBurnBySwap) : outcome unit :=
  _ ← check_bech32 (bbs_Sender m);
  _ ← check_bech32_opt (bbs_To m);
  fail_if bool_decide (Denom (bbs_BurnIn m) ≠ MicroUSMDenom) with ErrInvalidCoins ;;
  fail_if bool_decide (Denom (bbs_IronOutMin m) ≠ AttoIronDenom) with ErrInvalidCoins ;;
  fail_if negb (0 <? Amount (bbs_BurnIn m)) with ErrInvalidCoins ;;
  fail_if Amount (bbs_BackingOutMin m) <? 0 with ErrInvalidCoins ;;
  fail_if Amount (bbs_IronOutMin m) <? 0 with ErrInvalidCoins ;;
  Ok tt.

Record MsgBurnBySwapResponse := mkMsgBurnBySwapResponse {
  bbsr_BurnFee : Coin; bbsr_BackingOut : Coin; bbsr_IronOut : Coin;
}.

Record MsgBuyBacking := mkMsgBuyBacking {
  bb_Sender : string; bb_To : string; bb_IronIn : Coin; bb_BackingOutMin : Coin;
}.

Definition MsgBuyBacking_ValidateBasic `{Sdk} (m : MsgBuyBacking) : outcome unit :=
  _ ← check_bech32 (bb_Sender m);
  _ ← check_bech32_opt (bb_To m);
  fail_if bool_decide (Denom (bb_IronIn m) ≠ AttoIronDenom) with ErrInvalidCoins ;;
  fail_if negb (0 <? Amount (bb_IronIn m)) with ErrInvalidCoins ;;
  fail_if Amount (bb_BackingOutMin m) <? 0 with ErrInvalidCoins ;;
  Ok tt.

Record MsgBuyBackingResponse := mkMsgBuyBackingResponse {
  bbr_BackingOut : Coin; bbr_BuybackFee : Coin;
}.

Record MsgSellBacking := mkMsgSellBacking {
  sb_Sender : string; sb_To : string; sb_BackingIn : Coin; sb_IronOutMin : Coin;
}.

Definition MsgSellBacking_ValidateBasic `{Sdk} (m : MsgSellBacking) : outcome unit :=
  _ ← check_bech32 (sb_Sender m);
  _ ← check_bech32_opt (sb_To m);
  fail_if bool_decide (Denom (sb_IronOutMin m) ≠ AttoIronDenom) with ErrInvalidCoins ;;
  fail_if negb (0 <? Amount (sb_BackingIn m)) with ErrInvalidCoins ;;
  fail_if Amount (sb_IronOutMin m) <? 0 with ErrInvalidCoins ;;
  Ok tt.

Record MsgSellBackingResponse := mkMsgSellBackingResponse {
  sbr_IronOut : Coin; sbr_RebackFee : Coin;
}.

Record MsgMintByCollateral := mkMsgMintByCollateral {
  mbc_Sender : string; mbc_To : string; mbc_CollateralDenom : string; mbc_MintOut : Coin;
}.

Definition MsgMintByCollateral_ValidateBasic `{Sdk} (m : MsgMintByCollateral) : outcome unit :=
  _ ← check_bech32 (mbc_Sender m);
  _ ← check_bech32_opt (mbc_To m);
  fail_if bool_decide (Denom (mbc_MintOut m) ≠ MicroUSMDenom) with ErrInvalidCoins ;;
  fail_if negb (0 <? Amount (mbc_MintOut m)) with ErrInvalidCoins ;;
  Ok tt.

Record MsgMintByCollateralResponse := mkMsgMintByCollateralResponse { mbcr_MintFee : Coin }.

Record MsgBurnByCollateral := mkMsgBurnByCollateral {
  bbc_Sender : string; bbc_CollateralDenom : string; bbc_RepayInMax : Coin;
}.

Definition MsgBurnByCollateral_ValidateBasic `{Sdk} (m : MsgBurnByCollateral) : outcome unit :=
  _ ← check_bech32 (bbc_Sender m);
  fail_if bool_decide (Denom (bbc_RepayInMax m) ≠ MicroUSMDenom) with ErrInvalidCoins ;;
  fail_if negb (0 <? Amount (bbc_RepayInMax m)) with ErrInvalidCoins ;;
  Ok tt.

Record MsgBurnByCollateralResponse := mkMsgBurnByCollateralResponse { bbcr_RepayIn : Coin }.

Record MsgDepositCollateral := mkMsgDepositCollateral {
  dc_Sender : string; dc_To : string; dc_CollateralIn : Coin; dc_IronIn : Coin;
}.

(** The last check builds [sdk.NewCoins(...)] only to print the error. *)
Definition MsgDepositCollateral_ValidateBasic `{Sdk} (m : MsgDepositCollateral) : outcome unit :=
  _ ← check_bech32 (dc_Sender m);
  _ ← check_bech32_opt (dc_To m);
  fail_if Amount (dc_CollateralIn m) <? 0 with ErrInvalidCoins ;;
  fail_if bool_decide (Denom (dc_IronIn m) ≠ AttoIronDenom) with ErrInvalidCoins ;;
  fail_if Amount (dc_IronIn m) <? 0 with ErrInvalidCoins ;;
  if (Amount (dc_CollateralIn m) =? 0) && (Amount (dc_IronIn m) =? 0)
  then _ ← NewCoins [dc_CollateralIn m; dc_IronIn m]; Err ErrInvalidCoins
  else Ok tt.

Record MsgRedeemCollateral := mkMsgRedeemCollateral {
  rc_Sender : string; rc_To : string; rc_CollateralOut : Coin; rc_IronOut : Coin;
}.

Definition MsgRedeemCollateral_ValidateBasic `{Sdk} (m : MsgRedeemCollateral) : outcome unit :=
  _ ← check_bech32 (rc_Sender m);
  _ ← check_bech32_opt (rc_To m);
  fail_if Amount (rc_CollateralOut m) <? 0 with ErrInvalidCoins ;;
  fail_if bool_decide (Denom (rc_IronOut m) ≠ AttoIronDenom) with ErrInvalidCoins ;;
  fail_if Amount (rc_IronOut m) <? 0 with ErrInvalidCoins ;;
  if (Amount (rc_CollateralOut m) =? 0) && (Amount (rc_IronOut m) =? 0)
  then _ ← NewCoins [rc_CollateralOut m; rc_IronOut m]; Err ErrInvalidCoins
  else Ok tt.

Record MsgLiquidateCollateral := mkMsgLiquidateCollateral {
  lc_Sender : string; lc_To : string; lc_Debtor : string;
  lc_Collateral : Coin; lc_RepayInMax : Coin;
}.

Definition MsgLiquidateCollateral_ValidateBasic `{Sdk} (m : MsgLiquidateCollateral) : outcome unit :=
  _ ← check_bech32 (lc_Sender m);
  _ ← check_bech32_opt (lc_To m);
  _ ← check_bech32 (lc_Debtor m);
  fail_if negb (0 <? Amount (lc_Collateral m)) with ErrInvalidCoins ;;
  fail_if bool_decide (Denom (lc_RepayInMax m) ≠ MicroUSMDenom) with ErrInvalidCoins ;;
  fail_if negb (0 <? Amount (lc_RepayInMax m)) with ErrInvalidCoins ;;
  Ok tt.

Record MsgLiquidateCollateralResponse := mkMsgLiquidateCollateralResponse {
  lcr_RepayIn : Coin; lcr_CollateralOut : Coin;
}.

(** ** Proposals ([proposal.go]): stateless validation of risk parameters *)

Definition neg_opt (x : option Z) : bool :=
  match x with Some v => v <? 0 | None => false end.

Definition not_ratio (x : option Dec) : bool :=
  match x with Some v => (v <? 0) || (OneDec <? v) | None => false end.

Definition proposal_validateBackingRiskParams (p : BackingRiskParams) : outcome unit :=
  fail_if neg_opt (brp_MaxBacking p) with Errorf "max backing value must be not negative" ;;
  fail_if neg_opt (brp_MaxGridMint p) with Errorf "max grid mint value must be not negative" ;;
  fail_if not_ratio (brp_MintFee p) with Errorf "mint fee must be in [0, 1]" ;;
  fail_if not_ratio (brp_BurnFee p) with Errorf "burn fee must be in [0, 1]" ;;
  fail_if not_ratio (brp_BuybackFee p) with Errorf "buyback fee must be in [0, 1]" ;;
  fail_if not_ratio (brp_RebackFee p) with Errorf "reback fee must be in [0, 1]" ;;
  Ok tt.

Definition proposal_validateCollateralRiskParams (p : CollateralRiskParams) : outcome unit :=
  fail_if neg_opt (crp_MaxCollateral p) with Errorf "max collateral value must be not negative" ;;
  fail_if neg_opt (crp_MaxGridMint p) with Errorf "max grid mint value must be not negative" ;;
  fail_if not_ratio (crp_LiquidationThreshold p) with Errorf "liquidation threshold must be in [0, 1]" ;;
  fail_if not_ratio (crp_LoanToValue p) with Errorf "loan-to-value must be in [0, 1]" ;;
  fail_if not_ratio (crp_BasicLoanToValue p) with Errorf "basic loan-to-value must be in [0, 1]" ;;
  fail_if not_ratio (crp_CatalyticIronRatio p) with Errorf "catalytic iron ratio must be in [0, 1]" ;;
  fail_if not_ratio (crp_LiquidationFee p) with Errorf "liquidation fee must be in [0, 1]" ;;
  fail_if not_ratio (crp_MintFee p) with Errorf "mint fee must be in [0, 1]" ;;
  fail_if not_ratio (crp_InterestFee p) with Errorf "interest fee must be in [0, 1]" ;;
  Ok tt.

Definition BatchSetBackingRiskParams_ValidateBasic (ps : list BackingRiskParams) : outcome unit :=
  for_each (fun _ p => proposal_validateBackingRiskParams p) ps tt.

Definition BatchSetCollateralRiskParams_ValidateBasic (ps : list CollateralRiskParams) : outcome unit :=
  for_each (fun _ p => proposal_validateCollateralRiskParams p) ps tt.

(** ** The module's store

    One field per key prefix of [keys.go]; the values stored under a prefix
    are a finite map from the rest of the key.  [AccountCollateral] is keyed by
    the length-prefixed address followed by the denomination
    ([keyByAddrDenom]), a pair.  The parameter subspace is the record of its
    parameters. *)
Record MakerStore := mkMakerStore {
  ms_Params : MakerParams;
  ms_BackingRatio : option Dec;
  ms_BackingRatioLastBlock : option Z;
  ms_BackingParams : gmap string BackingRiskParams;
  ms_CollateralParams : gmap string CollateralRiskParams;
  ms_BackingTotal : option TotalBacking;
  ms_CollateralTotal : option TotalCollateral;
  ms_BackingPool : gmap string PoolBacking;
  ms_CollateralPool : gmap string PoolCollateral;
  ms_CollateralAccount : gmap (string * string) AccountCollateral;
}.
