(* ===== verification/VeTypes.v ===== *)
(** Data of the ve module ([src/x/ve/types/]): lock times aligned to weeks,
    locked balances, checkpoints, ve identifiers, messages and their stateless
    validation. *)

From stdpp Require Import base gmap strings list.
From Stdlib Require Import ZArith Lia Ascii.
From S2P Require Import Prelude Sdk Types.

#[local] Open Scope Z_scope.

Definition ve_ModuleName : string := "ve".
Definition EmissionPoolName : string := "ve_emission_pool".
Definition DistributionPoolName : string := "ve_distribution_pool".

(** ** Constants ([constants.go]) *)

Definition EmptyVeID : Z := 0.
Definition FirstVeID : Z := 1.
Definition MaxVeID : Z := 2 ^ 64 - 1 - 1.
Definition MaxLockTimeWeeks : Z := DaysPer4Years / 7 + 1.
Definition MaxLockTime : Z := MaxLockTimeWeeks * SecondsPerWeek.
Definition MaxUnixTime : Z := 2 ^ 63 - 1.
Definition RegulatedPeriod : Z := SecondsPerWeek.
Definition EmptyEpoch : Z := 0.
Definition FirstEpoch : Z := 1.

(** [sdk.NewDecFromStr("0.9966889998035777")] *)
Definition EmissionRatio : Dec := 9966889998035777 * 10 ^ 2.
Definition MinEmissionCirculating : Dec := NewDecWithPrec 1 10.

(** ** Errors ([errors.go]) *)

Definition ve_err (code : Z) : error := ErrReg ve_ModuleName code.
Definition ErrInvalidLockDenom := ve_err 2.
Definition ErrInvalidVeID := ve_err 3.
Definition ErrPastLockTime := ve_err 4.
Definition ErrTooLongLockTime := ve_err 5.
Definition ErrNotIncreasedLockTime := ve_err 6.
Definition ErrLockNotExpired := ve_err 7.
Definition ErrLockExpired := ve_err 8.
Definition ErrAmountNotPositive := ve_err 9.
Definition ErrSameVeID := ve_err 10.
Definition ErrVeAttached := ve_err 11.

(** ** Regulated times ([duration.go]) *)

Definition RegulatedUnixTime (timestamp : Z) : Z :=
  timestamp / RegulatedPeriod * RegulatedPeriod.

(** [time.Duration(seconds) * time.Second] is an [int64] number of
    nanoseconds; the product can wrap, but not for [seconds <= MaxLockTime]. *)
Definition RegulatedUnixTimeFromNow (ctx : Ctx) (seconds : Z) : Z :=
  let ns := i64 (i64 seconds * 10 ^ 9) in
  RegulatedUnixTime (u64 ((BlockTimeNano ctx + ns) / 10 ^ 9)).

Definition CheckRegulatedUnixTime (timestamp : Z) : outcome unit :=
  if RegulatedUnixTime timestamp =? timestamp then Ok tt else Panic.

Definition NextRegulatedUnixTime (timestamp : Z) : outcome Z :=
  _ ← CheckRegulatedUnixTime timestamp;
  if MaxUnixTime - RegulatedPeriod <? timestamp then Panic
  else Ok (timestamp + RegulatedPeriod).

Definition PreviousRegulatedUnixTime (timestamp : Z) : outcome Z :=
  _ ← CheckRegulatedUnixTime timestamp;
  if timestamp <? RegulatedPeriod then Panic
  else Ok (timestamp - RegulatedPeriod).

(** ** Records ([ve.proto], [locked.go]) *)

Record LockedBalance := mkLockedBalance { lb_Amount : Z; lb_End : Z }.

Definition NewLockedBalance : LockedBalance := mkLockedBalance 0 0.

Record Checkpoint := mkCheckpoint {
  cp_Bias : Z; cp_Slope : Z; cp_Timestamp : Z; cp_Block : Z;
}.

(** ** Ve identifiers ([nft.go]) *)

Definition VeNftClassId : string := "veNFT".

(** Decimal printing of a [uint64] ([%d]). *)
Definition digit_char (d : Z) : Ascii.ascii := Ascii.ascii_of_nat (48 + Z.to_nat d).

Fixpoint print_digits (fuel : nat) (n : Z) (acc : string) : string :=
  match fuel with
  | O => acc
  | S fuel =>
      let acc := String (digit_char (n mod 10)) acc in
      if n / 10 =? 0 then acc else print_digits fuel (n / 10) acc
  end.

(** Twenty digits are enough for 64 bits. *)
Definition print_uint64 (n : Z) : string := print_digits 20 n "".

(** [strings.Split(s, "-")] *)
Fixpoint split_dash (s : string) : list string :=
  match s with
  | EmptyString => [""%string]
  | String c s =>
      match split_dash s with
      | [] => []
      | w :: ws =>
          if Ascii.eqb c "-"%char then ""%string :: w :: ws else String c w :: ws
      end
  end.

(** [strconv.ParseUint(s, 10, 64)]: one or more decimal digits, below 2^64. *)
Fixpoint parse_digits (s : string) (acc : Z) : option Z :=
  match s with
  | EmptyString => Some acc
  | String c s =>
      let d := Z.of_nat (Ascii.nat_of_ascii c) - 48 in
      if (0 <=? d) && (d <=? 9) then parse_digits s (acc * 10 + d) else None
  end.

Definition ParseUint (s : string) : option Z :=
  match s with
  | EmptyString => None
  | _ =>
      match parse_digits s 0 with
      | Some n => if n <? 2 ^ 64 then Some n else None
      | None => None
      end
  end.

Definition VeIDFromUint64 (idNumber : Z) : string := ("ve-" ++ print_uint64 idNumber)%string.

Definition Uint64FromVeID (veID : string) : Z :=
  match split_dash veID with
  | [w; n] =>
      if decide (w = "ve"%string) then
        match ParseUint n with
        | Some id => if id =? EmptyVeID then EmptyVeID else id
        | None => EmptyVeID
        end
      else EmptyVeID
  | _ => EmptyVeID
  end.

(** *** Printing and parsing are inverse *)

Lemma digit_char_val d : 0 ≤ d ≤ 9 → Z.of_nat (Ascii.nat_of_ascii (digit_char d)) - 48 = d.
Proof. intros Hd. unfold digit_char. rewrite Ascii.nat_ascii_embedding; lia. Qed.

Lemma parse_print_digits fuel n acc :
  0 ≤ n < 10 ^ Z.of_nat fuel → parse_digits (print_digits fuel n acc) 0 = parse_digits acc n.
Proof.
  revert n acc. induction fuel as [|fuel IH]; intros n acc Hn.
  - change (10 ^ Z.of_nat 0) with 1 in Hn. simpl. by replace n with 0 by lia.
  - rewrite Nat2Z.inj_succ, Z.pow_succ_r in Hn by lia. cbn [print_digits].
    pose proof (Z.div_mod n 10 ltac:(done)). pose proof (Z.mod_pos_bound n 10 ltac:(done)).
    assert (∀ k, parse_digits (String (digit_char (n mod 10)) acc) k = parse_digits acc (k * 10 + n mod 10)) as Hp.
    { intros k. cbn [parse_digits]. rewrite digit_char_val by lia.
      rewrite (proj2 (Z.leb_le 0 (n mod 10))), (proj2 (Z.leb_le (n mod 10) 9)) by lia. done. }
    destruct (Z.eqb_spec (n / 10) 0) as [E|E].
    + rewrite Hp. f_equal. lia.
    + rewrite IH, Hp by lia. f_equal. lia.
Qed.

Fixpoint no_dash (s : string) : Prop :=
  match s with EmptyString => True | String c s => c ≠ "-"%char ∧ no_dash s end.

Lemma digit_no_dash d : 0 ≤ d ≤ 9 → digit_char d ≠ "-"%char.
Proof.
  intros Hd E. pose proof (digit_char_val d Hd) as Hv. rewrite E in Hv.
  change (Z.of_nat (Ascii.nat_of_ascii "-"%char)) with 45 in Hv. lia.
Qed.

Lemma print_no_dash fuel n acc : no_dash acc → no_dash (print_digits fuel n acc).
Proof.
  revert n acc. induction fuel as [|fuel IH]; intros n acc Ha; [done|]. cbn [print_digits].
  pose proof (Z.mod_pos_bound n 10 ltac:(done)).
  assert (no_dash (String (digit_char (n mod 10)) acc)) by (split; [apply digit_no_dash; lia|done]).
  destruct (n / 10 =? 0); auto.
Qed.

Lemma print_nonempty fuel n acc : print_digits (S fuel) n acc ≠ EmptyString.
Proof.
  revert n acc. induction fuel as [|fuel IH]; intros n acc.
  - cbn. by destruct (n / 10 =? 0).
  - cbn [print_digits]. destruct (n / 10 =? 0); [done|]. apply (IH (n / 10)).
Qed.

Lemma split_no_dash s : no_dash s → split_dash s = [s].
Proof.
  induction s as [|c s IH]; [done|]. intros [Hc Hs]. cbn [split_dash].
  rewrite IH by done. by rewrite (proj2 (Ascii.eqb_neq c "-"%char)).
Qed.

Lemma Uint64FromVeID_print n : 0 < n < 2 ^ 64 → Uint64FromVeID (VeIDFromUint64 n) = n.
Proof.
  intros Hn. unfold Uint64FromVeID, VeIDFromUint64.
  set (s := print_uint64 n).
  assert (split_dash ("ve-" ++ s) = ["ve"%string; s]) as ->.
  { change ("ve-" ++ s)%string with (String "v" (String "e" (String "-" s))).
    cbn [split_dash]. rewrite split_no_dash by (by apply print_no_dash). done. }
  rewrite decide_True by done. unfold ParseUint.
  assert (parse_digits s 0 = Some n) as Hp.
  { unfold s, print_uint64. rewrite parse_print_digits; [done|]. split; [lia|].
    change (10 ^ Z.of_nat 20) with (10 ^ 20). lia. }
  assert (s ≠ EmptyString) by apply print_nonempty.
  destruct s; [done|]. rewrite Hp, (proj2 (Z.ltb_lt n (2 ^ 64))) by lia.
  by destruct (n =? EmptyVeID) eqn:E; zbool.
Qed.

(** The parser never leaves the range of [uint64], whatever the string. *)
Lemma parse_digits_nonneg s acc n : 0 ≤ acc → parse_digits s acc = Some n → 0 ≤ n.
Proof.
  revert acc. induction s as [|c s IH]; intros acc Ha E; cbn [parse_digits] in E; [by simplify_eq|].
  destruct ((0 <=? _) && (_ <=? 9)) eqn:Hd in E; [|done]. zbool. eapply IH; [|exact E]. lia.
Qed.

Lemma ParseUint_range s n : ParseUint s = Some n → 0 ≤ n < 2 ^ 64.
Proof.
  unfold ParseUint. intros E. destruct s as [|c s]; [done|].
  destruct (parse_digits (String c s) 0) as [m|] eqn:Ep; [|done].
  destruct (m <? 2 ^ 64) eqn:Hm; [|done]. simplify_eq. zbool.
  split; [|done]. by apply (parse_digits_nonneg _ 0) in Ep.
Qed.

Lemma Uint64FromVeID_range s : 0 ≤ Uint64FromVeID s < 2 ^ 64.
Proof.
  unfold Uint64FromVeID, EmptyVeID. destruct (split_dash s) as [|a [|b [|]]]; try lia.
  case_decide; [|lia]. destruct (ParseUint b) as [n|] eqn:E; [|lia].
  apply ParseUint_range in E. destruct (n =? 0); lia.
Qed.

(** ** Messages and [ValidateBasic] ([msgs.go]) *)

Record MsgCreate := mkMsgCreate {
  cr_Sender : string; cr_To : string; cr_Amount : Coin; cr_LockDuration : Z;
}.

Definition MsgCreate_ValidateBasic `{Sdk} (m : MsgCreate) : outcome unit :=
  _ ← check_bech32 (cr_Sender m);
  _ ← check_bech32_opt (cr_To m);
  fail_if negb (0 <? Amount (cr_Amount m)) with ErrAmountNotPositive ;;
  fail_if cr_LockDuration m =? 0 with ErrPastLockTime ;;
  fail_if MaxLockTime <? cr_LockDuration m with ErrTooLongLockTime ;;
  Ok tt.

Record MsgDeposit := mkMsgDeposit {
  de_Sender : string; de_VeId : string; de_Amount : Coin;
}.

Definition MsgDeposit_ValidateBasic `{Sdk} (m : MsgDeposit) : outcome unit :=
  _ ← check_bech32 (de_Sender m);
  fail_if Uint64FromVeID (de_VeId m) =? EmptyVeID with ErrInvalidVeID ;;
  fail_if negb (0 <? Amount (de_Amount m)) with ErrAmountNotPositive ;;
  Ok tt.

Record MsgExtendTime := mkMsgExtendTime {
  et_Sender : string; et_VeId : string; et_LockDuration : Z;
}.

Definition MsgExtendTime_ValidateBasic `{Sdk} (m : MsgExtendTime) : outcome unit :=
  _ ← check_bech32 (et_Sender m);
  fail_if Uint64FromVeID (et_VeId m) =? EmptyVeID with ErrInvalidVeID ;;
  fail_if et_LockDuration m =? 0 with ErrPastLockTime ;;
  fail_if MaxLockTime <? et_LockDuration m with ErrTooLongLockTime ;;
  Ok tt.

Record MsgMerge := mkMsgMerge {
  me_Sender : string; me_FromVeId : string; me_ToVeId : string;
}.

Definition MsgMerge_ValidateBasic `{Sdk} (m : MsgMerge) : outcome unit :=
  _ ← check_bech32 (me_Sender m);
  fail_if Uint64FromVeID (me_FromVeId m) =? EmptyVeID with ErrInvalidVeID ;;
  fail_if Uint64FromVeID (me_ToVeId m) =? EmptyVeID with ErrInvalidVeID ;;
  fail_if bool_decide (me_FromVeId m = me_ToVeId m) with ErrSameVeID ;;
  Ok tt.

Record MsgWithdraw := mkMsgWithdraw { wd_Sender : string; wd_VeId : string }.

Definition MsgWithdraw_ValidateBasic `{Sdk} (m : MsgWithdraw) : outcome unit :=
  _ ← check_bech32 (wd_Sender m);
  fail_if Uint64FromVeID (wd_VeId m) =? EmptyVeID with ErrInvalidVeID ;;
  Ok tt.

(** ** The module's store: one field per key prefix of [keys.go] *)
Record VeStore := mkVeStore {
  vs_LockDenom : string;
  vs_TotalLockedAmount : option Z;
  vs_LockedAmountByUser : gmap Z LockedBalance;
  vs_NextVeID : option Z;
  vs_Epoch : option Z;
  vs_PointHistoryByEpoch : gmap Z Checkpoint;
  vs_UserEpoch : gmap Z Z;
  vs_UserPointHistoryByUserEpoch : gmap (Z * Z) Checkpoint;
  vs_SlopeChange : gmap Z Z;
  vs_Attached : gmap Z Z;
  vs_Voted : gmap Z bool;
  vs_TotalEmission : option Z;
  vs_EmissionAtLastPeriod : option Z;
  vs_EmissionLastTimestamp : option Z;
  vs_DistributionAccruedLastTimestamp : option Z;
  vs_DistributionTotalAmount : option Z;
  vs_DistributionPerPeriod : gmap Z Z;
  vs_DistributionClaimLastTimestampByUser : gmap Z Z;
}.

(** Writing one field. *)
Definition vs_set_LockDenom (x : string) (s : VeStore) : VeStore :=
  mkVeStore x (vs_TotalLockedAmount s) (vs_LockedAmountByUser s) (vs_NextVeID s) (vs_Epoch s)
    (vs_PointHistoryByEpoch s) (vs_UserEpoch s) (vs_UserPointHistoryByUserEpoch s)
    (vs_SlopeChange s) (vs_Attached s) (vs_Voted s) (vs_TotalEmission s)
    (vs_EmissionAtLastPeriod s) (vs_EmissionLastTimestamp s)
    (vs_DistributionAccruedLastTimestamp s) (vs_DistributionTotalAmount s)
    (vs_DistributionPerPeriod s) (vs_DistributionClaimLastTimestampByUser s).
Definition vs_set_TotalLockedAmount (x : option Z) (s : VeStore) : VeStore :=
  mkVeStore (vs_LockDenom s) x (vs_LockedAmountByUser s) (vs_NextVeID s) (vs_Epoch s)
    (vs_PointHistoryByEpoch s) (vs_UserEpoch s) (vs_UserPointHistoryByUserEpoch s)
    (vs_SlopeChange s) (vs_Attached s) (vs_Voted s) (vs_TotalEmission s)
    (vs_EmissionAtLastPeriod s) (vs_EmissionLastTimestamp s)
    (vs_DistributionAccruedLastTimestamp s) (vs_DistributionTotalAmount s)
    (vs_DistributionPerPeriod s) (vs_DistributionClaimLastTimestampByUser s).
Definition vs_set_LockedAmountByUser (x : gmap Z LockedBalance) (s : VeStore) : VeStore :=
  mkVeStore (vs_LockDenom s) (vs_TotalLockedAmount s) x (vs_NextVeID s) (vs_Epoch s)
    (vs_PointHistoryByEpoch s) (vs_UserEpoch s) (vs_UserPointHistoryByUserEpoch s)
    (vs_SlopeChange s) (vs_Attached s) (vs_Voted s) (vs_TotalEmission s)
    (vs_EmissionAtLastPeriod s) (vs_EmissionLastTimestamp s)
    (vs_DistributionAccruedLastTimestamp s) (vs_DistributionTotalAmount s)
    (vs_DistributionPerPeriod s) (vs_DistributionClaimLastTimestampByUser s).
Definition vs_set_NextVeID (x : option Z) (s : VeStore) : VeStore :=
  mkVeStore (vs_LockDenom s) (vs_TotalLockedAmount s) (vs_LockedAmountByUser s) x (vs_Epoch s)
    (vs_PointHistoryByEpoch s) (vs_UserEpoch s) (vs_UserPointHistoryByUserEpoch s)
    (vs_SlopeChange s) (vs_Attached s) (vs_Voted s) (vs_TotalEmission s)
    (vs_EmissionAtLastPeriod s) (vs_EmissionLastTimestamp s)
    (vs_DistributionAccruedLastTimestamp s) (vs_DistributionTotalAmount s)
    (vs_DistributionPerPeriod s) (vs_DistributionClaimLastTimestampByUser s).
Definition vs_set_Epoch (x : option Z) (s : VeStore) : VeStore :=
  mkVeStore (vs_LockDenom s) (vs_TotalLockedAmount s) (vs_LockedAmountByUser s) (vs_NextVeID
    s) x (vs_PointHistoryByEpoch s) (vs_UserEpoch s) (vs_UserPointHistoryByUserEpoch s)
    (vs_SlopeChange s) (vs_Attached s) (vs_Voted s) (vs_TotalEmission s)
    (vs_EmissionAtLastPeriod s) (vs_EmissionLastTimestamp s)
    (vs_DistributionAccruedLastTimestamp s) (vs_DistributionTotalAmount s)
    (vs_DistributionPerPeriod s) (vs_DistributionClaimLastTimestampByUser s).
Definition vs_set_PointHistoryByEpoch (x : gmap Z Checkpoint) (s : VeStore) : VeStore :=
  mkVeStore (vs_LockDenom s) (vs_TotalLockedAmount s) (vs_LockedAmountByUser s) (vs_NextVeID
    s) (vs_Epoch s) x (vs_UserEpoch s) (vs_UserPointHistoryByUserEpoch s) (vs_SlopeChange s)
    (vs_Attached s) (vs_Voted s) (vs_TotalEmission s) (vs_EmissionAtLastPeriod s)
    (vs_EmissionLastTimestamp s) (vs_DistributionAccruedLastTimestamp s)
    (vs_DistributionTotalAmount s) (vs_DistributionPerPeriod s)
    (vs_DistributionClaimLastTimestampByUser s).
Definition vs_set_UserEpoch (x : gmap Z Z) (s : VeStore) : VeStore :=
  mkVeStore (vs_LockDenom s) (vs_TotalLockedAmount s) (vs_LockedAmountByUser s) (vs_NextVeID
    s) (vs_Epoch s) (vs_PointHistoryByEpoch s) x (vs_UserPointHistoryByUserEpoch s)
    (vs_SlopeChange s) (vs_Attached s) (vs_Voted s) (vs_TotalEmission s)
    (vs_EmissionAtLastPeriod s) (vs_EmissionLastTimestamp s)
    (vs_DistributionAccruedLastTimestamp s) (vs_DistributionTotalAmount s)
    (vs_DistributionPerPeriod s) (vs_DistributionClaimLastTimestampByUser s).
Definition vs_set_UserPointHistoryByUserEpoch (x : gmap (Z * Z) Checkpoint) (s : VeStore) : VeStore :=
  mkVeStore (vs_LockDenom s) (vs_TotalLockedAmount s) (vs_LockedAmountByUser s) (vs_NextVeID
    s) (vs_Epoch s) (vs_PointHistoryByEpoch s) (vs_UserEpoch s) x (vs_SlopeChange s)
    (vs_Attached s) (vs_Voted s) (vs_TotalEmission s) (vs_EmissionAtLastPeriod s)
    (vs_EmissionLastTimestamp s) (vs_DistributionAccruedLastTimestamp s)
    (vs_DistributionTotalAmount s) (vs_DistributionPerPeriod s)
    (vs_DistributionClaimLastTimestampByUser s).
Definition vs_set_SlopeChange (x : gmap Z Z) (s : VeStore) : VeStore :=
  mkVeStore (vs_LockDenom s) (vs_TotalLockedAmount s) (vs_LockedAmountByUser s) (vs_NextVeID
    s) (vs_Epoch s) (vs_PointHistoryByEpoch s) (vs_UserEpoch s)
    (vs_UserPointHistoryByUserEpoch s) x (vs_Attached s) (vs_Voted s) (vs_TotalEmission s)
    (vs_EmissionAtLastPeriod s) (vs_EmissionLastTimestamp s)
    (vs_DistributionAccruedLastTimestamp s) (vs_DistributionTotalAmount s)
    (vs_DistributionPerPeriod s) (vs_DistributionClaimLastTimestampByUser s).
Definition vs_set_Attached (x : gmap Z Z) (s : VeStore) : VeStore :=
  mkVeStore (vs_LockDenom s) (vs_TotalLockedAmount s) (vs_LockedAmountByUser s) (vs_NextVeID
    s) (vs_Epoch s) (vs_PointHistoryByEpoch s) (vs_UserEpoch s)
    (vs_UserPointHistoryByUserEpoch s) (vs_SlopeChange s) x (vs_Voted s) (vs_TotalEmission s)
    (vs_EmissionAtLastPeriod s) (vs_EmissionLastTimestamp s)
    (vs_DistributionAccruedLastTimestamp s) (vs_DistributionTotalAmount s)
    (vs_DistributionPerPeriod s) (vs_DistributionClaimLastTimestampByUser s).
Definition vs_set_Voted (x : gmap Z bool) (s : VeStore) : VeStore :=
  mkVeStore (vs_LockDenom s) (vs_TotalLockedAmount s) (vs_LockedAmountByUser s) (vs_NextVeID
    s) (vs_Epoch s) (vs_PointHistoryByEpoch s) (vs_UserEpoch s)
    (vs_UserPointHistoryByUserEpoch s) (vs_SlopeChange s) (vs_Attached s) x (vs_TotalEmission
    s) (vs_EmissionAtLastPeriod s) (vs_EmissionLastTimestamp s)
    (vs_DistributionAccruedLastTimestamp s) (vs_DistributionTotalAmount s)
    (vs_DistributionPerPeriod s) (vs_DistributionClaimLastTimestampByUser s).
Definition vs_set_TotalEmission (x : option Z) (s : VeStore) : VeStore :=
  mkVeStore (vs_LockDenom s) (vs_TotalLockedAmount s) (vs_LockedAmountByUser s) (vs_NextVeID
    s) (vs_Epoch s) (vs_PointHistoryByEpoch s) (vs_UserEpoch s)
    (vs_UserPointHistoryByUserEpoch s) (vs_SlopeChange s) (vs_Attached s) (vs_Voted s) x
    (vs_EmissionAtLastPeriod s) (vs_EmissionLastTimestamp s)
    (vs_DistributionAccruedLastTimestamp s) (vs_DistributionTotalAmount s)
    (vs_DistributionPerPeriod s) (vs_DistributionClaimLastTimestampByUser s).
Definition vs_set_EmissionAtLastPeriod (x : option Z) (s : VeStore) : VeStore :=
  mkVeStore (vs_LockDenom s) (vs_TotalLockedAmount s) (vs_LockedAmountByUser s) (vs_NextVeID
    s) (vs_Epoch s) (vs_PointHistoryByEpoch s) (vs_UserEpoch s)
    (vs_UserPointHistoryByUserEpoch s) (vs_SlopeChange s) (vs_Attached s) (vs_Voted s)
    (vs_TotalEmission s) x (vs_EmissionLastTimestamp s) (vs_DistributionAccruedLastTimestamp
    s) (vs_DistributionTotalAmount s) (vs_DistributionPerPeriod s)
    (vs_DistributionClaimLastTimestampByUser s).
Definition vs_set_EmissionLastTimestamp (x : option Z) (s : VeStore) : VeStore :=
  mkVeStore (vs_LockDenom s) (vs_TotalLockedAmount s) (vs_LockedAmountByUser s) (vs_NextVeID
    s) (vs_Epoch s) (vs_PointHistoryByEpoch s) (vs_UserEpoch s)
    (vs_UserPointHistoryByUserEpoch s) (vs_SlopeChange s) (vs_Attached s) (vs_Voted s)
    (vs_TotalEmission s) (vs_EmissionAtLastPeriod s) x (vs_DistributionAccruedLastTimestamp s)
    (vs_DistributionTotalAmount s) (vs_DistributionPerPeriod s)
    (vs_DistributionClaimLastTimestampByUser s).
Definition vs_set_DistributionAccruedLastTimestamp (x : option Z) (s : VeStore) : VeStore :=
  mkVeStore (vs_LockDenom s) (vs_TotalLockedAmount s) (vs_LockedAmountByUser s) (vs_NextVeID
    s) (vs_Epoch s) (vs_PointHistoryByEpoch s) (vs_UserEpoch s)
    (vs_UserPointHistoryByUserEpoch s) (vs_SlopeChange s) (vs_Attached s) (vs_Voted s)
    (vs_TotalEmission s) (vs_EmissionAtLastPeriod s) (vs_EmissionLastTimestamp s) x
    (vs_DistributionTotalAmount s) (vs_DistributionPerPeriod s)
    (vs_DistributionClaimLastTimestampByUser s).
Definition vs_set_DistributionTotalAmount (x : option Z) (s : VeStore) : VeStore :=
  mkVeStore (vs_LockDenom s) (vs_TotalLockedAmount s) (vs_LockedAmountByUser s) (vs_NextVeID
    s) (vs_Epoch s) (vs_PointHistoryByEpoch s) (vs_UserEpoch s)
    (vs_UserPointHistoryByUserEpoch s) (vs_SlopeChange s) (vs_Attached s) (vs_Voted s)
    (vs_TotalEmission s) (vs_EmissionAtLastPeriod s) (vs_EmissionLastTimestamp s)
    (vs_DistributionAccruedLastTimestamp s) x (vs_DistributionPerPeriod s)
    (vs_DistributionClaimLastTimestampByUser s).
Definition vs_set_DistributionPerPeriod (x : gmap Z Z) (s : VeStore) : VeStore :=
  mkVeStore (vs_LockDenom s) (vs_TotalLockedAmount s) (vs_LockedAmountByUser s) (vs_NextVeID
    s) (vs_Epoch s) (vs_PointHistoryByEpoch s) (vs_UserEpoch s)
    (vs_UserPointHistoryByUserEpoch s) (vs_SlopeChange s) (vs_Attached s) (vs_Voted s)
    (vs_TotalEmission s) (vs_EmissionAtLastPeriod s) (vs_EmissionLastTimestamp s)
    (vs_DistributionAccruedLastTimestamp s) (vs_DistributionTotalAmount s) x
    (vs_DistributionClaimLastTimestampByUser s).
Definition vs_set_DistributionClaimLastTimestampByUser (x : gmap Z Z) (s : VeStore) : VeStore :=
  mkVeStore (vs_LockDenom s) (vs_TotalLockedAmount s) (vs_LockedAmountByUser s) (vs_NextVeID
    s) (vs_Epoch s) (vs_PointHistoryByEpoch s) (vs_UserEpoch s)
    (vs_UserPointHistoryByUserEpoch s) (vs_SlopeChange s) (vs_Attached s) (vs_Voted s)
    (vs_TotalEmission s) (vs_EmissionAtLastPeriod s) (vs_EmissionLastTimestamp s)
    (vs_DistributionAccruedLastTimestamp s) (vs_DistributionTotalAmount s)
    (vs_DistributionPerPeriod s) x.
