(* ===== verification/SdkExt.v ===== *)
(** More of what the modules take from outside the repository: Go's map
    iteration and sorting, decimal coins, validator addresses, hashing, and the
    staking and distribution keepers.  Each is the field of a class, and what
    the modules rely on is stated in the class of laws beside it. *)

From stdpp Require Import base gmap strings list fin_maps sorting.
From Stdlib Require Import ZArith Lia.
From S2P Require Import Prelude Sdk.

#[local] Open Scope Z_scope.

(** ** The Go runtime

    [for k, v := range m] visits the entries of a map once each, in an order
    the language leaves unspecified: [range site m] is the order at one loop
    of the source ([site]); two runs of the same program may differ in it. *)
Class MapOrder := { range : ∀ {V : Type}, nat → gmap string V → list (string * V) }.

Class MapOrderLaws (O : MapOrder) : Prop := {
  range_perm {V} site (m : gmap string V) : range site m ≡ₚ map_to_list m;
}.

(** [sort.Sort]: some permutation without inversions; the order of equal
    elements is unspecified. *)
Class GoSort := { sort_Sort : ∀ {A : Type}, (A → A → bool) → list A → list A }.

(** [sort.IsSorted]: no element is less than its predecessor. *)
Fixpoint sort_IsSorted {A} (less : A → A → bool) (l : list A) : bool :=
  match l with
  | x :: (y :: _) as l' => negb (less y x) && sort_IsSorted less l'
  | _ => true
  end.

(** The orders [sort.Sort] is used with compare by an integer key. *)
Class GoSortLaws (S : GoSort) : Prop := {
  sort_perm {A} (less : A → A → bool) l : sort_Sort less l ≡ₚ l;
  sort_sorted {A} (key : A → Z) l :
    sort_IsSorted (fun x y => key x <? key y) (sort_Sort (fun x y => key x <? key y) l) = true;
}.

(** ** Decimal coins *)
Record DecCoin := mkDecCoin { dc_Denom : string; dc_Amount : Dec }.
Abbreviation DecCoins := (list DecCoin).

Fixpoint deccoins_amt (d : string) (cs : DecCoins) : Dec :=
  match cs with
  | [] => 0
  | c :: cs => (if decide (dc_Denom c = d) then dc_Amount c else 0) + deccoins_amt d cs
  end.

(** [Coins.IsZero]: no coin, or only zero coins. *)
Definition Coins_IsZero (cs : Coins) : bool := forallb (fun c => Amount c =? 0) cs.

Class SdkExt := {
  Coins_Add : Coins → Coins → outcome Coins;
  NewDecCoinFromDec : string → Dec → outcome DecCoin;
  DecCoins_Add : DecCoins → DecCoin → outcome DecCoins;
  DecCoins_MulDec : DecCoins → Dec → outcome DecCoins;
  DecCoins_TruncateDecimal : DecCoins → outcome (Coins * DecCoins);
  NewDecCoinsFromCoins : Coins → DecCoins;
  (* sdk.NewDecFromStr *)
  NewDecFromStr : string → outcome Dec;
  (* sdk.TokensToConsensusPower *)
  TokensToConsensusPower : Z → Z → outcome Z;
  (* validator addresses *)
  ValAddressFromBech32 : string → outcome Addr;
  ValAddress_String : Addr → string;
  (* tmhash.NewTruncated *)
  tmhash_Truncated : string → string;
}.

Class SdkExtLaws `{Sdk, SdkExt} : Prop := {
  Coins_Add_Ok a b c : Coins_Add a b = Ok c → ∀ d, coins_amt d c = coins_amt d a + coins_amt d b;
  Coins_Add_denom a b c x : Coins_Add a b = Ok c → x ∈ c → ∃ y, y ∈ a ++ b ∧ Denom y = Denom x;
  NewDecCoinFromDec_Ok d x c : NewDecCoinFromDec d x = Ok c → c = mkDecCoin d x ∧ 0 ≤ x;
  DecCoins_Add_Ok a b c :
    DecCoins_Add a b = Ok c → NoDup (dc_Denom <$> a) →
    NoDup (dc_Denom <$> c) ∧ ∀ d, deccoins_amt d c = deccoins_amt d a + deccoins_amt d [b];
  (* every amount is multiplied and rounded *)
  DecCoins_MulDec_Ok a x c :
    DecCoins_MulDec a x = Ok c → NoDup (dc_Denom <$> a) →
    NoDup (dc_Denom <$> c) ∧ ∀ d, Dec_Mul (deccoins_amt d a) x = Ok (deccoins_amt d c);
  DecCoins_TruncateDecimal_Ok a c r :
    DecCoins_TruncateDecimal a = Ok (c, r) → NoDup (dc_Denom <$> a) →
    ∀ d, Dec_TruncateInt (deccoins_amt d a) = Ok (coins_amt d c);
  (* the bech32 form of an address is read back *)
  ValAddress_roundtrip s a : ValAddressFromBech32 s = Ok a → ValAddressFromBech32 (ValAddress_String a) = Ok a;
  AccAddress_roundtrip s a : AccAddressFromBech32 s = Ok a → AccAddressFromBech32 (AccAddress_String a) = Ok a;
  ValAddress_String_inj a b : ValAddress_String a = ValAddress_String b → a = b;
}.

(** ** The staking keeper

    A validator as the oracle reads it through [stakingtypes.ValidatorI]. *)
Record ValidatorI := mkValidatorI {
  IsBonded : bool;
  IsJailed : bool;
  GetOperator : Addr;
  GetConsAddr : outcome Addr;
  GetConsensusPower : Z → outcome Z;
}.

Class StakingKeeper := {
  staking_state : Type;
  Validator : staking_state → Addr → option ValidatorI;
  TotalBondedTokens : staking_state → Z;
  ValidatorsPowerStore : staking_state → list Addr;
  MaxValidators : staking_state → Z;
  PowerReduction : staking_state → Z;
  Slash : staking_state → Addr → Z → Z → Dec → outcome staking_state;
  Jail : staking_state → Addr → outcome staking_state;
}.

Class DistrKeeper := {
  distr_state : Type;
  AllocateTokensToValidator : distr_state → ValidatorI → DecCoins → outcome distr_state;
}.
