(* ===== verification/SdkExtRef.v ===== *)
(** Concrete instances of the interfaces of [SdkExt] that satisfy their laws:
    two orders of map iteration, a stable sort, decimal coins as association
    lists without repeated denominations, a decimal parser, and staking and
    distribution keepers that record what they are told. *)

From stdpp Require Import base gmap strings list fin_maps sorting.
From Stdlib Require Import ZArith Lia Ascii.
From S2P Require Import Prelude Sdk SdkRef SdkExt.

#[local] Open Scope Z_scope.

Module SdkExtRef.
Import SdkRef.

(** ** Map iteration: in one order, and in the reverse order *)
Definition order_up : MapOrder := {| range V _ m := map_to_list m |}.
Definition order_down : MapOrder := {| range V _ m := rev (map_to_list m) |}.

Lemma order_up_laws : MapOrderLaws order_up.
Proof. constructor. intros. reflexivity. Qed.

Lemma order_down_laws : MapOrderLaws order_down.
Proof. constructor. intros V site m. symmetry. apply Permutation_rev. Qed.

(** ** Sorting *)
Definition not_after {A} (less : A → A → bool) (x y : A) : Prop := less y x = false.

#[export] Instance not_after_dec {A} (less : A → A → bool) : RelDecision (not_after less).
Proof. intros x y. apply bool_eq_dec. Defined.

#[export] Instance go_sort : GoSort := {| sort_Sort A less l := merge_sort (not_after less) l |}.

Lemma sorted_is_sorted {A} (less : A → A → bool) l :
  Sorted (not_after less) l → sort_IsSorted less l = true.
Proof.
  induction l as [|x [|y l] IH]; [done|done|]. intros Hs. inversion Hs as [|? ? Hs' Hh]; subst.
  cbn [sort_IsSorted]. apply andb_true_iff. split; [|by apply IH].
  inversion Hh as [|? ? Hxy]; subst. unfold not_after in Hxy. by rewrite Hxy.
Qed.

#[export] Instance go_sort_laws : GoSortLaws go_sort.
Proof.
  constructor; [intros; apply merge_sort_Permutation|].
  intros A key l. apply sorted_is_sorted. apply Sorted_merge_sort.
  intros x y. unfold not_after. rewrite !Z.ltb_ge. lia.
Qed.

(** ** Coins and decimal coins *)
Fixpoint dc_insert (c : DecCoin) (cs : DecCoins) : DecCoins :=
  match cs with
  | [] => [c]
  | c' :: cs' =>
      if decide (dc_Denom c' = dc_Denom c) then mkDecCoin (dc_Denom c) (dc_Amount c' + dc_Amount c) :: cs'
      else c' :: dc_insert c cs'
  end.

Lemma dc_insert_amt d c cs : deccoins_amt d (dc_insert c cs) = deccoins_amt d cs + deccoins_amt d [c].
Proof.
  induction cs as [|c' cs IH]; simpl in *; [lia|].
  destruct (decide (dc_Denom c' = dc_Denom c)) as [E|E]; simpl; rewrite ?IH, ?E; repeat case_decide; lia.
Qed.

Lemma dc_insert_denoms c cs x : x ∈ (dc_Denom <$> dc_insert c cs) ↔ x = dc_Denom c ∨ x ∈ (dc_Denom <$> cs).
Proof.
  induction cs as [|c' cs IH]; simpl; [set_solver|].
  destruct (decide (dc_Denom c' = dc_Denom c)) as [E|E]; simpl;
    rewrite ?elem_of_cons, ?IH; [rewrite E|]; tauto.
Qed.

Lemma dc_insert_NoDup c cs : NoDup (dc_Denom <$> cs) → NoDup (dc_Denom <$> dc_insert c cs).
Proof.
  induction cs as [|c' cs IH]; simpl; [repeat constructor; set_solver|].
  intros [Hn Hd]%NoDup_cons. case_decide as E; simpl.
  - apply NoDup_cons. by rewrite <- E.
  - apply NoDup_cons. split; [|auto]. rewrite dc_insert_denoms. intros [?|?]; [by apply E|done].
Qed.

Definition dc_map (f : Dec → outcome Dec) : DecCoins → outcome DecCoins :=
  fix go cs :=
    match cs with
    | [] => Ok []
    | c :: cs => x ← f (dc_Amount c); r ← go cs; Ok (mkDecCoin (dc_Denom c) x :: r)
    end.

Lemma dc_map_denoms f cs r : dc_map f cs = Ok r → dc_Denom <$> r = dc_Denom <$> cs.
Proof.
  revert r. induction cs as [|c cs IH]; intros r E; [by injection E as <-|].
  cbn in E. inv_ok E. subst. simpl. f_equal. eauto.
Qed.

Lemma amt_not_in d (cs : DecCoins) : d ∉ (dc_Denom <$> cs) → deccoins_amt d cs = 0.
Proof.
  induction cs as [|c cs IH]; simpl; [done|]. intros [Hn Hd]%not_elem_of_cons.
  rewrite decide_False by (intros E; by apply Hn). by rewrite IH.
Qed.

Lemma dc_map_amt f cs r d :
  f 0 = Ok 0 → dc_map f cs = Ok r → NoDup (dc_Denom <$> cs) →
  f (deccoins_amt d cs) = Ok (deccoins_amt d r).
Proof.
  intros F0. revert r. induction cs as [|c cs IH]; intros r E Hd; [injection E as <-; by simpl|].
  pose proof (dc_map_denoms _ _ _ E) as Hden.
  cbn in E. inv_ok E. subst. simpl in *. apply NoDup_cons in Hd as [Hn Hd]. injection Hden as Hden.
  case_decide as Ed.
  - subst d. rewrite amt_not_in by done. rewrite amt_not_in by (unfold fmap in *; rewrite Hden; done). by rewrite !Z.add_0_r.
  - rewrite !Z.add_0_l. eauto.
Qed.

Definition dec_coins (cs : Coins) : DecCoins := (fun c => mkDecCoin (Denom c) (ToDec (Amount c))) <$> cs.
Definition int_coins (cs : DecCoins) : Coins := (fun c => mkCoin (dc_Denom c) (dc_Amount c)) <$> cs.

Lemma int_coins_amt d cs : coins_amt d (int_coins cs) = deccoins_amt d cs.
Proof. induction cs as [|c cs IH]; simpl; [done|]. by rewrite IH. Qed.

(** Digits of a decimal number, with at most 18 after the point. *)
Fixpoint read_digits (acc : Z) (s : string) : option (Z * string) :=
  match s with
  | EmptyString => Some (acc, EmptyString)
  | String a r =>
      let n := Z.of_nat (nat_of_ascii a) in
      if (48 <=? n) && (n <=? 57) then read_digits (acc * 10 + (n - 48)) r
      else if n =? 46 then Some (acc, s) else None
  end.

Definition parse_dec (s : string) : outcome Dec :=
  let bad := Err (ErrExt "invalid decimal") in
  if (String.length s =? 0)%nat then bad else
  match read_digits 0 s with
  | Some (n, EmptyString) => Ok (ToDec n)
  | Some (n, String _ f) =>
      let k := Z.of_nat (String.length f) in
      match read_digits 0 f with
      | Some (m, EmptyString) => if (0 <? k) && (k <=? 18) then Ok (ToDec n + m * 10 ^ (18 - k)) else bad
      | _ => bad
      end
  | None => bad
  end.

#[export] Instance sdk_ext : SdkExt := {|
  Coins_Add a b := Ok (a ++ b)%list;
  NewDecCoinFromDec d x := if x <? 0 then Panic else Ok (mkDecCoin d x);
  DecCoins_Add cs c := Ok (dc_insert c cs);
  DecCoins_MulDec cs x := dc_map (fun a => Dec_Mul a x) cs;
  DecCoins_TruncateDecimal cs := r ← dc_map Dec_TruncateInt cs; Ok (int_coins r, []);
  NewDecCoinsFromCoins := dec_coins;
  NewDecFromStr := parse_dec;
  TokensToConsensusPower t r := x ← Int_Quo t r; if i64 x =? x then Ok x else Panic;
  ValAddressFromBech32 s :=
    if decide (s = ""%string) then Err (ErrExt "empty address string is not allowed") else Ok s;
  ValAddress_String a := a;
  tmhash_Truncated s := s;
|}.

#[export] Instance sdk_ext_laws : SdkExtLaws.
Proof.
  constructor; cbn -[Dec_Mul Dec_TruncateInt].
  - intros a b c E d. injection E as <-. induction a as [|x a IH]; simpl; [lia|]. rewrite IH. lia.
  - intros a b c x E Hx. injection E as <-. by exists x.
  - intros d x c E. destruct (Z.ltb_spec x 0); [discriminate|]. injection E as <-. by split.
  - intros a b c E Hd. injection E as <-. split; [by apply dc_insert_NoDup|]. intros. apply dc_insert_amt.
  - intros a x c E Hd. split; [by rewrite (dc_map_denoms _ _ _ E)|].
    intros d. apply (dc_map_amt (fun y => Dec_Mul y x)); [reflexivity|done|done].
  - intros a c r E Hd d. inv_ok E. simplify_eq. rewrite int_coins_amt.
    by apply (dc_map_amt Dec_TruncateInt a).
  - intros s a E. case_decide; [discriminate|]. injection E as <-. by rewrite decide_False.
  - intros s a E. case_decide; [discriminate|]. injection E as <-. by rewrite decide_False.
  - done.
Qed.

(** ** Staking and distribution *)
Record val_rec := mkVal { v_bonded : bool; v_jailed : bool; v_power : Z }.

Record stk := mkStk {
  stk_vals : gmap string val_rec;
  stk_order : list string;
  stk_slashes : list (string * Z * Dec);
}.

Definition val_view (a : string) (v : val_rec) : ValidatorI :=
  mkValidatorI (v_bonded v) (v_jailed v) a (Ok a) (fun _ => Ok (v_power v)).

#[export] Instance staking : StakingKeeper := {|
  staking_state := stk;
  Validator s a := val_view a <$> stk_vals s !! a;
  TotalBondedTokens s :=
    map_sum (fun _ v => if v_bonded v then v_power v else 0) (stk_vals s) * 10 ^ 6;
  ValidatorsPowerStore := stk_order;
  MaxValidators _ := 100;
  PowerReduction _ := 10 ^ 6;
  Slash s a h p f := Ok (mkStk (stk_vals s) (stk_order s) ((a, p, f) :: stk_slashes s));
  Jail s a :=
    Ok (mkStk (alter (fun v => mkVal false true (v_power v)) a (stk_vals s)) (stk_order s) (stk_slashes s));
|}.

#[export] Instance distr : DistrKeeper := {|
  distr_state := list (string * DecCoins);
  AllocateTokensToValidator d v cs := Ok ((GetOperator v, cs) :: d);
|}.
End SdkExtRef.
