(* ===== verification/OracleTypes.v ===== *)
(** Data of the oracle module ([src/x/oracle/types/]): parameters, votes and
    prevotes, the vote hash, the parser of exchange rate tuples, messages,
    proposals and their stateless validation, and the module's store. *)

From stdpp Require Import base gmap strings list sorting.
From Stdlib Require Import ZArith Lia Ascii.
From S2P Require Import Prelude GoStrings Sdk SdkExt Types MakerTypes.

#[local] Open Scope string_scope.
#[local] Open Scope Z_scope.

(** ** Sentinel errors ([errors.go]) *)

Definition oracle_err (code : Z) : error := ErrReg oracle_ModuleName code.
Definition ErrInvalidExchangeRate := oracle_err 2.
Definition ErrNoVotingPermission := oracle_err 5.
Definition ErrInvalidHash := oracle_err 6.
Definition ErrInvalidHashLength := oracle_err 7.
Definition ErrVerificationFailed := oracle_err 8.
Definition ErrRevealPeriodMissMatch := oracle_err 9.
Definition ErrInvalidSaltLength := oracle_err 10.
Definition ErrNoAggregatePrevote := oracle_err 11.
Definition ErrNoAggregateVote := oracle_err 12.
Definition ErrUnknownDenom := oracle_err 14.
Definition ErrExistingTarget := oracle_err 15.

(** Sentinels of the SDK and of its staking module. *)
Definition ErrUnknownRequest := ErrExt "sdk/unknown request".
Definition ErrNoValidatorFound := ErrExt "staking/validator does not exist".
Definition InvalidArgument := ErrExt "grpc/invalid argument".

(** ** Parameters ([params.go]) *)

Record OracleParams := mkOracleParams {
  op_VotePeriod : Z;
  op_VoteThreshold : Dec;
  op_RewardBand : Dec;
  op_RewardDistributionWindow : Z;
  op_SlashFraction : Dec;
  op_SlashWindow : Z;
  op_MinValidPerWindow : Dec;
}.

Definition DefaultVotePeriod : Z := BlocksPerMinute.
Definition DefaultSlashWindow : Z := BlocksPerWeek.
Definition DefaultRewardDistributionWindow : Z := BlocksPerYear.
Definition DefaultVoteThreshold : Dec := NewDecWithPrec 50 2.
Definition DefaultRewardBand : Dec := NewDecWithPrec 2 2.
Definition DefaultSlashFraction : Dec := NewDecWithPrec 1 4.
Definition DefaultMinValidPerWindow : Dec := NewDecWithPrec 5 2.

Definition oracle_DefaultParams : OracleParams :=
  mkOracleParams DefaultVotePeriod DefaultVoteThreshold DefaultRewardBand
    DefaultRewardDistributionWindow DefaultSlashFraction DefaultSlashWindow
    DefaultMinValidPerWindow.

Definition oracle_Params_Validate (p : OracleParams) : outcome unit :=
  fail_if op_VotePeriod p =? 0 with Errorf "VotePeriod must be > 0" ;;
  fail_if op_VoteThreshold p <=? NewDecWithPrec 33 2
    with Errorf "VoteThreshold must be greater than 33 percent" ;;
  fail_if (OneDec <? op_RewardBand p) || (op_RewardBand p <? 0)
    with Errorf "RewardBand must be between [0, 1]" ;;
  fail_if op_RewardDistributionWindow p <? op_VotePeriod p
    with Errorf "RewardDistributionWindow must be greater than or equal with VotePeriod" ;;
  fail_if (OneDec <? op_SlashFraction p) || (op_SlashFraction p <? 0)
    with Errorf "SlashFraction must be between [0, 1]" ;;
  fail_if op_SlashWindow p <? op_VotePeriod p
    with Errorf "SlashWindow must be greater than or equal with VotePeriod" ;;
  fail_if (OneDec <? op_MinValidPerWindow p) || (op_MinValidPerWindow p <? 0)
    with Errorf "MinValidPerWindow must be between [0, 1]" ;;
  Ok tt.

(** The validators of the single parameters, which a parameter change runs. *)
Definition validateVotePeriod (v : Z) : outcome unit :=
  fail_if v =? 0 with Errorf "vote period must be positive" ;; Ok tt.
Definition validateVoteThreshold (v : Dec) : outcome unit :=
  fail_if v <? NewDecWithPrec 33 2 with Errorf "vote threshold must be bigger than 33%" ;;
  fail_if OneDec <? v with Errorf "vote threshold too large" ;; Ok tt.
Definition validateRewardBand (v : Dec) : outcome unit :=
  fail_if v <? 0 with Errorf "reward band must be positive" ;;
  fail_if OneDec <? v with Errorf "reward band is too large" ;; Ok tt.
Definition validateRewardDistributionWindow (v : Z) : outcome unit :=
  fail_if v =? 0 with Errorf "reward distribution window must be positive" ;; Ok tt.
Definition validateSlashFraction (v : Dec) : outcome unit :=
  fail_if v <? 0 with Errorf "slash fraction must be positive" ;;
  fail_if OneDec <? v with Errorf "slash fraction is too large" ;; Ok tt.
Definition validateSlashWindow (v : Z) : outcome unit :=
  fail_if v =? 0 with Errorf "slash window must be positive" ;; Ok tt.
Definition validateMinValidPerWindow (v : Dec) : outcome unit :=
  fail_if v <? 0 with Errorf "min valid per window must be positive" ;;
  fail_if OneDec <? v with Errorf "min valid per window is too large" ;; Ok tt.

(** [ParamSetPairs]: the pairs in their order, each with its validator. *)
Definition oracle_ParamSetPairs (p : OracleParams) : outcome unit :=
  _ ← validateVotePeriod (op_VotePeriod p);
  _ ← validateVoteThreshold (op_VoteThreshold p);
  _ ← validateRewardBand (op_RewardBand p);
  _ ← validateRewardDistributionWindow (op_RewardDistributionWindow p);
  _ ← validateSlashFraction (op_SlashFraction p);
  _ ← validateSlashWindow (op_SlashWindow p);
  validateMinValidPerWindow (op_MinValidPerWindow p).

(** ** Votes ([oracle.proto], [vote.go]) *)

Record ExchangeRateTuple := mkTuple { ert_Denom : string; ert_ExchangeRate : Dec }.

Record AggregatePrevote := mkPrevote {
  apv_Hash : string; apv_Voter : string; apv_SubmitBlock : Z }.

Record AggregateVote := mkVote {
  av_ExchangeRateTuples : list ExchangeRateTuple; av_Voter : string }.

Section Parse.
Context `{Sdk, SdkExt}.

(** One element of the list: [denom:rate].  The trimmed amount only appears
    in the error; the untrimmed one is parsed. *)
Definition parse_tuple (tupleStr : string) : outcome ExchangeRateTuple :=
  match Split ":"%char (TrimSpace tupleStr) with
  | [denomStr; rateStr] =>
      let denom := TrimSpace denomStr in
      fail_if negb (ValidDenom denom) with Errorf "invalid denom" ;;
      match NewDecFromStr rateStr with
      | Ok amount => Ok (mkTuple denom amount)
      | Err _ => Err (Errorf "failed to parse decimal amount")
      | Panic => Panic
      end
  | _ => Err (Errorf "invalid exchange rate notation")
  end.

(** The loop over the elements, with the denominations seen so far
    ([duplicateCheckMap]). *)
Fixpoint parse_tuples (seen : list string) (tupleStrs : list string) :
    outcome (list ExchangeRateTuple) :=
  match tupleStrs with
  | [] => Ok []
  | tupleStr :: rest =>
      t ← parse_tuple tupleStr;
      fail_if bool_decide (ert_Denom t ∈ seen) with Errorf "duplicated denom" ;;
      ts ← parse_tuples (ert_Denom t :: seen) rest;
      Ok (t :: ts)
  end.

Definition ParseExchangeRateTuples (s : string) : outcome (list ExchangeRateTuple) :=
  let tuplesStr := TrimSpace s in
  if (String.length tuplesStr =? 0)%nat then Ok []
  else parse_tuples [] (Split ","%char tuplesStr).
End Parse.

(** ** The vote hash ([hash.go]): bytes, and their hexadecimal form *)

Definition hex_digit (n : nat) : Ascii.ascii :=
  Ascii.ascii_of_nat (if (n <? 10)%nat then 48 + n else 87 + n)%nat.

Definition hex_value (a : Ascii.ascii) : option nat :=
  let n := Ascii.nat_of_ascii a in
  if (48 <=? n)%nat && (n <=? 57)%nat then Some (n - 48)%nat
  else if (97 <=? n)%nat && (n <=? 102)%nat then Some (n - 87)%nat
  else if (65 <=? n)%nat && (n <=? 70)%nat then Some (n - 55)%nat
  else None.

(** [hex.EncodeToString] and [hex.DecodeString]. *)
Fixpoint AggregateVoteHash_String (h : string) : string :=
  match h with
  | "" => ""
  | String a h =>
      let n := Ascii.nat_of_ascii a in
      String (hex_digit (n / 16)%nat) (String (hex_digit (n mod 16)%nat) (AggregateVoteHash_String h))
  end.

Fixpoint AggregateVoteHashFromHexString (s : string) : outcome string :=
  match s with
  | "" => Ok ""
  | String a (String b s) =>
      match hex_value a, hex_value b with
      | Some x, Some y =>
          r ← AggregateVoteHashFromHexString s;
          Ok (String (Ascii.ascii_of_nat (16 * x + y)%nat) r)
      | _, _ => Err (ErrExt "encoding/hex: invalid byte")
      end
  | String _ "" => Err (ErrExt "encoding/hex: odd length hex string")
  end.

Definition GetAggregateVoteHash `{SdkExt} (salt exchangeRatesStr : string) (voter : Addr) : string :=
  tmhash_Truncated (salt ++ ";" ++ exchangeRatesStr ++ ";" ++ ValAddress_String voter).

(** [tmhash.TruncatedSize]. *)
Definition TruncatedSize : Z := 20.

Definition NewAggregateExchangeRatePrevote `{SdkExt} (hash : string) (voter : Addr)
    (submitBlock : Z) : AggregatePrevote :=
  mkPrevote (AggregateVoteHash_String hash) (ValAddress_String voter) submitBlock.

Definition NewAggregateExchangeRateVote `{SdkExt} (ts : list ExchangeRateTuple)
    (voter : Addr) : AggregateVote :=
  mkVote ts (ValAddress_String voter).

(** ** Messages ([tx.proto], [msgs.go]) *)

Record MsgAggregateExchangeRatePrevote := mkMsgPrevote {
  mp_Hash : string; mp_Feeder : string; mp_Validator : string }.
Record MsgAggregateExchangeRateVote := mkMsgVote {
  mv_Salt : string; mv_ExchangeRates : string; mv_Feeder : string; mv_Validator : string }.
Record MsgDelegateFeedConsent := mkMsgDelegate {
  md_Operator : string; md_Delegate : string }.

Section Msgs.
Context `{Sdk, SdkExt}.

Definition check_valoper (s : string) : outcome unit :=
  match ValAddressFromBech32 s with
  | Ok _ => Ok tt
  | Err _ => Err ErrInvalidAddress
  | Panic => Panic
  end.

(** The error of a parse, replaced by a sentinel of the module. *)
Definition wrap_err {A} (e : error) (m : outcome A) : outcome A :=
  match m with Err _ => Err e | _ => m end.

Definition MsgAggregateExchangeRatePrevote_ValidateBasic
    (m : MsgAggregateExchangeRatePrevote) : outcome unit :=
  _ ← wrap_err ErrInvalidHash (AggregateVoteHashFromHexString (mp_Hash m));
  fail_if negb (Z.of_nat (String.length (mp_Hash m)) =? TruncatedSize * 2)
    with ErrInvalidHashLength ;;
  _ ← check_bech32 (mp_Feeder m);
  check_valoper (mp_Validator m).

(** [big.Int.BitLen] of an absolute value. *)
Definition BitLen (x : Z) : Z := if x =? 0 then 0 else Z.log2 (Z.abs x) + 1.

Definition DecimalPrecisionBits : Z := 60.

Definition MsgAggregateExchangeRateVote_ValidateBasic
    (m : MsgAggregateExchangeRateVote) : outcome unit :=
  _ ← check_bech32 (mv_Feeder m);
  _ ← check_valoper (mv_Validator m);
  let l := Z.of_nat (String.length (mv_ExchangeRates m)) in
  fail_if l =? 0 with ErrUnknownRequest ;;
  fail_if 4096 <? l with ErrInvalidRequest ;;
  ts ← wrap_err ErrInvalidCoins (ParseExchangeRateTuples (mv_ExchangeRates m));
  fail_if existsb (fun t => 256 + DecimalPrecisionBits <? BitLen (ert_ExchangeRate t)) ts
    with ErrInvalidExchangeRate ;;
  let n := Z.of_nat (String.length (mv_Salt m)) in
  fail_if (4 <? n) || (n <? 1) with ErrInvalidSaltLength ;;
  Ok tt.

Definition MsgDelegateFeedConsent_ValidateBasic (m : MsgDelegateFeedConsent) : outcome unit :=
  _ ← check_valoper (md_Operator m);
  check_bech32 (md_Delegate m).
End Msgs.

(** ** Proposals ([proposal.go]) *)

Inductive TargetSource :=
| TARGET_SOURCE_UNSPECIFIED
| TARGET_SOURCE_VALIDATORS
| TARGET_SOURCE_DEX
| TARGET_SOURCE_INTERCHAIN_DEX
| TARGET_SOURCE_INTERCHAIN_ORACLE.

Record TargetParams := mkTargetParams {
  tp_Denom : string; tp_Source : TargetSource; tp_SourceDexContract : string }.

Definition validateTargetParams `{Sdk} (p : TargetParams) : outcome unit :=
  fail_if negb (ValidDenom (tp_Denom p)) with Errorf "invalid denom" ;;
  match tp_Source p with
  | TARGET_SOURCE_UNSPECIFIED => Err (Errorf "target source must be specified")
  | _ => Ok tt
  end.

(** ** The store ([keys.go]), one finite map per key prefix; the values under
    the two target prefixes are the denominations themselves. *)
Record OracleStore := mkOracleStore {
  os_Params : OracleParams;
  os_ExchangeRates : gmap string Dec;
  os_FeederDelegations : gmap string Addr;
  os_MissCounters : gmap string Z;
  os_Prevotes : gmap string AggregatePrevote;
  os_Votes : gmap string AggregateVote;
  os_VoteTargets : gmap string string;
  os_Targets : gmap string string;
}.

(** A store that holds exchange rates and nothing else. *)
Definition rates_only (r : gmap string Dec) : OracleStore :=
  mkOracleStore oracle_DefaultParams r ∅ ∅ ∅ ∅ ∅ ∅.

(** Keys of validators carry the length of the address first
    ([address.MustLengthPrefix]), which is the order an iterator follows. *)
Definition MustLengthPrefix (v : Addr) : string :=
  String (Ascii.ascii_of_nat (String.length v)) v.

Definition val_key_le {V} (a b : Addr * V) : Prop :=
  String.leb (MustLengthPrefix a.1) (MustLengthPrefix b.1) = true.

#[export] Instance val_key_le_dec {V} : RelDecision (@val_key_le V).
Proof. intros a b. apply bool_eq_dec. Defined.

Definition val_iter {V} (m : gmap string V) : list (Addr * V) :=
  merge_sort val_key_le (map_to_list m).

Lemma val_iter_perm {V} (m : gmap string V) : val_iter m ≡ₚ map_to_list m.
Proof. apply merge_sort_Permutation. Qed.

(** ** Genesis ([genesis.proto], [genesis.go]) *)

Record OracleGenesisState := mkOracleGenesis {
  og_Params : OracleParams;
  og_FeederDelegations : list (string * string);  (* feeder, validator *)
  og_ExchangeRates : list ExchangeRateTuple;
  og_MissCounters : list (string * Z);
  og_Prevotes : list AggregatePrevote;
  og_Votes : list AggregateVote;
}.

Definition oracle_DefaultGenesis : OracleGenesisState :=
  mkOracleGenesis oracle_DefaultParams [] [] [] [] [].

Definition oracle_GenesisState_Validate (gs : OracleGenesisState) : outcome unit :=
  oracle_Params_Validate (og_Params gs).
