(* ===== verification/GaugeTypes.v ===== *)
(** Data of the gauge and voter modules ([src/x/gauge/types/],
    [src/x/voter/types/]): store keys, rewards, checkpoints and the modules'
    stores. *)

From stdpp Require Import base gmap strings list.
From Stdlib Require Import ZArith Lia Ascii.
From S2P Require Import Prelude Sdk Types.

#[local] Open Scope string_scope.
#[local] Open Scope Z_scope.

Definition gauge_ModuleName : string := "gauge".
Definition voter_ModuleName : string := "voter".
Definition GaugePoolName : string := gauge_ModuleName.
Definition BribePoolName : string := "bribe".

Definition gauge_err (code : Z) : error := ErrReg gauge_ModuleName code.
Definition ErrInvalidDepositDenom := gauge_err 2.
Definition ErrInvalidAmount := gauge_err 3.
Definition ErrTooSmallRewardAmount := gauge_err 4.
Definition ErrTooLargeAmount := gauge_err 5.

(** ** Keys

    A byte prefix; [sdk.Uint64ToBigEndian] as eight bytes. *)
Definition byte_of (n : Z) : ascii := ascii_of_nat (Z.to_nat (n mod 256)).

Fixpoint big_endian (k : nat) (n : Z) : string :=
  match k with
  | O => ""
  | S k => String (byte_of (n / 256 ^ Z.of_nat k)) (big_endian k n)
  end.

Definition Uint64ToBigEndian (n : Z) : string := big_endian 8 n.

Definition prefixGaugeDenom : Z := 1.
Definition prefixBribeDenom : Z := 2.

Definition GaugeKey (denom : string) : string := String (byte_of prefixGaugeDenom) denom.
Definition BribeKey (denom : string) : string := String (byte_of prefixBribeDenom) denom.

(** Rewards are stored under the pool's key followed by the denomination, with
    nothing in between. *)
Definition RewardKey (gaugeOrBribe rewardDenom : string) : string := gaugeOrBribe ++ rewardDenom.
Definition UserVeIDByAddressKey (gaugeKey : string) (acc : Addr) : string := gaugeKey ++ acc.

(** ** Records ([gauge.proto]); the amount of a checkpoint that was never
    written is a nil [sdk.Int] *)
Record GaugePoint := mkGaugePoint { gp_Timestamp : Z; gp_Amount : option Z }.

Definition EmptyPoint : GaugePoint := mkGaugePoint 0 None.

Record Reward := mkReward {
  rw_Denom : string;
  rw_Rate : Z;
  rw_FinishTime : Z;
  rw_LastUpdateTime : Z;
  rw_CumulativePerTicket : Z;
  rw_AccruedAmount : Z;
}.

Record UserReward := mkUserReward {
  ur_Denom : string;
  ur_VeId : Z;
  ur_LastClaimTime : Z;
  ur_CumulativePerTicket : Z;
}.

(** ** The gauge store, one finite map per key prefix

    Keys that end in identifiers or epochs, which take eight bytes each, are
    pairs and triples here; the keys of rewards are the bytes themselves. *)
Record GaugeStore := mkGaugeStore {
  gs_Gauges : gmap string string;
  gs_TotalDeposited : gmap string Z;
  gs_Deposited : gmap (string * Z) Z;
  gs_TotalDerived : gmap string Z;
  gs_Derived : gmap (string * Z) Z;
  gs_Reward : gmap string Reward;
  gs_UserReward : gmap (string * Z) UserReward;
  gs_UserVeID : gmap string Z;
  gs_Epoch : gmap string Z;
  gs_Point : gmap (string * Z) GaugePoint;
  gs_UserEpoch : gmap (string * Z) Z;
  gs_UserPoint : gmap (string * Z * Z) GaugePoint;
  gs_RewardEpoch : gmap string Z;
  gs_RewardPoint : gmap (string * Z) GaugePoint;
}.

Definition gauge_store0 : GaugeStore := mkGaugeStore ∅ ∅ ∅ ∅ ∅ ∅ ∅ ∅ ∅ ∅ ∅ ∅ ∅ ∅.

(** One field replaced. *)
Section Fields.
Implicit Types s : GaugeStore.
Definition gs_set_Gauges x s := mkGaugeStore x (gs_TotalDeposited s) (gs_Deposited s)
  (gs_TotalDerived s) (gs_Derived s) (gs_Reward s) (gs_UserReward s) (gs_UserVeID s) (gs_Epoch s)
  (gs_Point s) (gs_UserEpoch s) (gs_UserPoint s) (gs_RewardEpoch s) (gs_RewardPoint s).
Definition gs_set_TotalDeposited x s := mkGaugeStore (gs_Gauges s) x (gs_Deposited s)
  (gs_TotalDerived s) (gs_Derived s) (gs_Reward s) (gs_UserReward s) (gs_UserVeID s) (gs_Epoch s)
  (gs_Point s) (gs_UserEpoch s) (gs_UserPoint s) (gs_RewardEpoch s) (gs_RewardPoint s).
Definition gs_set_Deposited x s := mkGaugeStore (gs_Gauges s) (gs_TotalDeposited s) x
  (gs_TotalDerived s) (gs_Derived s) (gs_Reward s) (gs_UserReward s) (gs_UserVeID s) (gs_Epoch s)
  (gs_Point s) (gs_UserEpoch s) (gs_UserPoint s) (gs_RewardEpoch s) (gs_RewardPoint s).
Definition gs_set_TotalDerived x s := mkGaugeStore (gs_Gauges s) (gs_TotalDeposited s) (gs_Deposited s)
  x (gs_Derived s) (gs_Reward s) (gs_UserReward s) (gs_UserVeID s) (gs_Epoch s)
  (gs_Point s) (gs_UserEpoch s) (gs_UserPoint s) (gs_RewardEpoch s) (gs_RewardPoint s).
Definition gs_set_Derived x s := mkGaugeStore (gs_Gauges s) (gs_TotalDeposited s) (gs_Deposited s)
  (gs_TotalDerived s) x (gs_Reward s) (gs_UserReward s) (gs_UserVeID s) (gs_Epoch s)
  (gs_Point s) (gs_UserEpoch s) (gs_UserPoint s) (gs_RewardEpoch s) (gs_RewardPoint s).
Definition gs_set_Reward x s := mkGaugeStore (gs_Gauges s) (gs_TotalDeposited s) (gs_Deposited s)
  (gs_TotalDerived s) (gs_Derived s) x (gs_UserReward s) (gs_UserVeID s) (gs_Epoch s)
  (gs_Point s) (gs_UserEpoch s) (gs_UserPoint s) (gs_RewardEpoch s) (gs_RewardPoint s).
Definition gs_set_UserReward x s := mkGaugeStore (gs_Gauges s) (gs_TotalDeposited s) (gs_Deposited s)
  (gs_TotalDerived s) (gs_Derived s) (gs_Reward s) x (gs_UserVeID s) (gs_Epoch s)
  (gs_Point s) (gs_UserEpoch s) (gs_UserPoint s) (gs_RewardEpoch s) (gs_RewardPoint s).
Definition gs_set_UserVeID x s := mkGaugeStore (gs_Gauges s) (gs_TotalDeposited s) (gs_Deposited s)
  (gs_TotalDerived s) (gs_Derived s) (gs_Reward s) (gs_UserReward s) x (gs_Epoch s)
  (gs_Point s) (gs_UserEpoch s) (gs_UserPoint s) (gs_RewardEpoch s) (gs_RewardPoint s).
Definition gs_set_Epoch x s := mkGaugeStore (gs_Gauges s) (gs_TotalDeposited s) (gs_Deposited s)
  (gs_TotalDerived s) (gs_Derived s) (gs_Reward s) (gs_UserReward s) (gs_UserVeID s) x
  (gs_Point s) (gs_UserEpoch s) (gs_UserPoint s) (gs_RewardEpoch s) (gs_RewardPoint s).
Definition gs_set_Point x s := mkGaugeStore (gs_Gauges s) (gs_TotalDeposited s) (gs_Deposited s)
  (gs_TotalDerived s) (gs_Derived s) (gs_Reward s) (gs_UserReward s) (gs_UserVeID s) (gs_Epoch s)
  x (gs_UserEpoch s) (gs_UserPoint s) (gs_RewardEpoch s) (gs_RewardPoint s).
Definition gs_set_UserEpoch x s := mkGaugeStore (gs_Gauges s) (gs_TotalDeposited s) (gs_Deposited s)
  (gs_TotalDerived s) (gs_Derived s) (gs_Reward s) (gs_UserReward s) (gs_UserVeID s) (gs_Epoch s)
  (gs_Point s) x (gs_UserPoint s) (gs_RewardEpoch s) (gs_RewardPoint s).
Definition gs_set_UserPoint x s := mkGaugeStore (gs_Gauges s) (gs_TotalDeposited s) (gs_Deposited s)
  (gs_TotalDerived s) (gs_Derived s) (gs_Reward s) (gs_UserReward s) (gs_UserVeID s) (gs_Epoch s)
  (gs_Point s) (gs_UserEpoch s) x (gs_RewardEpoch s) (gs_RewardPoint s).
Definition gs_set_RewardEpoch x s := mkGaugeStore (gs_Gauges s) (gs_TotalDeposited s) (gs_Deposited s)
  (gs_TotalDerived s) (gs_Derived s) (gs_Reward s) (gs_UserReward s) (gs_UserVeID s) (gs_Epoch s)
  (gs_Point s) (gs_UserEpoch s) (gs_UserPoint s) x (gs_RewardPoint s).
Definition gs_set_RewardPoint x s := mkGaugeStore (gs_Gauges s) (gs_TotalDeposited s) (gs_Deposited s)
  (gs_TotalDerived s) (gs_Derived s) (gs_Reward s) (gs_UserReward s) (gs_UserVeID s) (gs_Epoch s)
  (gs_Point s) (gs_UserEpoch s) (gs_UserPoint s) (gs_RewardEpoch s) x.
End Fields.

(** ** The voter store

    Votes of pools and votes of users are both written under the prefix of
    pool votes: [PoolWeightedVotesByUserKey] does not use its own.  The map
    [vo_Votes] is that prefix, keyed by what follows it. *)
Definition PoolWeightedVotesKey (poolDenom : string) : string := poolDenom.
Definition PoolWeightedVotesByUserKey (veID : Z) (poolDenom : string) : string :=
  Uint64ToBigEndian veID ++ poolDenom.

Record VoterStore := mkVoterStore {
  vo_TotalVotes : option Z;
  vo_TotalVotesByUser : gmap Z Z;
  vo_Votes : gmap string Z;
  vo_Index : option Z;
  vo_IndexAtLastUpdated : gmap string Z;
  vo_Claimable : gmap string Z;
}.

Definition voter_store0 : VoterStore := mkVoterStore None ∅ ∅ None ∅ ∅.

(** ** Big-endian keys are injective *)

Fixpoint be_value (s : string) : Z :=
  match s with
  | "" => 0
  | String a s => Z.of_nat (nat_of_ascii a) * 256 ^ Z.of_nat (String.length s) + be_value s
  end.

Lemma big_endian_length k n : String.length (big_endian k n) = k.
Proof. induction k as [|k IH]; simpl; [done|]. by rewrite IH. Qed.

Lemma byte_of_value n : Z.of_nat (nat_of_ascii (byte_of n)) = n mod 256.
Proof.
  unfold byte_of. pose proof (Z.mod_pos_bound n 256 ltac:(lia)).
  rewrite nat_ascii_embedding by lia. lia.
Qed.

Lemma be_value_big_endian k n : 0 ≤ n → be_value (big_endian k n) = n mod 256 ^ Z.of_nat k.
Proof.
  intros Hn. induction k as [|k IH]; [simpl; by rewrite Z.mod_1_r|].
  cbn [big_endian be_value]. rewrite big_endian_length, byte_of_value, IH.
  rewrite Nat2Z.inj_succ, Z.pow_succ_r by lia.
  rewrite (Z.mul_comm 256), Z.rem_mul_r by lia. lia.
Qed.

Lemma Uint64ToBigEndian_inj n m :
  0 ≤ n < 2 ^ 64 → 0 ≤ m < 2 ^ 64 → Uint64ToBigEndian n = Uint64ToBigEndian m → n = m.
Proof.
  intros Hn Hm E. apply (f_equal be_value) in E. unfold Uint64ToBigEndian in E.
  rewrite !be_value_big_endian in E by lia. change (256 ^ Z.of_nat 8) with (2 ^ 64) in E.
  by rewrite !Z.mod_small in E by lia.
Qed.
