(* ===== verification/VestingTypes.v ===== *)
(** Data of the vesting module ([src/x/vesting/types/]): the allocation of the
    initial supply, airdrops, messages and their stateless validation. *)

From stdpp Require Import base gmap strings list.
From Stdlib Require Import ZArith Lia.
From S2P Require Import Prelude Sdk SdkExt Types MakerTypes OracleTypes.

#[local] Open Scope string_scope.
#[local] Open Scope Z_scope.

Definition vesting_ModuleName : string := "vesting".

(** ** Constants ([constants.go]) *)
Definition StakingRewardVestingName : string := "staking_reward_vesting".
Definition CommunityPoolVestingName : string := "community_pool_vesting".
Definition TeamVestingName : string := "team_vesting".
Definition StakingRewardVestingTime : Z := SecondsPer4Years.
Definition CommunityPoolVestingTime : Z := SecondsPer4Years.
Definition TeamVestingTime : Z := SecondsPer4Years.
Definition ClaimVestedPeriod : Z := 10.

(** ** Parameters ([params.go]) *)
Record AllocationAmounts := mkAllocation {
  al_TotalAmount : Z;
  al_AirdropAmount : Z;
  al_VeVestingAmount : Z;
  al_StakingRewardAmount : Z;
  al_CommunityPoolAmount : Z;
  al_StrategicReserveAmount : Z;
  al_TeamVestingAmount : Z;
}.

(** [ethermint.PowerReduction] is 10^18. *)
Definition DefaultTotalAmount : Z := 10 ^ 9 * 10 ^ 18.
Definition DefaultAirdropAmountRate : Dec := NewDecWithPrec 5 2.
Definition DefaultVeVestingAmountRate : Dec := NewDecWithPrec 45 2.
Definition DefaultStakingRewardAmountRate : Dec := NewDecWithPrec 5 2.
Definition DefaultCommunityPoolAmountRate : Dec := NewDecWithPrec 5 2.
Definition DefaultStrategicReserveAmountRate : Dec := NewDecWithPrec 20 2.
Definition DefaultTeamVestingAmountRate : Dec := NewDecWithPrec 20 2.

Section Params.
Context `{Sdk}.

(** The sum of the six parts, added from the left. *)
Definition allocated (v : AllocationAmounts) : outcome Z :=
  a ← Int_Add (al_AirdropAmount v) (al_VeVestingAmount v);
  a ← Int_Add a (al_StakingRewardAmount v);
  a ← Int_Add a (al_CommunityPoolAmount v);
  a ← Int_Add a (al_StrategicReserveAmount v);
  Int_Add a (al_TeamVestingAmount v).

Definition validateAllocationAmounts (v : AllocationAmounts) : outcome unit :=
  sum ← allocated v;
  fail_if negb (al_TotalAmount v =? sum)
    with Errorf "sum of all allocation amounts must be equal to total amount" ;; Ok tt.

Definition default_part (rate : Dec) : outcome Z :=
  x ← Dec_Mul (ToDec DefaultTotalAmount) rate; Dec_TruncateInt x.

Definition vesting_DefaultParams : outcome AllocationAmounts :=
  airdrop ← default_part DefaultAirdropAmountRate;
  veVesting ← default_part DefaultVeVestingAmountRate;
  stakingReward ← default_part DefaultStakingRewardAmountRate;
  communityPool ← default_part DefaultCommunityPoolAmountRate;
  strategicReserve ← default_part DefaultStrategicReserveAmountRate;
  teamVesting ← default_part DefaultTeamVestingAmountRate;
  let v := mkAllocation DefaultTotalAmount airdrop veVesting stakingReward communityPool
             strategicReserve teamVesting in
  sum ← allocated v;
  if DefaultTotalAmount =? sum then Ok v else Panic.
End Params.

(** ** Addresses and airdrops ([genesis.go]); an empty string is an empty
    address, one that does not parse panics *)
Record AllocationAddresses := mkAddresses {
  aa_TeamVestingAddr : string; aa_StrategicReserveCustodianAddr : string }.

Record Airdrop := mkAirdrop { ad_TargetAddr : string; ad_Amount : Coin }.

Section Addresses.
Context `{Sdk}.

Definition addr_or_empty (s : string) : outcome Addr :=
  if (String.length s =? 0)%nat then Ok ""
  else match AccAddressFromBech32 s with Ok a => Ok a | _ => Panic end.

Definition GetStrategicReserveCustodianAddr (a : AllocationAddresses) : outcome Addr :=
  addr_or_empty (aa_StrategicReserveCustodianAddr a).
Definition GetTeamVestingAddr (a : AllocationAddresses) : outcome Addr :=
  addr_or_empty (aa_TeamVestingAddr a).
Definition GetTargetAddr (a : Airdrop) : outcome Addr := addr_or_empty (ad_TargetAddr a).
Definition Airdrop_Empty (a : Airdrop) : bool := (String.length (ad_TargetAddr a) =? 0)%nat.
End Addresses.

(** ** Messages ([msgs.go]) *)
Record MsgAddAirdrops := mkMsgAddAirdrops { ma_Sender : string; ma_Airdrops : list Airdrop }.
Record MsgExecuteAirdrops := mkMsgExecuteAirdrops { me_Sender : string; me_MaxCount : Z }.
Record MsgSetAllocationAddress := mkMsgSetAllocationAddress {
  ms_Sender : string; ms_TeamVestingAddr : string; ms_StrategicReserveCustodianAddr : string }.

(** [sdk.ParseCoinNormalized(coin.String())] and [Coin.Validate]. *)
Class CoinParser := {
  ParseCoinNormalized : Coin → outcome Coin;
  Coin_Validate : Coin → outcome unit;
}.

(** A coin that parses has no negative amount. *)
Class CoinParserLaws `{Sdk, CoinParser} : Prop := {
  ParseCoinNormalized_nonneg c c' : ParseCoinNormalized c = Ok c' → 0 ≤ Amount c';
}.

Section Msgs.
Context `{Sdk, CoinParser}.

Definition check_airdrop (a : Airdrop) : outcome unit :=
  _ ← check_bech32 (ad_TargetAddr a);
  _ ← Coin_Validate (ad_Amount a);
  _ ← ParseCoinNormalized (ad_Amount a);
  Ok tt.

Definition MsgAddAirdrops_ValidateBasic (m : MsgAddAirdrops) : outcome unit :=
  _ ← check_bech32 (ma_Sender m);
  for_each (fun _ a => check_airdrop a) (ma_Airdrops m) tt.

Definition MsgExecuteAirdrops_ValidateBasic (m : MsgExecuteAirdrops) : outcome unit :=
  _ ← check_bech32 (me_Sender m);
  fail_if me_MaxCount m =? 0 with ErrInvalidRequest ;; Ok tt.

Definition MsgSetAllocationAddress_ValidateBasic (m : MsgSetAllocationAddress) : outcome unit :=
  _ ← check_bech32 (ms_Sender m);
  _ ← check_bech32_opt (ms_TeamVestingAddr m);
  check_bech32_opt (ms_StrategicReserveCustodianAddr m).
End Msgs.

(** ** The store ([keys.go]) and the genesis state *)
Record VestingStore := mkVestingStore {
  vst_Params : AllocationAmounts;
  vst_Addresses : option AllocationAddresses;
  vst_AirdropTotal : option Z;
  vst_Airdrops : gmap string Airdrop;
  vst_Completed : gmap string Airdrop;
}.

Definition vesting_store0 (p : AllocationAmounts) : VestingStore := mkVestingStore p None None ∅ ∅.

Record VestingGenesisState := mkVestingGenesis {
  vg_Params : AllocationAmounts; vg_AllocationAddresses : AllocationAddresses }.

Definition vesting_GenesisState_Validate `{Sdk} (gs : VestingGenesisState) : outcome unit :=
  validateAllocationAmounts (vg_Params gs).
