(* ===== verification/World.v ===== *)
(** The chain state the handlers run on: the stores of the modules and the
    state of the bank and nft keepers.  Handlers are functions of the context,
    the world and their arguments; a returned world replaces the old one, an
    error or a panic discards it (a transaction's writes are dropped). *)

From stdpp Require Import base gmap strings list.
From Stdlib Require Import ZArith Lia.
From S2P Require Import Prelude Sdk Types MakerTypes VeTypes OracleTypes GaugeTypes VestingTypes.

#[local] Open Scope Z_scope.

Record World `{BankKeeper, NftKeeper} := mkWorld {
  w_maker : MakerStore;
  w_oracle : OracleStore;
  w_ve : VeStore;
  w_gauge : GaugeStore;
  w_voter : VoterStore;
  w_vesting : VestingStore;
  w_bank : bank_state;
  w_nft : nft_state;
}.

Section World.
Context `{BankKeeper, NftKeeper}.

Definition set_maker (s : MakerStore) (w : World) : World :=
  mkWorld _ _ s (w_oracle w) (w_ve w) (w_gauge w) (w_voter w) (w_vesting w) (w_bank w) (w_nft w).
Definition set_oracle (s : OracleStore) (w : World) : World :=
  mkWorld _ _ (w_maker w) s (w_ve w) (w_gauge w) (w_voter w) (w_vesting w) (w_bank w) (w_nft w).
Definition set_ve (s : VeStore) (w : World) : World :=
  mkWorld _ _ (w_maker w) (w_oracle w) s (w_gauge w) (w_voter w) (w_vesting w) (w_bank w) (w_nft w).
Definition set_gauge (s : GaugeStore) (w : World) : World :=
  mkWorld _ _ (w_maker w) (w_oracle w) (w_ve w) s (w_voter w) (w_vesting w) (w_bank w) (w_nft w).
Definition set_voter (s : VoterStore) (w : World) : World :=
  mkWorld _ _ (w_maker w) (w_oracle w) (w_ve w) (w_gauge w) s (w_vesting w) (w_bank w) (w_nft w).
Definition set_vesting (s : VestingStore) (w : World) : World :=
  mkWorld _ _ (w_maker w) (w_oracle w) (w_ve w) (w_gauge w) (w_voter w) s (w_bank w) (w_nft w).
Definition set_bank (s : bank_state) (w : World) : World :=
  mkWorld _ _ (w_maker w) (w_oracle w) (w_ve w) (w_gauge w) (w_voter w) (w_vesting w) s (w_nft w).
Definition set_nft (s : nft_state) (w : World) : World :=
  mkWorld _ _ (w_maker w) (w_oracle w) (w_ve w) (w_gauge w) (w_voter w) (w_vesting w) (w_bank w) s.

(** A call of a bank operation that changes the bank's state. *)
Definition on_bank (f : bank_state → outcome bank_state) (w : World) : outcome World :=
  b ← f (w_bank w); Ok (set_bank b w).
Definition on_nft (f : nft_state → outcome nft_state) (w : World) : outcome World :=
  n ← f (w_nft w); Ok (set_nft n w).

(** [oracle/keeper.GetExchangeRate]. *)
Definition GetExchangeRate (w : World) (denom : string) : outcome Dec :=
  match os_ExchangeRates (w_oracle w) !! denom with
  | Some r => Ok r
  | None => Err ErrUnknownDenom
  end.
End World.
