(* ===== verification/OracleKeeper.v ===== *)
(** The oracle keeper ([src/x/oracle/keeper/keeper.go], [params.go],
    [grpc_query.go], [src/x/oracle/genesis.go]): access to the store, the
    feeder check, queries and genesis.  The handlers of the module run on a
    [Chain]: the modules' stores with the state of the staking and
    distribution keepers. *)

From stdpp Require Import base gmap strings list.
From Stdlib Require Import ZArith Lia.
From S2P Require Import Prelude Sdk SdkExt Types MakerTypes VeTypes OracleTypes World.

#[local] Open Scope string_scope.
#[local] Open Scope Z_scope.

(** ** One field of the store replaced *)
Section Fields.
Implicit Types s : OracleStore.
Definition with_params p s := mkOracleStore p (os_ExchangeRates s) (os_FeederDelegations s)
  (os_MissCounters s) (os_Prevotes s) (os_Votes s) (os_VoteTargets s) (os_Targets s).
Definition with_rates r s := mkOracleStore (os_Params s) r (os_FeederDelegations s)
  (os_MissCounters s) (os_Prevotes s) (os_Votes s) (os_VoteTargets s) (os_Targets s).
Definition with_feeders r s := mkOracleStore (os_Params s) (os_ExchangeRates s) r
  (os_MissCounters s) (os_Prevotes s) (os_Votes s) (os_VoteTargets s) (os_Targets s).
Definition with_misses r s := mkOracleStore (os_Params s) (os_ExchangeRates s)
  (os_FeederDelegations s) r (os_Prevotes s) (os_Votes s) (os_VoteTargets s) (os_Targets s).
Definition with_prevotes r s := mkOracleStore (os_Params s) (os_ExchangeRates s)
  (os_FeederDelegations s) (os_MissCounters s) r (os_Votes s) (os_VoteTargets s) (os_Targets s).
Definition with_votes r s := mkOracleStore (os_Params s) (os_ExchangeRates s)
  (os_FeederDelegations s) (os_MissCounters s) (os_Prevotes s) r (os_VoteTargets s) (os_Targets s).
Definition with_vote_targets r s := mkOracleStore (os_Params s) (os_ExchangeRates s)
  (os_FeederDelegations s) (os_MissCounters s) (os_Prevotes s) (os_Votes s) r (os_Targets s).
Definition with_targets r s := mkOracleStore (os_Params s) (os_ExchangeRates s)
  (os_FeederDelegations s) (os_MissCounters s) (os_Prevotes s) (os_Votes s) (os_VoteTargets s) r.
End Fields.

(** ** The store as the keeper reads and writes it *)
Section Keeper.
Implicit Types s : OracleStore.

Definition oracle_GetParams s : OracleParams := os_Params s.
(** [SetParamSet] panics when a validator of a pair rejects its value. *)
Definition oracle_SetParams s (p : OracleParams) : outcome OracleStore :=
  match oracle_ParamSetPairs p with Ok _ => Ok (with_params p s) | _ => Panic end.
Definition VotePeriod s : Z := op_VotePeriod (os_Params s).
Definition VoteThreshold s : Dec := op_VoteThreshold (os_Params s).
Definition RewardBand s : Dec := op_RewardBand (os_Params s).
Definition RewardDistributionWindow s : Z := op_RewardDistributionWindow (os_Params s).
Definition SlashFraction s : Dec := op_SlashFraction (os_Params s).
Definition SlashWindow s : Z := op_SlashWindow (os_Params s).
Definition MinValidPerWindow s : Dec := op_MinValidPerWindow (os_Params s).

Definition SetExchangeRate s (denom : string) (rate : Dec) : OracleStore :=
  with_rates (<[denom := rate]> (os_ExchangeRates s)) s.
Definition DeleteExchangeRate s (denom : string) : OracleStore :=
  with_rates (delete denom (os_ExchangeRates s)) s.
Definition IterateExchangeRates s : list (string * Dec) := kv_iter (os_ExchangeRates s).

(** By default the right to vote is the operator's own. *)
Definition GetFeederDelegation s (operator : Addr) : Addr :=
  match os_FeederDelegations s !! operator with Some f => f | None => operator end.
Definition SetFeederDelegation s (operator delegate : Addr) : OracleStore :=
  with_feeders (<[operator := delegate]> (os_FeederDelegations s)) s.
Definition IterateFeederDelegations s : list (Addr * Addr) := val_iter (os_FeederDelegations s).

Definition GetMissCounter s (operator : Addr) : Z :=
  match os_MissCounters s !! operator with Some n => n | None => 0 end.
Definition SetMissCounter s (operator : Addr) (n : Z) : OracleStore :=
  with_misses (<[operator := n]> (os_MissCounters s)) s.
Definition DeleteMissCounter s (operator : Addr) : OracleStore :=
  with_misses (delete operator (os_MissCounters s)) s.
Definition IterateMissCounters s : list (Addr * Z) := val_iter (os_MissCounters s).

Definition GetAggregateExchangeRatePrevote s (voter : Addr) : outcome AggregatePrevote :=
  match os_Prevotes s !! voter with Some p => Ok p | None => Err ErrNoAggregatePrevote end.
Definition SetAggregateExchangeRatePrevote s (voter : Addr) (p : AggregatePrevote) : OracleStore :=
  with_prevotes (<[voter := p]> (os_Prevotes s)) s.
Definition DeleteAggregateExchangeRatePrevote s (voter : Addr) : OracleStore :=
  with_prevotes (delete voter (os_Prevotes s)) s.
Definition IterateAggregateExchangeRatePrevotes s : list (Addr * AggregatePrevote) :=
  val_iter (os_Prevotes s).

Definition GetAggregateExchangeRateVote s (voter : Addr) : outcome AggregateVote :=
  match os_Votes s !! voter with Some v => Ok v | None => Err ErrNoAggregateVote end.
Definition SetAggregateExchangeRateVote s (voter : Addr) (v : AggregateVote) : OracleStore :=
  with_votes (<[voter := v]> (os_Votes s)) s.
Definition DeleteAggregateExchangeRateVote s (voter : Addr) : OracleStore :=
  with_votes (delete voter (os_Votes s)) s.
Definition IterateAggregateExchangeRateVotes s : list (Addr * AggregateVote) :=
  val_iter (os_Votes s).

Definition IsVoteTarget s (denom : string) : bool := bool_decide (is_Some (os_VoteTargets s !! denom)).
Definition SetVoteTarget s (denom : string) : OracleStore :=
  with_vote_targets (<[denom := denom]> (os_VoteTargets s)) s.
Definition IterateVoteTargets s : list string := (kv_iter (os_VoteTargets s)).*1.
Definition GetVoteTargets s : list string := IterateVoteTargets s.
Definition ClearVoteTargets s : OracleStore :=
  foldl (fun s denom => with_vote_targets (delete denom (os_VoteTargets s)) s) s (IterateVoteTargets s).

Definition IsTarget s (denom : string) : bool := bool_decide (is_Some (os_Targets s !! denom)).
Definition SetTarget s (denom : string) : OracleStore :=
  with_targets (<[denom := denom]> (os_Targets s)) s.
Definition IterateTargets s : list string := (kv_iter (os_Targets s)).*1.
Definition GetTargets s : list string := IterateTargets s.
End Keeper.

(** ** The chain the oracle runs on *)

Record Chain `{BankKeeper, NftKeeper, StakingKeeper, DistrKeeper} := mkChain {
  ch_world : World;
  ch_staking : staking_state;
  ch_distr : distr_state;
}.

Section Chain.
Context `{Sdk, SdkExt, BankKeeper, NftKeeper, StakingKeeper, DistrKeeper}.
Implicit Types c : Chain.

Definition set_world (w : World) c : Chain := mkChain _ _ _ _ w (ch_staking c) (ch_distr c).
Definition set_staking (s : staking_state) c : Chain := mkChain _ _ _ _ (ch_world c) s (ch_distr c).
Definition set_distr (d : distr_state) c : Chain := mkChain _ _ _ _ (ch_world c) (ch_staking c) d.

Definition ch_oracle c : OracleStore := w_oracle (ch_world c).
Definition set_ch_oracle (s : OracleStore) c : Chain := set_world (set_oracle s (ch_world c)) c.

(** [ValidateFeeder]: the feeder is the operator or its delegate, and the
    validator is bonded. *)
Definition ValidateFeeder c (feederAddr validatorAddr : Addr) : outcome unit :=
  fail_if bool_decide (feederAddr ≠ validatorAddr) &&
          bool_decide (GetFeederDelegation (ch_oracle c) validatorAddr ≠ feederAddr)
    with ErrNoVotingPermission ;;
  match Validator (ch_staking c) validatorAddr with
  | None => Err ErrNoValidatorFound
  | Some val => fail_if negb (IsBonded val) with ErrNoValidatorFound ;; Ok tt
  end.

(** The balance of the module account in one denomination. *)
Definition GetRewardPool c (denom : string) : Coin :=
  GetBalance (w_bank (ch_world c)) (GetModuleAddress oracle_ModuleName) denom.
End Chain.

(** ** Queries ([grpc_query.go]); a nil request is rejected *)
Section Queries.
Context `{Sdk, SdkExt}.
Implicit Types s : OracleStore.

Definition with_req {R A} (req : option R) (k : R → outcome A) : outcome A :=
  match req with Some r => k r | None => Err InvalidArgument end.
Definition with_valoper {A} (a : string) (k : Addr → outcome A) : outcome A :=
  valAddr ← wrap_err InvalidArgument (ValAddressFromBech32 a); k valAddr.

Definition oracle_query_Params s (req : option unit) : outcome OracleParams :=
  with_req req (fun _ => Ok (oracle_GetParams s)).
Definition query_ExchangeRate s (req : option string) : outcome Dec :=
  with_req req (fun denom =>
    fail_if (String.length denom =? 0)%nat with InvalidArgument ;;
    match os_ExchangeRates s !! denom with Some r => Ok r | None => Err ErrUnknownDenom end).
Definition query_ExchangeRates s (req : option unit) : outcome DecCoins :=
  with_req req (fun _ =>
    for_each (fun acc '(d, r) => c ← NewDecCoinFromDec d r; Ok (acc ++ [c])%list)
      (IterateExchangeRates s) []).
Definition query_Actives s (req : option unit) : outcome (list string) :=
  with_req req (fun _ => Ok (IterateExchangeRates s).*1).
Definition query_VoteTargets s (req : option unit) : outcome (list string) :=
  with_req req (fun _ => Ok (GetVoteTargets s)).
Definition query_Targets s (req : option unit) : outcome (list string) :=
  with_req req (fun _ => Ok (GetTargets s)).
Definition query_FeederDelegation s (req : option string) : outcome string :=
  with_req req (fun a => with_valoper a (fun v =>
    Ok (AccAddress_String (GetFeederDelegation s v)))).
Definition query_MissCounter s (req : option string) : outcome Z :=
  with_req req (fun a => with_valoper a (fun v => Ok (GetMissCounter s v))).
Definition query_AggregatePrevote s (req : option string) : outcome AggregatePrevote :=
  with_req req (fun a => with_valoper a (GetAggregateExchangeRatePrevote s)).
Definition query_AggregatePrevotes s (req : option unit) : outcome (list AggregatePrevote) :=
  with_req req (fun _ => Ok (IterateAggregateExchangeRatePrevotes s).*2).
Definition query_AggregateVote s (req : option string) : outcome AggregateVote :=
  with_req req (fun a => with_valoper a (GetAggregateExchangeRateVote s)).
Definition query_AggregateVotes s (req : option unit) : outcome (list AggregateVote) :=
  with_req req (fun _ => Ok (IterateAggregateExchangeRateVotes s).*2).
End Queries.

(** ** Genesis ([genesis.go]); an address that does not parse panics *)
Section Genesis.
Context `{Sdk, SdkExt}.
Implicit Types s : OracleStore.

Definition must {A} (m : outcome A) : outcome A :=
  match m with Ok a => Ok a | _ => Panic end.

Definition init_delegation s (d : string * string) : outcome OracleStore :=
  voter ← must (ValAddressFromBech32 d.2);
  feeder ← must (AccAddressFromBech32 d.1);
  Ok (SetFeederDelegation s voter feeder).
Definition init_rate s (ex : ExchangeRateTuple) : outcome OracleStore :=
  Ok (SetExchangeRate s (ert_Denom ex) (ert_ExchangeRate ex)).
Definition init_miss s (mc : string * Z) : outcome OracleStore :=
  operator ← must (ValAddressFromBech32 mc.1); Ok (SetMissCounter s operator mc.2).
Definition init_prevote s (ap : AggregatePrevote) : outcome OracleStore :=
  valAddr ← must (ValAddressFromBech32 (apv_Voter ap));
  Ok (SetAggregateExchangeRatePrevote s valAddr ap).
Definition init_vote s (av : AggregateVote) : outcome OracleStore :=
  valAddr ← must (ValAddressFromBech32 (av_Voter av));
  Ok (SetAggregateExchangeRateVote s valAddr av).

Definition oracle_InitGenesis s (gs : OracleGenesisState) : outcome OracleStore :=
  s ← for_each init_delegation (og_FeederDelegations gs) s;
  s ← for_each init_rate (og_ExchangeRates gs) s;
  s ← for_each init_miss (og_MissCounters gs) s;
  s ← for_each init_prevote (og_Prevotes gs) s;
  s ← for_each init_vote (og_Votes gs) s;
  oracle_SetParams s (og_Params gs).

Definition oracle_ExportGenesis s : OracleGenesisState :=
  mkOracleGenesis (oracle_GetParams s)
    ((fun '(v, f) => (AccAddress_String f, ValAddress_String v)) <$> IterateFeederDelegations s)
    ((fun '(d, r) => mkTuple d r) <$> IterateExchangeRates s)
    ((fun '(v, n) => (ValAddress_String v, n)) <$> IterateMissCounters s)
    (IterateAggregateExchangeRatePrevotes s).*2
    (IterateAggregateExchangeRateVotes s).*2.
End Genesis.
