(* ===== verification/OracleBallot.v ===== *)
(** Ballots of the oracle ([src/x/oracle/types/ballot.go],
    [src/x/oracle/keeper/ballot.go], [src/x/oracle/tally.go]): how votes become
    ballots, the weighted median, the standard deviation, the choice of the
    reference denomination and the tally. *)

From stdpp Require Import base gmap strings list.
From Stdlib Require Import ZArith Lia.
From S2P Require Import Prelude Sdk SdkExt Types MakerTypes VeTypes OracleTypes World OracleKeeper.

#[local] Open Scope string_scope.
#[local] Open Scope Z_scope.

Record VoteForTally := mkVoteForTally {
  vt_ExchangeRate : Dec; vt_Denom : string; vt_Voter : Addr; vt_Power : Z }.

Abbreviation ExchangeRateBallot := (list VoteForTally).

Record Claim := mkClaim {
  cl_Power : Z; cl_Weight : Z; cl_WinCount : Z; cl_Recipient : Addr }.

Definition NewVoteForTally (rate : Dec) (denom : string) (voter : Addr) (power : Z) : VoteForTally :=
  mkVoteForTally rate denom voter power.
Definition NewClaim (power weight winCount : Z) (recipient : Addr) : Claim :=
  mkClaim power weight winCount recipient.

(** [Less]: by exchange rate. *)
Definition Less (a b : VoteForTally) : bool := vt_ExchangeRate a <? vt_ExchangeRate b.

(** [ToMap]: the positive rates by voter. *)
Definition ToMap (pb : ExchangeRateBallot) : gmap string Dec :=
  foldl (fun m v => if 0 <? vt_ExchangeRate v then <[vt_Voter v := vt_ExchangeRate v]> m else m) ∅ pb.

(** [Power]: the sum in [int64]. *)
Definition Power (pb : ExchangeRateBallot) : Z :=
  foldl (fun total v => i64 (total + vt_Power v)) 0 pb.

(** The loop of [WeightedMedian]: the first vote at which the accumulated
    power reaches half of the total. *)
Fixpoint median_from (totalPower pivot : Z) (pb : ExchangeRateBallot) : Dec :=
  match pb with
  | [] => ZeroDec
  | v :: pb =>
      let pivot := i64 (pivot + vt_Power v) in
      if Z.quot totalPower 2 <=? pivot then vt_ExchangeRate v
      else median_from totalPower pivot pb
  end.

Definition WeightedMedian (pb : ExchangeRateBallot) : Dec := median_from (Power pb) 0 pb.

Definition WeightedMedianWithAssertion (pb : ExchangeRateBallot) : outcome Dec :=
  if sort_IsSorted Less pb then Ok (WeightedMedian pb) else Panic.

(** ** Square roots through [float64]

    A finite positive [float64] as [m * 2 ^ e]: parsing a decimal rounds
    [a / b] to 53 significant bits, ties to even; [math.Sqrt] is correctly
    rounded; [%f] prints six decimals, ties to even. *)
Definition scale_div (a b k : Z) : Z * Z := if 0 <=? k then (a, b * 2 ^ k) else (a * 2 ^ (- k), b).

Definition round_div (a b : Z) : Z :=
  let q := a / b in let r := a mod b in
  if 2 * r <? b then q else if b <? 2 * r then q + 1 else if Z.even q then q else q + 1.

(** [strconv.ParseFloat] of the decimal [a / b], for [0 <= a] and [0 < b]. *)
Definition ParseFloat (a b : Z) : Z * Z :=
  if a =? 0 then (0, 0) else
  let e0 := Z.log2 a - Z.log2 b - 52 in
  let '(n0, d0) := scale_div a b e0 in
  let e := if n0 <? 2 ^ 52 * d0 then e0 - 1 else e0 in
  let '(n, d) := scale_div a b e in (round_div n d, e).

Definition math_Sqrt (f : Z * Z) : Z * Z :=
  let '(m, e) := f in
  if m =? 0 then (0, 0) else
  let t := (Z.log2 m + e - 104) / 2 in
  let n := m * 2 ^ (e - 2 * t) in
  let s := Z.sqrt n in ((if s * s + s <? n then s + 1 else s), t).

(** [sdk.NewDecFromStr(fmt.Sprintf("%f", f))]: six decimals in units of 10^-18. *)
Definition print_f (f : Z * Z) : Dec :=
  let '(n, d) := scale_div (f.1 * 10 ^ 6) 1 (- f.2) in round_div n d * 10 ^ 12.

Section Ballot.
Context `{Sdk, SdkExt, GoSort}.

(** One vote of a cross rate ballot: an abstention when the voter has no
    positive reference rate. *)
Definition cross_vote (bases : gmap string Dec) (v : VoteForTally) : outcome VoteForTally :=
  match bases !! vt_Voter v with
  | Some rateRM =>
      if 0 <? vt_ExchangeRate v then
        r ← Dec_Quo rateRM (vt_ExchangeRate v);
        Ok (mkVoteForTally r (vt_Denom v) (vt_Voter v) (vt_Power v))
      else Ok (mkVoteForTally ZeroDec (vt_Denom v) (vt_Voter v) 0)
  | None => Ok (mkVoteForTally ZeroDec (vt_Denom v) (vt_Voter v) 0)
  end.

Definition ToCrossRate (pb : ExchangeRateBallot) (bases : gmap string Dec) :
    outcome ExchangeRateBallot :=
  for_each (fun cb v => v ← cross_vote bases v; Ok (cb ++ [v])%list) pb [].

Definition ToCrossRateWithSort (pb : ExchangeRateBallot) (bases : gmap string Dec) :
    outcome ExchangeRateBallot :=
  cb ← ToCrossRate pb bases; Ok (sort_Sort Less cb).

(** The sum of squared deviations divided by the number of votes; the number
    is positive where it is called. *)
Definition variance (pb : ExchangeRateBallot) (median : Dec) : outcome Dec :=
  sum ← for_each (fun sum v =>
    deviation ← Dec_Sub (vt_ExchangeRate v) median;
    sq ← Dec_Mul deviation deviation;
    Dec_Add sum sq) pb ZeroDec;
  Dec_QuoInt sum (Z.of_nat (length pb)).

(** A panic of the arithmetic is recovered from: the deviation is then zero. *)
Definition StandardDeviation (pb : ExchangeRateBallot) (median : Dec) : Dec :=
  match pb with
  | [] => ZeroDec
  | _ =>
      match variance pb median with
      | Ok v => print_f (math_Sqrt (ParseFloat v precision))
      | _ => ZeroDec
      end
  end.

(** ** [tally.go] *)

(** A vote wins when it is within the spread of the median, or abstains; the
    upper bound is only computed for votes above the lower one. *)
Definition wins (median spread : Dec) (v : VoteForTally) : outcome bool :=
  let r := vt_ExchangeRate v in
  lo ← Dec_Sub median spread;
  if lo <=? r then
    hi ← Dec_Add median spread; Ok ((r <=? hi) || negb (0 <? r))
  else Ok (negb (0 <? r)).

(** A missing claim reads as the zero value of the struct. *)
Definition tally_vote (median spread : Dec) (claims : gmap string Claim) (v : VoteForTally) :
    outcome (gmap string Claim) :=
  won ← wins median spread v;
  if won : bool then
    let key := ValAddress_String (vt_Voter v) in
    let claim := default (mkClaim 0 0 0 "") (claims !! key) in
    Ok (<[key := mkClaim (cl_Power claim) (i64 (cl_Weight claim + vt_Power v))
                         (i64 (cl_WinCount claim + 1)) (cl_Recipient claim)]> claims)
  else Ok claims.

Definition Tally (pb : ExchangeRateBallot) (rewardBand : Dec) (claims : gmap string Claim) :
    outcome (Dec * gmap string Claim) :=
  weightedMedian ← WeightedMedianWithAssertion pb;
  let standardDeviation := StandardDeviation pb weightedMedian in
  halfBand ← Dec_QuoInt rewardBand 2;
  rewardSpread ← Dec_Mul weightedMedian halfBand;
  let rewardSpread := if rewardSpread <? standardDeviation then standardDeviation else rewardSpread in
  claims ← for_each (tally_vote weightedMedian rewardSpread) pb claims;
  Ok (weightedMedian, claims).

Definition ballotIsPassing (ballot : ExchangeRateBallot) (thresholdVotes : Z) : Z * bool :=
  let ballotPower := Power ballot in
  (ballotPower, negb (ballotPower =? 0) && (thresholdVotes <=? ballotPower)).

(** The state of the loop of [PickReferenceGridb]. *)
Record Pick := mkPick {
  pk_largest : Z;
  pk_ref : string;
  pk_targets : gmap string unit;
  pk_votes : gmap string ExchangeRateBallot;
}.

Definition pick_step (thresholdVotes : Z) (p : Pick) (e : string * ExchangeRateBallot) : Pick :=
  let '(denom, ballot) := e in
  match pk_targets p !! denom with
  | None => mkPick (pk_largest p) (pk_ref p) (pk_targets p) (delete denom (pk_votes p))
  | Some _ =>
      let '(power, ok) := ballotIsPassing ballot thresholdVotes in
      if negb ok then
        mkPick (pk_largest p) (pk_ref p) (delete denom (pk_targets p)) (delete denom (pk_votes p))
      else if (pk_largest p <? power) || (pk_largest p =? 0) then
        mkPick power denom (pk_targets p) (pk_votes p)
      else if (pk_largest p =? power) && String.ltb denom (pk_ref p) then
        mkPick (pk_largest p) denom (pk_targets p) (pk_votes p)
      else p
  end.
End Ballot.

Section Organize.
Context `{Sdk, SdkExt, GoSort}.

(** One vote of an active validator: every tuple joins the ballot of its
    denomination, abstentions with no power. *)
Definition add_tuple (voterAddr : Addr) (power : Z)
    (votes : gmap string ExchangeRateBallot) (t : ExchangeRateTuple) :
    gmap string ExchangeRateBallot :=
  let tmpPower := if negb (0 <? ert_ExchangeRate t) then 0 else power in
  <[ert_Denom t := (default [] (votes !! ert_Denom t) ++
      [NewVoteForTally (ert_ExchangeRate t) (ert_Denom t) voterAddr tmpPower])%list]> votes.

Definition aggregateHandler (claims : gmap string Claim)
    (votes : gmap string ExchangeRateBallot) (e : Addr * AggregateVote) :
    gmap string ExchangeRateBallot :=
  let '(voterAddr, vote) := e in
  match claims !! av_Voter vote with
  | Some claim => foldl (add_tuple voterAddr (cl_Power claim)) votes (av_ExchangeRateTuples vote)
  | None => votes
  end.

Definition OrganizeBallotByDenom (s : OracleStore) (claims : gmap string Claim) :
    gmap string ExchangeRateBallot :=
  sort_Sort Less <$> foldl (aggregateHandler claims) ∅ (IterateAggregateExchangeRateVotes s).
End Organize.
