(* ===== verification/OracleEnd.v ===== *)
(** The end of a block in the oracle module ([src/x/oracle/abci.go],
    [src/x/oracle/tally.go], [src/x/oracle/keeper/reward.go], [slash.go],
    [ballot.go]) and its messages and proposal ([msg_server.go],
    [proposal_handler.go], [handler.go]).  Loops over Go maps follow [range]. *)

From stdpp Require Import base gmap strings list.
From Stdlib Require Import ZArith Lia.
From S2P Require Import Prelude Sdk SdkExt Types MakerTypes VeTypes OracleTypes World OracleKeeper OracleBallot.

#[local] Open Scope string_scope.
#[local] Open Scope Z_scope.

(** [sdk.ValidatorUpdateDelay]. *)
Definition ValidatorUpdateDelay : Z := 1.

(** The name of the distribution module, [distrName] of the keeper. *)
Definition distribution_ModuleName : string := "distribution".

(** The loops over Go maps, by where they are. *)
Definition site_pick : nat := 0.
Definition site_tally : nat := 1.
Definition site_miss : nat := 2.
Definition site_denoms : nat := 3.
Definition site_weights : nat := 4.
Definition site_winners : nat := 5.

Section EndBlock.
Context `{Sdk, SdkExt, BankKeeper, NftKeeper, StakingKeeper, DistrKeeper, GoSort, MapOrder}.
Implicit Types c : Chain.

(** The claims of the bonded validators, at most [MaxValidators] of them, in
    the order of their power. *)
Fixpoint build_claims (stk : staking_state) (i : Z) (vals : list Addr)
    (claims : gmap string Claim) : outcome (gmap string Claim) :=
  match vals with
  | [] => Ok claims
  | a :: vals =>
      if i <? MaxValidators stk then
        validator ← deref (Validator stk a);
        if IsBonded validator then
          power ← GetConsensusPower validator (PowerReduction stk);
          let valAddr := GetOperator validator in
          build_claims stk (i + 1) vals
            (<[ValAddress_String valAddr := NewClaim power 0 0 valAddr]> claims)
        else build_claims stk i vals claims
      else Ok claims
  end.

Definition threshold_votes c : outcome Z :=
  let stk := ch_staking c in
  totalBondedPower ← TokensToConsensusPower (TotalBondedTokens stk) (PowerReduction stk);
  t ← Dec_MulInt (VoteThreshold (ch_oracle c)) totalBondedPower;
  Dec_RoundInt t.

(** The reference denomination (empty when no ballot passed) with the targets
    and ballots that remain. *)
Definition PickReferenceGridb c (voteTargets : gmap string unit)
    (voteMap : gmap string ExchangeRateBallot) : outcome Pick :=
  thresholdVotes ← threshold_votes c;
  Ok (foldl (pick_step thresholdVotes) (mkPick 0 "" voteTargets voteMap) (range site_pick voteMap)).

(** One ballot of the tally loop: the rates and the claims after it. *)
Definition tally_step (ref : string) (voteMapRM : gmap string Dec) (rateRM rewardBand : Dec)
    (st : gmap string Dec * gmap string Claim) (e : string * ExchangeRateBallot) :
    outcome (gmap string Dec * gmap string Claim) :=
  let '(rates, claims) := st in
  let '(denom, ballot) := e in
  ballot ← (if decide (denom = ref) then Ok ballot else ToCrossRateWithSort ballot voteMapRM);
  '(exchangeRate, claims) ← Tally ballot rewardBand claims;
  if decide (denom = ref) then Ok (<[denom := exchangeRate]> rates, claims)
  else if exchangeRate =? 0 then Ok (rates, claims)
  else r ← Dec_Quo rateRM exchangeRate; Ok (<[denom := r]> rates, claims).

Definition tally_ballots c (p : Pick) (claims : gmap string Claim) :
    outcome (Chain * gmap string Claim) :=
  if decide (pk_ref p = "") then Ok (c, claims)
  else
    let ballotRM := default [] (pk_votes p !! pk_ref p) in
    let voteMapRM := ToMap ballotRM in
    rateRM ← WeightedMedianWithAssertion ballotRM;
    '(rates, claims) ←
      for_each (tally_step (pk_ref p) voteMapRM rateRM (RewardBand (ch_oracle c)))
        (range site_tally (pk_votes p)) (os_ExchangeRates (ch_oracle c), claims);
    Ok (set_ch_oracle (with_rates rates (ch_oracle c)) c, claims).

(** A validator that did not win every remaining target has missed one period. *)
Definition count_miss (targets : Z) (s : OracleStore) (e : string * Claim) : OracleStore :=
  let claim := e.2 in
  if cl_WinCount claim =? targets then s
  else SetMissCounter s (cl_Recipient claim) (u64 (GetMissCounter s (cl_Recipient claim) + 1)).

(** ** [reward.go] *)

Definition period_reward c (ratio : Dec) (rewards : DecCoins) (denom : string) : outcome DecCoins :=
  let rewardPool := GetRewardPool c denom in
  if Amount rewardPool =? 0 then Ok rewards
  else
    amt ← Dec_Mul (ToDec (Amount rewardPool)) ratio;
    coin ← NewDecCoinFromDec denom amt;
    DecCoins_Add rewards coin.

Definition reward_winner (stk : staking_state) (periodRewards : DecCoins) (ballotPowerSum : Z)
    (st : distr_state * Coins) (e : string * Claim) : outcome (distr_state * Coins) :=
  let '(distr, distributed) := st in
  let winner := e.2 in
  share ← Dec_QuoInt (ToDec (cl_Weight winner)) ballotPowerSum;
  scaled ← DecCoins_MulDec periodRewards share;
  '(rewardCoins, _) ← DecCoins_TruncateDecimal scaled;
  match Validator stk (cl_Recipient winner) with
  | Some receiverVal =>
      if negb (Coins_IsZero rewardCoins) then
        distr ← AllocateTokensToValidator distr receiverVal (NewDecCoinsFromCoins rewardCoins);
        distributed ← Coins_Add distributed rewardCoins;
        Ok (distr, distributed)
      else Ok (distr, distributed)
  | None => Ok (distr, distributed)
  end.

Definition RewardBallotWinners c (votePeriod rewardDistributionWindow : Z)
    (voteTargets : gmap string unit) (ballotWinners : gmap string Claim) : outcome Chain :=
  let rewardDenoms := (range site_denoms voteTargets).*1 in
  let ballotPowerSum :=
    foldl (fun sum e => i64 (sum + cl_Weight e.2)) 0 (range site_weights ballotWinners) in
  if ballotPowerSum =? 0 then Ok c
  else
    distributionRatio ← Dec_QuoInt (ToDec votePeriod) rewardDistributionWindow;
    periodRewards ← for_each (period_reward c distributionRatio) rewardDenoms [];
    '(distr, distributedReward) ←
      for_each (reward_winner (ch_staking c) periodRewards ballotPowerSum)
        (range site_winners ballotWinners) (ch_distr c, []);
    match SendCoinsFromModuleToModule (w_bank (ch_world c)) oracle_ModuleName
            distribution_ModuleName distributedReward with
    | Ok b => Ok (set_distr distr (set_world (set_bank b (ch_world c)) c))
    | _ => Panic
    end.

(** [ClearBallots]: votes go, prevotes stay until they cannot be revealed. *)
Definition ClearBallots (ctx : Ctx) (s : OracleStore) (votePeriod : Z) : OracleStore :=
  let s := foldl (fun s '(voterAddr, p) =>
      if i64 (u64 (apv_SubmitBlock p + votePeriod)) <? BlockHeight ctx
      then DeleteAggregateExchangeRatePrevote s voterAddr else s)
    s (IterateAggregateExchangeRatePrevotes s) in
  foldl (fun s '(voterAddr, _) => DeleteAggregateExchangeRateVote s voterAddr)
    s (IterateAggregateExchangeRateVotes s).

(** ** [slash.go] *)

(** One miss counter: the validator is slashed and jailed when its rate of
    valid votes is below the minimum.  A validator that no longer exists is a
    nil interface, whose methods panic. *)
Definition slash_operator (ctx : Ctx) (params : OracleParams) (votePeriodsPerWindow : Z)
    (c : Chain) (e : Addr * Z) : outcome Chain :=
  let '(operator, missCounter) := e in
  let stk := ch_staking c in
  validVoteRate ← Dec_QuoInt (ToDec (i64 (u64 (votePeriodsPerWindow - missCounter))))
                             (i64 votePeriodsPerWindow);
  stk ← (if validVoteRate <? op_MinValidPerWindow params then
           validator ← deref (Validator stk operator);
           if IsBonded validator && negb (IsJailed validator) then
             consAddr ← (match GetConsAddr validator with Ok a => Ok a | _ => Panic end);
             power ← GetConsensusPower validator (PowerReduction stk);
             stk ← Slash stk consAddr (BlockHeight ctx - ValidatorUpdateDelay - 1) power
                     (op_SlashFraction params);
             Jail stk consAddr
           else Ok stk
         else Ok stk);
  Ok (set_ch_oracle (DeleteMissCounter (ch_oracle c) operator) (set_staking stk c)).

Definition SlashAndResetMissCounters (ctx : Ctx) c : outcome Chain :=
  let s := ch_oracle c in
  periods ← Dec_QuoInt (ToDec (i64 (SlashWindow s))) (i64 (VotePeriod s));
  n ← Dec_TruncateInt64 periods;
  for_each (slash_operator ctx (os_Params s) (u64 n)) (IterateMissCounters s) c.

(** ** [abci.go] *)

(** The targets of the period, with the exchange rates cleared. *)
Definition vote_targets_map (s : OracleStore) : gmap string unit :=
  foldl (fun m denom => <[denom := tt]> m) ∅ (IterateVoteTargets s).
Definition clear_rates (s : OracleStore) : OracleStore :=
  foldl (fun s '(denom, _) => DeleteExchangeRate s denom) s (IterateExchangeRates s).

(** The last block of a vote period: the ballots are tallied and misses
    counted; what is returned with the chain are the remaining targets and the
    claims. *)
Definition tally_period c : outcome (Chain * gmap string unit * gmap string Claim) :=
  let stk := ch_staking c in
  claims ← build_claims stk 0 (ValidatorsPowerStore stk) ∅;
  let voteTargets := vote_targets_map (ch_oracle c) in
  let c := set_ch_oracle (clear_rates (ch_oracle c)) c in
  let voteMap := OrganizeBallotByDenom (ch_oracle c) claims in
  p ← PickReferenceGridb c voteTargets voteMap;
  '(c, claims) ← tally_ballots c p claims;
  let c := set_ch_oracle
    (foldl (count_miss (Z.of_nat (size (pk_targets p)))) (ch_oracle c) (range site_miss claims)) c in
  Ok (c, pk_targets p, claims).

Definition end_vote_period (ctx : Ctx) c : outcome Chain :=
  let params := oracle_GetParams (ch_oracle c) in
  '(c, voteTargets, claims) ← tally_period c;
  c ← RewardBallotWinners c (i64 (op_VotePeriod params)) (i64 (op_RewardDistributionWindow params))
        voteTargets claims;
  Ok (set_ch_oracle (ClearBallots ctx (ch_oracle c) (op_VotePeriod params)) c).

Definition oracle_EndBlocker (ctx : Ctx) c : outcome Chain :=
  let params := oracle_GetParams (ch_oracle c) in
  last ← IsPeriodLastBlock ctx (op_VotePeriod params);
  c ← (if last : bool then end_vote_period ctx c else Ok c);
  slash ← IsPeriodLastBlock ctx (op_SlashWindow params);
  if slash : bool then SlashAndResetMissCounters ctx c else Ok c.
End EndBlock.

(** ** Messages ([msg_server.go]) *)
Section Msg.
Context `{Sdk, SdkExt, BankKeeper, NftKeeper, StakingKeeper, DistrKeeper}.
Implicit Types c : Chain.

Definition AggregateExchangeRatePrevote (ctx : Ctx) c (m : MsgAggregateExchangeRatePrevote) :
    outcome Chain :=
  valAddr ← ValAddressFromBech32 (mp_Validator m);
  feederAddr ← AccAddressFromBech32 (mp_Feeder m);
  _ ← ValidateFeeder c feederAddr valAddr;
  voteHash ← wrap_err ErrInvalidHash (AggregateVoteHashFromHexString (mp_Hash m));
  let prevote := NewAggregateExchangeRatePrevote voteHash valAddr (u64 (BlockHeight ctx)) in
  Ok (set_ch_oracle (SetAggregateExchangeRatePrevote (ch_oracle c) valAddr prevote) c).

(** Go's [/] on [uint64] panics on a zero divisor. *)
Definition u64_div (a b : Z) : outcome Z := if b =? 0 then Panic else Ok (a / b).

Definition AggregateExchangeRateVote (ctx : Ctx) c (m : MsgAggregateExchangeRateVote) :
    outcome Chain :=
  valAddr ← ValAddressFromBech32 (mv_Validator m);
  feederAddr ← AccAddressFromBech32 (mv_Feeder m);
  _ ← ValidateFeeder c feederAddr valAddr;
  let s := ch_oracle c in
  let params := oracle_GetParams s in
  prevote ← wrap_err ErrNoAggregatePrevote (GetAggregateExchangeRatePrevote s valAddr);
  now ← u64_div (u64 (BlockHeight ctx)) (op_VotePeriod params);
  submitted ← u64_div (apv_SubmitBlock prevote) (op_VotePeriod params);
  fail_if negb (u64 (now - submitted) =? 1) with ErrRevealPeriodMissMatch ;;
  tuples ← wrap_err ErrInvalidCoins (ParseExchangeRateTuples (mv_ExchangeRates m));
  fail_if existsb (fun t => negb (IsVoteTarget s (ert_Denom t))) tuples with ErrUnknownDenom ;;
  let hash := GetAggregateVoteHash (mv_Salt m) (mv_ExchangeRates m) valAddr in
  fail_if bool_decide (apv_Hash prevote ≠ AggregateVoteHash_String hash) with ErrVerificationFailed ;;
  let s := SetAggregateExchangeRateVote s valAddr (NewAggregateExchangeRateVote tuples valAddr) in
  Ok (set_ch_oracle (DeleteAggregateExchangeRatePrevote s valAddr) c).

Definition DelegateFeedConsent c (m : MsgDelegateFeedConsent) : outcome Chain :=
  operatorAddr ← ValAddressFromBech32 (md_Operator m);
  delegateAddr ← AccAddressFromBech32 (md_Delegate m);
  match Validator (ch_staking c) operatorAddr with
  | None => Err ErrNoValidatorFound
  | Some _ => Ok (set_ch_oracle (SetFeederDelegation (ch_oracle c) operatorAddr delegateAddr) c)
  end.

Inductive OracleMsg :=
| OPrevote (m : MsgAggregateExchangeRatePrevote)
| OVote (m : MsgAggregateExchangeRateVote)
| ODelegate (m : MsgDelegateFeedConsent).

Definition oracle_NewHandler (ctx : Ctx) c (m : OracleMsg) : outcome Chain :=
  match m with
  | OPrevote m => AggregateExchangeRatePrevote ctx c m
  | OVote m => AggregateExchangeRateVote ctx c m
  | ODelegate m => DelegateFeedConsent c m
  end.

(** ** The proposal ([proposal_handler.go]) *)
Definition HandleRegisterTargetProposal c (params : TargetParams) : outcome Chain :=
  let s := ch_oracle c in
  fail_if IsTarget s (tp_Denom params) with ErrExistingTarget ;;
  fail_if negb (HasSupply (w_bank (ch_world c)) (tp_Denom params)) &&
          bool_decide (tp_Denom params ≠ MicroUSMDenom) with ErrInvalidCoins ;;
  let s := SetTarget s (tp_Denom params) in
  let s := match tp_Source params with
           | TARGET_SOURCE_VALIDATORS => SetVoteTarget s (tp_Denom params)
           | _ => s
           end in
  Ok (set_ch_oracle s c).
End Msg.
