(* ===== verification/OracleMedian.v ===== *)
(** What the weighted median of a ballot is: the least rate whose cumulated
    power reaches half of the total.  The characterisation does not mention
    the order of the votes, so it does not depend on how [sort.Sort] places
    votes of equal rate. *)

From stdpp Require Import base gmap strings list.
From Stdlib Require Import ZArith Lia.
From S2P Require Import Prelude Sdk SdkExt Types MakerTypes VeTypes OracleTypes World OracleKeeper OracleBallot.

#[local] Open Scope Z_scope.
Implicit Types (pb l r : list VoteForTally) (v : VoteForTally) (m : Z).

(** ** Reference definitions *)

Definition power_where (P : Dec → bool) pb : Z :=
  list_sum (fun v => if P (vt_ExchangeRate v) then vt_Power v else 0) pb.

Definition total_power pb : Z := list_sum vt_Power pb.
Definition power_upto pb m : Z := power_where (fun x => x <=? m) pb.
Definition power_below pb m : Z := power_where (fun x => x <? m) pb.
Definition power_above pb m : Z := power_where (fun x => m <? x) pb.

(** Ballots whose powers are not negative and add up within [int64]. *)
Definition ballot_ok pb : Prop :=
  Forall (fun v => 0 ≤ vt_Power v) pb ∧ total_power pb < 2 ^ 63.

(** The abstract weighted median. *)
Definition is_weighted_median pb m : Prop :=
  m ∈ (vt_ExchangeRate <$> pb) ∧
  total_power pb / 2 ≤ power_upto pb m ∧
  ∀ x, x ∈ (vt_ExchangeRate <$> pb) → total_power pb / 2 ≤ power_upto pb x → m ≤ x.

(** ** Sums over ballots *)

#[export] Instance total_power_proper : Proper ((≡ₚ) ==> (=)) total_power.
Proof. intros ???. by apply list_sum_perm. Qed.

#[export] Instance power_where_proper P : Proper ((≡ₚ) ==> (=)) (power_where P).
Proof. intros ???. by apply list_sum_perm. Qed.

#[export] Instance ballot_ok_proper : Proper ((≡ₚ) ==> iff) ballot_ok.
Proof. intros ?? E. unfold ballot_ok. by rewrite E. Qed.

Lemma is_weighted_median_perm pb pb' m :
  pb ≡ₚ pb' → is_weighted_median pb m → is_weighted_median pb' m.
Proof.
  intros E (Hin & Hup & Hmin). unfold is_weighted_median, power_upto in *.
  split_and!; [by rewrite <- E|by rewrite <- E|].
  intros x. rewrite <- E. apply Hmin.
Qed.

(** The abstract median is unique. *)
Lemma is_weighted_median_unique pb m m' :
  is_weighted_median pb m → is_weighted_median pb m' → m = m'.
Proof.
  intros (H1 & H2 & H3) (H1' & H2' & H3'). pose proof (H3 _ H1' H2'). pose proof (H3' _ H1 H2). lia.
Qed.

Lemma power_split pb m : total_power pb = power_upto pb m + power_above pb m.
Proof.
  unfold total_power, power_upto, power_above, power_where.
  induction pb as [|v pb IH]; rewrite ?list_sum_cons, ?list_sum_nil; [lia|].
  destruct (Z.leb_spec (vt_ExchangeRate v) m), (Z.ltb_spec m (vt_ExchangeRate v)); lia.
Qed.

(** ** The sums of the code do not wrap *)

Lemma i64_sum (f : VoteForTally → Z) pb t :
  Forall (fun v => 0 ≤ f v) pb → 0 ≤ t → t + list_sum f pb < 2 ^ 63 →
  foldl (fun total v => i64 (total + f v)) t pb = t + list_sum f pb.
Proof.
  intros Hf. revert t. induction Hf as [|v pb Hv Hf IH]; intros t Ht Hb;
    rewrite ?list_sum_cons, ?list_sum_nil in *; simpl; [lia|].
  pose proof (list_sum_nonneg _ _ Hf). rewrite i64_small by lia. rewrite IH; lia.
Qed.

Lemma Power_total pb : ballot_ok pb → Power pb = total_power pb.
Proof. intros [Hf Hb]. unfold Power. by rewrite i64_sum. Qed.

(** ** Where the loop stops *)

Lemma median_from_split total pivot pb :
  Forall (fun v => 0 ≤ vt_Power v) pb → 0 ≤ pivot → pivot + total_power pb < 2 ^ 63 →
  Z.quot total 2 ≤ pivot + total_power pb → pb ≠ [] →
  ∃ l v r, pb = l ++ v :: r ∧ median_from total pivot pb = vt_ExchangeRate v ∧
    Z.quot total 2 ≤ pivot + total_power l + vt_Power v ∧
    (l = [] ∨ pivot + total_power l < Z.quot total 2).
Proof.
  unfold total_power. intros Hf. revert pivot.
  induction Hf as [|v pb Hv Hf IH]; intros pivot Hp Hb Ht Hne; [done|].
  pose proof (list_sum_nonneg _ _ Hf) as Hs. rewrite list_sum_cons in *. cbn [median_from].
  rewrite i64_small by lia.
  destruct (Z.leb_spec (Z.quot total 2) (pivot + vt_Power v)) as [Hle|Hgt].
  - exists [], v, pb. rewrite list_sum_nil. split_and!; [done|done|lia|by left].
  - destruct pb as [|v' pb']; [rewrite list_sum_nil in *; lia|].
    destruct (IH (pivot + vt_Power v)) as (l & u & r & -> & E & H1 & H2); [lia|lia|lia|done|].
    exists (v :: l), u, r. rewrite list_sum_cons. split_and!; [done|done|lia|].
    right. destruct H2 as [->|H2]; [rewrite list_sum_nil|]; lia.
Qed.

Lemma sorted_split l v r :
  sort_IsSorted Less (l ++ v :: r) = true →
  Forall (fun u => vt_ExchangeRate u ≤ vt_ExchangeRate v) l ∧
  Forall (fun u => vt_ExchangeRate v ≤ vt_ExchangeRate u) r.
Proof.
  assert (∀ pb v, sort_IsSorted Less (v :: pb) = true →
    Forall (fun u => vt_ExchangeRate v ≤ vt_ExchangeRate u) pb) as Htail.
  { induction pb as [|u pb IH]; intros w Hs; [done|]. cbn [sort_IsSorted] in Hs.
    apply andb_true_iff in Hs as [Hl Hs]. unfold Less in Hl. zbool.
    constructor; [lia|]. eapply Forall_impl; [by apply IH|]. simpl. intros. lia. }
  induction l as [|u l IH]; intros Hs; [split; [done|by apply Htail]|].
  assert (sort_IsSorted Less (l ++ v :: r) = true) as Hs'.
  { destruct l as [|u' l]; cbn in Hs |- *; by apply andb_true_iff in Hs as [_ Hs]. }
  destruct (IH Hs') as [Hl Hr]. split; [|done]. constructor; [|done].
  apply Htail in Hs. by apply Forall_app in Hs as [_ [? _]%Forall_cons].
Qed.

Lemma power_upto_prefix l v r :
  Forall (fun w => 0 ≤ vt_Power w) r →
  Forall (fun u => vt_ExchangeRate u ≤ vt_ExchangeRate v) l →
  total_power l + vt_Power v ≤ power_upto (l ++ v :: r) (vt_ExchangeRate v).
Proof.
  intros Hp Hl. unfold power_upto, power_where, total_power.
  rewrite list_sum_app, list_sum_cons, Z.leb_refl.
  assert (list_sum vt_Power l ≤
    list_sum (fun w => if vt_ExchangeRate w <=? vt_ExchangeRate v then vt_Power w else 0) l).
  { apply list_sum_le. eapply Forall_impl; [exact Hl|]. simpl. intros w Hw.
    rewrite (proj2 (Z.leb_le _ _) Hw). done. }
  assert (0 ≤ list_sum (fun w => if vt_ExchangeRate w <=? vt_ExchangeRate v then vt_Power w else 0) r).
  { apply list_sum_nonneg. eapply Forall_impl; [exact Hp|]. simpl. intros w ?. by destruct (_ <=? _). }
  lia.
Qed.

(** The power of votes with a rate below that of [v] lies in what precedes it. *)
Lemma power_upto_before l v r m :
  Forall (fun w => 0 ≤ vt_Power w) l →
  Forall (fun u => vt_ExchangeRate v ≤ vt_ExchangeRate u) r → m < vt_ExchangeRate v →
  power_upto (l ++ v :: r) m ≤ total_power l.
Proof.
  intros Hp Hr Hm. unfold power_upto, power_where, total_power.
  rewrite list_sum_app, list_sum_cons. rewrite (proj2 (Z.leb_gt _ _)) by lia.
  rewrite (list_sum_ext _ (fun _ => 0) r), list_sum_zero.
  - rewrite !Z.add_0_r. apply list_sum_le. eapply Forall_impl; [exact Hp|]. simpl.
    intros w ?. destruct (_ <=? _); lia.
  - eapply Forall_impl; [exact Hr|]. simpl. intros w ?. by rewrite (proj2 (Z.leb_gt _ _)) by lia.
Qed.

(** ** The median of a sorted ballot *)

Lemma total_power_nonneg pb : ballot_ok pb → 0 ≤ total_power pb.
Proof. intros [Hf _]. by apply list_sum_nonneg. Qed.

Lemma median_sound pb :
  ballot_ok pb → pb ≠ [] → sort_IsSorted Less pb = true → is_weighted_median pb (WeightedMedian pb).
Proof.
  intros Hok Hne Hs. pose proof (total_power_nonneg _ Hok) as H0.
  pose proof (Z.div_mod (total_power pb) 2 ltac:(lia)) as D1.
  pose proof (Z.mod_pos_bound (total_power pb) 2 ltac:(lia)) as D2.
  assert (Z.quot (total_power pb) 2 = total_power pb / 2) as Eq by (apply Z.quot_div_nonneg; lia).
  unfold WeightedMedian. rewrite (Power_total _ Hok). destruct Hok as [Hf Hb].
  destruct (median_from_split (total_power pb) 0 pb) as (l & v & r & Epb & E & H1 & H2);
    [done|lia|lia|lia|done|]. rewrite Eq in *. rewrite E. clear E Eq. subst pb.
  destruct (sorted_split _ _ _ Hs) as [Hl Hr].
  apply Forall_app in Hf as [Hfl [Hv Hfr]%Forall_cons].
  split_and!.
  - rewrite fmap_app, fmap_cons. apply elem_of_app. right. by left.
  - pose proof (power_upto_prefix l v r Hfr Hl). lia.
  - intros x Hx Hup. destruct (Z.le_gt_cases (vt_ExchangeRate v) x) as [?|Hlt]; [done|].
    pose proof (power_upto_before l v r x Hfl Hr Hlt).
    destruct H2 as [->|H2]; [|lia]. exfalso.
    apply list_elem_of_fmap in Hx as (u & -> & Hu). simpl in Hu.
    apply list_elem_of_In in Hu. destruct Hu as [<-|Hu]; [lia|]. rewrite List.Forall_forall in Hr.
    specialize (Hr _ Hu). simpl in Hr. lia.
Qed.

(** The votes below and above the median carry at most half of the power. *)
Lemma median_halves pb m :
  Forall (fun v => 0 ≤ vt_Power v) pb → is_weighted_median pb m →
  2 * power_below pb m ≤ total_power pb ∧ 2 * power_above pb m ≤ total_power pb + 1.
Proof.
  intros Hf (Hin & Hup & Hmin).
  pose proof (Z.div_mod (total_power pb) 2 ltac:(lia)).
  pose proof (Z.mod_pos_bound (total_power pb) 2 ltac:(lia)).
  pose proof (power_split pb m). split; [|lia].
  destruct (Z.le_gt_cases (2 * power_below pb m) (total_power pb)) as [?|Hgt]; [done|]. exfalso.
  (* the largest rate below the median would do *)
  assert (∀ k, (∀ x, x ∈ (vt_ExchangeRate <$> pb) → x < m → x ≤ k) → k < m →
    power_below pb m = power_upto pb k) as Hk.
  { intros k Hx Hkm. apply list_sum_ext, List.Forall_forall. intros v Hv.
    destruct (Z.ltb_spec (vt_ExchangeRate v) m), (Z.leb_spec (vt_ExchangeRate v) k); try lia.
    pose proof (Hx (vt_ExchangeRate v) ltac:(apply list_elem_of_fmap; exists v; split; [done|by apply list_elem_of_In])). lia. }
  destruct (largest_below m (vt_ExchangeRate <$> pb)) as [Hno|(k & Hkin & Hkm & Hkmax)].
  - assert (power_below pb m = 0); [|pose proof (list_sum_nonneg _ _ Hf); unfold total_power in *; lia].
    unfold power_below, power_where. rewrite (list_sum_ext _ (fun _ => 0)); [apply list_sum_zero|].
    apply List.Forall_forall. intros v Hv.
    specialize (Hno (vt_ExchangeRate v) ltac:(apply list_elem_of_fmap; exists v; split; [done|by apply list_elem_of_In])).
    by rewrite (proj2 (Z.ltb_ge _ _)) by lia.
  - rewrite (Hk k) in Hgt by done. specialize (Hmin k Hkin). lia.
Qed.

(** With a total power of at least two, abstentions do not decide. *)
Lemma median_positive pb m :
  Forall (fun v => vt_ExchangeRate v ≤ 0 → vt_Power v = 0) pb →
  2 ≤ total_power pb → is_weighted_median pb m → 0 < m.
Proof.
  intros Ha H2 (Hin & Hup & Hmin). destruct (Z.lt_ge_cases 0 m) as [?|Hm]; [done|]. exfalso.
  assert (power_upto pb m = 0).
  { unfold power_upto, power_where. rewrite (list_sum_ext _ (fun _ => 0)); [apply list_sum_zero|].
    eapply Forall_impl; [exact Ha|]. simpl. intros v Hv.
    destruct (Z.leb_spec (vt_ExchangeRate v) m); [apply Hv; lia|done]. }
  pose proof (Z.div_le_mono 2 (total_power pb) 2 ltac:(lia) H2). change (2 / 2) with 1 in *. lia.
Qed.
