(* ===== verification/OracleOrder.v ===== *)
(** The oracle's loops over Go maps do not depend on the order in which the
    maps are visited: the choice of the reference, the tally, the miss
    counters, and the amounts rewarded. *)

From stdpp Require Import base gmap strings list.
From Stdlib Require Import ZArith Lia.
From S2P Require Import Prelude Sdk SdkExt Types MakerTypes VeTypes OracleTypes World OracleKeeper OracleBallot OracleEnd.

#[local] Open Scope Z_scope.

(** ** Strings are compared by a total order *)

Lemma ltb_spec s s' : String.ltb s s' = true ↔ String.le s s' ∧ s ≠ s'.
Proof.
  unfold String.ltb, String.le, String.leb. destruct (String.compare s s') eqn:E; simpl.
  - apply String.compare_eq_iff in E. split; [done|]. by intros [_ ?].
  - split; [|done]. intros _. split; [done|]. intros ->.
    pose proof (String.compare_antisym s' s') as Ha. rewrite E in Ha. discriminate Ha.
  - split; [done|]. by intros [? _].
Qed.

Lemma ltb_trans a b d : String.ltb a b = true → String.ltb b d = true → String.ltb a d = true.
Proof.
  rewrite !ltb_spec. intros [H1 N1] [H2 N2]. split; [by trans b|].
  intros <-. apply N1. by apply (anti_symm String.le).
Qed.

Lemma ltb_total a b : a ≠ b → String.ltb a b = negb (String.ltb b a).
Proof.
  intros Hne. destruct (String.ltb a b) eqn:E1, (String.ltb b a) eqn:E2; try done.
  - apply ltb_spec in E1 as [? _], E2 as [? _]. destruct Hne. by apply (anti_symm String.le).
  - destruct (total String.le a b) as [Hl|Hl].
    + assert (String.ltb a b = true) by (by apply ltb_spec). congruence.
    + assert (String.ltb b a = true) by (by apply ltb_spec). congruence.
Qed.

(** ** The reference denomination *)

(** The best ballot so far, as the loop keeps it. *)
Definition better (b : Z * string) (power : Z) (denom : string) : Z * string :=
  let '(largest, ref) := b in
  if (largest <? power) || (largest =? 0) then (power, denom)
  else if (largest =? power) && String.ltb denom ref then (largest, denom)
  else (largest, ref).
Arguments better : simpl never.
#[local] Arguments ballotIsPassing : simpl never.

Lemma better_comm b p d p' d' :
  0 ≤ b.1 → 0 < p → 0 < p' → d ≠ d' →
  better (better b p d) p' d' = better (better b p' d') p d.
Proof.
  destruct b as [L R]. simpl. intros HL Hp Hp' Hd. pose proof (ltb_total d d' Hd) as Hf.
  pose proof (ltb_trans d d' R) as T1. pose proof (ltb_trans d' d R) as T2.
  unfold better. destruct (Z.eqb_spec L 0) as [->|HL0].
  - rewrite !orb_true_r. rewrite (proj2 (Z.eqb_neq p 0)), (proj2 (Z.eqb_neq p' 0)) by lia.
    rewrite !orb_false_r. destruct (Z.lt_trichotomy p p') as [Hl|[->|Hl]].
    + rewrite (proj2 (Z.ltb_lt p p')), (proj2 (Z.ltb_ge p' p)), (proj2 (Z.eqb_neq p' p)) by lia. done.
    + rewrite Z.ltb_irrefl, Z.eqb_refl. simpl. rewrite Hf. by destruct (String.ltb d' d).
    + rewrite (proj2 (Z.ltb_ge p p')), (proj2 (Z.ltb_lt p' p)), (proj2 (Z.eqb_neq p p')) by lia. done.
  - rewrite !orb_false_r.
    repeat (match goal with
    | |- context [?a <? ?b] => destruct (Z.ltb_spec a b)
    | |- context [?a =? ?b] => destruct (Z.eqb_spec a b)
    | |- context [String.ltb ?a ?b] => destruct (String.ltb a b) eqn:?
    end; simpl); try lia; subst; try done; naive_solver.
Qed.

Lemma passing_pos thr ballot p :
  0 ≤ thr → ballotIsPassing ballot thr = (p, true) → 0 < p.
Proof. unfold ballotIsPassing. intros Ht E. injection E as <- E. zbool. lia. Qed.

Definition pick_best (p : Pick) (b : Z * string) : Pick := mkPick b.1 b.2 (pk_targets p) (pk_votes p).

(** One step of the loop: drop a denomination that is not a target, drop a
    ballot that failed, or compare it with the best so far. *)
Lemma pick_step_cases thr p d ballot :
  pick_step thr p (d, ballot) =
  match pk_targets p !! d with
  | None => mkPick (pk_largest p) (pk_ref p) (pk_targets p) (delete d (pk_votes p))
  | Some _ =>
      if (ballotIsPassing ballot thr).2
      then pick_best p (better (pk_largest p, pk_ref p) (ballotIsPassing ballot thr).1 d)
      else mkPick (pk_largest p) (pk_ref p) (delete d (pk_targets p)) (delete d (pk_votes p))
  end.
Proof.
  unfold pick_step. destruct (pk_targets p !! d); [|done].
  destruct (ballotIsPassing ballot thr) as [power []]; simpl; [|done].
  destruct p as [L R T V]; unfold pick_best, better; simpl.
  destruct ((L <? power) || (L =? 0))%bool; [done|].
  by destruct ((L =? power) && String.ltb d R)%bool.
Qed.

Lemma pick_step_nonneg thr p e : 0 ≤ thr → 0 ≤ pk_largest p → 0 ≤ pk_largest (pick_step thr p e).
Proof.
  intros Ht Hp. destruct e as [d ballot]. rewrite pick_step_cases.
  destruct (pk_targets p !! d); [|done].
  destruct (ballotIsPassing ballot thr) as [power []] eqn:E; simpl; [|done].
  apply passing_pos in E; [|done]. unfold better.
  destruct (_ || _)%bool; [simpl; lia|]. by destruct (_ && _)%bool.
Qed.

Lemma pick_step_comm thr p x y :
  0 ≤ thr → 0 ≤ pk_largest p → x.1 ≠ y.1 →
  pick_step thr (pick_step thr p x) y = pick_step thr (pick_step thr p y) x.
Proof.
  intros Ht Hp Hne. destruct x as [d b], y as [d' b'], p as [L R T V].
  cbn [fst pk_largest] in *. rewrite !pick_step_cases.
  destruct (ballotIsPassing b thr) as [q ok] eqn:Eb, (ballotIsPassing b' thr) as [q' ok'] eqn:Eb'.
  cbn [fst snd pk_targets pk_votes pk_largest pk_ref].
  destruct (T !! d) eqn:Ed, (T !! d') eqn:Ed'; destruct ok, ok';
    unfold pick_best; cbn [fst snd pk_targets pk_votes pk_largest pk_ref];
    rewrite ?lookup_delete_ne, ?Ed, ?Ed' by done; rewrite ?(delete_delete _ d d'); try done.
  pose proof (better_comm (L, R) q d q' d' Hp) as Hb.
  specialize (Hb ltac:(eauto using passing_pos) ltac:(eauto using passing_pos) Hne).
  destruct (better (L, R) q d) as [a b0], (better (L, R) q' d') as [a' b0'].
  cbn [fst snd]. by rewrite Hb.
Qed.

(** ** The tally *)

(** The claim of a winning vote is credited. *)
Definition credit `{SdkExt} (claims : gmap string Claim) (v : VoteForTally) : gmap string Claim :=
  let key := ValAddress_String (vt_Voter v) in
  let claim := default (mkClaim 0 0 0 "") (claims !! key) in
  <[key := mkClaim (cl_Power claim) (i64 (cl_Weight claim + vt_Power v))
                   (i64 (cl_WinCount claim + 1)) (cl_Recipient claim)]> claims.

Lemma credit_comm `{SdkExt} claims x y : credit (credit claims x) y = credit (credit claims y) x.
Proof.
  unfold credit. destruct (decide (ValAddress_String (vt_Voter x) = ValAddress_String (vt_Voter y))) as [E|E].
  - rewrite E, !lookup_insert_eq, !insert_insert_eq. simpl. f_equal. f_equal.
    rewrite !i64_i64_add. f_equal. lia.
  - rewrite !lookup_insert_ne by congruence. by rewrite insert_insert_ne.
Qed.

Section Tally.
Context `{Sdk, SdkExt, GoSort}.

Definition add_winner (median spread : Dec) (ws : list VoteForTally) (v : VoteForTally) :
    outcome (list VoteForTally) :=
  won ← wins median spread v; Ok (if won : bool then (ws ++ [v])%list else ws).

Definition winners (median spread : Dec) (pb : ExchangeRateBallot) : outcome (list VoteForTally) :=
  for_each (add_winner median spread) pb [].

Lemma tally_vote_credit median spread claims v :
  tally_vote median spread claims v =
  (won ← wins median spread v; Ok (if won : bool then credit claims v else claims)).
Proof. unfold tally_vote. by destruct (wins median spread v) as [[]|e|]. Qed.

Lemma tally_votes_from median spread pb claims ws :
  for_each (tally_vote median spread) pb (foldl credit claims ws) =
  (ws' ← for_each (add_winner median spread) pb ws; Ok (foldl credit claims ws')).
Proof.
  revert ws. induction pb as [|v pb IH]; intros ws; [done|]. simpl. rewrite tally_vote_credit.
  assert (add_winner median spread ws v =
    (won ← wins median spread v; Ok (if won : bool then (ws ++ [v])%list else ws))) as -> by done.
  destruct (wins median spread v) as [[]|e|]; simpl; try done.
  change (credit (foldl credit claims ws) v) with (foldl credit (foldl credit claims ws) [v]).
  rewrite <- foldl_app. apply IH.
Qed.

Lemma tally_votes_winners median spread pb claims :
  for_each (tally_vote median spread) pb claims =
  (ws ← winners median spread pb; Ok (foldl credit claims ws)).
Proof. apply (tally_votes_from median spread pb claims []). Qed.

(** What a ballot contributes, computed from the ballot alone. *)
Definition tally_eval (ref : string) (rm : gmap string Dec) (rateRM band : Dec)
    (e : string * ExchangeRateBallot) : outcome (option Dec * list VoteForTally) :=
  let '(denom, ballot) := e in
  ballot ← (if decide (denom = ref) then Ok ballot else ToCrossRateWithSort ballot rm);
  m ← WeightedMedianWithAssertion ballot;
  halfBand ← Dec_QuoInt band 2;
  spread ← Dec_Mul m halfBand;
  ws ← winners m (if spread <? StandardDeviation ballot m then StandardDeviation ballot m else spread) ballot;
  if decide (denom = ref) then Ok (Some m, ws)
  else if m =? 0 then Ok (None, ws)
  else r ← Dec_Quo rateRM m; Ok (Some r, ws).

Definition tally_apply (st : gmap string Dec * gmap string Claim)
    (e : string * ExchangeRateBallot) (r : option Dec * list VoteForTally) :=
  (match r.1 with Some x => <[e.1 := x]> st.1 | None => st.1 end, foldl credit st.2 r.2).

Lemma tally_step_eval ref rm rateRM band st e :
  tally_step ref rm rateRM band st e =
  (r ← tally_eval ref rm rateRM band e; Ok (tally_apply st e r)).
Proof.
  destruct st as [rates claims], e as [denom ballot]. unfold tally_step, tally_eval, Tally.
  destruct (if decide (denom = ref) then _ else _) as [b|err|]; [|done|done].
  cbn [mbind outcome_bind].
  destruct (WeightedMedianWithAssertion b) as [m|err|]; [|done|done]. cbn [mbind outcome_bind].
  destruct (Dec_QuoInt band 2) as [h|err|]; [|done|done]. cbn [mbind outcome_bind].
  destruct (Dec_Mul m h) as [sp|err|]; [|done|done]. cbn [mbind outcome_bind].
  rewrite tally_votes_winners.
  destruct (winners _ _ b) as [ws|err|]; [|done|done]. cbn [mbind outcome_bind].
  destruct (decide (denom = ref)); [done|]. destruct (m =? 0); [done|].
  by destruct (Dec_Quo rateRM m).
Qed.

Lemma tally_apply_comm st x y r r' :
  x.1 ≠ y.1 → tally_apply (tally_apply st x r) y r' = tally_apply (tally_apply st y r') x r.
Proof.
  intros Hne. unfold tally_apply. simpl. f_equal.
  - destruct r.1, r'.1; try done. by apply insert_insert_ne.
  - rewrite <- !foldl_app. apply foldl_comm; [apply credit_comm|]. apply Permutation_app_comm.
Qed.
End Tally.

(** ** Miss counters *)

Lemma count_miss_comm n s x y : count_miss n (count_miss n s x) y = count_miss n (count_miss n s y) x.
Proof.
  unfold count_miss, SetMissCounter, GetMissCounter.
  destruct (cl_WinCount x.2 =? n), (cl_WinCount y.2 =? n); try done.
  unfold with_misses; simpl. f_equal.
  destruct (decide (cl_Recipient x.2 = cl_Recipient y.2)) as [E|E].
  - by rewrite E, !lookup_insert_eq, !insert_insert_eq.
  - rewrite !lookup_insert_ne by done. by rewrite insert_insert_ne.
Qed.

(** ** Clearing the store *)

Lemma clear_rates_spec s : clear_rates s = with_rates ∅ s.
Proof.
  unfold clear_rates, IterateExchangeRates.
  assert (∀ (l : list (string * Dec)) r,
    foldl (fun s '(denom, _) => DeleteExchangeRate s denom) (with_rates r s) l =
    with_rates (foldl (fun m e => delete e.1 m) r l) s) as E.
  { induction l as [|[d x] l IH]; intros r; [done|]. simpl. rewrite <- IH. done. }
  specialize (E (kv_iter (os_ExchangeRates s)) (os_ExchangeRates s)).
  rewrite delete_all in E by apply kv_iter_perm. destruct s. exact E.
Qed.

Section Order.
Context `{SdkLaws, !SdkExt, !SdkExtLaws, BankKeeper, !BankLaws, NftKeeper, StakingKeeper, DistrKeeper, !GoSort}.
Context (O1 O2 : MapOrder) {L1 : MapOrderLaws O1} {L2 : MapOrderLaws O2}.

Lemma threshold_votes_cleared c :
  threshold_votes (set_ch_oracle (clear_rates (ch_oracle c)) c) = threshold_votes c.
Proof. unfold threshold_votes. by rewrite clear_rates_spec. Qed.

Lemma range_same {V} site (m : gmap string V) : @range O1 V site m ≡ₚ @range O2 V site m.
Proof. by rewrite !range_perm. Qed.

Lemma range_NoDup {V} site (m : gmap string V) : NoDup (@range O1 V site m).*1.
Proof. rewrite range_perm. apply NoDup_fst_map_to_list. Qed.

(** Every run picks the same reference and keeps the same targets and ballots. *)
Lemma pick_same c t m :
  (∀ thr, threshold_votes c = Ok thr → 0 ≤ thr) →
  @PickReferenceGridb _ _ _ _ _ _ O1 c t m = @PickReferenceGridb _ _ _ _ _ _ O2 c t m.
Proof.
  intros Ht. unfold PickReferenceGridb. destruct (threshold_votes c) as [thr|e|]; [|done|done].
  simpl. f_equal. specialize (Ht _ eq_refl).
  apply (foldl_perm fst (fun p => 0 ≤ pk_largest p)).
  - intros p e Hp. by apply pick_step_nonneg.
  - intros p x y Hp Hne. by apply pick_step_comm.
  - apply range_same.
  - apply range_NoDup.
  - done.
Qed.

Lemma tally_same c p claims :
  returned (@tally_ballots _ _ _ _ _ _ _ O1 c p claims) =
  returned (@tally_ballots _ _ _ _ _ _ _ O2 c p claims).
Proof.
  unfold tally_ballots. case_decide; [done|]. apply returned_bind; [done|]. intros rateRM _.
  apply returned_bind; [|by intros []].
  apply (for_each_perm fst (tally_eval (pk_ref p) (ToMap (default [] (pk_votes p !! pk_ref p))) rateRM
    (RewardBand (ch_oracle c))) tally_apply).
  - intros. apply tally_step_eval.
  - intros. by apply tally_apply_comm.
  - apply range_same.
  - apply range_NoDup.
Qed.

(** The tally of a period, panics included. *)
Lemma tally_period_same c :
  (∀ thr, threshold_votes c = Ok thr → 0 ≤ thr) →
  returned (@tally_period _ _ _ _ _ _ _ O1 c) = returned (@tally_period _ _ _ _ _ _ _ O2 c).
Proof.
  intros Ht. unfold tally_period. apply returned_bind; [done|]. intros claims _.
  rewrite pick_same by (by rewrite threshold_votes_cleared).
  apply returned_bind; [done|]. intros p _.
  apply returned_bind; [apply tally_same|]. intros [c' cl] _. simpl. do 4 f_equal.
  apply foldl_comm; [apply count_miss_comm|]. apply range_same.
Qed.
End Order.
