(* ===== verification/OracleReward.v ===== *)
(** The rewards of a vote period ([src/x/oracle/keeper/reward.go]): the amount
    of every denomination that leaves the module account, as a sum over the
    claims, which depends neither on the order of the maps nor exceeds the
    pool; and from it the determinism of the whole end of a block. *)

From stdpp Require Import base gmap strings list.
From Stdlib Require Import ZArith Lia.
From S2P Require Import Prelude Sdk Types MakerTypes VeTypes SdkExt OracleTypes World OracleKeeper OracleBallot OracleEnd OracleOrder.

#[local] Open Scope Z_scope.

Lemma Coins_IsZero_amt cs d : Coins_IsZero cs = true → coins_amt d cs = 0.
Proof.
  induction cs as [|c cs IH]; simpl; [done|]. intros H. zbool. rewrite IH by done. case_decide; lia.
Qed.

Section Reward.
Context `{HS : Sdk, HL : !SdkLaws, HE : SdkExt, HEL : !SdkExtLaws, HB : BankKeeper, HBL : !BankLaws, HN : NftKeeper,
  HK : StakingKeeper, HD : DistrKeeper}.
Implicit Types (c : Chain) (pr : DecCoins) (cl : Claim).

(** What one winner receives of an amount to distribute. *)
Definition share_amt (amt : Dec) (sum : Z) cl : outcome Z :=
  share ← Dec_QuoInt (ToDec (cl_Weight cl)) sum;
  x ← Dec_Mul amt share;
  Dec_TruncateInt x.

Definition winner_amt (stk : staking_state) (amt : Dec) (sum : Z) cl : Z :=
  match Validator stk (cl_Recipient cl) with
  | Some _ => default 0 (returned (share_amt amt sum cl))
  | None => 0
  end.

Lemma reward_winner_amt stk pr sum st e st' :
  NoDup (dc_Denom <$> pr) → reward_winner stk pr sum st e = Ok st' →
  ∀ d, coins_amt d st'.2 = coins_amt d st.2 + winner_amt stk (deccoins_amt d pr) sum e.2.
Proof.
  intros Hn E d. destruct st as [distr dist]. unfold reward_winner in E. cbv zeta in E.
  apply bind_Ok in E as (share & E1 & E). apply bind_Ok in E as (scaled & E2 & E).
  apply bind_Ok in E as ([coins rest] & E3 & E).
  apply DecCoins_MulDec_Ok in E2 as [Hn2 E2]; [|done].
  pose proof (DecCoins_TruncateDecimal_Ok _ _ _ E3 Hn2 d) as E4.
  assert (share_amt (deccoins_amt d pr) sum e.2 = Ok (coins_amt d coins)) as Es.
  { unfold share_amt. rewrite E1. cbn [mbind outcome_bind]. rewrite E2. exact E4. }
  unfold winner_amt. rewrite Es. cbn [returned default].
  destruct (Validator stk (cl_Recipient e.2)) as [v|]; [|injection E as <-; simpl; lia].
  destruct (Coins_IsZero coins) eqn:Ez; cbn [negb] in E.
  - injection E as <-. rewrite (Coins_IsZero_amt _ _ Ez). simpl. lia.
  - inv_ok E. subst st'. simpl. by apply Coins_Add_Ok.
Qed.

Lemma reward_winners_amt stk pr sum l st st' :
  NoDup (dc_Denom <$> pr) → for_each (reward_winner stk pr sum) l st = Ok st' →
  ∀ d, coins_amt d st'.2 =
       coins_amt d st.2 + list_sum (fun e => winner_amt stk (deccoins_amt d pr) sum e.2) l.
Proof.
  intros Hn. revert st. induction l as [|e l IH]; intros st E d; simpl in E.
  - injection E as <-. rewrite list_sum_nil. lia.
  - inv_ok E. rewrite list_sum_cons, (IH _ E), (reward_winner_amt _ _ _ _ _ _ Hn E0). lia.
Qed.

(** The module account's balance. *)
Definition pool c d : Z := bal (w_bank (ch_world c)) (GetModuleAddress oracle_ModuleName) d.

Lemma period_rewards_amt c ratio l pr0 pr :
  NoDup (dc_Denom <$> pr0) → for_each (period_reward c ratio) l pr0 = Ok pr →
  NoDup (dc_Denom <$> pr) ∧
  ∀ d, deccoins_amt d pr =
       deccoins_amt d pr0 + list_sum (fun x => if decide (x = d) then pool c d * ratio else 0) l.
Proof.
  revert pr0. induction l as [|x l IH]; intros pr0 Hn E; simpl in E.
  - injection E as <-. split; [done|]. intros d. rewrite list_sum_nil. lia.
  - apply bind_Ok in E as (pr1 & E1 & E). unfold period_reward in E1. cbv zeta in E1.
    destruct (Z.eqb_spec (Amount (GetRewardPool c x)) 0) as [Ez|Ez].
    + injection E1 as <-. destruct (IH _ Hn E) as [Hn' Ha]. split; [done|]. intros d.
      rewrite Ha, list_sum_cons. case_decide as Ed; [|lia]. subst x.
      change (pool c d) with (Amount (GetRewardPool c d)). rewrite Ez. lia.
    + apply bind_Ok in E1 as (amt & E0 & E1). apply bind_Ok in E1 as (coin & E2 & E1).
      apply Dec_Mul_ToDec in E0. apply NewDecCoinFromDec_Ok in E2 as [-> _]. subst amt.
      apply DecCoins_Add_Ok in E1 as [Hn1 Ha1]; [|done].
      destruct (IH _ Hn1 E) as [Hn' Ha]. split; [done|]. intros d.
      rewrite Ha, Ha1, list_sum_cons. cbn [deccoins_amt dc_Denom dc_Amount].
      unfold pool, bal, GetRewardPool. destruct (decide (x = d)) as [->|]; lia.
Qed.

(** The amount of a denomination to distribute: a share of the pool for a
    remaining target, nothing otherwise. *)
Definition period_amt c (ratio : Dec) (targets : gmap string unit) d : Dec :=
  match targets !! d with Some _ => pool c d * ratio | None => 0 end.

Lemma target_sum (targets : gmap string unit) l d x :
  l ≡ₚ map_to_list targets →
  list_sum (fun y => if decide (y = d) then x else 0) l.*1 =
  match targets !! d with Some _ => x | None => 0 end.
Proof.
  intros Hl. rewrite (list_sum_perm _ _ (map_to_list targets).*1) by (by rewrite Hl). clear l Hl.
  induction targets as [|k u m Hk IH] using map_ind.
  - by rewrite map_to_list_empty, lookup_empty.
  - rewrite (list_sum_perm _ _ (k :: (map_to_list m).*1)).
    2: { by rewrite map_to_list_insert. }
    rewrite list_sum_cons, IH. destruct (decide (k = d)) as [->|Hne].
    + rewrite lookup_insert_eq, Hk. lia.
    + rewrite lookup_insert_ne by done. lia.
Qed.

Section Order1.
Context (O1 : MapOrder) {L1 : MapOrderLaws O1}.

(** The weights as the code sums them, in any order. *)
Definition weight_sum (claims : gmap string Claim) : Z :=
  foldl (fun sum e => i64 (sum + cl_Weight e.2)) 0 (map_to_list claims).

Lemma weight_sum_range claims :
  foldl (fun sum e => i64 (sum + cl_Weight e.2)) 0 (@range O1 _ site_weights claims) = weight_sum claims.
Proof.
  apply foldl_comm; [|apply range_perm]. intros s x y. rewrite !i64_i64_add. f_equal. lia.
Qed.

(** The amount that leaves the module account. *)
Definition paid c (vp window : Z) (targets : gmap string unit) (claims : gmap string Claim) d : Z :=
  if weight_sum claims =? 0 then 0
  else list_sum (fun e => winner_amt (ch_staking c)
         (period_amt c (Z.quot (ToDec vp) window) targets d) (weight_sum claims) e.2)
         (map_to_list claims).

(** [RewardBallotWinners] moves exactly that from the oracle to the
    distribution module and leaves the stores alone. *)
Lemma reward_effect c vp window targets claims c' :
  @RewardBallotWinners _ _ _ _ _ _ O1 c vp window targets claims = Ok c' →
  ch_oracle c' = ch_oracle c ∧ ch_staking c' = ch_staking c ∧
  ∀ d, supply (w_bank (ch_world c')) d = supply (w_bank (ch_world c)) d ∧
  ∀ a, bal (w_bank (ch_world c')) a d = bal (w_bank (ch_world c)) a d
         - if_addr a (GetModuleAddress oracle_ModuleName) (paid c vp window targets claims d)
         + if_addr a (GetModuleAddress distribution_ModuleName) (paid c vp window targets claims d).
Proof.
  unfold RewardBallotWinners. cbv zeta. rewrite weight_sum_range. intros E. unfold paid.
  destruct (Z.eqb_spec (weight_sum claims) 0) as [Ez|Ez].
  { injection E as <-. split_and!; [done|done|]. intros d. split; [done|]. intros a.
    unfold if_addr. repeat case_decide; lia. }
  apply bind_Ok in E as (ratio & E1 & E). apply bind_Ok in E as (pr & E2 & E).
  apply bind_Ok in E as ([distr dist] & E3 & E).
  apply Dec_QuoInt_Ok in E1 as [_ ->].
  apply period_rewards_amt in E2 as [Hn Ha]; [|constructor].
  destruct (SendCoinsFromModuleToModule _ _ _ dist) as [b|e|] eqn:Es; try discriminate E.
  injection E as <-. apply SendCoinsFromModuleToModule_Ok in Es.
  split_and!; [done|done|]. intros d. simpl. destruct (Es d) as [Hs Hb].
  split; [done|]. intros a. rewrite Hb.
  pose proof (reward_winners_amt _ _ _ _ _ _ Hn E3 d) as Hd. simpl in Hd. rewrite Hd.
  rewrite (Ha d), (target_sum targets) by apply range_perm. simpl.
  rewrite (list_sum_perm _ _ (map_to_list claims)) by apply range_perm. done.
Qed.
End Order1.

(** ** The pool is never overdrawn *)

Definition weights_ok (claims : gmap string Claim) : Prop :=
  (∀ k cl, claims !! k = Some cl → 0 ≤ cl_Weight cl) ∧
  map_sum (fun _ cl => cl_Weight cl) claims < 2 ^ 63 ∧
  Z.of_nat (size claims) < 2 * precision.

Lemma weight_sum_exact claims :
  weights_ok claims → weight_sum claims = list_sum (fun e => cl_Weight e.2) (map_to_list claims).
Proof.
  intros (Hw & Hs & _). unfold weight_sum.
  assert (map_sum (fun _ cl => cl_Weight cl) claims = list_sum (fun e => cl_Weight e.2) (map_to_list claims)) as Em.
  { unfold map_sum. rewrite map_fold_foldr. generalize (map_to_list claims).
    induction l as [|[k v] l IH]; [done|]. rewrite list_sum_cons. cbn [foldr]. by rewrite IH. }
  rewrite Em in Hs. clear Em.
  assert (Forall (fun e => 0 ≤ cl_Weight e.2) (map_to_list claims)) as Hf.
  { apply List.Forall_forall. intros [k v] Hin. simpl. apply (Hw k).
    by apply elem_of_map_to_list, list_elem_of_In. }
  revert Hs Hf. generalize (map_to_list claims).
  assert (∀ l t, 0 ≤ t → Forall (fun e : string * Claim => 0 ≤ cl_Weight e.2) l →
    t + list_sum (fun e => cl_Weight e.2) l < 2 ^ 63 →
    foldl (fun sum e => i64 (sum + cl_Weight e.2)) t l = t + list_sum (fun e => cl_Weight e.2) l) as Hg.
  { induction l as [|e l IH]; intros t Ht Hf Hs; [rewrite list_sum_nil; simpl; lia|].
    apply Forall_cons in Hf as [He Hf]. rewrite list_sum_cons in *.
    pose proof (list_sum_nonneg _ _ Hf). simpl. rewrite i64_small by lia. rewrite IH by (done || lia). lia. }
  intros l Hs Hf. rewrite Hg; [lia|lia|done|lia].
Qed.

Lemma share_amt_bound amt sum cl z :
  0 ≤ amt → 0 < sum → 0 ≤ cl_Weight cl → share_amt amt sum cl = Ok z →
  0 ≤ z ∧ 2 * precision * sum * z ≤ 2 * amt * cl_Weight cl + sum.
Proof.
  intros Ha Hs Hw E. unfold share_amt in E. inv_ok E.
  apply Dec_QuoInt_Ok in E0 as [_ ->]. pose proof precision_pos as Hp.
  set (sh := Z.quot (ToDec (cl_Weight cl)) sum) in *.
  assert (0 ≤ sh ∧ sh * sum ≤ cl_Weight cl * precision) as [Hsh0 Hsh].
  { unfold sh, ToDec. rewrite Z.quot_div_nonneg by nia.
    pose proof (Z.mul_div_le (cl_Weight cl * precision) sum Hs). split; [apply Z.div_pos; nia|lia]. }
  pose proof (Dec_Mul_nonneg _ _ _ E1 Ha Hsh0). apply Dec_Mul_bounds in E1.
  apply Dec_TruncateInt_bounds in E; [|done]. split; [lia|].
  assert (2 * precision * (precision * sum * z) ≤ 2 * precision * (amt * cl_Weight cl) + precision * sum); [|nia].
  assert (z * precision ≤ r0) by lia.
  assert (2 * r0 * precision * sum ≤ (2 * amt * sh + precision) * sum) by nia.
  assert (2 * amt * (sh * sum) ≤ 2 * amt * (cl_Weight cl * precision)) by nia.
  nia.
Qed.

Lemma winners_bound stk amt sum (l : list (string * Claim)) :
  0 ≤ amt → 0 < sum → Forall (fun e => 0 ≤ cl_Weight e.2) l →
  0 ≤ list_sum (fun e => winner_amt stk amt sum e.2) l ∧
  2 * precision * sum * list_sum (fun e => winner_amt stk amt sum e.2) l ≤
    2 * amt * list_sum (fun e => cl_Weight e.2) l + sum * Z.of_nat (length l).
Proof.
  intros Ha Hs. pose proof precision_pos. induction 1 as [|e l He Hl IH]; [rewrite !list_sum_nil; simpl; lia|].
  rewrite !list_sum_cons. cbn [length]. rewrite Nat2Z.inj_succ.
  assert (0 ≤ winner_amt stk amt sum e.2 ∧
    2 * precision * sum * winner_amt stk amt sum e.2 ≤ 2 * amt * cl_Weight e.2 + sum) as [H0 H1].
  { unfold winner_amt. destruct (Validator stk _); [|nia].
    destruct (share_amt amt sum e.2) as [z|err|] eqn:E; simpl; [|nia|nia].
    by apply share_amt_bound. }
  destruct IH. split; [lia|nia].
Qed.

(** What is distributed in a period is not negative and within the pool. *)
Lemma paid_bound c vp window targets claims d :
  weights_ok claims → 0 ≤ vp ≤ window → 0 < window → 0 ≤ pool c d →
  0 ≤ paid c vp window targets claims d ≤ pool c d.
Proof.
  intros Hw Hv Hwin Hp0. pose proof precision_pos as Hp. unfold paid.
  destruct (Z.eqb_spec (weight_sum claims) 0) as [Ez|Ez]; [lia|].
  pose proof (weight_sum_exact _ Hw) as Es. destruct Hw as (Hw & _ & Hn).
  assert (Forall (fun e => 0 ≤ cl_Weight e.2) (map_to_list claims)) as Hf.
  { apply List.Forall_forall. intros [k v] Hin. apply (Hw k).
    by apply elem_of_map_to_list, list_elem_of_In. }
  pose proof (list_sum_nonneg _ _ Hf) as Hs0. rewrite <- Es in Hs0.
  set (amt := period_amt _ _ _ _).
  assert (0 ≤ amt ≤ pool c d * precision) as Ham.
  { unfold amt, period_amt. destruct (targets !! d); [|nia].
    assert (0 ≤ Z.quot (ToDec vp) window ≤ precision); [|nia]. unfold ToDec.
    rewrite Z.quot_div_nonneg by nia. split; [apply Z.div_pos; nia|].
    apply Z.div_le_upper_bound; nia. }
  destruct (winners_bound (ch_staking c) amt (weight_sum claims) _ ltac:(lia) ltac:(lia) Hf) as [H0 H1].
  rewrite <- Es, length_map_to_list in H1. split; [done|].
  set (S := weight_sum claims) in *.
  set (tot := list_sum (fun e => winner_amt (ch_staking c) amt S e.2) (map_to_list claims)) in *.
  assert (2 * precision * tot ≤ 2 * amt + Z.of_nat (size claims)) as H2.
  { apply (Z.mul_le_mono_pos_l _ _ S); [lia|]. lia. }
  clear - H2 Ham Hn Hp. destruct (Z.le_gt_cases tot (pool c d)) as [|Hgt]; [done|]. exfalso.
  assert (2 * precision * (pool c d + 1) ≤ 2 * precision * tot) by (apply Z.mul_le_mono_nonneg_l; lia). lia.
Qed.
End Reward.

(** * Slashing at the end of a slash window ([src/x/oracle/keeper/slash.go]) and
    the end of a block as a whole: what it leaves in the stores, when it
    panics, and that it does not depend on the order of Go maps. *)

Section Slash.
Context `{HS : Sdk, HL : !SdkLaws, HE : SdkExt, HEL : !SdkExtLaws, HB : BankKeeper, HBL : !BankLaws, HN : NftKeeper,
  HK : StakingKeeper, HD : DistrKeeper}.
Implicit Types (c : Chain).

(** What one miss counter does to the staking state. *)
Definition slash_one (ctx : Ctx) (params : OracleParams) (n : Z) (stk : staking_state)
    (e : Addr * Z) : outcome staking_state :=
  rate ← Dec_QuoInt (ToDec (i64 (u64 (n - e.2)))) (i64 n);
  if rate <? op_MinValidPerWindow params then
    validator ← deref (Validator stk e.1);
    if IsBonded validator && negb (IsJailed validator) then
      consAddr ← (match GetConsAddr validator with Ok a => Ok a | _ => Panic end);
      power ← GetConsensusPower validator (PowerReduction stk);
      stk ← Slash stk consAddr (BlockHeight ctx - ValidatorUpdateDelay - 1) power (op_SlashFraction params);
      Jail stk consAddr
    else Ok stk
  else Ok stk.

(** Whether the counter is over the limit of the window. *)
Definition below_min (params : OracleParams) (n miss : Z) : Prop :=
  Z.quot (ToDec (i64 (u64 (n - miss)))) (i64 n) < op_MinValidPerWindow params.

Lemma slash_operator_eval ctx params n c e :
  slash_operator ctx params n c e =
  (stk ← slash_one ctx params n (ch_staking c) e;
   Ok (set_ch_oracle (DeleteMissCounter (ch_oracle c) e.1) (set_staking stk c))).
Proof.
  destruct e as [op miss]. unfold slash_operator, slash_one. cbv zeta. cbn [fst snd].
  by destruct (Dec_QuoInt _ _) as [rate|err|].
Qed.

Definition drop_misses (l : list (Addr * Z)) (s : OracleStore) : OracleStore :=
  with_misses (foldl (fun m e => delete e.1 m) (os_MissCounters s) l) s.

Lemma slash_loop ctx params n l c :
  for_each (slash_operator ctx params n) l c =
  (stk ← for_each (slash_one ctx params n) l (ch_staking c);
   Ok (set_ch_oracle (drop_misses l (ch_oracle c)) (set_staking stk c))).
Proof.
  revert c. induction l as [|e l IH]; intros c; cbn [for_each].
  - destruct c as [w stk d]. unfold drop_misses, set_ch_oracle, set_world, set_oracle, ch_oracle; simpl.
    by destruct w as [m [] v g vo vt b nf].
  - rewrite slash_operator_eval.
    destruct (slash_one ctx params n (ch_staking c) e) as [stk|err|]; cbn [mbind outcome_bind]; [|done|done].
    by rewrite IH.
Qed.

(** The number of vote periods of a slash window. *)
Definition window_periods (p : OracleParams) : outcome Z :=
  r ← Dec_QuoInt (ToDec (i64 (op_SlashWindow p))) (i64 (op_VotePeriod p));
  n ← Dec_TruncateInt64 r; Ok (u64 n).

Lemma slash_all ctx c :
  SlashAndResetMissCounters ctx c =
  (n ← window_periods (os_Params (ch_oracle c));
   stk ← for_each (slash_one ctx (os_Params (ch_oracle c)) n) (IterateMissCounters (ch_oracle c)) (ch_staking c);
   Ok (set_ch_oracle (with_misses ∅ (ch_oracle c)) (set_staking stk c))).
Proof.
  unfold SlashAndResetMissCounters, window_periods. cbv zeta.
  destruct (Dec_QuoInt _ _) as [r|err|]; cbn [mbind outcome_bind]; [|done|done].
  destruct (Dec_TruncateInt64 r) as [n|err|]; cbn [mbind outcome_bind]; [|done|done].
  rewrite slash_loop. unfold drop_misses, IterateMissCounters. rewrite delete_all by apply val_iter_perm. done.
Qed.

(** A counter over the limit whose validator is gone stops the loop. *)
Lemma slash_one_gone ctx params n stk op miss :
  i64 n ≠ 0 → below_min params n miss → Validator stk op = None →
  slash_one ctx params n stk (op, miss) = Panic.
Proof.
  intros Hn Hb Hv. unfold slash_one. cbn [fst snd]. rewrite Dec_QuoInt_fits by done.
  cbn [mbind outcome_bind]. rewrite (proj2 (Z.ltb_lt _ _) Hb), Hv. done.
Qed.

(** The staking keeper's own steps neither add nor remove validators. *)
Class StakingKeepsGone : Prop := {
  Slash_gone s a h p f s' v : Slash s a h p f = Ok s' → Validator s v = None → Validator s' v = None;
  Jail_gone s a s' v : Jail s a = Ok s' → Validator s v = None → Validator s' v = None;
}.

Lemma slash_one_keeps `{!StakingKeepsGone} ctx params n stk e stk' v :
  slash_one ctx params n stk e = Ok stk' → Validator stk v = None → Validator stk' v = None.
Proof.
  intros E Hv. unfold slash_one in E. inv_ok E; subst; try done.
  eapply Jail_gone; [exact E|]. eapply Slash_gone; [|exact Hv]. eassumption.
Qed.

Lemma slash_loop_gone `{!StakingKeepsGone} ctx params n l stk op miss stk' :
  i64 n ≠ 0 → (op, miss) ∈ l → below_min params n miss → Validator stk op = None →
  for_each (slash_one ctx params n) l stk ≠ Ok stk'.
Proof.
  intros Hn. revert stk. induction l as [|e l IH]; intros stk Hin Hb Hv E; [by apply not_elem_of_nil in Hin|].
  cbn [for_each] in E. apply bind_Ok in E as (stk1 & E1 & E).
  apply elem_of_cons in Hin as [<-|Hin].
  - by rewrite slash_one_gone in E1.
  - eapply IH; [done|done| |exact E]. by eapply slash_one_keeps.
Qed.
End Slash.

(** ** Determinism of the end of a block *)
Section Deterministic.
Context `{HS : Sdk, HL : !SdkLaws, HE : SdkExt, HEL : !SdkExtLaws, HB : BankKeeper, HBL : !BankLaws, HN : NftKeeper,
  HK : StakingKeeper, HD : DistrKeeper, HG : GoSort}.
Context (O1 O2 : MapOrder) {L1 : MapOrderLaws O1} {L2 : MapOrderLaws O2}.
Implicit Types (c : Chain).

(** Two chains that no query of the oracle, the staking keeper or the bank
    distinguishes. *)
Definition same_chain (c1 c2 : Chain) : Prop :=
  ch_oracle c1 = ch_oracle c2 ∧ ch_staking c1 = ch_staking c2 ∧
  ∀ d, supply (w_bank (ch_world c1)) d = supply (w_bank (ch_world c2)) d ∧
  ∀ a, bal (w_bank (ch_world c1)) a d = bal (w_bank (ch_world c2)) a d.

#[export] Instance same_chain_equiv : Equivalence same_chain.
Proof.
  split.
  - intros c. by split_and!.
  - intros c1 c2 (E1 & E2 & E3). split_and!; [done|done|]. intros d. destruct (E3 d) as [? E4].
    split; [done|]. intros a. by rewrite E4.
  - intros c1 c2 c3 (E1 & E2 & E3) (F1 & F2 & F3). split_and!; [by trans (ch_oracle c2)|by trans (ch_staking c2)|].
    intros d. destruct (E3 d) as [? E4], (F3 d) as [? F4]. split; [congruence|]. intros a. by rewrite E4.
Qed.

Lemma set_oracle_same s c1 c2 : same_chain c1 c2 → same_chain (set_ch_oracle s c1) (set_ch_oracle s c2).
Proof. intros (E1 & E2 & E3). by split_and!. Qed.

Lemma slash_same ctx c1 c2 c1' c2' :
  same_chain c1 c2 → SlashAndResetMissCounters ctx c1 = Ok c1' →
  SlashAndResetMissCounters ctx c2 = Ok c2' → same_chain c1' c2'.
Proof.
  intros (E1 & E2 & E3) H1 H2. rewrite slash_all in H1, H2. rewrite <- E1, <- E2 in H2.
  apply bind_Ok in H1 as (n & Hn & H1). rewrite Hn in H2. cbn [mbind outcome_bind] in H2.
  apply bind_Ok in H1 as (stk & Hs & H1). rewrite Hs in H2. cbn [mbind outcome_bind] in H2.
  injection H1 as <-. injection H2 as <-. by split_and!.
Qed.

Lemma end_vote_period_same ctx c c1 c2 :
  (∀ thr, threshold_votes c = Ok thr → 0 ≤ thr) →
  @end_vote_period _ _ _ _ _ _ _ O1 ctx c = Ok c1 →
  @end_vote_period _ _ _ _ _ _ _ O2 ctx c = Ok c2 → same_chain c1 c2.
Proof.
  intros Ht H1 H2. unfold end_vote_period in *. cbv zeta in *.
  pose proof (tally_period_same O1 O2 c Ht) as Hs.
  apply bind_Ok in H1 as ([[ca ta] cla] & Ea & H1). apply bind_Ok in H2 as ([[cb tb] clb] & Eb & H2).
  rewrite Ea, Eb in Hs. injection Hs as <- <- <-.
  apply bind_Ok in H1 as (d1 & Ra & H1). apply bind_Ok in H2 as (d2 & Rb & H2).
  injection H1 as <-. injection H2 as <-.
  apply reward_effect in Ra as (A1 & A2 & A3); [|done]. apply reward_effect in Rb as (B1 & B2 & B3); [|done].
  rewrite A1, B1. apply set_oracle_same. split_and!; [congruence|congruence|].
  intros d. destruct (A3 d) as [? A4], (B3 d) as [? B4]. split; [congruence|]. intros a. by rewrite A4, B4.
Qed.
End Deterministic.
