(* ===== verification/OracleHistory.v ===== *)
(** The commit-reveal protocol of the oracle along a history of accepted
    messages: every vote that is counted was committed to, by hash, in the
    vote period before the one it was revealed in. *)

From stdpp Require Import base gmap strings list.
From Stdlib Require Import ZArith Lia Ascii.
From S2P Require Import Prelude GoStrings Sdk Types MakerTypes VeTypes SdkExt OracleTypes World OracleKeeper OracleBallot OracleEnd OracleOrder OracleReward.

#[local] Open Scope Z_scope.

(** ** Hexadecimal forms are read back *)

Lemma hex_digit_value n : (n < 16)%nat → hex_value (hex_digit n) = Some n.
Proof. intros H. do 16 (destruct n as [|n]; [done|]). lia. Qed.

Lemma hex_roundtrip h : AggregateVoteHashFromHexString (AggregateVoteHash_String h) = Ok h.
Proof.
  induction h as [|a h IH]; [done|]. cbn [AggregateVoteHash_String AggregateVoteHashFromHexString].
  pose proof (nat_ascii_bounded a) as Hb.
  rewrite !hex_digit_value by (apply Nat.mod_upper_bound || apply Nat.Div0.div_lt_upper_bound; lia).
  rewrite IH. cbn [mbind outcome_bind].
  by rewrite <- Nat.div_mod_eq, ascii_nat_embedding.
Qed.

Lemma hex_String_inj h h' : AggregateVoteHash_String h = AggregateVoteHash_String h' → h = h'.
Proof. intros E. pose proof (hex_roundtrip h) as H. rewrite E, hex_roundtrip in H. by injection H. Qed.

(** ** Tuples that parse name each denomination once, and validly *)
Section Parse.
Context `{Sdk, SdkExt}.

Lemma parse_tuples_spec seen l ts :
  parse_tuples seen l = Ok ts →
  NoDup (ert_Denom <$> ts) ∧ (∀ t, t ∈ ts → (ert_Denom t ∉ seen) ∧ ValidDenom (ert_Denom t) = true) ∧
  (length ts = length l)%nat.
Proof.
  revert seen ts. induction l as [|x l IH]; intros seen ts E; cbn [parse_tuples] in E.
  - injection E as <-. split_and!; [constructor|by intros t ?%not_elem_of_nil|done].
  - inv_ok E. subst ts. apply bool_decide_eq_false in G. destruct (IH _ _ E1) as (Hn & Hs & Hl).
    split_and!.
    + rewrite fmap_cons. constructor; [|done]. intros (t & Et & Ht)%list_elem_of_fmap.
      destruct (Hs _ Ht) as [Hni _]. apply Hni. rewrite <- Et. by left.
    + intros t [->|Ht]%elem_of_cons.
      * split; [done|]. unfold parse_tuple in E0. destruct (Split _ _) as [|d [|rs [|? ?]]]; try discriminate E0.
        inv_ok E0. destruct (NewDecFromStr rs) as [amt|e|]; try discriminate E0. injection E0 as <-. by apply negb_false_iff.
      * destruct (Hs _ Ht) as [Hni ?]. split; [|done]. intros Hin. apply Hni. by right.
    + simpl. by rewrite Hl.
Qed.

Lemma ParseExchangeRateTuples_spec s ts :
  ParseExchangeRateTuples s = Ok ts →
  NoDup (ert_Denom <$> ts) ∧ ∀ t, t ∈ ts → ValidDenom (ert_Denom t) = true.
Proof.
  unfold ParseExchangeRateTuples. cbv zeta. destruct (_ =? _)%nat.
  - intros E. injection E as <-. split; [constructor|by intros t ?%not_elem_of_nil].
  - intros (Hn & Hs & _)%parse_tuples_spec. split; [done|]. intros t Ht. by apply Hs.
Qed.
End Parse.

(** ** What the end of a block does to votes *)

(** Only rates and miss counters differ. *)
Definition tallied (s s' : OracleStore) : Prop := ∃ r m, s' = with_misses m (with_rates r s).

Lemma tallied_refl s : tallied s s.
Proof. exists (os_ExchangeRates s), (os_MissCounters s). by destruct s. Qed.

Lemma tallied_rates s s' r : tallied s s' → tallied s (with_rates r s').
Proof. intros (r0 & m & ->). by exists r, m. Qed.

Lemma tallied_misses s s' m : tallied s s' → tallied s (with_misses m s').
Proof. intros (r & m0 & ->). by exists r, m. Qed.

(** Votes and prevotes only disappear, and nothing else that voting reads
    changes. *)
Definition fewer_votes (s s' : OracleStore) : Prop :=
  os_Params s' = os_Params s ∧ os_Prevotes s' ⊆ os_Prevotes s ∧ os_Votes s' ⊆ os_Votes s ∧
  os_VoteTargets s' = os_VoteTargets s ∧ os_FeederDelegations s' = os_FeederDelegations s.

Lemma tallied_fewer s s' : tallied s s' → fewer_votes s s'.
Proof. intros (r & m & ->). by split_and!. Qed.

#[export] Instance fewer_votes_preorder : PreOrder fewer_votes.
Proof.
  split; [by intros s; split_and!|].
  intros s1 s2 s3 (A1 & A2 & A3 & A4 & A5) (B1 & B2 & B3 & B4 & B5).
  split_and!; try congruence; by etrans.
Qed.

Lemma foldl_delete_sub {V W} (l : list (string * W)) (m : gmap string V) :
  foldl (fun m e => delete e.1 m) m l ⊆ m.
Proof.
  apply map_subseteq_spec. intros k v. rewrite delete_keys_lookup. by case_decide.
Qed.

Lemma clear_prevotes_fewer ctx vp l s s0 :
  fewer_votes s s0 →
  fewer_votes s (foldl (fun s '(voterAddr, p) =>
      if i64 (u64 (apv_SubmitBlock p + vp)) <? BlockHeight ctx
      then DeleteAggregateExchangeRatePrevote s voterAddr else s) s0 l).
Proof.
  revert s0. induction l as [|[v p] l IH]; intros s0 H; [done|]. simpl. apply IH.
  destruct (_ <? _); [|done]. destruct H as (A1 & A2 & A3 & A4 & A5). split_and!; try done.
  simpl. etrans; [apply delete_subseteq|done].
Qed.

Lemma clear_votes_all s :
  foldl (fun s '(voterAddr, _) => DeleteAggregateExchangeRateVote s voterAddr)
    s (IterateAggregateExchangeRateVotes s) = with_votes ∅ s.
Proof.
  assert (∀ (l : list (Addr * AggregateVote)) r,
    foldl (fun s '(voterAddr, _) => DeleteAggregateExchangeRateVote s voterAddr) (with_votes r s) l =
    with_votes (foldl (fun m e => delete e.1 m) r l) s) as E.
  { induction l as [|[d x] l IH]; intros r; [done|]. simpl. rewrite <- IH. done. }
  specialize (E (IterateAggregateExchangeRateVotes s) (os_Votes s)).
  rewrite delete_all in E by apply val_iter_perm. destruct s. exact E.
Qed.

(** After the last block of a period no vote is left. *)
Lemma ClearBallots_votes ctx s vp : os_Votes (ClearBallots ctx s vp) = ∅.
Proof. unfold ClearBallots. cbv zeta. by rewrite clear_votes_all. Qed.

Lemma ClearBallots_fewer ctx s vp : fewer_votes s (ClearBallots ctx s vp).
Proof.
  unfold ClearBallots. cbv zeta. rewrite clear_votes_all.
  pose proof (clear_prevotes_fewer ctx vp (IterateAggregateExchangeRatePrevotes s) s s ltac:(reflexivity)) as H.
  destruct H as (A1 & A2 & A3 & A4 & A5). split_and!; try done. simpl. apply map_empty_subseteq.
Qed.

Section End.
Context `{HS : Sdk, HL : !SdkLaws, HE : SdkExt, HEL : !SdkExtLaws, HB : BankKeeper, HBL : !BankLaws, HN : NftKeeper,
  HK : StakingKeeper, HD : DistrKeeper, HG : GoSort, HO : MapOrder, HOL : !MapOrderLaws HO}.
Implicit Types (c : Chain).

Lemma tally_ballots_tallied c p claims c' claims' :
  tally_ballots c p claims = Ok (c', claims') →
  tallied (ch_oracle c) (ch_oracle c') ∧ ch_staking c' = ch_staking c.
Proof.
  unfold tally_ballots. case_decide; intros E; [by injection E as <- _; split; [apply tallied_refl|]|].
  apply bind_Ok in E as (rm & _ & E). apply bind_Ok in E as ([rates cl] & _ & E).
  injection E as <- _. split; [|done]. apply tallied_rates, tallied_refl.
Qed.

Lemma tally_period_tallied c c' t claims :
  tally_period c = Ok (c', t, claims) →
  tallied (ch_oracle c) (ch_oracle c') ∧ ch_staking c' = ch_staking c.
Proof.
  unfold tally_period. intros E. apply bind_Ok in E as (cl0 & _ & E). cbv zeta in E.
  apply bind_Ok in E as (p & _ & E). apply bind_Ok in E as ([c1 cl1] & E1 & E). injection E as <- _ _.
  apply tally_ballots_tallied in E1 as [E1 E2].
  assert (tallied (ch_oracle c) (ch_oracle c1)) as E3.
  { rewrite clear_rates_spec in E1. destruct E1 as (r & m & ->). by exists r, m. }
  split; [|exact E2]. clear E1. revert E3.
  change (ch_oracle (set_ch_oracle ?s c1)) with s.
  generalize (ch_oracle c1). generalize (range site_miss cl1).
  induction l as [|e l IH]; intros s Hs; [done|]. simpl. apply IH. unfold count_miss.
  destruct (_ =? _); [done|]. by apply tallied_misses.
Qed.

Lemma EndBlocker_fewer ctx c c' :
  oracle_EndBlocker ctx c = Ok c' → fewer_votes (ch_oracle c) (ch_oracle c').
Proof.
  unfold oracle_EndBlocker. cbv zeta. intros E.
  apply bind_Ok in E as (last & _ & E). apply bind_Ok in E as (c1 & E1 & E).
  apply bind_Ok in E as (slash & _ & E).
  assert (fewer_votes (ch_oracle c) (ch_oracle c1)) as F1.
  { destruct last; [|by injection E1 as <-]. unfold end_vote_period in E1. cbv zeta in E1.
    apply bind_Ok in E1 as ([[c2 t] cl] & E2 & E1). apply bind_Ok in E1 as (c3 & E3 & E1).
    injection E1 as <-. apply tally_period_tallied in E2 as [E2 _].
    apply reward_effect in E3 as (E3 & _ & _); [|done].
    etrans; [apply tallied_fewer, E2|]. rewrite <- E3. apply ClearBallots_fewer. }
  destruct slash; [|by injection E as <-]. rewrite slash_all in E.
  apply bind_Ok in E as (n & _ & E). apply bind_Ok in E as (stk & _ & E). injection E as <-.
  etrans; [exact F1|]. by split_and!.
Qed.

(** ** Histories *)

(** The chains reachable from one without votes, with the log of the accepted
    messages and their heights, latest first.  Between two steps of the oracle
    the rest of the chain may change in any way. *)
Inductive oracle_run : list (Z * OracleMsg) → Chain → Prop :=
| run_start c : os_Prevotes (ch_oracle c) = ∅ → os_Votes (ch_oracle c) = ∅ → oracle_run [] c
| run_msg log c ctx m c' :
    oracle_run log c → 0 ≤ BlockHeight ctx < 2 ^ 63 → oracle_NewHandler ctx c m = Ok c' →
    oracle_run ((BlockHeight ctx, m) :: log) c'
| run_end log c ctx c' : oracle_run log c → oracle_EndBlocker ctx c = Ok c' → oracle_run log c'
| run_target log c p c' : oracle_run log c → HandleRegisterTargetProposal c p = Ok c' → oracle_run log c'
| run_other log c c' : oracle_run log c → ch_oracle c' = ch_oracle c → oracle_run log c'.

(** A prevote message of validator [v] that committed to [hash] at height [h]. *)
Definition commits (v : Addr) (hash : string) (h : Z) (e : Z * OracleMsg) : Prop :=
  ∃ m, e = (h, OPrevote m) ∧ ValAddressFromBech32 (mp_Validator m) = Ok v ∧
       AggregateVoteHashFromHexString (mp_Hash m) = Ok hash ∧ 0 ≤ h < 2 ^ 63.

(** A vote of [v] revealed by a message whose hash was committed to earlier,
    in the vote period just before. *)
Definition revealed (vp : Z) (log : list (Z * OracleMsg)) (v : Addr) (vote : AggregateVote) : Prop :=
  ∃ l1 l2 l3 h m h0 e0,
    log = l1 ++ (h, OVote m) :: l2 ++ e0 :: l3 ∧
    ValAddressFromBech32 (mv_Validator m) = Ok v ∧
    commits v (GetAggregateVoteHash (mv_Salt m) (mv_ExchangeRates m) v) h0 e0 ∧
    h / vp = h0 / vp + 1 ∧
    ParseExchangeRateTuples (mv_ExchangeRates m) = Ok (av_ExchangeRateTuples vote) ∧
    av_Voter vote = ValAddress_String v.

Definition history_inv (log : list (Z * OracleMsg)) (s : OracleStore) : Prop :=
  (∀ v p, os_Prevotes s !! v = Some p → ∃ hash h e, e ∈ log ∧ commits v hash h e ∧
     p = NewAggregateExchangeRatePrevote hash v h) ∧
  (∀ v vote, os_Votes s !! v = Some vote → revealed (op_VotePeriod (os_Params s)) log v vote).

Lemma revealed_cons vp e log v vote : revealed vp log v vote → revealed vp (e :: log) v vote.
Proof. intros (l1 & l2 & l3 & h & m & h0 & e0 & -> & H). by exists (e :: l1), l2, l3, h, m, h0, e0. Qed.

Lemma history_fewer log s s' : fewer_votes s s' → history_inv log s → history_inv log s'.
Proof.
  intros (A1 & A2 & A3 & _) [H1 H2]. split.
  - intros v p Hp. apply H1. by eapply lookup_weaken.
  - intros v vote Hv. rewrite A1. apply H2. by eapply lookup_weaken.
Qed.

Lemma history_cons e log s : history_inv log s → history_inv (e :: log) s.
Proof.
  intros [H1 H2]. split.
  - intros v p (hash & h & e0 & Hin & H)%H1. exists hash, h, e0. split; [by right|done].
  - intros v vote Hv. by apply revealed_cons, H2.
Qed.

(** ** The handlers *)

Lemma prevote_history log ctx c m c' :
  0 ≤ BlockHeight ctx < 2 ^ 63 → AggregateExchangeRatePrevote ctx c m = Ok c' →
  history_inv log (ch_oracle c) → history_inv ((BlockHeight ctx, OPrevote m) :: log) (ch_oracle c').
Proof.
  intros Hh E [H1 H2]%(history_cons (BlockHeight ctx, OPrevote m)).
  unfold AggregateExchangeRatePrevote in E. inv_ok E. subst c'. split; [|done].
  intros v p Hp. simpl in Hp. apply lookup_insert_Some in Hp as [[<- <-]|[Hne Hp]]; [|auto].
  exists r2, (BlockHeight ctx), (BlockHeight ctx, OPrevote m). split_and!; [by left| |].
  - exists m. split_and!; [done|done| |lia|lia]. destruct (AggregateVoteHashFromHexString (mp_Hash m)); simpl in *; congruence.
  - by rewrite u64_small by lia.
Qed.

Lemma u64_succ a b : 0 ≤ a < 2 ^ 63 → 0 ≤ b < 2 ^ 63 → u64 (a - b) = 1 → a = b + 1.
Proof.
  intros Ha Hb H. unfold u64 in H. pose proof (Z.div_mod (a - b) (2 ^ 64) ltac:(lia)). lia.
Qed.

Lemma div_range a b : 0 ≤ a < 2 ^ 63 → 0 < b → 0 ≤ a / b < 2 ^ 63.
Proof. intros. split; [apply Z.div_pos; lia|]. pose proof (Z.div_le_upper_bound a b a). nia. Qed.

Lemma vote_history log ctx c m c' :
  0 < op_VotePeriod (os_Params (ch_oracle c)) →
  0 ≤ BlockHeight ctx < 2 ^ 63 → AggregateExchangeRateVote ctx c m = Ok c' →
  history_inv log (ch_oracle c) → history_inv ((BlockHeight ctx, OVote m) :: log) (ch_oracle c').
Proof.
  intros Hvp Hh E Hinv. pose proof (history_cons (BlockHeight ctx, OVote m) _ _ Hinv) as [H1 H2].
  unfold AggregateExchangeRateVote in E. cbv zeta in E.
  apply bind_Ok in E as (v & Ev & E). apply bind_Ok in E as (f & _ & E). apply bind_Ok in E as (u & _ & E).
  apply bind_Ok in E as (p & Ep & E). apply bind_Ok in E as (now & En & E). apply bind_Ok in E as (sub & Es & E).
  apply guard_err_Ok in E as [G E]. apply bind_Ok in E as (ts & Et & E).
  apply guard_err_Ok in E as [_ E]. apply guard_err_Ok in E as [Gh E]. injection E as <-.
  assert (os_Prevotes (ch_oracle c) !! v = Some p) as Hp.
  { unfold GetAggregateExchangeRatePrevote in Ep. destruct (_ !! v); simpl in Ep; congruence. }
  assert (ParseExchangeRateTuples (mv_ExchangeRates m) = Ok ts) as Ht.
  { destruct (ParseExchangeRateTuples _); simpl in Et; congruence. }
  destruct (proj1 Hinv _ _ Hp) as (hash & h0 & e0 & Hin & Hc & Epv).
  split.
  - intros v' p' Hp'. simpl in Hp'. apply lookup_delete_Some in Hp' as [_ Hp']. auto.
  - intros v' vote Hv. simpl in Hv. apply lookup_insert_Some in Hv as [[<- <-]|[_ Hv]]; [|by apply H2].
    apply list_elem_of_split in Hin as (l2 & l3 & ->).
    exists [], l2, l3, (BlockHeight ctx), m, h0, e0.
    apply bool_decide_eq_false, dec_stable in Gh. rewrite Epv in Gh. simpl in Gh. apply hex_String_inj in Gh.
    rewrite <- Gh. split_and!; try done.
    destruct Hc as (m0 & _ & _ & _ & Hh0). unfold u64_div in *. rewrite Epv in Es. simpl in Es.
    unfold oracle_GetParams in *.
    assert ((op_VotePeriod (os_Params (ch_oracle c)) =? 0) = false) as Ez by (apply Z.eqb_neq; lia).
    rewrite Ez in En, Es.
    injection En as <-. injection Es as <-. rewrite (u64_small (BlockHeight ctx)) in G by lia. zbool.
    apply u64_succ in G; [done|by apply div_range|by apply div_range].
Qed.

(** The vote period never changes along a run. *)
Lemma handler_params ctx c m c' :
  oracle_NewHandler ctx c m = Ok c' → os_Params (ch_oracle c') = os_Params (ch_oracle c).
Proof.
  destruct m; simpl; unfold AggregateExchangeRatePrevote, AggregateExchangeRateVote, DelegateFeedConsent;
    intros E; inv_ok E; by subst.
Qed.

Lemma run_history log c :
  0 < op_VotePeriod (os_Params (ch_oracle c)) → oracle_run log c → history_inv log (ch_oracle c).
Proof.
  intros Hvp Hr. induction Hr as [c H1 H2|log c ctx m c' Hr IH Hh E|log c ctx c' Hr IH E|log c p c' Hr IH E|log c c' Hr IH E].
  - split; [rewrite H1|rewrite H2]; intros v x; by rewrite lookup_empty.
  - pose proof (handler_params _ _ _ _ E) as Ep. rewrite Ep in Hvp. specialize (IH Hvp).
    destruct m as [m|m|m]; simpl in E.
    + by eapply prevote_history.
    + by eapply vote_history.
    + apply history_cons. unfold DelegateFeedConsent in E. inv_ok E. by subst.
  - pose proof (EndBlocker_fewer _ _ _ E) as F. destruct F as (Ep & F). rewrite Ep in Hvp.
    eapply history_fewer; [by split|auto].
  - unfold HandleRegisterTargetProposal in E. cbv zeta in E. inv_ok E. subst c'.
    destruct (tp_Source p); exact (IH Hvp).
  - rewrite E in *. auto.
Qed.
End End.

(** * Export and import of the oracle's store ([src/x/oracle/genesis.go]): what
    survives, and what does not. *)

(** Inserting what an iterator visits rebuilds the map. *)
Lemma insert_all {V} (l : list (string * V)) (m : gmap string V) :
  l ≡ₚ map_to_list m → foldl (fun m e => <[e.1 := e.2]> m) ∅ l = m.
Proof.
  intros Hl. assert (NoDup l.*1) as Hn by (rewrite Hl; apply NoDup_fst_map_to_list).
  assert (foldl (fun m e => <[e.1 := e.2]> m) ∅ l = list_to_map (rev l)) as ->.
  { rewrite <- (rev_involutive l) at 1. generalize (rev l). induction l0 as [|[k v] l0 IH]; [done|].
    simpl. rewrite foldl_app. simpl. by rewrite IH. }
  rewrite (list_to_map_proper _ (map_to_list m)).
  - apply list_to_map_to_list.
  - rewrite <- Permutation_rev. done.
  - rewrite <- Hl. symmetry. apply Permutation_rev.
Qed.

Section Genesis.
Context `{HS : Sdk, HE : SdkExt, HEL : !SdkExtLaws}.

(** Stores whose keys are addresses that parse, and whose votes are stored
    under their voter. *)
Record exportable (s : OracleStore) : Prop := {
  ex_feeders v f : os_FeederDelegations s !! v = Some f →
    ValAddressFromBech32 (ValAddress_String v) = Ok v ∧ AccAddressFromBech32 (AccAddress_String f) = Ok f;
  ex_misses v n : os_MissCounters s !! v = Some n → ValAddressFromBech32 (ValAddress_String v) = Ok v;
  ex_prevotes v p : os_Prevotes s !! v = Some p → ValAddressFromBech32 (apv_Voter p) = Ok v;
  ex_votes v a : os_Votes s !! v = Some a → ValAddressFromBech32 (av_Voter a) = Ok v;
  ex_params : is_ok (oracle_ParamSetPairs (os_Params s)) = true;
}.

(** A loop of [InitGenesis] over what [ExportGenesis] wrote for one map. *)
Lemma init_loop {V X} (init : OracleStore → X → outcome OracleStore) (out : string * V → X)
    (get : OracleStore → gmap string V) (put : gmap string V → OracleStore → OracleStore)
    (m : gmap string V) (l : list (string * V)) s :
  (∀ s k v, m !! k = Some v → init s (out (k, v)) = Ok (put (<[k := v]> (get s)) s)) →
  (∀ s m, get (put m s) = m) → (∀ s m m', put m (put m' s) = put m s) → (∀ s, put (get s) s = s) →
  l ≡ₚ map_to_list m → get s = ∅ →
  for_each init (out <$> l) s = Ok (put m s).
Proof.
  intros Hi Hg Hp Hid Hl Hs.
  assert (∀ l', (∀ e, e ∈ l' → m !! e.1 = Some e.2) → ∀ s,
    for_each init (out <$> l') s = Ok (put (foldl (fun m e => <[e.1 := e.2]> m) (get s) l') s)) as E.
  { induction l' as [|[k v] l' IH]; intros Hin s0; [by simpl; rewrite Hid|].
    rewrite fmap_cons. cbn [for_each].
    rewrite (Hi s0 k v) by (apply (Hin (k, v)); by left). cbn [mbind outcome_bind].
    rewrite IH by (intros e He; apply Hin; by right). by rewrite Hg, Hp. }
  rewrite E.
  - rewrite Hs, (insert_all l m Hl). done.
  - intros [k v] Hin. rewrite Hl in Hin. by apply elem_of_map_to_list in Hin.
Qed.

Lemma with_prevotes_get s : with_prevotes (os_Prevotes s) s = s.
Proof. by destruct s. Qed.
Lemma with_votes_get s : with_votes (os_Votes s) s = s.
Proof. by destruct s. Qed.
Lemma with_feeders_get s : with_feeders (os_FeederDelegations s) s = s.
Proof. by destruct s. Qed.
Lemma with_misses_get s : with_misses (os_MissCounters s) s = s.
Proof. by destruct s. Qed.
Lemma with_rates_get s : with_rates (os_ExchangeRates s) s = s.
Proof. by destruct s. Qed.

(** Importing an export restores parameters, rates, delegations, counters,
    prevotes and votes; the targets, which the genesis state has no field for,
    are lost. *)
Theorem oracle_genesis_round_trip s p0 :
  exportable s →
  oracle_InitGenesis (mkOracleStore p0 ∅ ∅ ∅ ∅ ∅ ∅ ∅) (oracle_ExportGenesis s) =
  Ok (with_targets ∅ (with_vote_targets ∅ s)).
Proof.
  intros [Hf Hm Hp Hv Hok]. unfold oracle_InitGenesis, oracle_ExportGenesis. simpl.
  rewrite (init_loop init_delegation _ os_FeederDelegations with_feeders (os_FeederDelegations s));
    [|intros s0 k v [E1 E2]%Hf; unfold init_delegation; simpl; by rewrite E1, E2
     |done|done|apply with_feeders_get|apply val_iter_perm|done].
  cbn [mbind outcome_bind].
  rewrite (init_loop init_rate _ os_ExchangeRates with_rates (os_ExchangeRates s));
    [|done|done|done|apply with_rates_get|apply kv_iter_perm|done]. cbn [mbind outcome_bind].
  rewrite (init_loop init_miss _ os_MissCounters with_misses (os_MissCounters s));
    [|intros s0 k v E%Hm; unfold init_miss; simpl; by rewrite E
     |done|done|apply with_misses_get|apply val_iter_perm|done]. cbn [mbind outcome_bind].
  rewrite (init_loop init_prevote snd os_Prevotes with_prevotes (os_Prevotes s));
    [|intros s0 k v E%Hp; unfold init_prevote; simpl; by rewrite E
     |done|done|apply with_prevotes_get|apply val_iter_perm|done]. cbn [mbind outcome_bind].
  rewrite (init_loop init_vote snd os_Votes with_votes (os_Votes s));
    [|intros s0 k v E%Hv; unfold init_vote; simpl; by rewrite E
     |done|done|apply with_votes_get|apply val_iter_perm|done]. cbn [mbind outcome_bind].
  unfold oracle_SetParams. unfold oracle_GetParams. destruct (oracle_ParamSetPairs (os_Params s)); [|done|done].
  by destruct s.
Qed.
End Genesis.
