(* ===== verification/MakerKeeper.v ===== *)
(** The maker keeper ([src/x/maker/keeper/]): store access, module parameters,
    the backing ratio, and the swap and collateral calculations of
    [calculate.go]. *)

From stdpp Require Import base gmap strings list.
From Stdlib Require Import ZArith Lia.
From S2P Require Import Prelude Sdk Types MakerTypes VeTypes World.

#[local] Open Scope Z_scope.

Section Keeper.
Context `{!Sdk, !BankKeeper, !NftKeeper}.
Implicit Types (w : World) (ctx : Ctx).

(** ** Store access ([pool.go], [risk_params.go], [backing_ratio.go]) *)

Definition GetTotalBacking w : option TotalBacking := ms_BackingTotal (w_maker w).
Definition SetTotalBacking w (t : TotalBacking) : World :=
  let s := w_maker w in
  set_maker (mkMakerStore (ms_Params s) (ms_BackingRatio s) (ms_BackingRatioLastBlock s)
    (ms_BackingParams s) (ms_CollateralParams s) (Some t) (ms_CollateralTotal s)
    (ms_BackingPool s) (ms_CollateralPool s) (ms_CollateralAccount s)) w.

Definition GetPoolBacking w (denom : string) : option PoolBacking :=
  ms_BackingPool (w_maker w) !! denom.
Definition SetPoolBacking w (pool : PoolBacking) : World :=
  let s := w_maker w in
  set_maker (mkMakerStore (ms_Params s) (ms_BackingRatio s) (ms_BackingRatioLastBlock s)
    (ms_BackingParams s) (ms_CollateralParams s) (ms_BackingTotal s) (ms_CollateralTotal s)
    (<[Denom (pb_Backing pool) := pool]> (ms_BackingPool s))
    (ms_CollateralPool s) (ms_CollateralAccount s)) w.
Definition GetAllPoolBacking w : list PoolBacking :=
  (kv_iter (ms_BackingPool (w_maker w))).*2.

Definition GetTotalCollateral w : option TotalCollateral := ms_CollateralTotal (w_maker w).
Definition SetTotalCollateral w (t : TotalCollateral) : World :=
  let s := w_maker w in
  set_maker (mkMakerStore (ms_Params s) (ms_BackingRatio s) (ms_BackingRatioLastBlock s)
    (ms_BackingParams s) (ms_CollateralParams s) (ms_BackingTotal s) (Some t)
    (ms_BackingPool s) (ms_CollateralPool s) (ms_CollateralAccount s)) w.

Definition GetPoolCollateral w (denom : string) : option PoolCollateral :=
  ms_CollateralPool (w_maker w) !! denom.
Definition SetPoolCollateral w (pool : PoolCollateral) : World :=
  let s := w_maker w in
  set_maker (mkMakerStore (ms_Params s) (ms_BackingRatio s) (ms_BackingRatioLastBlock s)
    (ms_BackingParams s) (ms_CollateralParams s) (ms_BackingTotal s) (ms_CollateralTotal s)
    (ms_BackingPool s)
    (<[Denom (pc_Collateral pool) := pool]> (ms_CollateralPool s))
    (ms_CollateralAccount s)) w.
Definition GetAllPoolCollateral w : list PoolCollateral :=
  (kv_iter (ms_CollateralPool (w_maker w))).*2.

Definition GetAccountCollateral w (addr : Addr) (denom : string) : option AccountCollateral :=
  ms_CollateralAccount (w_maker w) !! (addr, denom).
Definition SetAccountCollateral w (addr : Addr) (col : AccountCollateral) : World :=
  let s := w_maker w in
  set_maker (mkMakerStore (ms_Params s) (ms_BackingRatio s) (ms_BackingRatioLastBlock s)
    (ms_BackingParams s) (ms_CollateralParams s) (ms_BackingTotal s) (ms_CollateralTotal s)
    (ms_BackingPool s) (ms_CollateralPool s)
    (<[(addr, Denom (ac_Collateral col)) := col]> (ms_CollateralAccount s))) w.

Definition GetBackingRiskParams w (denom : string) : option BackingRiskParams :=
  ms_BackingParams (w_maker w) !! denom.
Definition SetBackingRiskParams w (params : BackingRiskParams) : World :=
  let s := w_maker w in
  set_maker (mkMakerStore (ms_Params s) (ms_BackingRatio s) (ms_BackingRatioLastBlock s)
    (<[brp_BackingDenom params := params]> (ms_BackingParams s))
    (ms_CollateralParams s) (ms_BackingTotal s) (ms_CollateralTotal s)
    (ms_BackingPool s) (ms_CollateralPool s) (ms_CollateralAccount s)) w.
Definition IsBackingRegistered w (denom : string) : bool :=
  bool_decide (is_Some (ms_BackingParams (w_maker w) !! denom)).
Definition GetAllBackingRiskParams w : list BackingRiskParams :=
  (kv_iter (ms_BackingParams (w_maker w))).*2.

Definition GetCollateralRiskParams w (denom : string) : option CollateralRiskParams :=
  ms_CollateralParams (w_maker w) !! denom.
Definition SetCollateralRiskParams w (params : CollateralRiskParams) : World :=
  let s := w_maker w in
  set_maker (mkMakerStore (ms_Params s) (ms_BackingRatio s) (ms_BackingRatioLastBlock s)
    (ms_BackingParams s)
    (<[crp_CollateralDenom params := params]> (ms_CollateralParams s))
    (ms_BackingTotal s) (ms_CollateralTotal s)
    (ms_BackingPool s) (ms_CollateralPool s) (ms_CollateralAccount s)) w.
Definition IsCollateralRegistered w (denom : string) : bool :=
  bool_decide (is_Some (ms_CollateralParams (w_maker w) !! denom)).
Definition GetAllCollateralRiskParams w : list CollateralRiskParams :=
  (kv_iter (ms_CollateralParams (w_maker w))).*2.

Definition GetBackingRatio w : Dec := default OneDec (ms_BackingRatio (w_maker w)).
Definition SetBackingRatio w (br : Dec) : World :=
  let s := w_maker w in
  set_maker (mkMakerStore (ms_Params s) (Some br) (ms_BackingRatioLastBlock s)
    (ms_BackingParams s) (ms_CollateralParams s) (ms_BackingTotal s) (ms_CollateralTotal s)
    (ms_BackingPool s) (ms_CollateralPool s) (ms_CollateralAccount s)) w.

(** The height is stored as eight big-endian bytes of a [uint64]. *)
Definition GetBackingRatioLastBlock w : Z :=
  i64 (default 0 (ms_BackingRatioLastBlock (w_maker w))).
Definition SetBackingRatioLastBlock w (bh : Z) : outcome World :=
  if bh <? 0 then Panic else
  let s := w_maker w in
  Ok (set_maker (mkMakerStore (ms_Params s) (ms_BackingRatio s) (Some (u64 bh))
    (ms_BackingParams s) (ms_CollateralParams s) (ms_BackingTotal s) (ms_CollateralTotal s)
    (ms_BackingPool s) (ms_CollateralPool s) (ms_CollateralAccount s)) w).

(** ** Module parameters ([params.go]): the value under the named key *)

Definition maker_GetParams w : MakerParams := ms_Params (w_maker w).
Definition maker_SetParams w (p : MakerParams) : World :=
  let s := w_maker w in
  set_maker (mkMakerStore p (ms_BackingRatio s) (ms_BackingRatioLastBlock s)
    (ms_BackingParams s) (ms_CollateralParams s) (ms_BackingTotal s) (ms_CollateralTotal s)
    (ms_BackingPool s) (ms_CollateralPool s) (ms_CollateralAccount s)) w.
Definition BackingRatioStep w : Dec := mp_BackingRatioStep (ms_Params (w_maker w)).
Definition BackingRatioPriceBand w : Dec := mp_BackingRatioPriceBand (ms_Params (w_maker w)).
Definition BackingRatioCooldownPeriod w : Z :=
  mp_BackingRatioCooldownPeriod (ms_Params (w_maker w)).
Definition MintPriceBias w : Dec := mp_MintPriceBias (ms_Params (w_maker w)).
(** Reads the key [KeyMintPriceBias]. *)
Definition BurnPriceBias w : Dec := mp_MintPriceBias (ms_Params (w_maker w)).
Definition RebackBonus w : Dec := mp_RebackBonus (ms_Params (w_maker w)).
Definition LiquidationCommissionFee w : Dec :=
  mp_LiquidationCommissionFee (ms_Params (w_maker w)).

(** ** The backing ratio ([backing_ratio.go]) *)

Definition AdjustBackingRatio ctx w : outcome World :=
  if i64 (BlockHeight ctx - GetBackingRatioLastBlock w) <? BackingRatioCooldownPeriod w
  then Ok w else
  let ratioStep := BackingRatioStep w in
  if ratioStep =? 0 then Ok w else
  let backingRatio := GetBackingRatio w in
  priceBand ← Dec_Mul MicroUSMTarget (BackingRatioPriceBand w);
  match GetExchangeRate w MicroUSMDenom with
  | Ok gridPrice =>
      hi ← Dec_Add MicroUSMTarget priceBand;
      backingRatio ←
        (if hi <? gridPrice then
           lowered ← Dec_Sub backingRatio ratioStep; Ok (Z.max lowered ZeroDec)
         else
           lo ← Dec_Sub MicroUSMTarget priceBand;
           if gridPrice <? lo then
             raised ← Dec_Add backingRatio ratioStep; Ok (Z.min raised OneDec)
           else Ok backingRatio);
      let w := SetBackingRatio w backingRatio in
      SetBackingRatioLastBlock w (BlockHeight ctx)
  | _ => Panic
  end.

(** [maker.EndBlocker]. *)
Definition maker_EndBlocker ctx w : outcome World := AdjustBackingRatio ctx w.

(** [InitGenesis]; the module account is set up by the application. *)
Definition maker_InitGenesis w (gs : MakerGenesisState) : World :=
  SetBackingRatio (maker_SetParams w (mg_Params gs)) (mg_BackingRatio gs).

Definition maker_ExportGenesis w : MakerGenesisState :=
  mkMakerGenesis (maker_GetParams w) (GetBackingRatio w).
End Keeper.
