(* ===== verification/MakerCalc.v ===== *)
(** The maker module's calculations ([src/x/maker/keeper/calculate.go]) and
    the helpers of [msg_server.go] they share with the message handlers.

    [calc.X().Y()] chains of the source are written one monadic step per call,
    in the source's order, because each call can panic. *)

From stdpp Require Import base gmap strings list.
From Stdlib Require Import ZArith Lia.
From S2P Require Import Prelude Sdk Types MakerTypes VeTypes World MakerKeeper.

#[local] Open Scope Z_scope.

Section Calc.
Context `{!Sdk, !BankKeeper, !NftKeeper}.
Implicit Types (w : World) (ctx : Ctx).

(** [limit != nil && x.GT(limit)] *)
Definition over (limit : option Z) (x : Z) : bool :=
  match limit with Some m => m <? x | None => false end.

(** [a.QuoRoundUp(b).RoundInt()] and [a.QuoTruncate(b).TruncateInt()] *)
Definition quoRoundUpInt (a b : Dec) : outcome Z := q ← Dec_QuoRoundUp a b; Dec_RoundInt q.
Definition quoTruncateInt (a b : Dec) : outcome Z := q ← Dec_QuoTruncate a b; Dec_TruncateInt q.

Definition computeFee (coin : Coin) (rate : option Dec) : outcome Coin :=
  amt ← match rate with
        | Some r => x ← Dec_Mul (ToDec (Amount coin)) r; Dec_RoundInt x
        | None => Ok 0
        end;
  NewCoin (Denom coin) amt.

Definition checkMintPriceLowerBound w : outcome unit :=
  gridPrice ← GetExchangeRate w MicroUSMDenom;
  f ← Dec_Add OneDec (MintPriceBias w);
  mintPriceLowerBound ← Dec_Mul MicroUSMTarget f;
  fail_if gridPrice <? mintPriceLowerBound with ErrGridPriceTooLow ;; Ok tt.

Definition checkBurnPriceUpperBound w : outcome unit :=
  gridPrice ← GetExchangeRate w MicroUSMDenom;
  f ← Dec_Sub OneDec (BurnPriceBias w);
  burnPriceUpperBound ← Dec_Mul MicroUSMTarget f;
  fail_if burnPriceUpperBound <? gridPrice with ErrGridPriceTooHigh ;; Ok tt.

Definition getAvailableBackingParams w (backingDenom : string) : outcome BackingRiskParams :=
  match GetBackingRiskParams w backingDenom with
  | None => Err ErrBackingCoinNotFound
  | Some p => fail_if negb (brp_Enabled p) with ErrBackingCoinDisabled ;; Ok p
  end.

Definition getAvailableCollateralParams w (collateralDenom : string) : outcome CollateralRiskParams :=
  match GetCollateralRiskParams w collateralDenom with
  | None => Err ErrCollateralCoinNotFound
  | Some p => fail_if negb (crp_Enabled p) with ErrCollateralCoinDisabled ;; Ok p
  end.

Definition getBacking w (denom : string) : outcome (TotalBacking * PoolBacking) :=
  match GetTotalBacking w with
  | None => Err ErrBackingCoinNotFound
  | Some total =>
      match GetPoolBacking w denom with
      | None => Err ErrBackingCoinNotFound
      | Some pool => Ok (total, pool)
      end
  end.

Definition getCollateral ctx w (account : Addr) (denom : string) (allowNewAccount : bool) :
    outcome (TotalCollateral * PoolCollateral * AccountCollateral) :=
  match GetTotalCollateral w with
  | None => Err ErrCollateralCoinNotFound
  | Some total =>
      match GetPoolCollateral w denom with
      | None => Err ErrCollateralCoinNotFound
      | Some pool =>
          match GetAccountCollateral w account denom with
          | Some acc => Ok (total, pool, acc)
          | None =>
              if allowNewAccount then
                collateral ← NewCoin denom 0;
                gridDebt ← NewCoin MicroUSMDenom 0;
                ironCollateralized ← NewCoin AttoIronDenom 0;
                lastInterest ← NewCoin MicroUSMDenom 0;
                Ok (total, pool,
                    mkAccountCollateral (AccAddress_String account) collateral gridDebt
                      ironCollateralized lastInterest (BlockHeight ctx))
              else Err ErrAccountNoCollateral
          end
      end
  end.

(** Accrues the interest of the blocks since the last settlement; the three
    records are passed by pointer in the source and returned here. *)
Definition settleInterestFee ctx (acc : AccountCollateral) (pool : PoolCollateral)
    (total : TotalCollateral) (apr : Dec) :
    outcome (AccountCollateral * PoolCollateral * TotalCollateral) :=
  let period := i64 (BlockHeight ctx - ac_LastSettlementBlock acc) in
  if period =? 0 then Ok (acc, pool, total) else
  principalDebt ← Coin_Sub (ac_GridDebt acc) (ac_LastInterest acc);
  x ← Dec_Mul (ToDec (Amount principalDebt)) apr;
  x ← Dec_MulInt x period;
  x ← Dec_QuoInt x (i64 BlocksPerYear);
  interestOfPeriod ← Dec_RoundInt x;
  lastInterest ← Coin_AddAmount (ac_LastInterest acc) interestOfPeriod;
  accDebt ← Coin_AddAmount (ac_GridDebt acc) interestOfPeriod;
  poolDebt ← Coin_AddAmount (pc_GridDebt pool) interestOfPeriod;
  totalDebt ← Coin_AddAmount (tc_GridDebt total) interestOfPeriod;
  Ok (mkAccountCollateral (ac_Account acc) (ac_Collateral acc) accDebt
        (ac_IronCollateralized acc) lastInterest (BlockHeight ctx),
      mkPoolCollateral (pc_Collateral pool) poolDebt (pc_IronCollateralized pool),
      mkTotalCollateral totalDebt (tc_IronCollateralized total)).

Definition maxLoanToValueForAccount w (acc : AccountCollateral) (p : CollateralRiskParams) :
    outcome (Dec * Dec) :=
  collateralPrice ← GetExchangeRate w (Denom (ac_Collateral acc));
  ironPrice ← GetExchangeRate w AttoIronDenom;
  collateralInUSD ← Dec_Mul (ToDec (Amount (ac_Collateral acc))) collateralPrice;
  collateralizedIronInUSD ← Dec_Mul (ToDec (Amount (ac_IronCollateralized acc))) ironPrice;
  if negb (0 <? collateralInUSD) then Ok (ZeroDec, ZeroDec) else
  q ← Dec_Quo collateralizedIronInUSD collateralInUSD;
  maxRatio ← deref (crp_CatalyticIronRatio p);
  let catalyticRatio := Z.min q maxRatio in
  ltv ← deref (crp_LoanToValue p);
  basic ← deref (crp_BasicLoanToValue p);
  x ← Dec_Sub ltv basic;
  x ← Dec_Mul x catalyticRatio;
  x ← Dec_Quo x maxRatio;
  availableLTV ← Dec_Add x basic;
  maxDebtInUSD ← Dec_Mul collateralInUSD availableLTV;
  Ok (availableLTV, maxDebtInUSD).

Definition totalBackingInUSD w : outcome Z :=
  totalBackingValue ← for_each (fun acc pool =>
      backingPrice ← GetExchangeRate w (Denom (pb_Backing pool));
      v ← Dec_Mul (ToDec (Amount (pb_Backing pool))) backingPrice;
      Dec_Add acc v) (GetAllPoolBacking w) ZeroDec;
  Dec_TruncateInt totalBackingValue.

Definition getExcessBackingValue w : outcome Z :=
  match GetTotalBacking w with
  | None => Err ErrBackingCoinNotFound
  | Some totalBacking =>
      let backingRatio := GetBackingRatio w in
      x ← Dec_Mul (ToDec (Amount (tb_GridMinted totalBacking))) backingRatio;
      x ← Dec_Ceil x;
      required ← Dec_TruncateInt x;
      let requiredBackingValue := if required <? 0 then 0 else required in
      totalBackingValue ← totalBackingInUSD w;
      Int_Sub totalBackingValue requiredBackingValue
  end.

(** The smaller of the pool's recorded backing and the balance the module
    account really owns, as both buying and burning compute it. *)
Definition poolBackingBalance w (pool : PoolBacking) (backingDenom : string) : outcome Coin :=
  let moduleOwnedBacking :=
    GetBalance (w_bank w) (GetModuleAddress maker_ModuleName) backingDenom in
  NewCoin backingDenom (Z.min (Amount (pb_Backing pool)) (Amount moduleOwnedBacking)).

(** ** Minting and burning by swap *)

Definition calculateMintBySwapIn w (mintOut : Coin) (backingDenom : string) (fullBacking : bool) :
    outcome (Coin * Coin * Coin) :=
  backingIn ← NewCoin backingDenom 0;
  ironIn ← NewCoin AttoIronDenom 0;
  _ ← NewCoin MicroUSMDenom 0;
  _ ← checkMintPriceLowerBound w;
  backingParams ← getAvailableBackingParams w backingDenom;
  backingPrice ← GetExchangeRate w backingDenom;
  ironPrice ← GetExchangeRate w AttoIronDenom;
  mintFee ← computeFee mintOut (brp_MintFee backingParams);
  mintTotal ← Coin_Add mintOut mintFee;
  mintTotalInUSD ← Dec_Mul (ToDec (Amount mintTotal)) MicroUSMTarget;
  '(_, poolBacking) ← getBacking w backingDenom;
  gridMinted ← Coin_Add (pb_GridMinted poolBacking) mintTotal;
  fail_if over (brp_MaxGridMint backingParams) (Amount gridMinted) with ErrGridCeiling ;;
  let backingRatio := GetBackingRatio w in
  '(backingIn, ironIn) ←
    (if (OneDec <=? backingRatio) || fullBacking then
       b ← quoRoundUpInt mintTotalInUSD backingPrice;
       Ok (mkCoin (Denom backingIn) b, ironIn)
     else if backingRatio =? 0 then
       i ← quoRoundUpInt mintTotalInUSD ironPrice;
       Ok (backingIn, mkCoin (Denom ironIn) i)
     else
       x ← Dec_Mul mintTotalInUSD backingRatio;
       b ← quoRoundUpInt x backingPrice;
       rest ← Dec_Sub OneDec backingRatio;
       y ← Dec_Mul mintTotalInUSD rest;
       i ← quoRoundUpInt y ironPrice;
       Ok (mkCoin (Denom backingIn) b, mkCoin (Denom ironIn) i));
  backing ← Coin_Add (pb_Backing poolBacking) backingIn;
  fail_if over (brp_MaxBacking backingParams) (Amount backing) with ErrBackingCeiling ;;
  Ok (backingIn, ironIn, mintFee).

Definition calculateMintBySwapOut w (backingInMax ironInMax : Coin) (fullBacking : bool) :
    outcome (Coin * Coin * Coin * Coin) :=
  let backingDenom := Denom backingInMax in
  _ ← checkMintPriceLowerBound w;
  backingParams ← getAvailableBackingParams w backingDenom;
  backingPrice ← GetExchangeRate w backingDenom;
  ironPrice ← GetExchangeRate w AttoIronDenom;
  let backingRatio := GetBackingRatio w in
  backingInMaxInUSD ← Dec_MulInt backingPrice (Amount backingInMax);
  ironInMaxInUSD ← Dec_MulInt ironPrice (Amount ironInMax);
  backingIn ← NewCoin backingDenom 0;
  ironIn ← NewCoin AttoIronDenom 0;
  '(mintTotalInUSD, backingIn, ironIn) ←
    (if (OneDec <=? backingRatio) || fullBacking then
       Ok (backingInMaxInUSD, mkCoin (Denom backingIn) (Amount backingInMax), ironIn)
     else if backingRatio =? 0 then
       Ok (ironInMaxInUSD, backingIn, mkCoin (Denom ironIn) (Amount ironInMax))
     else
       max1 ← Dec_Quo backingInMaxInUSD backingRatio;
       rest ← Dec_Sub OneDec backingRatio;
       max2 ← Dec_Quo ironInMaxInUSD rest;
       if (0 <? Amount backingInMax) && ((Amount ironInMax =? 0) || (max1 <=? max2)) then
         rest ← Dec_Sub OneDec backingRatio;
         x ← Dec_Mul max1 rest;
         i ← quoRoundUpInt x ironPrice;
         let ironIn := mkCoin (Denom ironIn) i in
         capped ← (if 0 <? Amount ironInMax then Coin_IsLT ironInMax ironIn else Ok false);
         Ok (max1, mkCoin (Denom backingIn) (Amount backingInMax),
             if capped : bool then mkCoin (Denom ironIn) (Amount ironInMax) else ironIn)
       else
         x ← Dec_Mul max2 backingRatio;
         b ← quoRoundUpInt x backingPrice;
         let backingIn := mkCoin (Denom backingIn) b in
         capped ← (if 0 <? Amount backingInMax then Coin_IsLT backingInMax backingIn else Ok false);
         Ok (max2,
             (if capped : bool then mkCoin (Denom backingIn) (Amount backingInMax) else backingIn),
             mkCoin (Denom ironIn) (Amount ironInMax)));
  x ← Dec_Quo mintTotalInUSD MicroUSMTarget;
  total ← Dec_TruncateInt x;
  mintTotal ← NewCoin MicroUSMDenom total;
  '(_, poolBacking) ← getBacking w backingDenom;
  gridMinted ← Coin_AddAmount (pb_GridMinted poolBacking) (Amount mintTotal);
  fail_if over (brp_MaxGridMint backingParams) (Amount gridMinted) with ErrGridCeiling ;;
  backing ← Coin_Add (pb_Backing poolBacking) backingIn;
  fail_if over (brp_MaxBacking backingParams) (Amount backing) with ErrBackingCeiling ;;
  mintFee ← computeFee mintTotal (brp_MintFee backingParams);
  mintOut ← Coin_Sub mintTotal mintFee;
  Ok (backingIn, ironIn, mintOut, mintFee).

Definition calculateBurnBySwapIn w (backingOutMax ironOutMax : Coin) :
    outcome (Coin * Coin * Coin * Coin) :=
  let backingDenom := Denom backingOutMax in
  _ ← NewCoin MicroUSMDenom 0;
  backingOut ← NewCoin backingDenom 0;
  ironOut ← NewCoin AttoIronDenom 0;
  _ ← NewCoin MicroUSMDenom 0;
  _ ← checkBurnPriceUpperBound w;
  backingParams ← getAvailableBackingParams w backingDenom;
  backingPrice ← GetExchangeRate w backingDenom;
  ironPrice ← GetExchangeRate w AttoIronDenom;
  backingOutMaxInUSD ← Dec_MulInt backingPrice (Amount backingOutMax);
  ironOutMaxInUSD ← Dec_MulInt ironPrice (Amount ironOutMax);
  let backingRatio := GetBackingRatio w in
  '(burnActualInUSD, backingOut, ironOut) ←
    (if OneDec <=? backingRatio then
       Ok (backingOutMaxInUSD, mkCoin (Denom backingOut) (Amount backingOutMax), ironOut)
     else if backingRatio =? 0 then
       Ok (ironOutMaxInUSD, backingOut, mkCoin (Denom ironOut) (Amount ironOutMax))
     else
       withBacking ← Dec_Quo backingOutMaxInUSD backingRatio;
       rest ← Dec_Sub OneDec backingRatio;
       withIron ← Dec_Quo ironOutMaxInUSD rest;
       if (Amount ironOutMax =? 0) || ((0 <? Amount backingOutMax) && (withBacking <? withIron)) then
         rest ← Dec_Sub OneDec backingRatio;
         x ← Dec_Mul withBacking rest;
         i ← quoRoundUpInt x ironPrice;
         Ok (withBacking, mkCoin (Denom backingOut) (Amount backingOutMax), mkCoin (Denom ironOut) i)
       else
         x ← Dec_Mul withIron backingRatio;
         b ← quoRoundUpInt x backingPrice;
         Ok (withIron, mkCoin (Denom backingOut) b, mkCoin (Denom ironOut) (Amount ironOutMax)));
  let moduleOwnedBacking :=
    GetBalance (w_bank w) (GetModuleAddress maker_ModuleName) backingDenom in
  short ← Coin_IsLT moduleOwnedBacking backingOut;
  fail_if short with ErrBackingCoinInsufficient ;;
  let burnFeeRate := default ZeroDec (brp_BurnFee backingParams) in
  x ← Dec_Quo burnActualInUSD MicroUSMTarget;
  kept ← Dec_Sub OneDec burnFeeRate;
  burnInValue ← Dec_Quo x kept;
  burnFeeValue ← Dec_Mul burnInValue burnFeeRate;
  burnInAmt ← Dec_RoundInt burnInValue;
  burnIn ← NewCoin MicroUSMDenom burnInAmt;
  burnFeeAmt ← Dec_RoundInt burnFeeValue;
  burnFee ← NewCoin MicroUSMDenom burnFeeAmt;
  Ok (burnIn, backingOut, ironOut, burnFee).

Definition calculateBurnBySwapOut w (burnIn : Coin) (backingDenom : string) :
    outcome (Coin * Coin * Coin) :=
  _ ← checkBurnPriceUpperBound w;
  backingParams ← getAvailableBackingParams w backingDenom;
  backingPrice ← GetExchangeRate w backingDenom;
  ironPrice ← GetExchangeRate w AttoIronDenom;
  let backingRatio := GetBackingRatio w in
  burnFee ← computeFee burnIn (brp_BurnFee backingParams);
  burnActual ← Coin_Sub burnIn burnFee;
  burnActualInUSD ← Dec_Mul (ToDec (Amount burnActual)) MicroUSMTarget;
  backingOut ← NewCoin backingDenom 0;
  ironOut ← NewCoin AttoIronDenom 0;
  '(backingOut, ironOut) ←
    (if OneDec <=? backingRatio then
       b ← quoTruncateInt burnActualInUSD backingPrice;
       Ok (mkCoin (Denom backingOut) b, ironOut)
     else if backingRatio =? 0 then
       i ← quoTruncateInt burnActualInUSD ironPrice;
       Ok (backingOut, mkCoin (Denom ironOut) i)
     else
       x ← Dec_Mul burnActualInUSD backingRatio;
       b ← quoTruncateInt x backingPrice;
       rest ← Dec_Sub OneDec backingRatio;
       y ← Dec_Mul burnActualInUSD rest;
       i ← quoTruncateInt y ironPrice;
       Ok (mkCoin (Denom backingOut) b, mkCoin (Denom ironOut) i));
  '(_, poolBacking) ← getBacking w backingDenom;
  available ← poolBackingBalance w poolBacking backingDenom;
  short ← Coin_IsLT available backingOut;
  fail_if short with ErrBackingCoinInsufficient ;;
  Ok (backingOut, ironOut, burnFee).

(** ** Buying and selling backing *)

Definition calculateBuyBackingIn w (backingOut : Coin) : outcome (Coin * Coin) :=
  let backingDenom := Denom backingOut in
  backingParams ← getAvailableBackingParams w backingDenom;
  backingPrice ← GetExchangeRate w backingDenom;
  ironPrice ← GetExchangeRate w AttoIronDenom;
  excessBackingValue ← getExcessBackingValue w;
  fee ← deref (brp_BuybackFee backingParams);
  kept ← Dec_Sub OneDec fee;
  x ← Dec_Quo (ToDec (Amount backingOut)) kept;
  total ← Dec_TruncateInt x;
  backingOutTotal ← NewCoin backingDenom total;
  ironInValue ← Dec_Mul (ToDec (Amount backingOutTotal)) backingPrice;
  fail_if ToDec excessBackingValue <? ironInValue with ErrBackingCoinInsufficient ;;
  '(_, poolBacking) ← getBacking w backingDenom;
  available ← poolBackingBalance w poolBacking backingDenom;
  short ← Coin_IsLT available backingOutTotal;
  fail_if short with ErrBackingCoinInsufficient ;;
  q ← Dec_Quo ironInValue ironPrice;
  i ← Dec_RoundInt q;
  ironIn ← NewCoin AttoIronDenom i;
  f ← Dec_Mul (ToDec (Amount backingOutTotal)) fee;
  feeAmt ← Dec_RoundInt f;
  buybackFee ← NewCoin backingDenom feeAmt;
  Ok (ironIn, buybackFee).

Definition calculateBuyBackingOut w (ironIn : Coin) (backingDenom : string) : outcome (Coin * Coin) :=
  backingParams ← getAvailableBackingParams w backingDenom;
  backingPrice ← GetExchangeRate w backingDenom;
  ironPrice ← GetExchangeRate w AttoIronDenom;
  excessBackingValue ← getExcessBackingValue w;
  ironInValue ← Dec_Mul (ToDec (Amount ironIn)) ironPrice;
  fail_if ToDec excessBackingValue <? ironInValue with ErrBackingCoinInsufficient ;;
  q ← Dec_Quo ironInValue backingPrice;
  total ← Dec_TruncateInt q;
  backingOutTotal ← NewCoin backingDenom total;
  '(_, poolBacking) ← getBacking w backingDenom;
  available ← poolBackingBalance w poolBacking backingDenom;
  short ← Coin_IsLT available backingOutTotal;
  fail_if short with ErrBackingCoinInsufficient ;;
  buybackFee ← computeFee backingOutTotal (brp_BuybackFee backingParams);
  backingOut ← Coin_Sub backingOutTotal buybackFee;
  Ok (backingOut, buybackFee).

Definition calculateSellBackingIn w (ironOut : Coin) (backingDenom : string) : outcome (Coin * Coin) :=
  backingParams ← getAvailableBackingParams w backingDenom;
  backingPrice ← GetExchangeRate w backingDenom;
  ironPrice ← GetExchangeRate w AttoIronDenom;
  '(_, poolBacking) ← getBacking w backingDenom;
  excessBackingValue ← getExcessBackingValue w;
  let missingBackingValue := - excessBackingValue in
  availableIronMint ← Dec_Quo (ToDec missingBackingValue) ironPrice;
  let bonusRatio := RebackBonus w in
  x ← Dec_Add OneDec bonusRatio;
  fee ← deref (brp_RebackFee backingParams);
  x ← Dec_Sub x fee;
  ironMint ← Dec_Quo (ToDec (Amount ironOut)) x;
  v ← Dec_Mul ironMint ironPrice;
  q ← Dec_Quo v backingPrice;
  b ← Dec_RoundInt q;
  backingIn ← NewCoin backingDenom b;
  f ← Dec_Mul ironMint fee;
  feeAmt ← Dec_RoundInt f;
  rebackFee ← NewCoin AttoIronDenom feeAmt;
  backing ← Coin_Add (pb_Backing poolBacking) backingIn;
  fail_if over (brp_MaxBacking backingParams) (Amount backing) with ErrBackingCeiling ;;
  fail_if availableIronMint <? ironMint with ErrIronCoinInsufficient ;;
  Ok (backingIn, rebackFee).

Definition calculateSellBackingOut w (backingIn : Coin) : outcome (Coin * Coin) :=
  let backingDenom := Denom backingIn in
  backingParams ← getAvailableBackingParams w backingDenom;
  backingPrice ← GetExchangeRate w backingDenom;
  ironPrice ← GetExchangeRate w AttoIronDenom;
  '(_, poolBacking) ← getBacking w backingDenom;
  backing ← Coin_Add (pb_Backing poolBacking) backingIn;
  fail_if over (brp_MaxBacking backingParams) (Amount backing) with ErrBackingCeiling ;;
  excessBackingValue ← getExcessBackingValue w;
  let missingBackingValue := - excessBackingValue in
  availableIronMint ← Dec_Quo (ToDec missingBackingValue) ironPrice;
  let bonusRatio := RebackBonus w in
  v ← Dec_Mul (ToDec (Amount backingIn)) backingPrice;
  q ← Dec_Quo v ironPrice;
  mint ← Dec_TruncateInt q;
  ironMint ← NewCoin AttoIronDenom mint;
  bonus ← computeFee ironMint (Some bonusRatio);
  rebackFee ← computeFee ironMint (brp_RebackFee backingParams);
  fail_if availableIronMint <? ToDec (Amount ironMint) with ErrIronCoinInsufficient ;;
  gross ← Coin_Add ironMint bonus;
  ironOut ← Coin_Sub gross rebackFee;
  Ok (ironOut, rebackFee).

(** ** Minting by collateral *)

Definition calculateMintByCollateral ctx w (account : Addr) (collateralDenom : string) (mintOut : Coin) :
    outcome (Coin * TotalCollateral * PoolCollateral * AccountCollateral) :=
  p ← getAvailableCollateralParams w collateralDenom;
  collateralPrice ← GetExchangeRate w collateralDenom;
  ironPrice ← GetExchangeRate w AttoIronDenom;
  '(totalColl, poolColl, accColl) ← getCollateral ctx w account collateralDenom false;
  apr ← deref (crp_InterestFee p);
  '(accColl, poolColl, totalColl) ← settleInterestFee ctx accColl poolColl totalColl apr;
  mintFee ← computeFee mintOut (crp_MintFee p);
  mintTotal ← Coin_Add mintOut mintFee;
  accDebt ← Coin_Add (ac_GridDebt accColl) mintTotal;
  poolDebt ← Coin_Add (pc_GridDebt poolColl) mintTotal;
  totalDebt ← Coin_Add (tc_GridDebt totalColl) mintTotal;
  let accColl := mkAccountCollateral (ac_Account accColl) (ac_Collateral accColl) accDebt
    (ac_IronCollateralized accColl) (ac_LastInterest accColl) (ac_LastSettlementBlock accColl) in
  let poolColl := mkPoolCollateral (pc_Collateral poolColl) poolDebt (pc_IronCollateralized poolColl) in
  let totalColl := mkTotalCollateral totalDebt (tc_IronCollateralized totalColl) in
  fail_if over (crp_MaxGridMint p) (Amount (pc_GridDebt poolColl)) with ErrGridCeiling ;;
  collateralValue ← Dec_Mul (ToDec (Amount (ac_Collateral accColl))) collateralPrice;
  ironCollateralizedValue ← Dec_Mul (ToDec (Amount (ac_IronCollateralized accColl))) ironPrice;
  fail_if negb (0 <? collateralValue) with ErrAccountInsufficientCollateral ;;
  q ← Dec_Quo ironCollateralizedValue collateralValue;
  maxRatio ← deref (crp_CatalyticIronRatio p);
  let actualCatalyticRatio := Z.min q maxRatio in
  basic ← deref (crp_BasicLoanToValue p);
  availableLTV ←
    (if 0 <? maxRatio then
       ltv ← deref (crp_LoanToValue p);
       x ← Dec_Sub ltv basic;
       x ← Dec_Mul actualCatalyticRatio x;
       x ← Dec_Quo x maxRatio;
       Dec_Add basic x
     else Ok basic);
  x ← Dec_Mul collateralValue availableLTV;
  x ← Dec_Quo x MicroUSMTarget;
  availableDebtMax ← Dec_TruncateInt x;
  fail_if availableDebtMax <? Amount (ac_GridDebt accColl) with ErrAccountInsufficientCollateral ;;
  Ok (mintFee, totalColl, poolColl, accColl).
End Calc.
