(* ===== verification/MakerMsg.v ===== *)
(** The maker message handlers ([src/x/maker/keeper/msg_server.go]).

    Every handler is a function of the context, the world and the message; it
    returns the response and the new world.  Events are not modelled. *)

From stdpp Require Import base gmap strings list.
From Stdlib Require Import ZArith Lia.
From S2P Require Import Prelude Sdk Types MakerTypes VeTypes World MakerKeeper MakerCalc.

#[local] Open Scope Z_scope.

Section Msg.
Context `{!Sdk, !BankKeeper, !NftKeeper}.
Implicit Types (w : World) (ctx : Ctx).

(** Bank calls of the handlers, [types.ModuleName] being the maker's. *)
Definition from_user (from : Addr) (cs : Coins) w : outcome World :=
  on_bank (fun b => SendCoinsFromAccountToModule b from maker_ModuleName cs) w.
Definition to_user (to : Addr) (cs : Coins) w : outcome World :=
  on_bank (fun b => SendCoinsFromModuleToAccount b maker_ModuleName to cs) w.
Definition to_oracle (cs : Coins) w : outcome World :=
  on_bank (fun b => SendCoinsFromModuleToModule b maker_ModuleName oracle_ModuleName cs) w.
Definition mint_coins (cs : Coins) w : outcome World :=
  on_bank (fun b => MintCoins b maker_ModuleName cs) w.
Definition burn_coins (cs : Coins) w : outcome World :=
  on_bank (fun b => BurnCoins b maker_ModuleName cs) w.

Definition MintBySwap w (msg : MsgMintBySwap) : outcome (MsgMintBySwapResponse * World) :=
  '(sender, receiver) ← getSenderReceiver (mbs_Sender msg) (mbs_To msg);
  '(backingIn, ironIn, mintOut, mintFee) ←
    calculateMintBySwapOut w (mbs_BackingInMax msg) (mbs_IronInMax msg) (mbs_FullBacking msg);
  mintTotal ← Coin_Add mintOut mintFee;
  slipped ← Coin_IsLT mintOut (mbs_MintOutMin msg);
  fail_if slipped with ErrOverSlippage ;;
  '(totalBacking, poolBacking) ← getBacking w (Denom (mbs_BackingInMax msg));
  poolMinted ← Coin_Add (pb_GridMinted poolBacking) mintTotal;
  poolBack ← Coin_Add (pb_Backing poolBacking) backingIn;
  poolBurned ← Coin_Add (pb_IronBurned poolBacking) ironIn;
  totalMinted ← Coin_Add (tb_GridMinted totalBacking) mintTotal;
  totalBurned ← Coin_Add (tb_IronBurned totalBacking) ironIn;
  let w := SetPoolBacking w (mkPoolBacking poolMinted poolBack poolBurned) in
  let w := SetTotalBacking w (mkTotalBacking (tb_BackingValue totalBacking) totalMinted totalBurned) in
  cs ← NewCoins [backingIn; ironIn]; w ← from_user sender cs w;
  w ← (if 0 <? Amount ironIn then cs ← NewCoins [ironIn]; burn_coins cs w else Ok w);
  cs ← NewCoins [mintTotal]; w ← mint_coins cs w;
  cs ← NewCoins [mintOut]; w ← to_user receiver cs w;
  w ← (if 0 <? Amount mintFee then cs ← NewCoins [mintFee]; to_oracle cs w else Ok w);
  Ok (mkMsgMintBySwapResponse backingIn ironIn mintOut mintFee, w).

Definition BurnBySwap w (msg : MsgBurnBySwap) : outcome (MsgBurnBySwapResponse * World) :=
  '(sender, receiver) ← getSenderReceiver (bbs_Sender msg) (bbs_To msg);
  '(backingOut, ironOut, burnFee) ←
    calculateBurnBySwapOut w (bbs_BurnIn msg) (Denom (bbs_BackingOutMin msg));
  burnActual ← Coin_Sub (bbs_BurnIn msg) burnFee;
  slipped ← Coin_IsLT backingOut (bbs_BackingOutMin msg);
  fail_if slipped with ErrOverSlippage ;;
  slipped ← Coin_IsLT ironOut (bbs_IronOutMin msg);
  fail_if slipped with ErrOverSlippage ;;
  '(totalBacking, poolBacking) ← getBacking w (Denom (bbs_BackingOutMin msg));
  poolBack ← Coin_Sub (pb_Backing poolBacking) backingOut;
  poolBurned ← Int_Sub (Amount (pb_IronBurned poolBacking)) (Amount ironOut);
  totalBurned ← Int_Sub (Amount (tb_IronBurned totalBacking)) (Amount ironOut);
  poolMinted ← Int_Sub (Amount (pb_GridMinted poolBacking)) (Amount burnActual);
  totalMinted ← Int_Sub (Amount (tb_GridMinted totalBacking)) (Amount burnActual);
  let w := SetPoolBacking w (mkPoolBacking
    (mkCoin (Denom (pb_GridMinted poolBacking)) poolMinted) poolBack
    (mkCoin (Denom (pb_IronBurned poolBacking)) poolBurned)) in
  let w := SetTotalBacking w (mkTotalBacking (tb_BackingValue totalBacking)
    (mkCoin (Denom (tb_GridMinted totalBacking)) totalMinted)
    (mkCoin (Denom (tb_IronBurned totalBacking)) totalBurned)) in
  cs ← NewCoins [bbs_BurnIn msg]; w ← from_user sender cs w;
  cs ← NewCoins [burnActual]; w ← burn_coins cs w;
  cs ← NewCoins [burnFee]; w ← to_oracle cs w;
  cs ← NewCoins [ironOut]; w ← mint_coins cs w;
  cs ← NewCoins [backingOut; ironOut]; w ← to_user receiver cs w;
  Ok (mkMsgBurnBySwapResponse burnFee backingOut ironOut, w).

Definition BuyBacking w (msg : MsgBuyBacking) : outcome (MsgBuyBackingResponse * World) :=
  '(sender, receiver) ← getSenderReceiver (bb_Sender msg) (bb_To msg);
  '(backingOut, buybackFee) ←
    calculateBuyBackingOut w (bb_IronIn msg) (Denom (bb_BackingOutMin msg));
  slipped ← Coin_IsLT backingOut (bb_BackingOutMin msg);
  fail_if slipped with ErrOverSlippage ;;
  '(totalBacking, poolBacking) ← getBacking w (Denom (bb_BackingOutMin msg));
  poolBack ← Coin_Sub (pb_Backing poolBacking) backingOut;
  poolBack ← Coin_Sub poolBack buybackFee;
  poolBurned ← Coin_Add (pb_IronBurned poolBacking) (bb_IronIn msg);
  totalBurned ← Coin_Add (tb_IronBurned totalBacking) (bb_IronIn msg);
  let w := SetPoolBacking w (mkPoolBacking (pb_GridMinted poolBacking) poolBack poolBurned) in
  let w := SetTotalBacking w (mkTotalBacking (tb_BackingValue totalBacking)
    (tb_GridMinted totalBacking) totalBurned) in
  cs ← NewCoins [bb_IronIn msg]; w ← from_user sender cs w;
  cs ← NewCoins [bb_IronIn msg]; w ← burn_coins cs w;
  cs ← NewCoins [backingOut]; w ← to_user receiver cs w;
  cs ← NewCoins [buybackFee]; w ← to_oracle cs w;
  Ok (mkMsgBuyBackingResponse backingOut buybackFee, w).

Definition SellBacking w (msg : MsgSellBacking) : outcome (MsgSellBackingResponse * World) :=
  '(sender, receiver) ← getSenderReceiver (sb_Sender msg) (sb_To msg);
  '(ironOut, rebackFee) ← calculateSellBackingOut w (sb_BackingIn msg);
  ironMint ← Coin_Add ironOut rebackFee;
  slipped ← Coin_IsLT ironOut (sb_IronOutMin msg);
  fail_if slipped with ErrOverSlippage ;;
  '(totalBacking, poolBacking) ← getBacking w (Denom (sb_BackingIn msg));
  poolBack ← Coin_Add (pb_Backing poolBacking) (sb_BackingIn msg);
  poolBurned ← Int_Sub (Amount (pb_IronBurned poolBacking)) (Amount ironMint);
  totalBurned ← Int_Sub (Amount (tb_IronBurned totalBacking)) (Amount ironMint);
  let w := SetPoolBacking w (mkPoolBacking (pb_GridMinted poolBacking) poolBack
    (mkCoin (Denom (pb_IronBurned poolBacking)) poolBurned)) in
  let w := SetTotalBacking w (mkTotalBacking (tb_BackingValue totalBacking)
    (tb_GridMinted totalBacking) (mkCoin (Denom (tb_IronBurned totalBacking)) totalBurned)) in
  cs ← NewCoins [sb_BackingIn msg]; w ← from_user sender cs w;
  cs ← NewCoins [ironMint]; w ← mint_coins cs w;
  cs ← NewCoins [ironOut]; w ← to_user receiver cs w;
  cs ← NewCoins [rebackFee]; w ← to_oracle cs w;
  Ok (mkMsgSellBackingResponse ironOut rebackFee, w).

Definition MintByCollateral ctx w (msg : MsgMintByCollateral) :
    outcome (MsgMintByCollateralResponse * World) :=
  '(sender, receiver) ← getSenderReceiver (mbc_Sender msg) (mbc_To msg);
  '(mintFee, totalColl, poolColl, accColl) ←
    calculateMintByCollateral ctx w sender (mbc_CollateralDenom msg) (mbc_MintOut msg);
  mintTotal ← Coin_Add (mbc_MintOut msg) mintFee;
  let w := SetAccountCollateral w sender accColl in
  let w := SetPoolCollateral w poolColl in
  let w := SetTotalCollateral w totalColl in
  cs ← NewCoins [mintTotal]; w ← mint_coins cs w;
  cs ← NewCoins [mbc_MintOut msg]; w ← to_user receiver cs w;
  w ← (if 0 <? Amount mintFee then cs ← NewCoins [mintFee]; to_oracle cs w else Ok w);
  Ok (mkMsgMintByCollateralResponse mintFee, w).

Definition BurnByCollateral ctx w (msg : MsgBurnByCollateral) :
    outcome (MsgBurnByCollateralResponse * World) :=
  '(sender, _) ← getSenderReceiver (bbc_Sender msg) "";
  let collateralDenom := bbc_CollateralDenom msg in
  p ← getAvailableCollateralParams w collateralDenom;
  '(totalColl, poolColl, accColl) ← getCollateral ctx w sender collateralDenom false;
  apr ← deref (crp_InterestFee p);
  '(accColl, poolColl, totalColl) ← settleInterestFee ctx accColl poolColl totalColl apr;
  fail_if negb (0 <? Amount (ac_GridDebt accColl)) with ErrAccountNoDebt ;;
  let repayDenom := Denom (bbc_RepayInMax msg) in
  repayIn ← NewCoin repayDenom (Z.min (Amount (ac_GridDebt accColl)) (Amount (bbc_RepayInMax msg)));
  repayInterest ← NewCoin repayDenom (Z.min (Amount (ac_LastInterest accColl)) (Amount repayIn));
  burned ← Coin_Sub repayIn repayInterest;
  lastInterest ← Coin_Sub (ac_LastInterest accColl) repayInterest;
  accDebt ← Coin_Sub (ac_GridDebt accColl) repayIn;
  poolDebt ← Coin_Sub (pc_GridDebt poolColl) repayIn;
  totalDebt ← Coin_Sub (tc_GridDebt totalColl) repayIn;
  let w := SetAccountCollateral w sender (mkAccountCollateral (ac_Account accColl)
    (ac_Collateral accColl) accDebt (ac_IronCollateralized accColl) lastInterest
    (ac_LastSettlementBlock accColl)) in
  let w := SetPoolCollateral w (mkPoolCollateral (pc_Collateral poolColl) poolDebt
    (pc_IronCollateralized poolColl)) in
  let w := SetTotalCollateral w (mkTotalCollateral totalDebt (tc_IronCollateralized totalColl)) in
  cs ← NewCoins [repayIn]; w ← from_user sender cs w;
  w ← (if 0 <? Amount burned then cs ← NewCoins [burned]; burn_coins cs w else Ok w);
  w ← (if 0 <? Amount repayInterest then cs ← NewCoins [repayInterest]; to_oracle cs w else Ok w);
  Ok (mkMsgBurnByCollateralResponse repayIn, w).

Definition DepositCollateral ctx w (msg : MsgDepositCollateral) : outcome (unit * World) :=
  let collateralDenom := Denom (dc_CollateralIn msg) in
  '(sender, receiver) ← getSenderReceiver (dc_Sender msg) (dc_To msg);
  p ← getAvailableCollateralParams w collateralDenom;
  '(totalColl, poolColl, accColl) ← getCollateral ctx w receiver collateralDenom true;
  apr ← deref (crp_InterestFee p);
  '(accColl, poolColl, totalColl) ← settleInterestFee ctx accColl poolColl totalColl apr;
  accCollateral ← Coin_Add (ac_Collateral accColl) (dc_CollateralIn msg);
  poolCollateral ← Coin_Add (pc_Collateral poolColl) (dc_CollateralIn msg);
  accIron ← Coin_Add (ac_IronCollateralized accColl) (dc_IronIn msg);
  poolIron ← Coin_Add (pc_IronCollateralized poolColl) (dc_IronIn msg);
  totalIron ← Coin_Add (tc_IronCollateralized totalColl) (dc_IronIn msg);
  fail_if over (crp_MaxCollateral p) (Amount poolCollateral) with ErrCollateralCeiling ;;
  let w := SetAccountCollateral w receiver (mkAccountCollateral (ac_Account accColl)
    accCollateral (ac_GridDebt accColl) accIron (ac_LastInterest accColl)
    (ac_LastSettlementBlock accColl)) in
  let w := SetPoolCollateral w (mkPoolCollateral poolCollateral (pc_GridDebt poolColl) poolIron) in
  let w := SetTotalCollateral w (mkTotalCollateral (tc_GridDebt totalColl) totalIron) in
  cs ← NewCoins [dc_CollateralIn msg; dc_IronIn msg]; w ← from_user sender cs w;
  Ok (tt, w).

Definition RedeemCollateral ctx w (msg : MsgRedeemCollateral) : outcome (unit * World) :=
  let collateralDenom := Denom (rc_CollateralOut msg) in
  '(sender, receiver) ← getSenderReceiver (rc_Sender msg) (rc_To msg);
  p ← getAvailableCollateralParams w collateralDenom;
  '(totalColl, poolColl, accColl) ← getCollateral ctx w sender collateralDenom false;
  apr ← deref (crp_InterestFee p);
  '(accColl, poolColl, totalColl) ← settleInterestFee ctx accColl poolColl totalColl apr;
  accCollateral ← Coin_Sub (ac_Collateral accColl) (rc_CollateralOut msg);
  poolCollateral ← Coin_Sub (pc_Collateral poolColl) (rc_CollateralOut msg);
  accIron ← Coin_Sub (ac_IronCollateralized accColl) (rc_IronOut msg);
  poolIron ← Coin_Sub (pc_IronCollateralized poolColl) (rc_IronOut msg);
  totalIron ← Coin_Sub (tc_IronCollateralized totalColl) (rc_IronOut msg);
  let accColl := mkAccountCollateral (ac_Account accColl) accCollateral (ac_GridDebt accColl)
    accIron (ac_LastInterest accColl) (ac_LastSettlementBlock accColl) in
  '(_, maxDebtInUSD) ← maxLoanToValueForAccount w accColl p;
  debtInUSD ← Dec_Mul (ToDec (Amount (ac_GridDebt accColl))) MicroUSMTarget;
  fail_if maxDebtInUSD <? debtInUSD with ErrAccountInsufficientCollateral ;;
  let w := SetAccountCollateral w sender accColl in
  let w := SetPoolCollateral w (mkPoolCollateral poolCollateral (pc_GridDebt poolColl) poolIron) in
  let w := SetTotalCollateral w (mkTotalCollateral (tc_GridDebt totalColl) totalIron) in
  cs ← NewCoins [rc_CollateralOut msg; rc_IronOut msg]; w ← to_user receiver cs w;
  Ok (tt, w).

Definition LiquidateCollateral ctx w (msg : MsgLiquidateCollateral) :
    outcome (MsgLiquidateCollateralResponse * World) :=
  let collateralDenom := Denom (lc_Collateral msg) in
  '(sender, receiver) ← getSenderReceiver (lc_Sender msg) (lc_To msg);
  debtor ← AccAddressFromBech32 (lc_Debtor msg);
  p ← getAvailableCollateralParams w collateralDenom;
  '(totalColl, poolColl, accColl) ← getCollateral ctx w debtor collateralDenom false;
  apr ← deref (crp_InterestFee p);
  '(accColl, poolColl, totalColl) ← settleInterestFee ctx accColl poolColl totalColl apr;
  collateralPrice ← GetExchangeRate w collateralDenom;
  x ← Dec_Mul (ToDec (Amount (ac_Collateral accColl))) collateralPrice;
  threshold ← deref (crp_LiquidationThreshold p);
  liquidationValue ← Dec_Mul x threshold;
  debtInUSD ← Dec_Mul (ToDec (Amount (ac_GridDebt accColl))) MicroUSMTarget;
  fail_if debtInUSD <? liquidationValue with ErrNotUndercollateralized ;;
  fail_if Amount (ac_Collateral accColl) <? Amount (lc_Collateral msg)
    with ErrCollateralCoinInsufficient ;;
  feeRate ← deref (crp_LiquidationFee p);
  liquidationFee ← Dec_Mul (ToDec (Amount (lc_Collateral msg))) feeRate;
  x ← Dec_Mul liquidationFee (LiquidationCommissionFee w);
  commissionAmt ← Dec_TruncateInt x;
  commissionFee ← NewCoin collateralDenom commissionAmt;
  collateralOut ← Coin_Sub (lc_Collateral msg) commissionFee;
  x ← Dec_Sub (ToDec (Amount (lc_Collateral msg))) liquidationFee;
  x ← Dec_Mul x collateralPrice;
  x ← Dec_Quo x MicroUSMTarget;
  repayAmt ← Dec_TruncateInt x;
  repayIn ← NewCoin MicroUSMDenom repayAmt;
  slipped ← Coin_IsLT (lc_RepayInMax msg) repayIn;
  fail_if slipped with ErrGridSlippage ;;
  repayDebt ← NewCoin MicroUSMDenom (Z.min (Amount (ac_GridDebt accColl)) (Amount repayIn));
  gridRefund ← Coin_Sub repayIn repayDebt;
  repayInterest ← NewCoin MicroUSMDenom (Z.min (Amount (ac_LastInterest accColl)) (Amount repayDebt));
  lastInterest ← Coin_Sub (ac_LastInterest accColl) repayInterest;
  accDebt ← Coin_Sub (ac_GridDebt accColl) repayDebt;
  poolDebt ← Coin_Sub (pc_GridDebt poolColl) repayDebt;
  totalDebt ← Coin_Sub (tc_GridDebt totalColl) repayDebt;
  accCollateral ← Coin_Sub (ac_Collateral accColl) (lc_Collateral msg);
  poolCollateral ← Coin_Sub (pc_Collateral poolColl) (lc_Collateral msg);
  let w := SetAccountCollateral w debtor (mkAccountCollateral (ac_Account accColl)
    accCollateral accDebt (ac_IronCollateralized accColl) lastInterest
    (ac_LastSettlementBlock accColl)) in
  let w := SetPoolCollateral w (mkPoolCollateral poolCollateral poolDebt
    (pc_IronCollateralized poolColl)) in
  let w := SetTotalCollateral w (mkTotalCollateral totalDebt (tc_IronCollateralized totalColl)) in
  cs ← NewCoins [repayIn]; w ← from_user sender cs w;
  cs ← NewCoins [repayDebt]; w ← burn_coins cs w;
  w ← (if 0 <? Amount gridRefund then cs ← NewCoins [gridRefund]; to_user debtor cs w else Ok w);
  cs ← NewCoins [collateralOut]; w ← to_user receiver cs w;
  cs ← NewCoins [commissionFee]; w ← to_oracle cs w;
  Ok (mkMsgLiquidateCollateralResponse repayIn collateralOut, w).
End Msg.
