(* ===== verification/MakerGov.v ===== *)
(** The maker governance proposals
    ([src/x/maker/keeper/proposal_handler.go]): registering backing and
    collateral coins and changing their risk parameters. *)

From stdpp Require Import base gmap strings list.
From Stdlib Require Import ZArith Lia.
From S2P Require Import Prelude Sdk Types MakerTypes VeTypes World MakerKeeper MakerCalc MakerMsg.

#[local] Open Scope Z_scope.

Section Gov.
Context `{!Sdk, !BankKeeper, !NftKeeper}.
Implicit Types (w : World).

(** [if p == nil { p = &dflt }] *)
Definition or_default (p : option Dec) (dflt : Dec) : option Dec := Some (default dflt p).

Definition validateBackingRiskParams w (p : BackingRiskParams) : outcome unit :=
  rebackFee ← deref (brp_RebackFee p);
  fail_if RebackBonus w <? rebackFee with ErrBackingParamsInvalid ;; Ok tt.

Definition validateCollateralRiskParams (p : CollateralRiskParams) : outcome unit :=
  ltv ← deref (crp_LoanToValue p);
  threshold ← deref (crp_LiquidationThreshold p);
  fail_if threshold <=? ltv with ErrCollateralParamsInvalid ;;
  basic ← deref (crp_BasicLoanToValue p);
  fail_if ltv <? basic with ErrCollateralParamsInvalid ;;
  Ok tt.

Definition HandleRegisterBackingProposal w (params : BackingRiskParams) : outcome World :=
  fail_if IsBackingRegistered w (brp_BackingDenom params) with ErrBackingCoinAlreadyExists ;;
  fail_if negb (HasSupply (w_bank w) (brp_BackingDenom params)) with ErrInvalidCoins ;;
  let params := mkBackingRiskParams (brp_BackingDenom params) (brp_Enabled params)
    (brp_MaxBacking params) (brp_MaxGridMint params)
    (or_default (brp_MintFee params) ZeroDec) (or_default (brp_BurnFee params) ZeroDec)
    (or_default (brp_BuybackFee params) ZeroDec) (or_default (brp_RebackFee params) ZeroDec) in
  _ ← validateBackingRiskParams w params;
  let w := SetBackingRiskParams w params in
  w ← match GetTotalBacking w with
      | Some _ => Ok w
      | None =>
          gridMinted ← NewCoin MicroUSMDenom 0;
          ironBurned ← NewCoin AttoIronDenom 0;
          Ok (SetTotalBacking w (mkTotalBacking 0 gridMinted ironBurned))
      end;
  gridMinted ← NewCoin MicroUSMDenom 0;
  backing ← NewCoin (brp_BackingDenom params) 0;
  ironBurned ← NewCoin AttoIronDenom 0;
  Ok (SetPoolBacking w (mkPoolBacking gridMinted backing ironBurned)).

Definition HandleRegisterCollateralProposal w (params : CollateralRiskParams) : outcome World :=
  fail_if IsCollateralRegistered w (crp_CollateralDenom params)
    with ErrCollateralCoinAlreadyExists ;;
  fail_if negb (HasSupply (w_bank w) (crp_CollateralDenom params)) with ErrInvalidCoins ;;
  let params := mkCollateralRiskParams (crp_CollateralDenom params) (crp_Enabled params)
    (crp_MaxCollateral params) (crp_MaxGridMint params)
    (or_default (crp_LiquidationThreshold params) (NewDecWithPrec 70 2))
    (or_default (crp_LoanToValue params) (NewDecWithPrec 60 2))
    (or_default (crp_BasicLoanToValue params) (NewDecWithPrec 40 2))
    (or_default (crp_CatalyticIronRatio params) (NewDecWithPrec 10 2))
    (or_default (crp_LiquidationFee params) (NewDecWithPrec 10 2))
    (or_default (crp_MintFee params) (NewDecWithPrec 5 3))
    (or_default (crp_InterestFee params) (NewDecWithPrec 1 2)) in
  _ ← validateCollateralRiskParams params;
  let w := SetCollateralRiskParams w params in
  w ← match GetTotalCollateral w with
      | Some _ => Ok w
      | None =>
          gridDebt ← NewCoin MicroUSMDenom 0;
          iron ← NewCoin AttoIronDenom 0;
          Ok (SetTotalCollateral w (mkTotalCollateral gridDebt iron))
      end;
  collateral ← NewCoin (crp_CollateralDenom params) 0;
  gridDebt ← NewCoin MicroUSMDenom 0;
  iron ← NewCoin AttoIronDenom 0;
  Ok (SetPoolCollateral w (mkPoolCollateral collateral gridDebt iron)).

(** [*target = *patch] when a patch is given; writing through a nil [target]
    panics.  The flag is the source's 0 or 1. *)
Definition updateInt (target patch : option Z) : outcome (option Z * bool) :=
  match patch with
  | None => Ok (target, false)
  | Some v => _ ← deref target; Ok (Some v, true)
  end.

Definition updateDecimal (target patch : option Dec) : outcome (option Dec * bool) :=
  match patch with
  | None => Ok (target, false)
  | Some v => _ ← deref target; Ok (Some v, true)
  end.

Definition setBackingRiskParamsProposal w (patch : BackingRiskParams) : outcome World :=
  match GetBackingRiskParams w (brp_BackingDenom patch) with
  | None => Err ErrBackingCoinNotFound
  | Some params =>
      let u0 := negb (Bool.eqb (brp_Enabled params) (brp_Enabled patch)) in
      '(maxBacking, u1) ← updateInt (brp_MaxBacking params) (brp_MaxBacking patch);
      '(maxGridMint, u2) ← updateInt (brp_MaxGridMint params) (brp_MaxGridMint patch);
      '(mintFee, u3) ← updateDecimal (brp_MintFee params) (brp_MintFee patch);
      '(burnFee, u4) ← updateDecimal (brp_BurnFee params) (brp_BurnFee patch);
      '(buybackFee, u5) ← updateDecimal (brp_BuybackFee params) (brp_BuybackFee patch);
      '(rebackFee, u6) ← updateDecimal (brp_RebackFee params) (brp_RebackFee patch);
      let params := mkBackingRiskParams (brp_BackingDenom params) (brp_Enabled patch)
        maxBacking maxGridMint mintFee burnFee buybackFee rebackFee in
      if u0 || u1 || u2 || u3 || u4 || u5 || u6 then
        _ ← validateBackingRiskParams w params;
        Ok (SetBackingRiskParams w params)
      else Ok w
  end.

Definition setCollateralRiskParamsProposal w (patch : CollateralRiskParams) : outcome World :=
  match GetCollateralRiskParams w (crp_CollateralDenom patch) with
  | None => Err ErrCollateralCoinNotFound
  | Some params =>
      let u0 := negb (Bool.eqb (crp_Enabled params) (crp_Enabled patch)) in
      '(maxCollateral, u1) ← updateInt (crp_MaxCollateral params) (crp_MaxCollateral patch);
      '(maxGridMint, u2) ← updateInt (crp_MaxGridMint params) (crp_MaxGridMint patch);
      '(threshold, u3) ←
        updateDecimal (crp_LiquidationThreshold params) (crp_LiquidationThreshold patch);
      '(ltv, u4) ← updateDecimal (crp_LoanToValue params) (crp_LoanToValue patch);
      '(basic, u5) ← updateDecimal (crp_BasicLoanToValue params) (crp_BasicLoanToValue patch);
      '(ratio, u6) ← updateDecimal (crp_CatalyticIronRatio params) (crp_CatalyticIronRatio patch);
      '(liqFee, u7) ← updateDecimal (crp_LiquidationFee params) (crp_LiquidationFee patch);
      '(mintFee, u8) ← updateDecimal (crp_MintFee params) (crp_MintFee patch);
      '(interest, u9) ← updateDecimal (crp_InterestFee params) (crp_InterestFee patch);
      let params := mkCollateralRiskParams (crp_CollateralDenom params) (crp_Enabled patch)
        maxCollateral maxGridMint threshold ltv basic ratio liqFee mintFee interest in
      if u0 || u1 || u2 || u3 || u4 || u5 || u6 || u7 || u8 || u9 then
        _ ← validateCollateralRiskParams params;
        Ok (SetCollateralRiskParams w params)
      else Ok w
  end.

Definition HandleSetBackingRiskParamsProposal w (p : BackingRiskParams) : outcome World :=
  setBackingRiskParamsProposal w p.

Definition HandleSetCollateralRiskParamsProposal w (p : CollateralRiskParams) : outcome World :=
  setCollateralRiskParamsProposal w p.

Definition HandleBatchSetBackingRiskParamsProposal w (ps : list BackingRiskParams) : outcome World :=
  for_each setBackingRiskParamsProposal ps w.

Definition HandleBatchSetCollateralRiskParamsProposal w (ps : list CollateralRiskParams) : outcome World :=
  for_each setCollateralRiskParamsProposal ps w.
End Gov.

(** * Dispatch of the maker module's messages and proposals
    ([src/x/maker/handler.go]) and the module's transition relation. *)

Inductive maker_msg :=
| MMintBySwap (m : MsgMintBySwap)
| MBurnBySwap (m : MsgBurnBySwap)
| MBuyBacking (m : MsgBuyBacking)
| MSellBacking (m : MsgSellBacking)
| MMintByCollateral (m : MsgMintByCollateral)
| MBurnByCollateral (m : MsgBurnByCollateral)
| MDepositCollateral (m : MsgDepositCollateral)
| MRedeemCollateral (m : MsgRedeemCollateral)
| MLiquidateCollateral (m : MsgLiquidateCollateral).

Inductive maker_proposal :=
| PRegisterBacking (p : BackingRiskParams)
| PRegisterCollateral (p : CollateralRiskParams)
| PSetBackingRiskParams (p : BackingRiskParams)
| PSetCollateralRiskParams (p : CollateralRiskParams)
| PBatchSetBackingRiskParams (ps : list BackingRiskParams)
| PBatchSetCollateralRiskParams (ps : list CollateralRiskParams).

Section Handler.
Context `{!Sdk, !BankKeeper, !NftKeeper}.
Implicit Types (w : World) (ctx : Ctx).

Definition maker_ValidateBasic (m : maker_msg) : outcome unit :=
  match m with
  | MMintBySwap m => MsgMintBySwap_ValidateBasic m
  | MBurnBySwap m => MsgBurnBySwap_ValidateBasic m
  | MBuyBacking m => MsgBuyBacking_ValidateBasic m
  | MSellBacking m => MsgSellBacking_ValidateBasic m
  | MMintByCollateral m => MsgMintByCollateral_ValidateBasic m
  | MBurnByCollateral m => MsgBurnByCollateral_ValidateBasic m
  | MDepositCollateral m => MsgDepositCollateral_ValidateBasic m
  | MRedeemCollateral m => MsgRedeemCollateral_ValidateBasic m
  | MLiquidateCollateral m => MsgLiquidateCollateral_ValidateBasic m
  end.

(** The world after a message; the response is dropped. *)
Definition maker_NewHandler ctx w (m : maker_msg) : outcome World :=
  match m with
  | MMintBySwap m => snd <$> MintBySwap w m
  | MBurnBySwap m => snd <$> BurnBySwap w m
  | MBuyBacking m => snd <$> BuyBacking w m
  | MSellBacking m => snd <$> SellBacking w m
  | MMintByCollateral m => snd <$> MintByCollateral ctx w m
  | MBurnByCollateral m => snd <$> BurnByCollateral ctx w m
  | MDepositCollateral m => snd <$> DepositCollateral ctx w m
  | MRedeemCollateral m => snd <$> RedeemCollateral ctx w m
  | MLiquidateCollateral m => snd <$> LiquidateCollateral ctx w m
  end.

Definition maker_proposal_ValidateBasic (p : maker_proposal) : outcome unit :=
  match p with
  | PRegisterBacking p | PSetBackingRiskParams p => proposal_validateBackingRiskParams p
  | PRegisterCollateral p | PSetCollateralRiskParams p => proposal_validateCollateralRiskParams p
  | PBatchSetBackingRiskParams ps => BatchSetBackingRiskParams_ValidateBasic ps
  | PBatchSetCollateralRiskParams ps => BatchSetCollateralRiskParams_ValidateBasic ps
  end.

Definition maker_NewProposalHandler w (p : maker_proposal) : outcome World :=
  match p with
  | PRegisterBacking p => HandleRegisterBackingProposal w p
  | PRegisterCollateral p => HandleRegisterCollateralProposal w p
  | PSetBackingRiskParams p => HandleSetBackingRiskParamsProposal w p
  | PSetCollateralRiskParams p => HandleSetCollateralRiskParamsProposal w p
  | PBatchSetBackingRiskParams ps => HandleBatchSetBackingRiskParamsProposal w ps
  | PBatchSetCollateralRiskParams ps => HandleBatchSetCollateralRiskParamsProposal w ps
  end.

(** The accounts a message names: they are users, never the maker's own
    module account (which has no key and is blocked from receiving). *)
Definition msg_accounts (m : maker_msg) : list string :=
  match m with
  | MMintBySwap m => [mbs_Sender m; mbs_To m]
  | MBurnBySwap m => [bbs_Sender m; bbs_To m]
  | MBuyBacking m => [bb_Sender m; bb_To m]
  | MSellBacking m => [sb_Sender m; sb_To m]
  | MMintByCollateral m => [mbc_Sender m; mbc_To m]
  | MBurnByCollateral m => [bbc_Sender m]
  | MDepositCollateral m => [dc_Sender m; dc_To m]
  | MRedeemCollateral m => [rc_Sender m; rc_To m]
  | MLiquidateCollateral m => [lc_Sender m; lc_To m; lc_Debtor m]
  end.

Definition maker_addr : Addr := GetModuleAddress maker_ModuleName.

Definition user_accounts (m : maker_msg) : Prop :=
  Forall (fun s => AccAddressFromBech32 s ≠ Ok maker_addr) (msg_accounts m).

(** One transition of the module: a valid message of a user, a passed
    proposal, or the end of a block. *)
Inductive maker_step : Ctx → World → World → Prop :=
| step_msg ctx w m w' :
    maker_ValidateBasic m = Ok tt → user_accounts m →
    maker_NewHandler ctx w m = Ok w' → maker_step ctx w w'
| step_proposal ctx w p w' :
    maker_proposal_ValidateBasic p = Ok tt →
    maker_NewProposalHandler w p = Ok w' → maker_step ctx w w'
| step_end_block ctx w w' :
    maker_EndBlocker ctx w = Ok w' → maker_step ctx w w'.
End Handler.
