(* ===== verification/MakerInv.v ===== *)
(** The maker module's accounting invariant, and the abstract effect of its
    operations: a swap moves one backing pool and the backing total by the
    same amounts, a collateral operation moves one account, its pool and the
    collateral total by the same amounts, and the bank moves with them.  The
    message handlers are shown to have such effects in [MakerEffects]; here the
    invariant and the solvency of the module account are shown to follow from
    the effects alone. *)

From stdpp Require Import base gmap strings list.
From Stdlib Require Import ZArith Lia.
From S2P Require Import Prelude Sdk Types MakerTypes VeTypes World MakerKeeper MakerCalc MakerMsg MakerGov.

#[local] Open Scope Z_scope.

(** [x] at denomination [d], nothing at the others. *)
Definition at_denom (d d' : string) (x : Z) : Z := if decide (d = d') then x else 0.

Definition bump (c : Coin) (x : Z) : Coin := mkCoin (Denom c) (Amount c + x).

Lemma bump_0 c : bump c 0 = c.
Proof. destruct c as [d x]. unfold bump; simpl. by rewrite Z.add_0_r. Qed.

Lemma coins_amt_cons d c cs : coins_amt d (c :: cs) = at_denom (Denom c) d (Amount c) + coins_amt d cs.
Proof. reflexivity. Qed.
Lemma coins_amt_nil d : coins_amt d [] = 0.
Proof. reflexivity. Qed.
Lemma at_denom_0 d d' : at_denom d d' 0 = 0.
Proof. unfold at_denom. by case_decide. Qed.
Lemma at_denom_eq d x : at_denom d d x = x.
Proof. unfold at_denom. by rewrite decide_True. Qed.
Lemma at_denom_add d d' x y : at_denom d d' (x + y) = at_denom d d' x + at_denom d d' y.
Proof. unfold at_denom. case_decide; lia. Qed.
Lemma at_denom_sub d d' x y : at_denom d d' (x - y) = at_denom d d' x - at_denom d d' y.
Proof. unfold at_denom. case_decide; lia. Qed.
Lemma at_denom_opp d d' x : at_denom d d' (- x) = - at_denom d d' x.
Proof. unfold at_denom. case_decide; lia. Qed.

#[export] Hint Rewrite coins_amt_cons coins_amt_nil at_denom_0 at_denom_eq
  at_denom_add at_denom_sub at_denom_opp : gridiron.

Section Inv.
Context `{!Sdk, !BankKeeper, !NftKeeper}.
Implicit Types (w : World) (s : MakerStore).

(** ** The module account *)

Definition mbal w (d : string) : Z := bal (w_bank w) maker_addr d.
Definition sup w (d : string) : Z := supply (w_bank w) d.

(** What the books say the module account holds in denomination [d]: the
    backing pool and the collateral pool of [d], and all collateralized iron. *)
Definition obligation s (d : string) : Z :=
  from_option (fun p => Amount (pb_Backing p)) 0 (ms_BackingPool s !! d) +
  from_option (fun p => Amount (pc_Collateral p)) 0 (ms_CollateralPool s !! d) +
  at_denom AttoIronDenom d
    (from_option (fun t => Amount (tc_IronCollateralized t)) 0 (ms_CollateralTotal s)).

Definition slack w (d : string) : Z := mbal w d - obligation (w_maker w) d.

(** ** The invariant *)

Definition acc_sum (f : AccountCollateral → Z) s (d : string) : Z :=
  map_sum (fun k a => at_denom k.2 d (f a)) (ms_CollateralAccount s).

Definition principal (a : AccountCollateral) : Z :=
  Amount (ac_GridDebt a) - Amount (ac_LastInterest a).

Definition total_or (f : TotalBacking → Z) s : Z := from_option f 0 (ms_BackingTotal s).
Definition ctotal_or (f : TotalCollateral → Z) s : Z := from_option f 0 (ms_CollateralTotal s).

Record maker_inv s : Prop := {
  (* every record is stored under its own denomination, in the denominations
     its fields are meant to have *)
  inv_bpool d p : ms_BackingPool s !! d = Some p →
    Denom (pb_Backing p) = d ∧ Denom (pb_GridMinted p) = MicroUSMDenom ∧
    Denom (pb_IronBurned p) = AttoIronDenom;
  inv_cpool d p : ms_CollateralPool s !! d = Some p →
    Denom (pc_Collateral p) = d ∧ Denom (pc_GridDebt p) = MicroUSMDenom ∧
    Denom (pc_IronCollateralized p) = AttoIronDenom;
  inv_acc a d x : ms_CollateralAccount s !! (a, d) = Some x →
    Denom (ac_Collateral x) = d ∧ Denom (ac_GridDebt x) = MicroUSMDenom ∧
    Denom (ac_IronCollateralized x) = AttoIronDenom ∧ Denom (ac_LastInterest x) = MicroUSMDenom ∧
    0 ≤ principal x;
  inv_btotal t : ms_BackingTotal s = Some t →
    Denom (tb_GridMinted t) = MicroUSMDenom ∧ Denom (tb_IronBurned t) = AttoIronDenom;
  inv_ctotal t : ms_CollateralTotal s = Some t →
    Denom (tc_GridDebt t) = MicroUSMDenom ∧ Denom (tc_IronCollateralized t) = AttoIronDenom;
  (* totals are the sums of the pools *)
  inv_minted : total_or (fun t => Amount (tb_GridMinted t)) s =
    map_sum (fun _ p => Amount (pb_GridMinted p)) (ms_BackingPool s);
  inv_burned : total_or (fun t => Amount (tb_IronBurned t)) s =
    map_sum (fun _ p => Amount (pb_IronBurned p)) (ms_BackingPool s);
  inv_debt : ctotal_or (fun t => Amount (tc_GridDebt t)) s =
    map_sum (fun _ p => Amount (pc_GridDebt p)) (ms_CollateralPool s);
  inv_iron : ctotal_or (fun t => Amount (tc_IronCollateralized t)) s =
    map_sum (fun _ p => Amount (pc_IronCollateralized p)) (ms_CollateralPool s);
  (* pools are the sums of their accounts *)
  inv_pool_coll d : acc_sum (fun a => Amount (ac_Collateral a)) s d =
    at_key (fun _ p => Amount (pc_Collateral p)) (ms_CollateralPool s) d;
  inv_pool_debt d : acc_sum (fun a => Amount (ac_GridDebt a)) s d =
    at_key (fun _ p => Amount (pc_GridDebt p)) (ms_CollateralPool s) d;
  inv_pool_iron d : acc_sum (fun a => Amount (ac_IronCollateralized a)) s d =
    at_key (fun _ p => Amount (pc_IronCollateralized p)) (ms_CollateralPool s) d;
  (* a pool exists exactly for a registered denomination *)
  inv_breg d : is_Some (ms_BackingPool s !! d) ↔ is_Some (ms_BackingParams s !! d);
  inv_creg d : is_Some (ms_CollateralPool s !! d) ↔ is_Some (ms_CollateralParams s !! d);
  (* risk parameters are stored under their own denomination *)
  inv_bkey d p : ms_BackingParams s !! d = Some p → brp_BackingDenom p = d;
  inv_ckey d p : ms_CollateralParams s !! d = Some p → crp_CollateralDenom p = d;
}.

(** ** Abstract effects *)

Definition with_backing s (d : string) (p : PoolBacking) (t : TotalBacking) : MakerStore :=
  mkMakerStore (ms_Params s) (ms_BackingRatio s) (ms_BackingRatioLastBlock s)
    (ms_BackingParams s) (ms_CollateralParams s) (Some t) (ms_CollateralTotal s)
    (<[d := p]> (ms_BackingPool s)) (ms_CollateralPool s) (ms_CollateralAccount s).

Definition with_collateral s (a d : string) (x : AccountCollateral) (p : PoolCollateral)
    (t : TotalCollateral) : MakerStore :=
  mkMakerStore (ms_Params s) (ms_BackingRatio s) (ms_BackingRatioLastBlock s)
    (ms_BackingParams s) (ms_CollateralParams s) (ms_BackingTotal s) (Some t)
    (ms_BackingPool s) (<[d := p]> (ms_CollateralPool s))
    (<[(a, d) := x]> (ms_CollateralAccount s)).

(** The swap of pool [d] that mints [m] grid, takes in [x] backing and burns
    [i] iron (negative amounts: the other way). *)
Definition backing_store s s' (d : string) (m x i : Z) : Prop :=
  ∃ p t, ms_BackingPool s !! d = Some p ∧ ms_BackingTotal s = Some t ∧
  s' = with_backing s d
    (mkPoolBacking (bump (pb_GridMinted p) m) (bump (pb_Backing p) x) (bump (pb_IronBurned p) i))
    (mkTotalBacking (tb_BackingValue t) (bump (tb_GridMinted t) m) (bump (tb_IronBurned t) i)).

Record backing_effect w w' (d : string) (m x i : Z) : Prop := {
  be_store : backing_store (w_maker w) (w_maker w') d m x i;
  be_oracle : w_oracle w' = w_oracle w;
  be_bal d' : mbal w' d' = mbal w d' + at_denom d d' x;
  be_sup d' : sup w' d' =
    sup w d' + at_denom MicroUSMDenom d' m - at_denom AttoIronDenom d' i;
}.

(** The account a collateral operation starts from: the stored one, or a fresh
    one without collateral and debt. *)
Definition fresh_account (d : string) (x : AccountCollateral) : Prop :=
  ac_Collateral x = mkCoin d 0 ∧ ac_GridDebt x = mkCoin MicroUSMDenom 0 ∧
  ac_IronCollateralized x = mkCoin AttoIronDenom 0 ∧ ac_LastInterest x = mkCoin MicroUSMDenom 0.

Definition start_account s (a d : string) (x : AccountCollateral) : Prop :=
  ms_CollateralAccount s !! (a, d) = Some x ∨
  ms_CollateralAccount s !! (a, d) = None ∧ fresh_account d x.

(** The operation on account [a] of pool [d] that adds [c] collateral, [g]
    debt, [i] iron and [n] interest. *)
Definition collateral_store s s' (a d : string) (c g i n : Z) : Prop :=
  ∃ x p t b, start_account s a d x ∧
  ms_CollateralPool s !! d = Some p ∧ ms_CollateralTotal s = Some t ∧
  0 ≤ principal x + g - n ∧
  s' = with_collateral s a d
    (mkAccountCollateral (ac_Account x) (bump (ac_Collateral x) c) (bump (ac_GridDebt x) g)
       (bump (ac_IronCollateralized x) i) (bump (ac_LastInterest x) n) b)
    (mkPoolCollateral (bump (pc_Collateral p) c) (bump (pc_GridDebt p) g)
       (bump (pc_IronCollateralized p) i))
    (mkTotalCollateral (bump (tc_GridDebt t) g) (bump (tc_IronCollateralized t) i)).

Record collateral_effect w w' (a d : string) (c g i n m : Z) : Prop := {
  ce_store : collateral_store (w_maker w) (w_maker w') a d c g i n;
  ce_oracle : w_oracle w' = w_oracle w;
  ce_bal d' : mbal w' d' = mbal w d' + at_denom d d' c + at_denom AttoIronDenom d' i;
  ce_sup d' : sup w' d' = sup w d' + at_denom MicroUSMDenom d' m;
}.

(** ** Effects keep the invariant *)

Lemma at_key_Some {K V} `{Countable K} (f : K → V → Z) (m : gmap K V) k v :
  m !! k = Some v → at_key f m k = f k v.
Proof. unfold at_key. by intros ->. Qed.

Lemma at_key_insert {V} (f : string → V → Z) (m : gmap string V) k v k' :
  at_key f (<[k:=v]> m) k' = at_key f m k' + at_denom k k' (f k v - at_key f m k).
Proof.
  unfold at_key, at_denom. rewrite lookup_insert.
  case_decide; subst; simpl; lia.
Qed.

Lemma is_Some_insert_present {V} (m : gmap string V) k v k' :
  is_Some (m !! k) → is_Some (<[k:=v]> m !! k') ↔ is_Some (m !! k').
Proof. intros Hk. rewrite lookup_insert. case_decide; subst; [|done]. split; eauto. Qed.

Lemma backing_store_inv s s' d m x i :
  backing_store s s' d m x i → maker_inv s → maker_inv s'.
Proof.
  intros (p & t & Hp & Ht & ->) I.
  destruct (inv_bpool _ I _ _ Hp) as (? & ? & ?). destruct (inv_btotal _ I _ Ht) as [? ?].
  pose proof (inv_minted _ I) as Hm. pose proof (inv_burned _ I) as Hb.
  unfold total_or in Hm, Hb. rewrite Ht in Hm, Hb. simpl in Hm, Hb.
  constructor; simpl; try apply I.
  - intros d' p'. rewrite lookup_insert. case_decide; subst; [|apply I].
    intros [= <-]. done.
  - intros t' [= <-]. done.
  - unfold total_or; simpl.
    rewrite map_sum_insert, (at_key_Some _ _ _ _ Hp). simpl. lia.
  - unfold total_or; simpl.
    rewrite map_sum_insert, (at_key_Some _ _ _ _ Hp). simpl. lia.
  - intros d'. rewrite is_Some_insert_present by eauto. apply I.
Qed.

Lemma acc_sum_insert f s a d x d' :
  map_sum (fun k y => at_denom k.2 d' (f y)) (<[(a, d) := x]> (ms_CollateralAccount s)) =
  acc_sum f s d' + at_denom d d' (f x - at_key (fun _ y => f y) (ms_CollateralAccount s) (a, d)).
Proof.
  rewrite map_sum_insert. unfold acc_sum, at_key, at_denom.
  destruct (_ !! (a, d)); simpl; case_decide; lia.
Qed.

Lemma start_account_key s a d x (f : AccountCollateral → Coin) :
  f = ac_Collateral ∨ f = ac_GridDebt ∨ f = ac_IronCollateralized →
  start_account s a d x →
  at_key (fun _ y => Amount (f y)) (ms_CollateralAccount s) (a, d) = Amount (f x).
Proof.
  unfold at_key. intros Hf [->|[-> (E1 & E2 & E3 & E4)]]; simpl; [done|].
  destruct Hf as [->|[->| ->]]; by rewrite ?E1, ?E2, ?E3.
Qed.

Lemma start_account_denoms s a d x :
  maker_inv s → start_account s a d x →
  Denom (ac_Collateral x) = d ∧ Denom (ac_GridDebt x) = MicroUSMDenom ∧
  Denom (ac_IronCollateralized x) = AttoIronDenom ∧ Denom (ac_LastInterest x) = MicroUSMDenom ∧
  0 ≤ principal x.
Proof.
  intros I [Hx|[_ (E1 & E2 & E3 & E4)]]; [by eapply inv_acc|].
  unfold principal. rewrite E1, E2, E3, E4. done.
Qed.

Lemma collateral_store_inv s s' a d c g i n :
  collateral_store s s' a d c g i n → maker_inv s → maker_inv s'.
Proof.
  intros (x & p & t & b & Hx & Hp & Ht & Hpr & ->) I.
  destruct (inv_cpool _ I _ _ Hp) as (? & ? & ?). destruct (inv_ctotal _ I _ Ht) as [? ?].
  destruct (start_account_denoms _ _ _ _ I Hx) as (? & ? & ? & ? & ?).
  pose proof (inv_debt _ I) as Hm. pose proof (inv_iron _ I) as Hb.
  unfold ctotal_or in Hm, Hb. rewrite Ht in Hm, Hb. simpl in Hm, Hb.
  constructor; simpl; try apply I.
  - intros d' p'. rewrite lookup_insert. case_decide; subst; [|apply I]. intros [= <-]. done.
  - intros a' d' x'. rewrite lookup_insert. case_decide; simplify_eq; [|apply I].
    intros [= <-]. unfold principal in *. simpl. repeat split; try done. lia.
  - intros t' [= <-]. done.
  - unfold ctotal_or; simpl. rewrite map_sum_insert, (at_key_Some _ _ _ _ Hp). simpl. lia.
  - unfold ctotal_or; simpl. rewrite map_sum_insert, (at_key_Some _ _ _ _ Hp). simpl. lia.
  - intros d'. unfold acc_sum; simpl. rewrite acc_sum_insert, at_key_insert, (inv_pool_coll _ I).
    rewrite (start_account_key s a d x ac_Collateral), (at_key_Some _ _ _ _ Hp) by auto.
    simpl. f_equal. f_equal. lia.
  - intros d'. unfold acc_sum; simpl. rewrite acc_sum_insert, at_key_insert, (inv_pool_debt _ I).
    rewrite (start_account_key s a d x ac_GridDebt), (at_key_Some _ _ _ _ Hp) by auto.
    simpl. f_equal. f_equal. lia.
  - intros d'. unfold acc_sum; simpl. rewrite acc_sum_insert, at_key_insert, (inv_pool_iron _ I).
    rewrite (start_account_key s a d x ac_IronCollateralized), (at_key_Some _ _ _ _ Hp) by auto.
    simpl. f_equal. f_equal. lia.
  - intros d'. rewrite is_Some_insert_present by eauto. apply I.
Qed.

(** ** Effects keep the module account solvent and the supplies accounted for *)

Lemma backing_effect_slack w w' d m x i d' :
  backing_effect w w' d m x i → slack w' d' = slack w d'.
Proof.
  intros [(p & t & Hp & Ht & E) _ Hb _]. unfold slack. rewrite Hb, E.
  unfold obligation; simpl. rewrite lookup_insert. unfold at_denom.
  destruct (decide (d = d')); subst; rewrite ?Hp; simpl; lia.
Qed.

Lemma collateral_effect_slack w w' a d c g i n m d' :
  collateral_effect w w' a d c g i n m → slack w' d' = slack w d'.
Proof.
  intros [(x & p & t & b & _ & Hp & Ht & _ & E) _ Hb _]. unfold slack. rewrite Hb, E.
  unfold obligation; simpl. rewrite Ht, lookup_insert. simpl. unfold at_denom.
  destruct (decide (d = d')); subst; rewrite ?Hp; simpl; case_decide; lia.
Qed.

(** Grid in circulation that neither the backing books nor the principal of a
    collateral debt accounts for. *)
Definition grid_unaccounted w : Z :=
  sup w MicroUSMDenom - total_or (fun t => Amount (tb_GridMinted t)) (w_maker w) -
  map_sum (fun _ a => principal a) (ms_CollateralAccount (w_maker w)).

(** Iron in circulation plus the iron the backing books record as burned. *)
Definition iron_issued w : Z :=
  sup w AttoIronDenom + total_or (fun t => Amount (tb_IronBurned t)) (w_maker w).

Lemma usm_not_iron : MicroUSMDenom ≠ AttoIronDenom.
Proof. done. Qed.

Lemma backing_effect_accounted w w' d m x i :
  backing_effect w w' d m x i →
  grid_unaccounted w' = grid_unaccounted w ∧ iron_issued w' = iron_issued w.
Proof.
  intros [(p & t & Hp & Ht & E) _ _ Hs]. unfold grid_unaccounted, iron_issued, total_or.
  rewrite !Hs, E, Ht. unfold at_denom; simpl. lia.
Qed.

Lemma start_account_principal s a d x :
  start_account s a d x →
  at_key (fun _ y => principal y) (ms_CollateralAccount s) (a, d) = principal x.
Proof.
  unfold at_key. intros [->|[-> (_ & E2 & _ & E4)]]; simpl; [done|].
  unfold principal. by rewrite E2, E4.
Qed.

Lemma collateral_effect_accounted w w' a d c g i n m :
  collateral_effect w w' a d c g i n m →
  grid_unaccounted w' = grid_unaccounted w + m - (g - n) ∧ iron_issued w' = iron_issued w.
Proof.
  intros [(x & p & t & b & Hx & Hp & Ht & _ & E) _ _ Hs].
  unfold grid_unaccounted, iron_issued, total_or. rewrite !Hs, E. simpl.
  rewrite map_sum_insert, (start_account_principal _ _ _ _ Hx).
  unfold at_denom, principal; simpl. lia.
Qed.
End Inv.
