(* ===== verification/MakerEffects.v ===== *)
(** Every maker message handler that returns has the effect its name says:
    the link between the handlers of [MakerMsg] and the abstract effects of
    [MakerInv]. *)

From stdpp Require Import base gmap strings list.
From Stdlib Require Import ZArith Lia.
From S2P Require Import Prelude Sdk Types MakerTypes VeTypes World MakerKeeper MakerCalc MakerMsg MakerGov MakerInv.

#[local] Open Scope Z_scope.

(** Inverts every hypothesis that says a monadic step returned. *)
Ltac inv_all :=
  repeat match goal with
  | H : _ ≫= _ = Ok _ |- _ => inv_ok H
  | H : guard_err _ _ _ = Ok _ |- _ => inv_ok H
  | H : (if _ then _ else _) = Ok _ |- _ => inv_ok H
  | H : (let '(_, _) := _ in _) = Ok _ |- _ => inv_ok H
  | H : Ok _ = Ok _ |- _ => injection H as H
  | H : Err _ = Ok _ |- _ => discriminate H
  | H : Panic = Ok _ |- _ => discriminate H
  | H : (_, _) = (_, _) |- _ => injection H; clear H; intros; subst
  end.

Section Effects.
Context `{!Sdk, !BankKeeper, !NftKeeper, !SdkLaws, !BankLaws}.
Implicit Types (w : World) (ctx : Ctx).

(** ** Bank calls *)

(** The modules' stores are untouched; the maker account and the supply move
    by the given amounts. *)
Record bank_delta w w' (fb fs : string → Z) : Prop := {
  bd_maker : w_maker w' = w_maker w;
  bd_oracle : w_oracle w' = w_oracle w;
  bd_bal d : mbal w' d = mbal w d + fb d;
  bd_sup d : sup w' d = sup w d + fs d;
}.

Lemma on_bank_delta f w w' fb fs :
  on_bank f w = Ok w' →
  (∀ b', f (w_bank w) = Ok b' → ∀ d,
    bal b' maker_addr d = bal (w_bank w) maker_addr d + fb d ∧
    supply b' d = supply (w_bank w) d + fs d) →
  bank_delta w w' fb fs.
Proof.
  unfold on_bank. intros E Hf. inv_ok E. subst w'.
  constructor; try done; intros d; by destruct (Hf _ E0 d).
Qed.

Lemma from_user_delta a cs w w' :
  from_user a cs w = Ok w' → a ≠ maker_addr →
  bank_delta w w' (fun d => coins_amt d cs) (fun _ => 0).
Proof.
  intros E Ha. apply (on_bank_delta _ _ _ _ _ E). intros b' Hb d.
  destruct (SendCoinsFromAccountToModule_Ok _ _ _ _ _ Hb d) as [Hs Hbal].
  rewrite Hs, Hbal. unfold if_addr. rewrite decide_False, decide_True by done. lia.
Qed.

Lemma to_user_delta a cs w w' :
  to_user a cs w = Ok w' → a ≠ maker_addr →
  bank_delta w w' (fun d => - coins_amt d cs) (fun _ => 0).
Proof.
  intros E Ha. apply (on_bank_delta _ _ _ _ _ E). intros b' Hb d.
  destruct (SendCoinsFromModuleToAccount_Ok _ _ _ _ _ Hb d) as [Hs Hbal].
  rewrite Hs, Hbal. unfold if_addr.
  rewrite (decide_True (P := maker_addr = _)), decide_False by done. lia.
Qed.

Lemma to_oracle_delta cs w w' :
  to_oracle cs w = Ok w' → bank_delta w w' (fun d => - coins_amt d cs) (fun _ => 0).
Proof.
  intros E. apply (on_bank_delta _ _ _ _ _ E). intros b' Hb d.
  destruct (SendCoinsFromModuleToModule_Ok _ _ _ _ _ Hb d) as [Hs Hbal].
  assert (maker_addr ≠ GetModuleAddress oracle_ModuleName) as Hne.
  { intros Heq%GetModuleAddress_inj. discriminate Heq. }
  rewrite Hs, Hbal. unfold if_addr.
  rewrite (decide_True (P := maker_addr = _)), decide_False by done. lia.
Qed.

Lemma mint_coins_delta cs w w' :
  mint_coins cs w = Ok w' →
  bank_delta w w' (fun d => coins_amt d cs) (fun d => coins_amt d cs).
Proof.
  intros E. apply (on_bank_delta _ _ _ _ _ E). intros b' Hb d.
  destruct (MintCoins_Ok _ _ _ _ Hb d) as [Hs Hbal].
  rewrite Hs, Hbal. unfold if_addr. by rewrite decide_True.
Qed.

Lemma burn_coins_delta cs w w' :
  burn_coins cs w = Ok w' →
  bank_delta w w' (fun d => - coins_amt d cs) (fun d => - coins_amt d cs).
Proof.
  intros E. apply (on_bank_delta _ _ _ _ _ E). intros b' Hb d.
  destruct (BurnCoins_Ok _ _ _ _ Hb d) as [Hs Hbal].
  rewrite Hs, Hbal. unfold if_addr. rewrite decide_True by done. lia.
Qed.

Lemma bank_delta_refl w : bank_delta w w (fun _ => 0) (fun _ => 0).
Proof. constructor; try done; intros; lia. Qed.

Lemma bank_delta_trans w1 w2 w3 fb1 fs1 fb2 fs2 :
  bank_delta w1 w2 fb1 fs1 → bank_delta w2 w3 fb2 fs2 →
  bank_delta w1 w3 (fun d => fb1 d + fb2 d) (fun d => fs1 d + fs2 d).
Proof.
  intros [M1 O1 B1 S1] [M2 O2 B2 S2]. constructor; [congruence..| |]; intros d.
  - rewrite B2, B1. lia.
  - rewrite S2, S1. lia.
Qed.

Lemma bank_delta_ext w w' fb fs fb' fs' :
  bank_delta w w' fb fs → (∀ d, fb d = fb' d) → (∀ d, fs d = fs' d) → bank_delta w w' fb' fs'.
Proof. intros [M O B S] Hb Hs. constructor; try done; intros d; rewrite <- ?Hb, <- ?Hs; auto. Qed.

Lemma NewCoins_amt l cs d : NewCoins l = Ok cs → coins_amt d cs = coins_amt d l.
Proof. intros E. by apply NewCoins_Ok in E as [E _]. Qed.

(** A step the handlers take only when the amount is positive: the amounts
    are the same when it is skipped. *)
Lemma positive_only_delta c (f : Coins → World → outcome World) w w' fb fs :
  (if 0 <? Amount c then cs ← NewCoins [c]; f cs w else Ok w) = Ok w' →
  0 ≤ Amount c →
  (∀ cs, NewCoins [c] = Ok cs → f cs w = Ok w' → bank_delta w w' fb fs) →
  (∀ d, Amount c = 0 → fb d = 0 ∧ fs d = 0) →
  bank_delta w w' fb fs.
Proof.
  intros E Hc Hf Hz. destruct (Z.ltb_spec 0 (Amount c)).
  - inv_ok E. eauto.
  - injection E as <-. apply (bank_delta_ext _ _ _ _ _ _ (bank_delta_refl w));
      intros d; destruct (Hz d); lia.
Qed.

(** ** Accounts of a message *)

Lemma getSenderReceiver_users s t sender receiver :
  getSenderReceiver s t = Ok (sender, receiver) →
  AccAddressFromBech32 s ≠ Ok maker_addr →
  (t ≠ ""%string → AccAddressFromBech32 t ≠ Ok maker_addr) →
  sender ≠ maker_addr ∧ receiver ≠ maker_addr.
Proof.
  unfold getSenderReceiver. intros E Hs Ht. inv_ok E; simplify_eq; split; try congruence.
  intros ->. by apply Ht.
Qed.

(** ** Tactics for the handlers *)

Lemma getBacking_Ok w d t p :
  getBacking w d = Ok (t, p) ↔
  GetTotalBacking w = Some t ∧ GetPoolBacking w d = Some p.
Proof.
  unfold getBacking. destruct (GetTotalBacking w), (GetPoolBacking w d); split;
    intros; destruct_and?; simplify_eq; done.
Qed.

Lemma computeFee_Ok c rate fee :
  computeFee c rate = Ok fee → Denom fee = Denom c ∧ 0 ≤ Amount fee.
Proof. unfold computeFee. intros E. inv_ok E. by apply NewCoin_Ok in E as [-> ?]. Qed.

End Effects.

(** The accounts of a message are not the module's. *)
Ltac users :=
  match goal with
  | Hu : user_accounts _ |- _ =>
      unfold user_accounts in Hu; simpl in Hu; rewrite ?Forall_cons in Hu; destruct_and? Hu
  end;
  repeat match goal with
  | E : getSenderReceiver _ _ = Ok _ |- _ =>
      apply getSenderReceiver_users in E as [? ?]; [|assumption|first [done|intros _; assumption]]
  end.

(** Turns every bank call that returned into one [bank_delta] from the world
    after the store writes to the final world. *)
Ltac bank_deltas :=
  repeat match goal with
  | E : from_user _ _ _ = Ok _ |- _ => apply from_user_delta in E; [|assumption]
  | E : to_user _ _ _ = Ok _ |- _ => apply to_user_delta in E; [|congruence]
  | E : to_oracle _ _ = Ok _ |- _ => apply to_oracle_delta in E
  | E : mint_coins _ _ = Ok _ |- _ => apply mint_coins_delta in E
  | E : burn_coins _ _ = Ok _ |- _ => apply burn_coins_delta in E
  | E : NewCoins _ = Ok _ |- _ =>
      apply NewCoins_Ok in E as [? E]; rewrite ?Forall_cons in E; destruct_and? E
  end;
  repeat match goal with
  | D1 : bank_delta ?a ?b _ _, D2 : bank_delta ?b _ _ _ |- _ =>
      pose proof (bank_delta_trans _ _ _ _ _ _ _ D1 D2); clear D1 D2
  end.

(** The bank side of a handler whose steps have been inverted. *)
Ltac handler_bank :=
  simplify_eq; sdk_inv; inv_all; zbool; simplify_eq; bank_deltas; unfold bump in *;
  cbn [Denom Amount pc_Collateral pc_GridDebt pc_IronCollateralized tc_GridDebt
    tc_IronCollateralized ac_Account ac_Collateral ac_GridDebt ac_IronCollateralized
    ac_LastInterest ac_LastSettlementBlock] in *;
  match goal with
  | D : bank_delta _ _ _ _ |- _ =>
      let M := fresh "M" in let O := fresh "O'" in let B := fresh "B'" in let S := fresh "S" in
      destruct D as [M O B S]
  end.

(** Replaces the denomination of every coin by the canonical one, [d] being
    the pool's. *)
Ltac canon_denoms d :=
  repeat match goal with
  | |- context [at_denom (Denom ?c) ?d' ?x] =>
      first
        [ replace (at_denom (Denom c) d' x) with (at_denom d d' x) by (f_equal; congruence)
        | replace (at_denom (Denom c) d' x) with (at_denom MicroUSMDenom d' x) by (f_equal; congruence)
        | replace (at_denom (Denom c) d' x) with (at_denom AttoIronDenom d' x) by (f_equal; congruence) ]
  end.

(** Proves the balance and supply equations of an effect from the
    [bank_delta] [D]. *)
Ltac bank_eq eqn d :=
  rewrite eqn; cbn beta;
  repeat match goal with E : ∀ d, coins_amt d ?cs = _ |- context [coins_amt _ ?cs] => rewrite E end;
  autorewrite with gridiron; cbn [Denom Amount]; canon_denoms d;
  unfold mbal, sup, SetTotalBacking, SetPoolBacking, SetTotalCollateral, SetPoolCollateral,
    SetAccountCollateral;
  cbn [set_maker w_bank]; autorewrite with gridiron;
  unfold at_denom; repeat case_decide; lia.

(** The store written by a handler is the one of the effect: coins that are
    the old ones with an amount added. *)
Ltac store_eq M :=
  rewrite M; simpl; unfold with_backing, with_collateral; rewrite ?bump_0; unfold bump; simpl;
  repeat lazymatch goal with
  | |- @eq Z _ _ => lia
  | |- @eq string _ _ => congruence
  | |- _ = _ => f_equal
  end.

(** The pool and total a swap starts from, with their denominations. *)
Ltac backing_records I :=
  match goal with
  | E : getBacking _ _ = Ok _ |- _ =>
      let Ht := fresh "Ht" in let Hp := fresh "Hp" in
      apply getBacking_Ok in E as [Ht Hp];
      destruct (inv_bpool _ I _ _ Hp) as (? & ? & ?); destruct (inv_btotal _ I _ Ht) as [? ?]
  end.

Ltac backing_done d :=
  lazymatch goal with
  | Ht : GetTotalBacking _ = Some ?t, Hp : GetPoolBacking _ _ = Some ?p, M : w_maker ?w' = _, B : ∀ d, mbal ?w' d = _, S : ∀ d, sup ?w' d = _ |- _ =>
      let dd := fresh "dd" in let Hd := fresh "Hd" in
      remember d as dd eqn:Hd;
      constructor;
        [ exists p, t; split_and!; [assumption|assumption|store_eq M]
        | assumption
        | intros ?; bank_eq B dd
        | intros ?; bank_eq S dd ]
  end.

(** The denominations a message's [ValidateBasic] fixes. *)
Ltac valid_msg Hv :=
  unfold MsgMintBySwap_ValidateBasic, MsgBurnBySwap_ValidateBasic, MsgSellBacking_ValidateBasic,
    MsgMintByCollateral_ValidateBasic, MsgBurnByCollateral_ValidateBasic,
    MsgDepositCollateral_ValidateBasic, MsgRedeemCollateral_ValidateBasic,
    MsgLiquidateCollateral_ValidateBasic in Hv;
  inv_ok Hv; zbool;
  repeat match goal with
  | G : bool_decide (_ ≠ _) = false |- _ => apply bool_decide_eq_false_1, dec_stable in G
  end.

Section Handlers.
Context `{!Sdk, !BankKeeper, !NftKeeper, !SdkLaws, !BankLaws}.
Implicit Types (w : World) (ctx : Ctx).

Lemma calculateMintBySwapOut_fee w b i full backingIn ironIn mintOut mintFee :
  calculateMintBySwapOut w b i full = Ok (backingIn, ironIn, mintOut, mintFee) →
  0 ≤ Amount mintFee.
Proof.
  unfold calculateMintBySwapOut. intros E. inv_ok E; simplify_eq;
  match goal with E : computeFee _ _ = Ok mintFee |- _ => by apply computeFee_Ok in E as [? ?] end.
Qed.

Lemma MintBySwap_effect w msg resp w' :
  maker_inv (w_maker w) → user_accounts (MMintBySwap msg) →
  MintBySwap w msg = Ok (resp, w') →
  backing_effect w w' (Denom (mbs_BackingInMax msg))
    (Amount (mbsr_MintOut resp) + Amount (mbsr_MintFee resp))
    (Amount (mbsr_BackingIn resp)) (Amount (mbsr_IronIn resp)).
Proof.
  intros I Hu E. destruct resp as [backingIn ironIn mintOut mintFee]. simpl.
  unfold MintBySwap in E. inv_ok E. users.
  apply calculateMintBySwapOut_fee in E1.
  backing_records I. handler_bank; backing_done (Denom (mbs_BackingInMax msg)).
Qed.

Lemma BurnBySwap_effect w msg resp w' :
  maker_inv (w_maker w) → MsgBurnBySwap_ValidateBasic msg = Ok tt →
  user_accounts (MBurnBySwap msg) → BurnBySwap w msg = Ok (resp, w') →
  backing_effect w w' (Denom (bbs_BackingOutMin msg))
    (- (Amount (bbs_BurnIn msg) - Amount (bbsr_BurnFee resp)))
    (- Amount (bbsr_BackingOut resp)) (- Amount (bbsr_IronOut resp)).
Proof.
  intros I Hv Hu E. destruct resp as [burnFee backingOut ironOut]. simpl.
  unfold BurnBySwap in E. inv_ok E. users. valid_msg Hv.
  backing_records I. handler_bank; backing_done (Denom (bbs_BackingOutMin msg)).
Qed.

Lemma BuyBacking_effect w msg resp w' :
  maker_inv (w_maker w) → user_accounts (MBuyBacking msg) →
  BuyBacking w msg = Ok (resp, w') →
  backing_effect w w' (Denom (bb_BackingOutMin msg)) 0
    (- (Amount (bbr_BackingOut resp) + Amount (bbr_BuybackFee resp))) (Amount (bb_IronIn msg)).
Proof.
  intros I Hu E. destruct resp as [backingOut buybackFee]. simpl.
  unfold BuyBacking in E. inv_ok E. users.
  backing_records I. handler_bank; backing_done (Denom (bb_BackingOutMin msg)).
Qed.

Lemma SellBacking_effect w msg resp w' :
  maker_inv (w_maker w) → MsgSellBacking_ValidateBasic msg = Ok tt →
  user_accounts (MSellBacking msg) → SellBacking w msg = Ok (resp, w') →
  backing_effect w w' (Denom (sb_BackingIn msg)) 0 (Amount (sb_BackingIn msg))
    (- (Amount (sbr_IronOut resp) + Amount (sbr_RebackFee resp))).
Proof.
  intros I Hv Hu E. destruct resp as [ironOut rebackFee]. simpl.
  unfold SellBacking in E. inv_ok E. users. valid_msg Hv.
  backing_records I. handler_bank; backing_done (Denom (sb_BackingIn msg)).
Qed.

(** ** Collateral *)

Lemma getCollateral_Ok ctx w a d new t p x :
  getCollateral ctx w a d new = Ok (t, p, x) →
  GetTotalCollateral w = Some t ∧ GetPoolCollateral w d = Some p ∧
  start_account (w_maker w) a d x.
Proof.
  unfold getCollateral, start_account, GetAccountCollateral. intros E.
  inv_ok E; simplify_eq; split_and!; try done; [by left|right].
  split; [done|]. sdk_inv. done.
Qed.

(** Settling adds the interest of the period to the account's interest, to its
    debt and to the debts of its pool and of the total. *)
Definition settled (n b : Z) (x x' : AccountCollateral) (p p' : PoolCollateral)
    (t t' : TotalCollateral) : Prop :=
  x' = mkAccountCollateral (ac_Account x) (ac_Collateral x) (bump (ac_GridDebt x) n)
         (ac_IronCollateralized x) (bump (ac_LastInterest x) n) b ∧
  p' = mkPoolCollateral (pc_Collateral p) (bump (pc_GridDebt p) n) (pc_IronCollateralized p) ∧
  t' = mkTotalCollateral (bump (tc_GridDebt t) n) (tc_IronCollateralized t).

Lemma settleInterestFee_settled ctx x p t apr x' p' t' :
  settleInterestFee ctx x p t apr = Ok (x', p', t') → ∃ n b, settled n b x x' p p' t t'.
Proof.
  unfold settleInterestFee, Coin_AddAmount. intros E. inv_ok E; simplify_eq.
  - exists 0, (ac_LastSettlementBlock x'). unfold settled. rewrite !bump_0.
    by destruct x', p', t'.
  - inv_all. exists r3, (BlockHeight ctx). unfold settled, bump. sdk_inv. done.
Qed.
End Handlers.

(** The account, pool and total a collateral operation starts from, with
    their denominations, and the settled interest. *)
Ltac collateral_records I :=
  match goal with
  | E : getCollateral _ _ _ _ _ = Ok _, F : settleInterestFee _ _ _ _ _ = Ok _ |- _ =>
      let Ht := fresh "Ht" in let Hp := fresh "Hp" in let Hx := fresh "Hx" in
      apply getCollateral_Ok in E as (Ht & Hp & Hx);
      destruct (inv_cpool _ I _ _ Hp) as (? & ? & ?); destruct (inv_ctotal _ I _ Ht) as [? ?];
      destruct (start_account_denoms _ _ _ _ I Hx) as (? & ? & ? & ? & ?);
      let n := fresh "n" in let b := fresh "b" in
      apply settleInterestFee_settled in F as (n & b & -> & -> & ->)
  end.

Ltac collateral_done d :=
  lazymatch goal with
  | Hx : start_account _ ?a _ ?x, Ht : GetTotalCollateral _ = Some ?t,
    Hp : GetPoolCollateral _ _ = Some ?p,
    M : w_maker ?w' = _, B : ∀ d, mbal ?w' d = _, S : ∀ d, sup ?w' d = _ |- _ =>
      let dd := fresh "dd" in let Hd := fresh "Hd" in
      remember d as dd eqn:Hd;
      constructor;
        [ eexists x, p, t, _; split_and!;
          [assumption|assumption|assumption|unfold principal in *; lia|store_eq M]
        | assumption
        | intros ?; bank_eq B dd
        | intros ?; bank_eq S dd ]
  end.

Section Collateral.
Context `{!Sdk, !BankKeeper, !NftKeeper, !SdkLaws, !BankLaws}.
Implicit Types (w : World) (ctx : Ctx).

Lemma DepositCollateral_effect ctx w msg w' :
  maker_inv (w_maker w) → user_accounts (MDepositCollateral msg) →
  DepositCollateral ctx w msg = Ok (tt, w') →
  ∃ a n, collateral_effect w w' a (Denom (dc_CollateralIn msg))
    (Amount (dc_CollateralIn msg)) n (Amount (dc_IronIn msg)) n 0.
Proof.
  intros I Hu E. unfold DepositCollateral in E. inv_ok E. users.
  collateral_records I. handler_bank. exists s0, n.
  collateral_done (Denom (dc_CollateralIn msg)).
Qed.

Lemma RedeemCollateral_effect ctx w msg w' :
  maker_inv (w_maker w) → user_accounts (MRedeemCollateral msg) →
  RedeemCollateral ctx w msg = Ok (tt, w') →
  ∃ a n, collateral_effect w w' a (Denom (rc_CollateralOut msg))
    (- Amount (rc_CollateralOut msg)) n (- Amount (rc_IronOut msg)) n 0.
Proof.
  intros I Hu E. unfold RedeemCollateral in E. inv_ok E. users.
  collateral_records I. handler_bank. exists s, n.
  collateral_done (Denom (rc_CollateralOut msg)).
Qed.

Lemma calculateMintByCollateral_Ok ctx w a d mintOut fee t p x :
  calculateMintByCollateral ctx w a d mintOut = Ok (fee, t, p, x) →
  ∃ x0 p0 t0 x1 p1 t1 n b,
    GetTotalCollateral w = Some t0 ∧ GetPoolCollateral w d = Some p0 ∧
    start_account (w_maker w) a d x0 ∧ settled n b x0 x1 p0 p1 t0 t1 ∧
    Denom fee = Denom mintOut ∧ 0 ≤ Amount fee ∧
    Denom mintOut = Denom (ac_GridDebt x0) ∧
    let m := Amount mintOut + Amount fee in
    x = mkAccountCollateral (ac_Account x1) (ac_Collateral x1) (bump (ac_GridDebt x1) m)
          (ac_IronCollateralized x1) (ac_LastInterest x1) (ac_LastSettlementBlock x1) ∧
    p = mkPoolCollateral (pc_Collateral p1) (bump (pc_GridDebt p1) m) (pc_IronCollateralized p1) ∧
    t = mkTotalCollateral (bump (tc_GridDebt t1) m) (tc_IronCollateralized t1).
Proof.
  unfold calculateMintByCollateral. intros E. inv_ok E; simplify_eq.
  apply getCollateral_Ok in E3 as (Ht & Hp & Hx).
  apply settleInterestFee_settled in E5 as (n & b & Hs).
  apply computeFee_Ok in E6 as [? ?]. sdk_inv.
  eexists a0, p0, t0, _, _, _, n, b. split_and!; try eassumption; try done.
  destruct Hs as (-> & _ & _). done.
Qed.

Lemma MintByCollateral_effect ctx w msg resp w' :
  maker_inv (w_maker w) → MsgMintByCollateral_ValidateBasic msg = Ok tt →
  user_accounts (MMintByCollateral msg) → MintByCollateral ctx w msg = Ok (resp, w') →
  let m := Amount (mbc_MintOut msg) + Amount (mbcr_MintFee resp) in
  ∃ a n, collateral_effect w w' a (mbc_CollateralDenom msg) 0 (n + m) 0 n m.
Proof.
  intros I Hv Hu E. destruct resp as [mintFee]. simpl.
  unfold MintByCollateral in E. inv_ok E. users. valid_msg Hv.
  apply calculateMintByCollateral_Ok in E1
    as (x0 & pp & tt0 & x1 & p1 & t1 & n & b & Ht & Hp & Hx & (-> & -> & ->) & ? & ? & ? & -> & -> & ->).
  destruct (inv_cpool _ I _ _ Hp) as (? & ? & ?); destruct (inv_ctotal _ I _ Ht) as [? ?].
  destruct (start_account_denoms _ _ _ _ I Hx) as (? & ? & ? & ? & ?).
  handler_bank; exists s, n; collateral_done (mbc_CollateralDenom msg).
Qed.

Lemma BurnByCollateral_effect ctx w msg resp w' :
  maker_inv (w_maker w) → user_accounts (MBurnByCollateral msg) →
  BurnByCollateral ctx w msg = Ok (resp, w') →
  ∃ a n i, 0 ≤ i ≤ Amount (bbcr_RepayIn resp) ∧
    collateral_effect w w' a (bbc_CollateralDenom msg) 0 (n - Amount (bbcr_RepayIn resp)) 0
      (n - i) (- (Amount (bbcr_RepayIn resp) - i)).
Proof.
  intros I Hu E. destruct resp as [repayIn]. simpl.
  unfold BurnByCollateral in E. inv_ok E.
  users. collateral_records I.
  handler_bank; exists s, n, (Z.min (Amount (ac_LastInterest a) + n)
    (Z.min (Amount (ac_GridDebt a) + n) (Amount (bbc_RepayInMax msg))));
  (split; [lia|collateral_done (bbc_CollateralDenom msg)]).
Qed.

Lemma LiquidateCollateral_effect ctx w msg resp w' :
  maker_inv (w_maker w) → user_accounts (MLiquidateCollateral msg) →
  LiquidateCollateral ctx w msg = Ok (resp, w') →
  ∃ a n i r, 0 ≤ i ≤ r ∧ r ≤ Amount (lcr_RepayIn resp) ∧
    collateral_effect w w' a (Denom (lc_Collateral msg)) (- Amount (lc_Collateral msg))
      (n - r) 0 (n - i) (- r).
Proof.
  intros I Hu E. destruct resp as [repayIn collateralOut]. simpl.
  unfold LiquidateCollateral in E. inv_ok E.
  users. collateral_records I.
  assert (r ≠ maker_addr) by congruence.
  handler_bank;
  match goal with
  | _ : Dec_Quo _ MicroUSMTarget = Ok ?z, _ : Dec_TruncateInt ?z = Ok ?q |- _ =>
      exists r, n, (Z.min (Amount (ac_LastInterest a) + n) (Z.min (Amount (ac_GridDebt a) + n) q)),
        (Z.min (Amount (ac_GridDebt a) + n) q)
  end; (split_and!; [lia|lia|lia|collateral_done (Denom (lc_Collateral msg))]).
Qed.
End Collateral.
