(* ===== verification/MakerSafety.v ===== *)
(** Reachable states of the maker module: the accounting invariant, the
    solvency of the module account, the supply accounting and the ordering of
    the risk parameters hold in all of them. *)

From stdpp Require Import base gmap strings list.
From Stdlib Require Import ZArith Lia.
From S2P Require Import Prelude Sdk Types MakerTypes VeTypes World MakerKeeper MakerCalc MakerMsg MakerGov MakerInv MakerEffects.

#[local] Open Scope Z_scope.

Section Safety.
Context `{!Sdk, !BankKeeper, !NftKeeper, !SdkLaws, !BankLaws}.
Implicit Types (w : World) (ctx : Ctx) (s : MakerStore).

(** ** Messages *)

(** The effect of any message, with [m] grid minted against [g - n] of new
    principal. *)
Definition msg_effect w w' : Prop :=
  (∃ d m x i, backing_effect w w' d m x i) ∨
  (∃ a d c g i n m, collateral_effect w w' a d c g i n m ∧ m ≤ g - n).

Definition is_liquidation (m : maker_msg) : bool :=
  match m with MLiquidateCollateral _ => true | _ => false end.

Definition exact_effect w w' : Prop :=
  (∃ d m x i, backing_effect w w' d m x i) ∨
  (∃ a d c g i n m, collateral_effect w w' a d c g i n m ∧ m = g - n).

Lemma fmap_snd_Ok {A} (m : outcome (A * World)) w' :
  snd <$> m = Ok w' → ∃ r, m = Ok (r, w').
Proof. destruct m as [[r w0]|e|]; simpl; intros E; try discriminate E. injection E as <-. eauto. Qed.

Lemma maker_NewHandler_exact ctx w m w' :
  maker_inv (w_maker w) → maker_ValidateBasic m = Ok tt → user_accounts m →
  maker_NewHandler ctx w m = Ok w' → is_liquidation m = false → exact_effect w w'.
Proof.
  intros I Hv Hu E Hl. destruct m as [m|m|m|m|m|m|m|m|m]; simpl in Hv, E, Hl;
    try discriminate Hl; apply fmap_snd_Ok in E as [r E].
  - left. do 4 eexists. eapply MintBySwap_effect; eauto.
  - left. do 4 eexists. eapply BurnBySwap_effect; eauto.
  - left. do 4 eexists. eapply BuyBacking_effect; eauto.
  - left. do 4 eexists. eapply SellBacking_effect; eauto.
  - right. destruct (MintByCollateral_effect _ _ _ _ _ I Hv Hu E) as (a & n & Ef).
    do 7 eexists; split; [exact Ef|lia].
  - right. destruct (BurnByCollateral_effect _ _ _ _ _ I Hu E) as (a & n & i & ? & Ef).
    do 7 eexists; split; [exact Ef|lia].
  - right. destruct r. destruct (DepositCollateral_effect _ _ _ _ I Hu E) as (a & n & Ef).
    do 7 eexists; split; [exact Ef|lia].
  - right. destruct r. destruct (RedeemCollateral_effect _ _ _ _ I Hu E) as (a & n & Ef).
    do 7 eexists; split; [exact Ef|lia].
Qed.

Lemma maker_NewHandler_effect ctx w m w' :
  maker_inv (w_maker w) → maker_ValidateBasic m = Ok tt → user_accounts m →
  maker_NewHandler ctx w m = Ok w' → msg_effect w w'.
Proof.
  intros I Hv Hu E. destruct (is_liquidation m) eqn:Hl.
  - destruct m as [| | | | | | | |m]; try discriminate Hl. right.
    apply fmap_snd_Ok in E as [r E].
    destruct (LiquidateCollateral_effect _ _ _ _ _ I Hu E) as (a & n & i & q & ? & ? & Ef).
    do 7 eexists; split; [exact Ef|lia].
  - destruct (maker_NewHandler_exact _ _ _ _ I Hv Hu E Hl) as [?|(a & d & c & g & i & n & k & Ef & ->)];
      [by left|right]. do 7 eexists; split; [exact Ef|lia].
Qed.

Lemma msg_effect_inv w w' : msg_effect w w' → maker_inv (w_maker w) → maker_inv (w_maker w').
Proof.
  intros [(d & m & x & i & [Hs _ _ _])|(a & d & c & g & i & n & m & [Hs _ _ _] & _)];
    [exact (backing_store_inv _ _ _ _ _ _ Hs)|exact (collateral_store_inv _ _ _ _ _ _ _ _ Hs)].
Qed.

Lemma msg_effect_slack w w' d : msg_effect w w' → slack w' d = slack w d.
Proof.
  intros [(d' & m & x & i & Ef)|(a & d' & c & g & i & n & m & Ef & _)];
    [exact (backing_effect_slack _ _ _ _ _ _ _ Ef)|exact (collateral_effect_slack _ _ _ _ _ _ _ _ _ _ Ef)].
Qed.

(** ** Governance *)

(** The registered risk parameters of a collateral are all present, are
    ratios, and are ordered. *)
Definition is_ratio (x : Dec) : Prop := 0 ≤ x ≤ OneDec.

Definition collateral_params_ok (p : CollateralRiskParams) : Prop :=
  ∃ threshold ltv basic ratio liqFee mintFee interest,
    crp_LiquidationThreshold p = Some threshold ∧ crp_LoanToValue p = Some ltv ∧
    crp_BasicLoanToValue p = Some basic ∧ crp_CatalyticIronRatio p = Some ratio ∧
    crp_LiquidationFee p = Some liqFee ∧ crp_MintFee p = Some mintFee ∧
    crp_InterestFee p = Some interest ∧
    0 ≤ basic ≤ ltv ∧ ltv < threshold ≤ OneDec ∧
    is_ratio ratio ∧ is_ratio liqFee ∧ is_ratio mintFee ∧ is_ratio interest.

Definition backing_params_ok (p : BackingRiskParams) : Prop :=
  ∃ mintFee burnFee buybackFee rebackFee,
    brp_MintFee p = Some mintFee ∧ brp_BurnFee p = Some burnFee ∧
    brp_BuybackFee p = Some buybackFee ∧ brp_RebackFee p = Some rebackFee ∧
    is_ratio mintFee ∧ is_ratio burnFee ∧ is_ratio buybackFee ∧ is_ratio rebackFee.

Record gov_inv s : Prop := {
  gov_b d p : ms_BackingParams s !! d = Some p → backing_params_ok p;
  gov_c d p : ms_CollateralParams s !! d = Some p → collateral_params_ok p;
}.

Lemma not_ratio_spec v : not_ratio (Some v) = false → is_ratio v.
Proof. unfold not_ratio, is_ratio. intros E. zbool. lia. Qed.

Lemma or_default_ratio p v x :
  not_ratio p = false → is_ratio v → or_default p v = Some x → is_ratio x.
Proof. unfold or_default. destruct p; intros E ? [= <-]; [by apply not_ratio_spec|done]. Qed.

Lemma updateDecimal_Ok target patch x u :
  updateDecimal target patch = Ok (x, u) →
  (x = target ∧ patch = None) ∨ (∃ v, x = Some v ∧ patch = Some v).
Proof.
  unfold updateDecimal. destruct patch as [v|]; intros E; inv_ok E; simplify_eq; eauto.
Qed.

(** The invariant reads the books and which denominations are registered. *)
Definition books s :=
  (ms_BackingTotal s, ms_CollateralTotal s, ms_BackingPool s, ms_CollateralPool s,
   ms_CollateralAccount s).

Definition same_reg s s' : Prop :=
  (∀ d, is_Some (ms_BackingParams s' !! d) ↔ is_Some (ms_BackingParams s !! d)) ∧
  (∀ d, is_Some (ms_CollateralParams s' !! d) ↔ is_Some (ms_CollateralParams s !! d)) ∧
  (∀ d p, ms_BackingParams s' !! d = Some p → brp_BackingDenom p = d) ∧
  (∀ d p, ms_CollateralParams s' !! d = Some p → crp_CollateralDenom p = d).

Lemma maker_inv_books s s' :
  books s' = books s → same_reg s s' → maker_inv s → maker_inv s'.
Proof.
  intros [= Et Ec Ep Eq Ea] (Hb & Hc & Hbk & Hck) I.
  constructor; unfold total_or, ctotal_or, acc_sum; rewrite ?Et, ?Ec, ?Ep, ?Eq, ?Ea;
    try apply I; try done.
  - intros d. rewrite Hb. apply I.
  - intros d. rewrite Hc. apply I.
Qed.

Lemma obligation_books s s' d : books s' = books s → obligation s' d = obligation s d.
Proof. intros [= Et Ec Ep Eq Ea]. unfold obligation. by rewrite Ec, Ep, Eq. Qed.

(** What a proposal may do: the bank and what the module owes stay, and the
    invariants are kept. *)
Record gov_effect w w' : Prop := {
  ge_bank : w_bank w' = w_bank w;
  ge_params : ms_Params (w_maker w') = ms_Params (w_maker w);
  ge_ratio : ms_BackingRatio (w_maker w') = ms_BackingRatio (w_maker w);
  ge_owed d : maker_inv (w_maker w) → obligation (w_maker w') d = obligation (w_maker w) d;
  ge_inv : maker_inv (w_maker w) → maker_inv (w_maker w');
  ge_gov : maker_inv (w_maker w) → gov_inv (w_maker w) → gov_inv (w_maker w');
}.

Lemma gov_effect_refl w : gov_effect w w.
Proof. by constructor. Qed.

Lemma gov_effect_trans w1 w2 w3 : gov_effect w1 w2 → gov_effect w2 w3 → gov_effect w1 w3.
Proof.
  intros [B1 P1 R1 O1 I1 G1] [B2 P2 R2 O2 I2 G2]. constructor; try congruence; auto.
  intros d I. rewrite O2, O1; auto.
Qed.

Lemma updated_ratio target patch x u v :
  updateDecimal target patch = Ok (x, u) → not_ratio patch = false →
  target = Some v → is_ratio v → ∃ v', x = Some v' ∧ is_ratio v'.
Proof.
  intros [[-> _]|(v' & -> & ->)]%updateDecimal_Ok Hp Ht Hv; [eauto|].
  eauto using not_ratio_spec.
Qed.

Lemma set_backing_gov w patch w' :
  proposal_validateBackingRiskParams patch = Ok tt →
  setBackingRiskParamsProposal w patch = Ok w' → gov_effect w w'.
Proof.
  intros Hv E. unfold setBackingRiskParamsProposal in E. inv_ok E; simplify_eq;
    [|apply gov_effect_refl].
  unfold proposal_validateBackingRiskParams in Hv. inv_ok Hv.
  unfold GetBackingRiskParams in O.
  constructor; try done.
  - intros I. pose proof (inv_bkey _ I _ _ O) as Hk.
    apply (maker_inv_books (w_maker w)); [done|split_and!; try done; try apply I|done]; simpl.
    + intros d. apply is_Some_insert_present. rewrite Hk; eauto.
    + intros d p. rewrite lookup_insert. case_decide; [by intros [= <-]|apply I].
  - intros I [Gb Gc]. constructor; [|done]. intros d p. simpl.
    rewrite lookup_insert. case_decide; [intros [= <-]|apply Gb].
    destruct (Gb _ _ O) as (? & ? & ? & ? & ? & ? & ? & ? & ? & ? & ? & ?).
    eapply updated_ratio in E2 as (? & -> & ?); [|eassumption..].
    eapply updated_ratio in E3 as (? & -> & ?); [|eassumption..].
    eapply updated_ratio in E4 as (? & -> & ?); [|eassumption..].
    eapply updated_ratio in E5 as (? & -> & ?); [|eassumption..].
    do 4 eexists. split_and!; done.
Qed.

Lemma set_collateral_gov w patch w' :
  proposal_validateCollateralRiskParams patch = Ok tt →
  setCollateralRiskParamsProposal w patch = Ok w' → gov_effect w w'.
Proof.
  intros Hv E. unfold setCollateralRiskParamsProposal in E. inv_ok E; simplify_eq;
    [|apply gov_effect_refl].
  unfold proposal_validateCollateralRiskParams in Hv. inv_ok Hv.
  unfold GetCollateralRiskParams in O.
  constructor; try done.
  - intros I. pose proof (inv_ckey _ I _ _ O) as Hk.
    apply (maker_inv_books (w_maker w)); [done|split_and!; try done; try apply I|done]; simpl.
    + intros d. apply is_Some_insert_present. rewrite Hk; eauto.
    + intros d p. rewrite lookup_insert. case_decide; [by intros [= <-]|apply I].
  - intros I [Gb Gc]. constructor; [done|]. intros d p. simpl.
    rewrite lookup_insert. case_decide; [intros [= <-]|apply Gc].
    destruct (Gc _ _ O) as (x1 & x2 & x3 & ? & ? & ? & ? & ? & ? & ? & ? & ? & ? & ? & ? & ? & ? & ? & ? & ?).
    assert (is_ratio x1 ∧ is_ratio x2 ∧ is_ratio x3) as (? & ? & ?) by (unfold is_ratio; lia).
    eapply updated_ratio in E2 as (? & -> & ?); [|eassumption..].
    eapply updated_ratio in E3 as (? & -> & ?); [|eassumption..].
    eapply updated_ratio in E4 as (? & -> & ?); [|eassumption..].
    eapply updated_ratio in E5 as (? & -> & ?); [|eassumption..].
    eapply updated_ratio in E6 as (? & -> & ?); [|eassumption..].
    eapply updated_ratio in E7 as (? & -> & ?); [|eassumption..].
    eapply updated_ratio in E8 as (? & -> & ?); [|eassumption..].
    unfold validateCollateralRiskParams in E9. simpl in E9. inv_ok E9. zbool.
    do 7 eexists. unfold is_ratio in *. split_and!; try done; simplify_eq; lia.
Qed.

(** Registering a denomination adds an empty pool, and the total when it is the
    first. *)
Definition empty_bpool (d : string) : PoolBacking :=
  mkPoolBacking (mkCoin MicroUSMDenom 0) (mkCoin d 0) (mkCoin AttoIronDenom 0).
Definition empty_cpool (d : string) : PoolCollateral :=
  mkPoolCollateral (mkCoin d 0) (mkCoin MicroUSMDenom 0) (mkCoin AttoIronDenom 0).

Definition reg_backing s (p : BackingRiskParams) : MakerStore :=
  mkMakerStore (ms_Params s) (ms_BackingRatio s) (ms_BackingRatioLastBlock s)
    (<[brp_BackingDenom p := p]> (ms_BackingParams s)) (ms_CollateralParams s)
    (Some (default (mkTotalBacking 0 (mkCoin MicroUSMDenom 0) (mkCoin AttoIronDenom 0))
             (ms_BackingTotal s))) (ms_CollateralTotal s)
    (<[brp_BackingDenom p := empty_bpool (brp_BackingDenom p)]> (ms_BackingPool s))
    (ms_CollateralPool s) (ms_CollateralAccount s).

Definition reg_collateral s (p : CollateralRiskParams) : MakerStore :=
  mkMakerStore (ms_Params s) (ms_BackingRatio s) (ms_BackingRatioLastBlock s)
    (ms_BackingParams s) (<[crp_CollateralDenom p := p]> (ms_CollateralParams s))
    (ms_BackingTotal s)
    (Some (default (mkTotalCollateral (mkCoin MicroUSMDenom 0) (mkCoin AttoIronDenom 0))
             (ms_CollateralTotal s)))
    (ms_BackingPool s)
    (<[crp_CollateralDenom p := empty_cpool (crp_CollateralDenom p)]> (ms_CollateralPool s))
    (ms_CollateralAccount s).

Lemma at_key_None {K V} `{Countable K} (f : K → V → Z) (m : gmap K V) k :
  m !! k = None → at_key f m k = 0.
Proof. unfold at_key. by intros ->. Qed.

Lemma is_Some_insert_iff {V} (m : gmap string V) k v d :
  is_Some (<[k:=v]> m !! d) ↔ k = d ∨ is_Some (m !! d).
Proof. rewrite lookup_insert_is_Some'. done. Qed.

Lemma reg_backing_inv s p :
  ms_BackingPool s !! brp_BackingDenom p = None → maker_inv s → maker_inv (reg_backing s p).
Proof.
  intros Hn I. constructor; simpl; try apply I.
  - intros d q. rewrite lookup_insert. case_decide; subst; [by intros [= <-]|apply I].
  - intros t [= <-]. destruct (ms_BackingTotal s) eqn:Ht; [by apply (inv_btotal _ I)|done].
  - unfold total_or; simpl. rewrite map_sum_insert, at_key_None by done. simpl.
    rewrite Z.sub_0_r, Z.add_0_r, <- (inv_minted _ I). unfold total_or.
    by destruct (ms_BackingTotal s).
  - unfold total_or; simpl. rewrite map_sum_insert, at_key_None by done. simpl.
    rewrite Z.sub_0_r, Z.add_0_r, <- (inv_burned _ I). unfold total_or.
    by destruct (ms_BackingTotal s).
  - intros d. rewrite !is_Some_insert_iff, (inv_breg _ I). done.
  - intros d q. rewrite lookup_insert. case_decide; [by intros [= <-]|apply I].
Qed.

Lemma reg_collateral_inv s p :
  ms_CollateralPool s !! crp_CollateralDenom p = None → maker_inv s →
  maker_inv (reg_collateral s p).
Proof.
  intros Hn I. constructor; simpl; try apply I.
  - intros d q. rewrite lookup_insert. case_decide; subst; [by intros [= <-]|apply I].
  - intros t [= <-]. destruct (ms_CollateralTotal s) eqn:Ht; [by apply (inv_ctotal _ I)|done].
  - unfold ctotal_or; simpl. rewrite map_sum_insert, at_key_None by done. simpl.
    rewrite Z.sub_0_r, Z.add_0_r, <- (inv_debt _ I). unfold ctotal_or.
    by destruct (ms_CollateralTotal s).
  - unfold ctotal_or; simpl. rewrite map_sum_insert, at_key_None by done. simpl.
    rewrite Z.sub_0_r, Z.add_0_r, <- (inv_iron _ I). unfold ctotal_or.
    by destruct (ms_CollateralTotal s).
  - intros d. rewrite at_key_insert, (at_key_None _ _ _ Hn). simpl.
    rewrite at_denom_0, Z.add_0_r. apply I.
  - intros d. rewrite at_key_insert, (at_key_None _ _ _ Hn). simpl.
    rewrite at_denom_0, Z.add_0_r. apply I.
  - intros d. rewrite at_key_insert, (at_key_None _ _ _ Hn). simpl.
    rewrite at_denom_0, Z.add_0_r. apply I.
  - intros d. rewrite !is_Some_insert_iff, (inv_creg _ I). done.
  - intros d q. rewrite lookup_insert. case_decide; [by intros [= <-]|apply I].
Qed.

Lemma reg_backing_owed s p d :
  ms_BackingPool s !! brp_BackingDenom p = None →
  obligation (reg_backing s p) d = obligation s d.
Proof.
  intros Hn. unfold obligation; simpl. rewrite lookup_insert.
  case_decide; subst; [by rewrite Hn|done].
Qed.

Lemma reg_collateral_owed s p d :
  ms_CollateralPool s !! crp_CollateralDenom p = None →
  obligation (reg_collateral s p) d = obligation s d.
Proof.
  intros Hn. unfold obligation; simpl. rewrite lookup_insert.
  destruct (ms_CollateralTotal s); simpl; case_decide; subst; by rewrite ?Hn.
Qed.

Lemma unregistered_no_bpool s d :
  maker_inv s → bool_decide (is_Some (ms_BackingParams s !! d)) = false →
  ms_BackingPool s !! d = None.
Proof.
  intros I Hr. apply eq_None_not_Some. rewrite (inv_breg _ I).
  by apply bool_decide_eq_false in Hr.
Qed.

Lemma unregistered_no_cpool s d :
  maker_inv s → bool_decide (is_Some (ms_CollateralParams s !! d)) = false →
  ms_CollateralPool s !! d = None.
Proof.
  intros I Hr. apply eq_None_not_Some. rewrite (inv_creg _ I).
  by apply bool_decide_eq_false in Hr.
Qed.

Lemma HandleRegisterBackingProposal_Ok w p w' :
  HandleRegisterBackingProposal w p = Ok w' →
  bool_decide (is_Some (ms_BackingParams (w_maker w) !! brp_BackingDenom p)) = false ∧
  w_bank w' = w_bank w ∧
  w_maker w' = reg_backing (w_maker w)
    (mkBackingRiskParams (brp_BackingDenom p) (brp_Enabled p) (brp_MaxBacking p) (brp_MaxGridMint p)
      (or_default (brp_MintFee p) ZeroDec) (or_default (brp_BurnFee p) ZeroDec)
      (or_default (brp_BuybackFee p) ZeroDec) (or_default (brp_RebackFee p) ZeroDec)).
Proof.
  unfold HandleRegisterBackingProposal. intros E. inv_ok E.
  unfold GetTotalBacking in E1. simpl in E1. unfold reg_backing.
  destruct (ms_BackingTotal (w_maker w)) eqn:Ht; inv_ok E1; sdk_inv; subst; simpl;
    rewrite ?Ht; done.
Qed.

Lemma HandleRegisterCollateralProposal_Ok w p w' :
  HandleRegisterCollateralProposal w p = Ok w' →
  bool_decide (is_Some (ms_CollateralParams (w_maker w) !! crp_CollateralDenom p)) = false ∧
  w_bank w' = w_bank w ∧
  ∃ p', validateCollateralRiskParams p' = Ok tt ∧
  p' = mkCollateralRiskParams (crp_CollateralDenom p) (crp_Enabled p)
    (crp_MaxCollateral p) (crp_MaxGridMint p)
    (or_default (crp_LiquidationThreshold p) (NewDecWithPrec 70 2))
    (or_default (crp_LoanToValue p) (NewDecWithPrec 60 2))
    (or_default (crp_BasicLoanToValue p) (NewDecWithPrec 40 2))
    (or_default (crp_CatalyticIronRatio p) (NewDecWithPrec 10 2))
    (or_default (crp_LiquidationFee p) (NewDecWithPrec 10 2))
    (or_default (crp_MintFee p) (NewDecWithPrec 5 3))
    (or_default (crp_InterestFee p) (NewDecWithPrec 1 2)) ∧
  w_maker w' = reg_collateral (w_maker w) p'.
Proof.
  unfold HandleRegisterCollateralProposal. intros E. inv_ok E. destruct r.
  unfold GetTotalCollateral in E1. simpl in E1. unfold reg_collateral.
  split; [done|].
  destruct (ms_CollateralTotal (w_maker w)) eqn:Ht; inv_ok E1; sdk_inv; subst; simpl;
    (split; [done|]); eexists; (split; [exact E0|]); rewrite ?Ht; done.
Qed.

Lemma register_backing_gov w p w' :
  proposal_validateBackingRiskParams p = Ok tt →
  HandleRegisterBackingProposal w p = Ok w' → gov_effect w w'.
Proof.
  intros Hv (Hr & Hb & Hs)%HandleRegisterBackingProposal_Ok.
  unfold proposal_validateBackingRiskParams in Hv. inv_ok Hv.
  constructor; rewrite ?Hs; try done.
  - intros d I. apply reg_backing_owed. by apply unregistered_no_bpool.
  - intros I. apply reg_backing_inv; [by apply unregistered_no_bpool|done].
  - intros _ [Gb Gc]. constructor; [|done]. intros d q. simpl.
    rewrite lookup_insert. case_decide; [intros [= <-]|apply Gb].
    assert (is_ratio ZeroDec) by (unfold is_ratio, ZeroDec, OneDec, precision; lia).
    do 4 eexists. split_and!; try done; (eapply or_default_ratio; [| |done]); done.
Qed.

Lemma register_collateral_gov w p w' :
  proposal_validateCollateralRiskParams p = Ok tt →
  HandleRegisterCollateralProposal w p = Ok w' → gov_effect w w'.
Proof.
  intros Hv (Hr & Hb & p' & Hp & Ep & Hs)%HandleRegisterCollateralProposal_Ok.
  unfold proposal_validateCollateralRiskParams in Hv. inv_ok Hv.
  constructor; rewrite ?Hs; try done.
  - intros d I. apply reg_collateral_owed. subst p'. by apply unregistered_no_cpool.
  - intros I. apply reg_collateral_inv; [subst p'; by apply unregistered_no_cpool|done].
  - intros _ [Gb Gc]. constructor; [done|]. intros d q. simpl.
    rewrite lookup_insert. case_decide; [intros [= <-]|apply Gc]. subst p'.
    unfold validateCollateralRiskParams in Hp. simpl in Hp. inv_ok Hp. zbool.
    assert (∀ o n k x, not_ratio o = false → is_ratio (NewDecWithPrec n k) →
      or_default o (NewDecWithPrec n k) = Some x → is_ratio x) as Hd
      by eauto using or_default_ratio.
    do 7 eexists. split_and!; try done; simpl.
    all: try (eapply Hd; [| |done]; [done|vm_compute; split; congruence]).
Qed.

Lemma for_each_validate {A} (f : A → outcome unit) ps :
  for_each (fun _ p => f p) ps tt = Ok tt → Forall (fun p => f p = Ok tt) ps.
Proof.
  induction ps as [|p ps IH]; intros E; [constructor|].
  simpl in E. inv_ok E. destruct r. constructor; auto.
Qed.

Lemma for_each_gov {A} (v : A → outcome unit) (f : World → A → outcome World) ps w w' :
  (∀ w p w', v p = Ok tt → f w p = Ok w' → gov_effect w w') →
  Forall (fun p => v p = Ok tt) ps → for_each f ps w = Ok w' → gov_effect w w'.
Proof.
  intros Hf. revert w. induction ps as [|p ps IH]; intros w Hv E; simpl in E.
  - injection E as <-. apply gov_effect_refl.
  - inv_ok E. apply Forall_cons in Hv as [Hp Hv]. eapply gov_effect_trans; eauto.
Qed.

Lemma maker_NewProposalHandler_effect w p w' :
  maker_proposal_ValidateBasic p = Ok tt → maker_NewProposalHandler w p = Ok w' → gov_effect w w'.
Proof.
  destruct p as [p|p|p|p|ps|ps]; simpl; intros Hv E.
  - eauto using register_backing_gov.
  - eauto using register_collateral_gov.
  - eauto using set_backing_gov.
  - eauto using set_collateral_gov.
  - eapply for_each_gov, E; [apply set_backing_gov|]. by apply for_each_validate.
  - eapply for_each_gov, E; [apply set_collateral_gov|]. by apply for_each_validate.
Qed.

(** ** End of block *)

(** The end blocker touches only the ratio and its block. *)
Lemma AdjustBackingRatio_frame ctx w w' :
  AdjustBackingRatio ctx w = Ok w' →
  w_bank w' = w_bank w ∧ books (w_maker w') = books (w_maker w) ∧
  ms_Params (w_maker w') = ms_Params (w_maker w) ∧
  ms_BackingParams (w_maker w') = ms_BackingParams (w_maker w) ∧
  ms_CollateralParams (w_maker w') = ms_CollateralParams (w_maker w).
Proof.
  intros E. unfold AdjustBackingRatio in E. inv_ok E; try (by subst).
  destruct (GetExchangeRate w MicroUSMDenom) as [price| |]; [|discriminate..].
  inv_ok E. unfold SetBackingRatioLastBlock in E. inv_ok E. by subst w'.
Qed.

(** The ratio moves by at most one step, within [0, 1]. *)
Lemma AdjustBackingRatio_ratio ctx w w' :
  AdjustBackingRatio ctx w = Ok w' → 0 ≤ BackingRatioStep w → is_ratio (GetBackingRatio w) →
  is_ratio (GetBackingRatio w') ∧
  Z.abs (GetBackingRatio w' - GetBackingRatio w) ≤ BackingRatioStep w.
Proof.
  intros E Hs Hr. unfold AdjustBackingRatio in E. inv_ok E; zbool;
    try (subst; split_and!; try done; lia).
  destruct (GetExchangeRate w MicroUSMDenom) as [price| |]; [|discriminate..].
  inv_ok E. unfold SetBackingRatioLastBlock in E. inv_ok E.
  assert (is_ratio r1 ∧ Z.abs (r1 - GetBackingRatio w) ≤ BackingRatioStep w) as [? ?].
  { unfold is_ratio, ZeroDec in *. inv_ok E2; try inv_ok E1; sdk_inv; lia. }
  subst w'. done.
Qed.

(** ** Reachable states *)

Definition empty_store s : Prop :=
  books s = (None, None, ∅, ∅, ∅) ∧ ms_BackingParams s = ∅ ∧ ms_CollateralParams s = ∅.

(** What the validators of the parameter subspace accept. *)
Definition params_valid (p : MakerParams) : Prop :=
  validateBackingRatioStep (mp_BackingRatioStep p) = Ok tt ∧
  validateBackingRatioPriceBand (mp_BackingRatioPriceBand p) = Ok tt ∧
  validateBackingRatioCooldownPeriod (mp_BackingRatioCooldownPeriod p) = Ok tt ∧
  validateMintBurnPriceBias (mp_MintPriceBias p) = Ok tt ∧
  validateMintBurnPriceBias (mp_BurnPriceBias p) = Ok tt ∧
  validateRebackBonus (mp_RebackBonus p) = Ok tt ∧
  validateLiquidationCommissionFee (mp_LiquidationCommissionFee p) = Ok tt.

(** What the rest of the chain does between two transitions of the module: it
    moves coins, but never out of the module account, updates the oracle, and
    changes the module's parameters by governance. *)
Definition other_step w w' : Prop :=
  (∃ p, params_valid p ∧ w_maker w' = w_maker (maker_SetParams w p)) ∧
  ∀ d, mbal w d ≤ mbal w' d.

Inductive maker_reach (gs : MakerGenesisState) : World → Prop :=
| reach_genesis w :
    empty_store (w_maker w) → (∀ d, 0 ≤ mbal w d) →
    maker_GenesisState_Validate gs = Ok tt → maker_reach gs (maker_InitGenesis w gs)
| reach_step ctx w w' : maker_reach gs w → maker_step ctx w w' → maker_reach gs w'
| reach_other w w' : maker_reach gs w → other_step w w' → maker_reach gs w'.

Lemma empty_store_inv s s' :
  empty_store s → books s' = books s → ms_BackingParams s' = ms_BackingParams s →
  ms_CollateralParams s' = ms_CollateralParams s → maker_inv s' ∧ gov_inv s'.
Proof.
  intros (Hb & Hp & Hc) E Ep Ec. rewrite Hb in E. rewrite Hp in Ep. rewrite Hc in Ec.
  injection E as E1 E2 E3 E4 E5.
  split; constructor; unfold total_or, ctotal_or, acc_sum, at_key;
    rewrite ?E1, ?E2, ?E3, ?E4, ?E5, ?Ep, ?Ec; intros *;
    rewrite ?lookup_empty, ?map_sum_empty; try done; intros [? Hx]; discriminate Hx.
Qed.

Lemma empty_store_owed s d : empty_store s → obligation s d = 0.
Proof.
  intros ([= E1 E2 E3 E4 E5] & _ & _). unfold obligation. rewrite E2, E3, E4.
  rewrite !lookup_empty. simpl. by rewrite at_denom_0.
Qed.

Lemma maker_step_inv ctx w w' :
  maker_step ctx w w' → maker_inv (w_maker w) →
  maker_inv (w_maker w') ∧ (gov_inv (w_maker w) → gov_inv (w_maker w')) ∧
  ∀ d, slack w' d = slack w d.
Proof.
  intros [ctx' w0 m w1 Hv Hu E|ctx' w0 p w1 Hv E|ctx' w0 w1 E] I.
  - pose proof (maker_NewHandler_effect _ _ _ _ I Hv Hu E) as Ef.
    split_and!; [by eapply msg_effect_inv| |intros d; by apply msg_effect_slack].
    intros [Gb Gc]. destruct Ef as [(d & k & x & i & [(p & t & _ & _ & Es) _ _ _])
      |(a & d & c & g & i & n & k & [(x & p & t & b & _ & _ & _ & _ & Es) _ _ _] & _)];
      rewrite Es; by constructor.
  - destruct (maker_NewProposalHandler_effect _ _ _ Hv E) as [Hb _ _ Ho Hi Hg].
    split_and!; auto. intros d. unfold slack, mbal. rewrite Hb, Ho; done.
  - apply AdjustBackingRatio_frame in E as (Hb & Hk & Hp & Hbp & Hcp).
    split_and!.
    + apply (maker_inv_books (w_maker w0)); [done| |done].
      unfold same_reg. rewrite Hbp, Hcp. split_and!; try done; apply I.
    + intros [Gb Gc]. constructor; rewrite ?Hbp, ?Hcp; done.
    + intros d. unfold slack, mbal. by rewrite Hb, (obligation_books _ _ _ Hk).
Qed.

Lemma maker_reach_inv gs w :
  maker_reach gs w → maker_inv (w_maker w) ∧ gov_inv (w_maker w) ∧ ∀ d, 0 ≤ slack w d.
Proof.
  induction 1 as [w He Hb Hg|ctx w w' _ (I & G & S) Hs|w w' _ (I & G & S) [(p & Hp & Hm) Hb]].
  - destruct (empty_store_inv _ (w_maker (maker_InitGenesis w gs)) He) as [I G]; [done..|].
    split_and!; [done..|]. intros d. unfold slack.
    rewrite (obligation_books (w_maker w)), empty_store_owed by done.
    specialize (Hb d). unfold mbal in *. simpl. lia.
  - destruct (maker_step_inv _ _ _ Hs I) as (I' & G' & S').
    split_and!; auto. intros d. rewrite S'. apply S.
  - rewrite Hm. split_and!.
    + by apply (maker_inv_books (w_maker w)); [|split_and!; try done; apply I|].
    + destruct G. by constructor.
    + intros d. specialize (S d). specialize (Hb d). unfold slack in *. rewrite Hm.
      rewrite (obligation_books (w_maker w) _ d) by done. lia.
Qed.

(** Messages and proposals leave the parameters and the ratio alone. *)
Lemma maker_step_ratio ctx w w' :
  maker_step ctx w w' → maker_inv (w_maker w) → 0 ≤ BackingRatioStep w →
  is_ratio (GetBackingRatio w) →
  ms_Params (w_maker w') = ms_Params (w_maker w) ∧ is_ratio (GetBackingRatio w').
Proof.
  intros [ctx' w0 m w1 Hv Hu E|ctx' w0 p w1 Hv E|ctx' w0 w1 E] I Hs Hr.
  - destruct (maker_NewHandler_effect _ _ _ _ I Hv Hu E)
      as [(d & k & x & i & [(p & t & _ & _ & Es) _ _ _])
      |(a & d & c & g & i & n & k & [(x & p & t & b & _ & _ & _ & _ & Es) _ _ _] & _)];
      unfold GetBackingRatio; rewrite Es; done.
  - destruct (maker_NewProposalHandler_effect _ _ _ Hv E) as [_ Hp Hq _ _ _].
    unfold GetBackingRatio. rewrite Hp, Hq. done.
  - split; [by apply AdjustBackingRatio_frame in E as (_ & _ & ? & _)|].
    by apply (AdjustBackingRatio_ratio _ _ _ E).
Qed.

Lemma maker_reach_ratio gs w :
  maker_reach gs w → is_ratio (mg_BackingRatio gs) →
  0 ≤ BackingRatioStep w ∧ is_ratio (GetBackingRatio w).
Proof.
  intros Hw Hr. induction Hw as [w He Hb Hg|ctx w w' Hw [Hs IH] Hst|w w' _ [Hs IH] [(p & Hp & Hm) Hb]].
  - split; [|done]. unfold maker_GenesisState_Validate, maker_Params_Validate in Hg.
    inv_ok Hg. zbool. unfold BackingRatioStep. simpl. lia.
  - apply maker_reach_inv in Hw as (I & _ & _).
    destruct (maker_step_ratio _ _ _ Hst I Hs IH) as [Ep ?].
    unfold BackingRatioStep in *. by rewrite Ep.
  - unfold BackingRatioStep, GetBackingRatio in *. rewrite Hm. simpl. split; [|done].
    destruct Hp as [Hp _]. unfold validateBackingRatioStep in Hp. inv_ok Hp. zbool. lia.
Qed.
End Safety.
