(* ===== verification/MakerDemo.v ===== *)
(** A concrete chain on which the maker's theorems are applied: the reference
    SDK and bank of [SdkRef], one backing coin and one collateral coin
    registered by governance, oracle prices for all of them, and two users. *)

From stdpp Require Import base gmap strings list.
From Stdlib Require Import ZArith Lia.
From S2P Require Import Prelude Sdk SdkRef Types MakerTypes VeTypes OracleTypes GaugeTypes VestingTypes World MakerKeeper MakerCalc MakerMsg MakerGov MakerInv MakerEffects MakerSafety.

#[local] Open Scope Z_scope.
#[local] Open Scope string_scope.

Module MakerDemo.
Export SdkRef.

(** Ten million of every coin for alice and bob, registered in the supply. *)
Definition bank0 : ledger := mkLedger
  (list_to_map [(("alice", "ubusd"), 10 ^ 25); (("alice", "ubtc"), 10 ^ 25);
                (("alice", "airon"), 10 ^ 25); (("bob", "uusm"), 10 ^ 25)])
  (list_to_map [("ubusd", 10 ^ 25); ("ubtc", 10 ^ 25); ("airon", 10 ^ 25); ("uusm", 10 ^ 25)]).

Definition maker0 : MakerStore :=
  mkMakerStore maker_DefaultParams None None ∅ ∅ None None ∅ ∅ ∅.

Definition ve0 : VeStore :=
  mkVeStore AttoIronDenom None ∅ None None ∅ ∅ ∅ ∅ ∅ ∅ None None None None None ∅ ∅.

(** Prices: grid at 1.02, the backing at 1, iron at 2, the collateral at 20. *)
Definition oracle0 : OracleStore := rates_only
  (list_to_map [("uusm", NewDecWithPrec 102 2); ("ubusd", OneDec); ("airon", ToDec 2);
                ("ubtc", ToDec 20)]).

Definition pre0 : World := mkWorld bank nft maker0 oracle0 ve0
  gauge_store0 voter_store0 (vesting_store0 (mkAllocation 0 0 0 0 0 0 0)) bank0 (mkNfts ∅ ∅).

Definition gs0 : MakerGenesisState := maker_DefaultGenesis.
Definition w0 : World := maker_InitGenesis pre0 gs0.

Definition busd : BackingRiskParams :=
  mkBackingRiskParams "ubusd" true (Some (10 ^ 24)) (Some (10 ^ 24))
    (Some (NewDecWithPrec 5 3)) (Some (NewDecWithPrec 5 3)) None (Some (NewDecWithPrec 5 3)).
Definition btc : CollateralRiskParams :=
  mkCollateralRiskParams "ubtc" true None (Some (10 ^ 24)) None None None None None None None.

Definition w1 : World := ok_or w0 (maker_NewProposalHandler w0 (PRegisterBacking busd)).
Definition w2 : World := ok_or w1 (maker_NewProposalHandler w1 (PRegisterCollateral btc)).

Definition ctx1 : Ctx := mkCtx 1000 (1650000000 * 10 ^ 9).
Definition ctx2 : Ctx := mkCtx 2000 (1650006000 * 10 ^ 9).

(** Alice mints grid from a hundred thousand of the backing. *)
Definition mint1 : MsgMintBySwap :=
  mkMsgMintBySwap "alice" "" (mkCoin "ubusd" 100000) (mkCoin "airon" 0) (mkCoin "uusm" 90000) false.
Definition w3 : World := ok_or w2 (maker_NewHandler ctx1 w2 (MMintBySwap mint1)).

Definition deposit1 : MsgDepositCollateral :=
  mkMsgDepositCollateral "alice" "" (mkCoin "ubtc" 50000) (mkCoin "airon" 10000).
Definition w4 : World := ok_or w3 (maker_NewHandler ctx1 w3 (MDepositCollateral deposit1)).

Definition borrow1 : MsgMintByCollateral :=
  mkMsgMintByCollateral "alice" "" "ubtc" (mkCoin "uusm" 400000).
Definition w5 : World := ok_or w4 (maker_NewHandler ctx1 w4 (MMintByCollateral borrow1)).

Example demo_runs :
  is_ok (maker_NewProposalHandler w0 (PRegisterBacking busd)) = true ∧
  is_ok (maker_NewProposalHandler w1 (PRegisterCollateral btc)) = true ∧
  is_ok (maker_NewHandler ctx1 w2 (MMintBySwap mint1)) = true ∧
  is_ok (maker_NewHandler ctx1 w3 (MDepositCollateral deposit1)) = true ∧
  is_ok (maker_NewHandler ctx1 w4 (MMintByCollateral borrow1)) = true.
Proof. vm_compute. done. Qed.

Lemma bank0_maker d : mbal pre0 d = 0.
Proof.
  unfold mbal, bal; simpl. unfold get_bal, bank0; simpl.
  rewrite !lookup_insert_ne, lookup_empty by (intros E; discriminate E). done.
Qed.

Lemma users_alice m :
  Forall (fun s => s = "alice" ∨ s = "bob" ∨ s = "") (msg_accounts m) → user_accounts m.
Proof.
  unfold user_accounts. intros Hf. apply (Forall_impl _ _ _ Hf). intros s [->|[-> | ->]]; vm_compute; discriminate.
Qed.

Ltac users_demo := apply users_alice; simpl; rewrite ?Forall_cons, ?Forall_nil; split_and?; auto.

Lemma reach0 : maker_reach gs0 w0.
Proof.
  apply reach_genesis; [by vm_compute| |by vm_compute].
  intros d. rewrite bank0_maker. done.
Qed.

Lemma reach2 : maker_reach gs0 w2.
Proof.
  apply (reach_step _ ctx1 w1); [apply (reach_step _ ctx1 w0); [exact reach0|]|].
  - apply (step_proposal _ _ (PRegisterBacking busd)); [by vm_compute|].
    apply (is_ok_or w0). by vm_compute.
  - apply (step_proposal _ _ (PRegisterCollateral btc)); [by vm_compute|].
    apply (is_ok_or w1). by vm_compute.
Qed.

Lemma reach_msg w m d :
  maker_reach gs0 w → maker_ValidateBasic m = Ok tt → user_accounts m →
  is_ok (maker_NewHandler ctx1 w m) = true →
  maker_reach gs0 (ok_or d (maker_NewHandler ctx1 w m)).
Proof.
  intros Hw Hv Hu E. apply (reach_step _ ctx1 w); [done|].
  apply (step_msg _ _ m); try done. by apply is_ok_or.
Qed.

Lemma reach3 : maker_reach gs0 w3.
Proof. apply reach_msg; [exact reach2|by vm_compute|users_demo|by vm_compute]. Qed.
Lemma reach4 : maker_reach gs0 w4.
Proof. apply reach_msg; [exact reach3|by vm_compute|users_demo|by vm_compute]. Qed.
Lemma reach5 : maker_reach gs0 w5.
Proof. apply reach_msg; [exact reach4|by vm_compute|users_demo|by vm_compute]. Qed.
End MakerDemo.
