(* ===== verification/MakerProps.v ===== *)
(** The main theorems on the maker module's books: solvency, the accounting
    invariant, the supplies of grid and iron, the risk parameters and the
    backing ratio, each with a witness on the chain of [MakerDemo]. *)

From stdpp Require Import base gmap strings list.
From Stdlib Require Import ZArith Lia.
From S2P Require Import Prelude Sdk SdkRef Types MakerTypes VeTypes OracleTypes World MakerKeeper MakerCalc MakerMsg MakerGov MakerInv MakerEffects MakerSafety MakerDemo.

#[local] Open Scope Z_scope.

Section Props.
Context `{!Sdk, !BankKeeper, !NftKeeper, !SdkLaws, !BankLaws}.
Implicit Types (w : World) (ctx : Ctx).

(** C3. Solvency: in every state reachable from an empty module by valid user
    messages, passed proposals, end blocks and steps of the rest of the chain,
    the maker module account holds, in every denomination, at least what the
    backing pool, the collateral pool and the collateralized iron of that
    denomination record. *)
Theorem maker_solvent gs w d :
  maker_reach gs w → obligation (w_maker w) d ≤ mbal w d.
Proof.
  intros (_ & _ & S)%maker_reach_inv. specialize (S d). unfold slack in S. lia.
Qed.

(** C4. A valid user message that returns changes the module account's balance
    of every denomination by exactly the change of what the books record. *)
Theorem maker_msg_keeps_slack ctx w m w' d :
  maker_inv (w_maker w) → maker_ValidateBasic m = Ok tt → user_accounts m →
  maker_NewHandler ctx w m = Ok w' →
  mbal w' d - mbal w d = obligation (w_maker w') d - obligation (w_maker w) d.
Proof.
  intros I Hv Hu E. pose proof (msg_effect_slack _ _ d (maker_NewHandler_effect _ _ _ _ I Hv Hu E)) as S.
  unfold slack in S. lia.
Qed.

(** C5. The accounting invariant holds in every reachable state: records are
    stored under their own denominations, totals are the sums of the pools,
    pools are the sums of their accounts, no account has a negative principal,
    and pools exist exactly for registered denominations. *)
Theorem maker_books_consistent gs w : maker_reach gs w → maker_inv (w_maker w).
Proof. by intros (I & _ & _)%maker_reach_inv. Qed.

(** C6. Every message but a liquidation mints and burns exactly what it
    books: the grid supply not accounted for by the backing total or by the
    principal of a debt, and the iron supply plus the iron recorded as burned,
    do not change. *)
Theorem maker_msg_supply_exact ctx w m w' :
  maker_inv (w_maker w) → maker_ValidateBasic m = Ok tt → user_accounts m →
  maker_NewHandler ctx w m = Ok w' → is_liquidation m = false →
  grid_unaccounted w' = grid_unaccounted w ∧ iron_issued w' = iron_issued w.
Proof.
  intros I Hv Hu E Hl.
  destruct (maker_NewHandler_exact _ _ _ _ I Hv Hu E Hl)
    as [(d & k & x & i & Ef)|(a & d & c & g & i & n & k & Ef & ->)].
  - exact (backing_effect_accounted _ _ _ _ _ _ Ef).
  - destruct (collateral_effect_accounted _ _ _ _ _ _ _ _ _ Ef) as [-> ->]. lia.
Qed.

(** C7. No message, a liquidation included, leaves more grid in circulation
    than it books: the unaccounted grid supply never grows, and iron is never
    issued outside the books. *)
Theorem maker_msg_no_unbacked_grid ctx w m w' :
  maker_inv (w_maker w) → maker_ValidateBasic m = Ok tt → user_accounts m →
  maker_NewHandler ctx w m = Ok w' →
  grid_unaccounted w' ≤ grid_unaccounted w ∧ iron_issued w' = iron_issued w.
Proof.
  intros I Hv Hu E.
  destruct (maker_NewHandler_effect _ _ _ _ I Hv Hu E)
    as [(d & k & x & i & Ef)|(a & d & c & g & i & n & k & Ef & Hk)].
  - destruct (backing_effect_accounted _ _ _ _ _ _ Ef) as [-> ->]. lia.
  - destruct (collateral_effect_accounted _ _ _ _ _ _ _ _ _ Ef) as [-> ->]. lia.
Qed.

(** C8. Whatever proposals pass, every registered collateral has all its risk
    parameters, each a ratio in [0, 1], with basic loan-to-value at most
    loan-to-value and loan-to-value strictly below the liquidation threshold;
    every registered backing has all its fees, each a ratio. *)
Theorem maker_risk_params_ordered gs w : maker_reach gs w → gov_inv (w_maker w).
Proof. by intros (_ & G & _)%maker_reach_inv. Qed.

(** C9. The backing ratio of every state reachable from a genesis ratio in
    [0, 1] is in [0, 1]. *)
Theorem backing_ratio_in_range gs w :
  maker_reach gs w → is_ratio (mg_BackingRatio gs) → is_ratio (GetBackingRatio w).
Proof. intros Hw Hr. by apply (maker_reach_ratio gs). Qed.

(** The end of a block moves the ratio by at most the configured step, and
    only when the cooldown has passed since the block recorded by the last
    adjustment; an adjustment records its own block. *)
Theorem backing_ratio_step ctx w w' :
  maker_EndBlocker ctx w = Ok w' → 0 ≤ BackingRatioStep w → is_ratio (GetBackingRatio w) →
  0 ≤ BlockHeight ctx < 2 ^ 63 → 0 ≤ GetBackingRatioLastBlock w →
  Z.abs (GetBackingRatio w' - GetBackingRatio w) ≤ BackingRatioStep w ∧
  (GetBackingRatio w' ≠ GetBackingRatio w →
     BackingRatioCooldownPeriod w ≤ BlockHeight ctx - GetBackingRatioLastBlock w ∧
     GetBackingRatioLastBlock w' = BlockHeight ctx).
Proof.
  intros E Hs Hr Hh Hl. split; [by apply (AdjustBackingRatio_ratio ctx)|]. intros Hne.
  assert (GetBackingRatioLastBlock w < 2 ^ 63) by (unfold GetBackingRatioLastBlock, i64;
    pose proof (Z.mod_pos_bound (default 0 (ms_BackingRatioLastBlock (w_maker w)) + 2 ^ 63) (2 ^ 64)); lia).
  unfold maker_EndBlocker, AdjustBackingRatio in E. inv_ok E; try (by subst).
  rewrite i64_small in B by lia. zbool.
  destruct (GetExchangeRate w MicroUSMDenom) as [price| |]; [|discriminate..].
  inv_ok E. unfold SetBackingRatioLastBlock in E. inv_ok E. subst w'.
  split; [lia|]. unfold GetBackingRatioLastBlock; simpl.
  rewrite u64_small, i64_small by lia. done.
Qed.

(** When an adjustment is due and the oracle has no price for grid, the end
    blocker panics: it cannot return. *)
Theorem end_blocker_needs_price ctx w :
  BackingRatioCooldownPeriod w ≤ i64 (BlockHeight ctx - GetBackingRatioLastBlock w) →
  BackingRatioStep w ≠ 0 → dec_fits (BackingRatioPriceBand w) →
  os_ExchangeRates (w_oracle w) !! MicroUSMDenom = None →
  maker_EndBlocker ctx w = Panic.
Proof.
  intros Hc Hs Hf Hn. unfold maker_EndBlocker, AdjustBackingRatio.
  rewrite (proj2 (Z.ltb_ge _ _) Hc), (proj2 (Z.eqb_neq _ _) Hs).
  assert (is_ok (Dec_Mul MicroUSMTarget (BackingRatioPriceBand w)) = true) as Hok.
  { apply Dec_Mul_fits. unfold dec_fits, MicroUSMTarget, OneDec in *. rewrite Z.abs_mul.
    rewrite (Z.abs_eq precision) by (unfold precision; lia).
    apply Z.mul_lt_mono_pos_l; [unfold precision; lia|done]. }
  destruct (Dec_Mul _ _); try discriminate Hok. simpl.
  unfold GetExchangeRate. by rewrite Hn.
Qed.
End Props.

(** ** Witnesses *)

Module MakerPropsWitness.
Import MakerDemo.

Lemma inv2 : maker_inv (w_maker w2).
Proof. destruct (maker_reach_inv gs0 w2 reach2) as [I _]. exact I. Qed.
Lemma inv4 : maker_inv (w_maker w4).
Proof. destruct (maker_reach_inv gs0 w4 reach4) as [I _]. exact I. Qed.

(** Halfway to liquidation: the collateral price falls from 20 to one half. *)
Definition w5' : World :=
  set_oracle (rates_only (<["ubtc"%string := NewDecWithPrec 5 1]> (os_ExchangeRates oracle0))) w5.
Definition liquidate1 : MsgLiquidateCollateral :=
  mkMsgLiquidateCollateral "bob" "" "alice" (mkCoin "ubtc" 50000) (mkCoin "uusm" 100000).
Definition w6 : World := ok_or w5' (maker_NewHandler ctx2 w5' (MLiquidateCollateral liquidate1)).

Lemma w_maker_set_oracle (o : OracleStore) (w : World) : w_maker (set_oracle o w) = w_maker w.
Proof. reflexivity. Qed.

Lemma inv5' : maker_inv (w_maker w5').
Proof. unfold w5'. rewrite w_maker_set_oracle. destruct (maker_reach_inv gs0 w5 reach5) as [I _]. exact I. Qed.

Lemma maker_solvent_witness : obligation (w_maker w5) "ubtc" ≤ mbal w5 "ubtc".
Proof. exact (maker_solvent gs0 w5 "ubtc" reach5). Defined.

Lemma maker_msg_keeps_slack_witness :
  mbal w3 "ubusd" - mbal w2 "ubusd" = obligation (w_maker w3) "ubusd" - obligation (w_maker w2) "ubusd".
Proof.
  apply (maker_msg_keeps_slack ctx1 w2 (MMintBySwap mint1));
    [exact inv2|by vm_compute|users_demo|apply (is_ok_or w2); by vm_compute].
Defined.

Lemma maker_books_consistent_witness : maker_inv (w_maker w5).
Proof. exact (maker_books_consistent gs0 w5 reach5). Defined.

Lemma maker_msg_supply_exact_witness :
  grid_unaccounted w5 = grid_unaccounted w4 ∧ iron_issued w5 = iron_issued w4.
Proof.
  apply (maker_msg_supply_exact ctx1 w4 (MMintByCollateral borrow1));
    [exact inv4|by vm_compute|users_demo|apply (is_ok_or w4); by vm_compute|reflexivity].
Defined.

Lemma maker_msg_no_unbacked_grid_witness :
  grid_unaccounted w6 ≤ grid_unaccounted w5' ∧ iron_issued w6 = iron_issued w5'.
Proof.
  apply (maker_msg_no_unbacked_grid ctx2 w5' (MLiquidateCollateral liquidate1));
    [exact inv5'|by vm_compute|users_demo|apply (is_ok_or w5'); by vm_compute].
Defined.

Lemma maker_risk_params_ordered_witness : gov_inv (w_maker w5).
Proof. exact (maker_risk_params_ordered gs0 w5 reach5). Defined.

Lemma backing_ratio_in_range_witness : is_ratio (GetBackingRatio w5).
Proof. apply (backing_ratio_in_range gs0 w5 reach5). by vm_compute. Defined.

Lemma backing_ratio_step_witness :
  let w' := ok_or w2 (maker_EndBlocker ctx1 w2) in
  Z.abs (GetBackingRatio w' - GetBackingRatio w2) ≤ BackingRatioStep w2 ∧
  (GetBackingRatio w' ≠ GetBackingRatio w2 →
     BackingRatioCooldownPeriod w2 ≤ BlockHeight ctx1 - GetBackingRatioLastBlock w2 ∧
     GetBackingRatioLastBlock w' = BlockHeight ctx1).
Proof.
  apply (backing_ratio_step ctx1 w2); [apply (is_ok_or w2)|..]; by vm_compute.
Defined.

Lemma end_blocker_needs_price_witness :
  maker_EndBlocker ctx1 (set_oracle (rates_only ∅) w2) = Panic.
Proof. apply end_blocker_needs_price; by vm_compute. Defined.
End MakerPropsWitness.
