(* ===== verification/MakerValue.v ===== *)
(** What the maker's calculations give for what they take: values of swaps,
    the excess-backing bound on buybacks, and collateral limits. *)

From stdpp Require Import base gmap strings list.
From Stdlib Require Import ZArith Lia.
From S2P Require Import Prelude Sdk Types MakerTypes VeTypes OracleTypes World MakerKeeper MakerCalc MakerMsg MakerGov MakerInv MakerEffects MakerSafety.

#[local] Open Scope Z_scope.

Section Value.
Context `{!Sdk, !BankKeeper, !NftKeeper, !SdkLaws, !BankLaws}.
Implicit Types (w : World) (ctx : Ctx).

(** ** Rounded quotients *)

Lemma quoRoundUpInt_lower a b i :
  quoRoundUpInt a b = Ok i → 0 ≤ a → 0 < b → a < (i + 1) * b.
Proof.
  unfold quoRoundUpInt. intros E Ha Hb. inv_ok E.
  apply Dec_QuoRoundUp_lower in E0; [|done..]. apply Dec_RoundInt_bounds in E.
  assert (2 ≤ precision) by (unfold precision; lia).
  generalize dependent precision. intros P E0 Hr HP.
  assert (2 * (r * b) * P ≤ (2 * i + 1) * P * b * P) by (apply Z.mul_le_mono_nonneg_r; nia).
  assert (2 * b ≤ b * (P * P)) by (rewrite Z.mul_comm; apply Z.mul_le_mono_nonneg_l; nia).
  assert (a * (P * P) < (i + 1) * b * (P * P)) by lia.
  nia.
Qed.

Lemma quoTruncateInt_upper a b i :
  quoTruncateInt a b = Ok i → 0 ≤ a → 0 < b → 0 ≤ i ∧ i * b ≤ a.
Proof.
  unfold quoTruncateInt. intros E Ha Hb. inv_ok E.
  apply Dec_QuoTruncate_bounds in E0 as [? ?]; [|done..].
  apply Dec_TruncateInt_bounds in E as (? & ? & ?); [|done].
  pose proof precision_pos. split; [done|nia].
Qed.

(** ** Minting by swap *)

(** The value covered by the larger of the two inputs, from the smaller. *)
Lemma fractional_value m r b x i p :
  0 < r < precision → 0 ≤ m →
  m * r < b * precision + r →
  2 * m * (precision - r) - precision ≤ 2 * x * precision → x < (i + 1) * p →
  m ≤ b + (i + 1) * p + 1.
Proof. pose proof precision_pos. nia. Qed.

Lemma capped_value m r b c m2 :
  0 < r < precision →
  m * r < b * precision + r → m ≤ m2 → m2 * (precision - r) < c * precision + (precision - r) →
  m ≤ b + c.
Proof. pose proof precision_pos. nia. Qed.

Lemma calculateMintBySwapOut_value w bmax imax full backingIn ironIn mintOut mintFee bp ip :
  calculateMintBySwapOut w bmax imax full = Ok (backingIn, ironIn, mintOut, mintFee) →
  is_ratio (GetBackingRatio w) → 0 ≤ Amount bmax → 0 ≤ Amount imax →
  GetExchangeRate w (Denom bmax) = Ok bp → GetExchangeRate w AttoIronDenom = Ok ip →
  0 < bp → 0 < ip →
  (Amount mintOut + Amount mintFee) * precision ≤
  Amount backingIn * bp + Amount ironIn * ip + bp + ip + 1.
Proof.
  intros E Hr Hb Hi Eb Ei Hbp Hip. unfold calculateMintBySwapOut in E. inv_ok E. simplify_eq.
  rewrite Eb in E2. injection E2 as <-. rewrite Ei in E3. injection E3 as <-.
  apply Dec_MulInt_Ok in E4, E5. subst r3 r4. apply Dec_Quo_One in E9. subst r7.
  assert (0 ≤ z ∧ z ≤ Amount backingIn * bp + Amount ironIn * ip + bp + ip + 1) as [Hz0 Hz]; cycle 1.
  { apply Dec_TruncateInt_bounds in E10 as (? & ? & ?); [|done].
    sdk_inv. simpl in *. lia. }
  sdk_inv. clear - H2 E8 Hr Hb Hi Hbp Hip. unfold is_ratio, OneDec in *.
  inv_ok E8; zbool; simplify_eq; simpl; [nia|nia|..]; unfold OneDec in *; sdk_inv.
  all: pose proof (Dec_Quo_nonneg _ _ _ E ltac:(nia) ltac:(lia)).
  all: apply Dec_Quo_bounds in E; [|lia].
  all: pose proof (Dec_Quo_nonneg _ _ _ E1 ltac:(nia) ltac:(lia)).
  all: apply Dec_Quo_bounds in E1; [|lia]; split; [done|].
  - pose proof (Dec_Mul_nonneg _ _ _ E3 ltac:(done) ltac:(lia)). apply Dec_Mul_bounds in E3.
    apply quoRoundUpInt_lower in E4; [|done..].
    destruct r5; simpl.
    + inv_ok E5; [|discriminate E5]. apply orb_true_iff in H6 as [?|?]; zbool; [lia|].
      pose proof (capped_value z (GetBackingRatio w) (bp * Amount bmax) (ip * Amount imax) r1). lia.
    + pose proof (fractional_value z (GetBackingRatio w) (bp * Amount bmax) r3 r4 ip). lia.
  - pose proof (Dec_Mul_nonneg _ _ _ E2 ltac:(done) ltac:(lia)). apply Dec_Mul_bounds in E2.
    apply quoRoundUpInt_lower in E3; [|done..].
    destruct r4; simpl.
    + inv_ok E4; [|discriminate E4]. simpl in B1. apply orb_false_iff in B1 as [_ ?]. zbool.
      pose proof (capped_value z (precision - GetBackingRatio w) (ip * Amount imax)
        (bp * Amount bmax) r). lia.
    + pose proof (fractional_value z (precision - GetBackingRatio w) (ip * Amount imax) r2 r3 bp). lia.
Qed.

(** ** Burning by swap *)

Lemma calculateBurnBySwapOut_value w burnIn d backingOut ironOut burnFee bp ip :
  calculateBurnBySwapOut w burnIn d = Ok (backingOut, ironOut, burnFee) →
  is_ratio (GetBackingRatio w) →
  GetExchangeRate w d = Ok bp → GetExchangeRate w AttoIronDenom = Ok ip → 0 < bp → 0 < ip →
  Amount backingOut * bp + Amount ironOut * ip ≤
  (Amount burnIn - Amount burnFee) * precision + 1.
Proof.
  intros E Hr Eb Ei Hbp Hip. unfold calculateBurnBySwapOut in E. inv_ok E. simplify_eq.
  rewrite Eb in E2. injection E2 as <-. rewrite Ei in E3. injection E3 as <-.
  apply Coin_Sub_Ok in E5 as (_ & -> & Hf). apply Dec_Mul_ToDec in E6. subst r5. simpl in *.
  unfold MicroUSMTarget, is_ratio, OneDec in *. pose proof precision_pos as HP. sdk_inv.
  inv_ok E9; zbool; simplify_eq; simpl; unfold OneDec in *.
  - apply quoTruncateInt_upper in E as [? ?]; [lia|nia|done].
  - apply quoTruncateInt_upper in E as [? ?]; [lia|nia|done].
  - sdk_inv.
    repeat match goal with
    | E : Dec_Mul _ _ = Ok _ |- _ =>
        pose proof (Dec_Mul_nonneg _ _ _ E ltac:(nia) ltac:(lia)); apply Dec_Mul_bounds in E
    end.
    repeat match goal with
    | E : quoTruncateInt _ _ = Ok _ |- _ => apply quoTruncateInt_upper in E as [? ?]; [|done..]
    end.
    nia.
Qed.

(** ** Excess backing *)

(** The value of all backing pools, in 10^-18 units. *)
Definition rate w (d : string) : Dec := default 0 (os_ExchangeRates (w_oracle w) !! d).
Definition pool_value w (p : PoolBacking) : Dec :=
  Amount (pb_Backing p) * rate w (Denom (pb_Backing p)).
Definition backing_value w : Dec :=
  map_sum (fun _ p => pool_value w p) (ms_BackingPool (w_maker w)).

Lemma GetExchangeRate_rate w d r : GetExchangeRate w d = Ok r → rate w d = r.
Proof. unfold GetExchangeRate, rate. destruct (_ !! d); [by intros [= ->]|discriminate]. Qed.

Lemma totalBackingInUSD_value w v :
  totalBackingInUSD w = Ok v → v = Z.quot (backing_value w) precision.
Proof.
  unfold totalBackingInUSD, backing_value. rewrite <- map_sum_kv_iter. intros E. inv_ok E.
  apply Dec_TruncateInt_Ok in E. subst v. f_equal.
  revert E0. unfold GetAllPoolBacking, ZeroDec.
  assert (∀ l (acc : Z), for_each (fun acc pool =>
      backingPrice ← GetExchangeRate w (Denom (pb_Backing pool));
      v ← Dec_Mul (ToDec (Amount (pb_Backing pool))) backingPrice;
      Dec_Add acc v) l acc = Ok r → r = acc + list_sum (pool_value w) l) as Hl; [|by apply Hl].
  induction l as [|p l IH]; intros acc E; simpl in E.
  - injection E as <-. unfold list_sum; simpl. lia.
  - inv_ok E. inv_ok E0. apply GetExchangeRate_rate in E1. apply Dec_Mul_ToDec in E2.
    apply IH in E. sdk_inv. unfold list_sum, pool_value in *. simpl. lia.
Qed.

(** The backing value above what the minted grid requires. *)
Lemma getExcessBackingValue_value w e :
  getExcessBackingValue w = Ok e → 0 ≤ backing_value w → e * precision ≤ backing_value w.
Proof.
  unfold getExcessBackingValue. intros E Hv. inv_ok E.
  apply totalBackingInUSD_value in E3. sdk_inv. pose proof precision_pos.
  rewrite Z.quot_div_nonneg by lia. pose proof (Z.mul_div_le (backing_value w) precision).
  destruct (Z.ltb_spec r1 0); nia.
Qed.

(** A buyback pays the value of the iron, which is at most the excess. *)
Lemma calculateBuyBackingOut_value w ironIn d backingOut fee bp ip :
  calculateBuyBackingOut w ironIn d = Ok (backingOut, fee) →
  GetExchangeRate w d = Ok bp → GetExchangeRate w AttoIronDenom = Ok ip → 0 < bp → 0 < ip →
  0 ≤ Amount ironIn →
  ∃ e, getExcessBackingValue w = Ok e ∧ Amount ironIn * ip ≤ e * precision ∧
  ((Amount backingOut + Amount fee) * bp - Amount ironIn * ip) * precision < bp.
Proof.
  intros E Eb Ei Hbp Hip Hi. unfold calculateBuyBackingOut in E. inv_ok E. simplify_eq.
  rewrite Eb in E1. injection E1 as <-. rewrite Ei in E2. injection E2 as <-.
  apply Dec_Mul_ToDec in E4. subst. zbool. unfold ToDec in *.
  pose proof precision_pos. exists r2. split_and!; [done|lia|].
  pose proof (Dec_Quo_nonneg _ _ _ E5 ltac:(nia) ltac:(done)).
  apply Dec_Quo_bounds in E5; [|done].
  apply Dec_TruncateInt_bounds in E6 as (? & ? & ?); [|done].
  sdk_inv. simpl in *. assert (r5 * precision * bp ≤ r4 * bp) by nia. nia.
Qed.

(** A swap changes the value of the backing pools by the value of the backing
    it moves. *)
Lemma backing_effect_value w w' d m x i :
  backing_effect w w' d m x i → maker_inv (w_maker w) →
  backing_value w' = backing_value w + x * rate w d.
Proof.
  intros [(p & t & Hp & Ht & E) Ho _ _] I. unfold backing_value, pool_value, rate.
  rewrite Ho, E. simpl. rewrite map_sum_insert, (at_key_Some _ _ _ _ Hp). simpl.
  destruct (inv_bpool _ I _ _ Hp) as [-> _]. lia.
Qed.

(** ** Collateral limits *)

(** A debt within an available loan-to-value strictly below the liquidation
    threshold is below the liquidation value. *)
Lemma ltv_below_threshold v ltv threshold debt m l :
  Dec_Mul v ltv = Ok m → Dec_Mul v threshold = Ok l →
  ltv < threshold ≤ OneDec → 0 < debt → debt * precision ≤ m → 0 ≤ v → debt * precision < l.
Proof.
  intros E1%Dec_Mul_bounds E2%Dec_Mul_bounds [Hl Ht] Hd Hm Hv. unfold OneDec in *.
  assert (2 ≤ precision) by (unfold precision; lia). generalize dependent precision.
  intros P E1 E2 Ht Hm HP.
  assert (P < v) by nia. nia.
Qed.

(** The catalytic part of the loan-to-value, computed either way round, exceeds
    what the parameters allow by rounding only, when the catalytic ratio is at
    least one percent. *)
Lemma catalytic_ltv_bound q maxRatio spread x y :
  Dec_Mul q spread = Ok x ∨ Dec_Mul spread q = Ok x → Dec_Quo x maxRatio = Ok y →
  q ≤ maxRatio → 0 ≤ spread → precision ≤ 100 * maxRatio → y ≤ spread + 51.
Proof.
  intros E1 E2 Hq Hs Hr. pose proof precision_pos.
  assert (2 * x * precision ≤ 2 * q * spread + precision) as Hx
    by (destruct E1 as [E1|E1]; apply Dec_Mul_bounds in E1; lia).
  apply Dec_Quo_bounds in E2; [|lia]. nia.
Qed.

(** Parameters with a margin between loan-to-value and liquidation threshold
    that absorbs the rounding. *)
Definition ltv_margin (p : CollateralRiskParams) : Prop :=
  ∃ threshold ltv ratio, crp_LiquidationThreshold p = Some threshold ∧
  crp_LoanToValue p = Some ltv ∧ crp_CatalyticIronRatio p = Some ratio ∧
  ltv + 52 ≤ threshold ∧ precision ≤ 100 * ratio.

Lemma getAvailableCollateralParams_Ok w d p :
  getAvailableCollateralParams w d = Ok p →
  GetCollateralRiskParams w d = Some p ∧ crp_Enabled p = true.
Proof.
  unfold getAvailableCollateralParams. intros E. inv_ok E.
  zbool. by simplify_eq.
Qed.

(** After a settlement the account is settled for the block: settling again
    changes nothing. *)
Definition settled_at ctx (x : AccountCollateral) : Prop :=
  i64 (BlockHeight ctx - ac_LastSettlementBlock x) = 0.

Lemma settleInterestFee_settled_at ctx x p t apr x' p' t' :
  settleInterestFee ctx x p t apr = Ok (x', p', t') → settled_at ctx x'.
Proof.
  unfold settleInterestFee, settled_at. intros E. inv_ok E; simplify_eq; zbool; [done|].
  simpl. by rewrite Z.sub_diag.
Qed.

Lemma settleInterestFee_again ctx x p t apr :
  settled_at ctx x → settleInterestFee ctx x p t apr = Ok (x, p, t).
Proof. unfold settleInterestFee, settled_at. by intros ->. Qed.

(** The available loan-to-value [a] of a collateral value [v]: what both
    minting and redeeming compare the debt with. *)
Lemma mint_ltv_limit ctx w a d mintOut fee t p x prm :
  calculateMintByCollateral ctx w a d mintOut = Ok (fee, t, p, x) →
  GetCollateralRiskParams w d = Some prm → collateral_params_ok prm → ltv_margin prm →
  settled_at ctx x ∧
  ∃ cp ltv v m, GetExchangeRate w d = Ok cp ∧ v = Amount (ac_Collateral x) * cp ∧ 0 ≤ v ∧
  Dec_Mul v ltv = Ok m ∧ (0 < Amount (ac_GridDebt x) → Amount (ac_GridDebt x) * precision ≤ m) ∧
  (∀ threshold, crp_LiquidationThreshold prm = Some threshold → ltv < threshold ≤ OneDec).
Proof.
  intros E Hp Hok Hm. unfold calculateMintByCollateral in E. inv_ok E.
  apply getAvailableCollateralParams_Ok in E0 as [E0 _]. simplify_eq.
  destruct Hok as (th & ltv & basic & ratio & ? & ? & ? & Eth & Eltv & Eb & Er & _ & _ & _ & ? & ? & ? & _).
  destruct Hm as (th' & ltv' & ratio' & Eth' & Eltv' & Er' & Hmar & Hr). simplify_eq.
  apply deref_Ok in E14, E15. simplify_eq. apply Dec_Mul_ToDec in E11. subst r8.
  apply Dec_Quo_One in E18. subst r15. zbool. pose proof precision_pos.
  split; [by apply settleInterestFee_settled_at in E5|].
  exists r0, r13, (Amount (ac_Collateral a1) * r0), r14. simpl. split_and!; [done|done|lia|done| |].
  - intros Hpos. apply Dec_TruncateInt_pos in E19; [nia|lia].
  - intros threshold ?. simplify_eq. split; [|lia].
    inv_ok E16; zbool; [|lia]. apply deref_Ok in E. simplify_eq. sdk_inv.
    match goal with E : Dec_Mul _ _ = Ok ?z, F : Dec_Quo ?z _ = Ok _ |- _ =>
      pose proof (catalytic_ltv_bound _ _ _ _ _ (or_introl E) F ltac:(lia) ltac:(lia) Hr) end. lia.
Qed.

Lemma redeem_ltv_limit w x prm ltv m :
  maxLoanToValueForAccount w x prm = Ok (ltv, m) → collateral_params_ok prm → ltv_margin prm →
  0 < m →
  ∃ cp v, GetExchangeRate w (Denom (ac_Collateral x)) = Ok cp ∧
  v = Amount (ac_Collateral x) * cp ∧ 0 ≤ v ∧ Dec_Mul v ltv = Ok m ∧
  (∀ threshold, crp_LiquidationThreshold prm = Some threshold → ltv < threshold ≤ OneDec).
Proof.
  intros E Hok Hm Hpos. unfold maxLoanToValueForAccount in E. inv_ok E; zbool.
  { simplify_eq. unfold ZeroDec in *. lia. }
  destruct Hok as (th & lv & basic & ratio & ? & ? & ? & Eth & Eltv & Eb & Er & _ & _ & _ & ? & ? & ? & _).
  destruct Hm as (th' & ltv' & ratio' & Eth' & Eltv' & Er' & Hmar & Hr). simplify_eq.
  apply Dec_Mul_ToDec in E2. subst.
  repeat match goal with E : deref _ = Ok _ |- _ => apply deref_Ok in E end. simplify_eq.
  eexists _, _. split_and!; try done; [lia|]. intros threshold ?. simplify_eq. split; [|lia].
  sdk_inv.
  match goal with E : Dec_Mul (_ - _) _ = Ok ?z, F : Dec_Quo ?z _ = Ok _ |- _ =>
    pose proof (catalytic_ltv_bound _ _ _ _ _ (or_intror E) F ltac:(lia) ltac:(lia) Hr) end. lia.
Qed.

(** An account settled in this block whose debt is within a loan-to-value below
    the liquidation threshold cannot be liquidated in this block. *)
Lemma within_ltv_not_liquidatable ctx w msg a x prm cp ltv v m :
  AccAddressFromBech32 (lc_Debtor msg) = Ok a →
  GetAccountCollateral w a (Denom (lc_Collateral msg)) = Some x → settled_at ctx x →
  GetCollateralRiskParams w (Denom (lc_Collateral msg)) = Some prm →
  GetExchangeRate w (Denom (lc_Collateral msg)) = Ok cp →
  v = Amount (ac_Collateral x) * cp → 0 ≤ v → Dec_Mul v ltv = Ok m →
  0 < Amount (ac_GridDebt x) → Amount (ac_GridDebt x) * precision ≤ m →
  (∀ threshold, crp_LiquidationThreshold prm = Some threshold → ltv < threshold ≤ OneDec) →
  is_ok (LiquidateCollateral ctx w msg) = false.
Proof.
  intros Ha Hx Hs Hp Hcp Hv Hv0 Hm Hd Hdm Hth.
  destruct (LiquidateCollateral ctx w msg) as [[resp w']| |] eqn:E; [|done..]. exfalso.
  unfold LiquidateCollateral in E. inv_ok E.
  apply getAvailableCollateralParams_Ok in E2 as [E2 _].
  unfold getCollateral in E3. rewrite Ha in E1. injection E1 as <-. rewrite Hx in E3.
  inv_ok E3. simplify_eq. rewrite settleInterestFee_again in E5 by done. simplify_eq.
  rewrite Hcp in E6. simplify_eq. apply deref_Ok in E8.
  apply Dec_Mul_ToDec in E7, E10. subst. zbool.
  pose proof (ltv_below_threshold _ _ _ _ _ _ Hm E9 (Hth _ E8) Hd Hdm Hv0).
  unfold MicroUSMTarget, OneDec in *. lia.
Qed.
End Value.
