(* ===== verification/MakerValueProps.v ===== *)
(** Theorems on what the maker's swaps and loans give for what they take, on
    liquidation, interest and governance updates, each with a witness on the
    chain of [MakerDemo]. *)

From stdpp Require Import base gmap strings list.
From Stdlib Require Import ZArith Lia.
From S2P Require Import Prelude Sdk SdkRef Types MakerTypes VeTypes OracleTypes World MakerKeeper MakerCalc MakerMsg MakerGov MakerInv MakerEffects MakerSafety MakerDemo MakerValue.

#[local] Open Scope Z_scope.

Section ValueProps.
Context `{!Sdk, !BankKeeper, !NftKeeper, !SdkLaws, !BankLaws}.
Implicit Types (w : World) (ctx : Ctx).

Lemma getAvailableBackingParams_Ok w d p :
  getAvailableBackingParams w d = Ok p → GetBackingRiskParams w d = Some p ∧ brp_Enabled p = true.
Proof. unfold getAvailableBackingParams. intros E. inv_ok E. zbool. by simplify_eq. Qed.

Lemma over_false limit x : over limit x = false → ∀ m, limit = Some m → x ≤ m.
Proof. intros E m ->. simpl in E. zbool. lia. Qed.

Lemma capped_le max x dc d d' b :
  (if 0 <? Amount max then Coin_IsLT max (mkCoin dc x) else Ok false) = Ok b → 0 < Amount max →
  Amount (if b then mkCoin d (Amount max) else mkCoin d' x) ≤ Amount max.
Proof.
  intros E Hpos. destruct b; simpl; [lia|]. rewrite (proj2 (Z.ltb_lt _ _) Hpos) in E.
  apply Coin_IsLT_Ok in E as [_ E]. symmetry in E. simpl in E. zbool. lia.
Qed.

(** The ceilings and the caller's maxima, as the calculation enforces them. *)
Lemma calculateMintBySwapOut_limits w bmax imax full backingIn ironIn mintOut mintFee :
  calculateMintBySwapOut w bmax imax full = Ok (backingIn, ironIn, mintOut, mintFee) →
  0 ≤ Amount bmax → 0 ≤ Amount imax →
  (0 < Amount bmax → Amount backingIn ≤ Amount bmax) ∧
  (0 < Amount imax → Amount ironIn ≤ Amount imax) ∧
  ∃ prm p, GetBackingRiskParams w (Denom bmax) = Some prm ∧ brp_Enabled prm = true ∧
  GetPoolBacking w (Denom bmax) = Some p ∧
  (∀ m, brp_MaxGridMint prm = Some m →
     Amount (pb_GridMinted p) + (Amount mintOut + Amount mintFee) ≤ m) ∧
  (∀ m, brp_MaxBacking prm = Some m → Amount (pb_Backing p) + Amount backingIn ≤ m).
Proof.
  intros E Hb Hi. unfold calculateMintBySwapOut in E. inv_ok E. simplify_eq.
  apply getAvailableBackingParams_Ok in E1 as [E1 Hen].
  apply getBacking_Ok in E12 as [_ Hp]. unfold Coin_AddAmount in E13. inv_ok E13. sdk_inv.
  simpl in *. split_and!.
  - inv_ok E8; simplify_eq; simpl; try lia. eapply capped_le. eassumption.
  - inv_ok E8; simplify_eq; simpl; try lia. eapply capped_le. eassumption.
  - exists r0, p. split_and!; try done.
    + intros m Hm. pose proof (over_false _ _ G _ Hm). simpl in *. lia.
    + intros m Hm. pose proof (over_false _ _ G0 _ Hm). simpl in *. lia.
Qed.

(** A mint by swap that returns gives at least the requested minimum,
    takes at most the caller's positive maxima, uses an enabled backing, and
    leaves the pool within its grid and backing ceilings. *)
Theorem mint_by_swap_limits w msg resp w' :
  maker_inv (w_maker w) → MsgMintBySwap_ValidateBasic msg = Ok tt →
  user_accounts (MMintBySwap msg) → MintBySwap w msg = Ok (resp, w') →
  Amount (mbs_MintOutMin msg) ≤ Amount (mbsr_MintOut resp) ∧
  (0 < Amount (mbs_BackingInMax msg) →
     Amount (mbsr_BackingIn resp) ≤ Amount (mbs_BackingInMax msg)) ∧
  (0 < Amount (mbs_IronInMax msg) → Amount (mbsr_IronIn resp) ≤ Amount (mbs_IronInMax msg)) ∧
  ∃ prm p', GetBackingRiskParams w (Denom (mbs_BackingInMax msg)) = Some prm ∧
  brp_Enabled prm = true ∧ GetPoolBacking w' (Denom (mbs_BackingInMax msg)) = Some p' ∧
  (∀ m, brp_MaxGridMint prm = Some m → Amount (pb_GridMinted p') ≤ m) ∧
  (∀ m, brp_MaxBacking prm = Some m → Amount (pb_Backing p') ≤ m).
Proof.
  intros I Hv Hu E.
  destruct (MintBySwap_effect _ _ _ _ I Hu E) as [(p & t & Hp & Ht & Es) _ _ _].
  unfold MintBySwap in E. inv_ok E. subst. sdk_inv. valid_msg Hv. zbool. simpl in *.
  destruct (calculateMintBySwapOut_limits _ _ _ _ _ _ _ _ E1 ltac:(lia) ltac:(lia))
    as (Hb & Hi & prm & q & Hprm & Hen & Hp0 & Hg & Hk).
  unfold GetPoolBacking in *. rewrite Hp in Hp0. simplify_eq.
  split_and!; [lia|done|done|]. eexists prm, _. split_and!; [done|done| | |].
  - rewrite Es. simpl. by rewrite lookup_insert_eq.
  - simpl. intros m Hm. pose proof (Hg _ Hm). lia.
  - simpl. intros m Hm. pose proof (Hk _ Hm). lia.
Qed.

(** C10. Minting creates no value: the grid minted, fee included, is worth at
    its target price at most the backing and iron taken in at oracle prices,
    plus one base unit of each and one 10^-18 unit, for rounding. *)
Theorem mint_by_swap_value w msg resp w' bp ip :
  MsgMintBySwap_ValidateBasic msg = Ok tt → is_ratio (GetBackingRatio w) →
  GetExchangeRate w (Denom (mbs_BackingInMax msg)) = Ok bp →
  GetExchangeRate w AttoIronDenom = Ok ip → 0 < bp → 0 < ip →
  MintBySwap w msg = Ok (resp, w') →
  (Amount (mbsr_MintOut resp) + Amount (mbsr_MintFee resp)) * precision ≤
  Amount (mbsr_BackingIn resp) * bp + Amount (mbsr_IronIn resp) * ip + bp + ip + 1.
Proof.
  intros Hv Hr Eb Ei Hbp Hip E. unfold MintBySwap in E. inv_ok E. subst. valid_msg Hv.
  eapply calculateMintBySwapOut_value; eauto; lia.
Qed.

(** Burning pays out no more than it burns: the backing and iron paid are
    worth at oracle prices at most the grid burned net of the fee, at its
    target price, up to one 10^-18 unit of rounding. *)
Theorem burn_by_swap_value w msg resp w' bp ip :
  is_ratio (GetBackingRatio w) →
  GetExchangeRate w (Denom (bbs_BackingOutMin msg)) = Ok bp →
  GetExchangeRate w AttoIronDenom = Ok ip → 0 < bp → 0 < ip →
  BurnBySwap w msg = Ok (resp, w') →
  Amount (bbsr_BackingOut resp) * bp + Amount (bbsr_IronOut resp) * ip ≤
  (Amount (bbs_BurnIn msg) - Amount (bbsr_BurnFee resp)) * precision + 1.
Proof.
  intros Hr Eb Ei Hbp Hip E. unfold BurnBySwap in E. inv_ok E. subst.
  eapply calculateBurnBySwapOut_value; eauto.
Qed.

(** A buyback never eats into the required backing: it succeeds only when
    the value of the iron is within the excess the code computes, and the value
    of the pools falls by at most that excess, up to the value of one 10^-18
    part of a base unit of backing. *)
Theorem buy_backing_within_excess w msg resp w' bp ip :
  maker_inv (w_maker w) → MsgBuyBacking_ValidateBasic msg = Ok tt →
  user_accounts (MBuyBacking msg) →
  GetExchangeRate w (Denom (bb_BackingOutMin msg)) = Ok bp →
  GetExchangeRate w AttoIronDenom = Ok ip → 0 < bp → 0 < ip →
  BuyBacking w msg = Ok (resp, w') →
  ∃ e, getExcessBackingValue w = Ok e ∧ Amount (bb_IronIn msg) * ip ≤ e * precision ∧
  (backing_value w - backing_value w' - e * precision) * precision < bp.
Proof.
  intros I Hv Hu Eb Ei Hbp Hip E. pose proof (BuyBacking_effect _ _ _ _ I Hu E) as Ef.
  apply backing_effect_value in Ef; [|done]. rewrite (GetExchangeRate_rate _ _ _ Eb) in Ef.
  unfold BuyBacking in E. inv_ok E. subst. unfold MsgBuyBacking_ValidateBasic in Hv. inv_ok Hv. zbool.
  destruct (calculateBuyBackingOut_value _ _ _ _ _ _ _ E1 Eb Ei Hbp Hip ltac:(lia))
    as (e & He & Hle & Hlt).
  exists e. split_and!; [done|done|]. simpl in *. pose proof precision_pos. nia.
Qed.

(** The account a loan operation leaves in the store. *)
Lemma stored_account w w' a d x p t :
  w_maker w' = w_maker (SetTotalCollateral (SetPoolCollateral (SetAccountCollateral w a x) p) t) →
  Denom (ac_Collateral x) = d → GetAccountCollateral w' a d = Some x.
Proof. intros E Hd. unfold GetAccountCollateral. rewrite E. simpl. rewrite Hd. apply lookup_insert_eq. Qed.

Lemma GetExchangeRate_oracle w w' d :
  w_oracle w' = w_oracle w → GetExchangeRate w' d = GetExchangeRate w d.
Proof. intros E. unfold GetExchangeRate. by rewrite E. Qed.

Lemma MintByCollateral_stored ctx w msg resp w' a :
  maker_inv (w_maker w) → user_accounts (MMintByCollateral msg) →
  AccAddressFromBech32 (mbc_Sender msg) = Ok a →
  MintByCollateral ctx w msg = Ok (resp, w') →
  ∃ t p x, calculateMintByCollateral ctx w a (mbc_CollateralDenom msg) (mbc_MintOut msg) =
    Ok (mbcr_MintFee resp, t, p, x) ∧
  w_oracle w' = w_oracle w ∧ ms_CollateralParams (w_maker w') = ms_CollateralParams (w_maker w) ∧
  GetAccountCollateral w' a (mbc_CollateralDenom msg) = Some x.
Proof.
  intros I Hu Ha E. unfold MintByCollateral in E. inv_ok E.
  assert (s = a) as -> by (unfold getSenderReceiver in E0; rewrite Ha in E0; inv_ok E0; congruence).
  assert (Denom (ac_Collateral a0) = mbc_CollateralDenom msg) as Hd.
  { apply calculateMintByCollateral_Ok in E1
      as (x0 & ? & ? & x1 & ? & ? & ? & ? & _ & _ & Hx & (-> & _) & _ & _ & _ & -> & _).
    by apply (start_account_denoms _ _ _ _ I) in Hx as [? _]. }
  users. inv_all; simplify_eq; bank_deltas;
  match goal with D : bank_delta _ _ _ _ |- _ => destruct D as [M O' _ _] end;
  (exists t, p0, a0; split_and!; [done|exact O'|by rewrite M|exact (stored_account _ _ _ _ _ _ _ M Hd)]).
Qed.

Lemma RedeemCollateral_stored ctx w msg w' a :
  maker_inv (w_maker w) → user_accounts (MRedeemCollateral msg) →
  AccAddressFromBech32 (rc_Sender msg) = Ok a →
  RedeemCollateral ctx w msg = Ok (tt, w') →
  ∃ prm x ltv m, GetCollateralRiskParams w (Denom (rc_CollateralOut msg)) = Some prm ∧
  maxLoanToValueForAccount w x prm = Ok (ltv, m) ∧ Amount (ac_GridDebt x) * precision ≤ m ∧
  Denom (ac_Collateral x) = Denom (rc_CollateralOut msg) ∧ settled_at ctx x ∧
  w_oracle w' = w_oracle w ∧ ms_CollateralParams (w_maker w') = ms_CollateralParams (w_maker w) ∧
  GetAccountCollateral w' a (Denom (rc_CollateralOut msg)) = Some x.
Proof.
  intros I Hu Ha E. unfold RedeemCollateral in E. inv_ok E.
  assert (s = a) as -> by (unfold getSenderReceiver in E0; rewrite Ha in E0; inv_ok E0; congruence).
  apply getAvailableCollateralParams_Ok in E1 as [E1 _].
  pose proof (settleInterestFee_settled_at _ _ _ _ _ _ _ _ E4) as Hs.
  apply Coin_Sub_Ok in E5 as (Hd & -> & _).
  users. inv_all; simplify_eq; bank_deltas; zbool.
  apply Dec_Mul_ToDec in E11. subst.
  match goal with D : bank_delta _ _ _ _ |- _ => destruct D as [M O' _ _] end.
  eexists r, _, _, _. split_and!; [done|exact E10| | | |exact O'|by rewrite M|eapply (stored_account _ _ _ _ _ _ _ M)];
    simpl; done.
Qed.

(** C11. A loan is never liquidatable in the block it is taken: after a mint
    by collateral that returns, no liquidation of the borrower's account in
    that collateral returns in the same block, when the catalytic ratio is at
    least one percent and the threshold is 52 units of 10^-18 above the
    loan-to-value. *)
Theorem mint_by_collateral_not_liquidatable ctx w msg resp w' prm a x lmsg :
  maker_inv (w_maker w) → gov_inv (w_maker w) → MsgMintByCollateral_ValidateBasic msg = Ok tt →
  user_accounts (MMintByCollateral msg) → MintByCollateral ctx w msg = Ok (resp, w') →
  GetCollateralRiskParams w (mbc_CollateralDenom msg) = Some prm → ltv_margin prm →
  AccAddressFromBech32 (mbc_Sender msg) = Ok a →
  GetAccountCollateral w' a (mbc_CollateralDenom msg) = Some x → 0 < Amount (ac_GridDebt x) →
  AccAddressFromBech32 (lc_Debtor lmsg) = Ok a →
  Denom (lc_Collateral lmsg) = mbc_CollateralDenom msg →
  is_ok (LiquidateCollateral ctx w' lmsg) = false.
Proof.
  intros I G Hv Hu E Hprm Hmar Ha Hx Hpos Hdebtor Hd.
  destruct (MintByCollateral_stored _ _ _ _ _ _ I Hu Ha E) as (t & p & x' & Ec & Ho & Hp & Hx').
  rewrite Hx in Hx'. injection Hx' as <-.
  destruct (mint_ltv_limit _ _ _ _ _ _ _ _ _ _ Ec Hprm (gov_c _ G _ _ Hprm) Hmar)
    as (Hs & cp & ltv & v & m & Hcp & Hv' & Hv0 & Hm & Hlim & Hth).
  eapply within_ltv_not_liquidatable; rewrite ?Hd, ?(GetExchangeRate_oracle _ _ _ Ho); eauto.
  unfold GetCollateralRiskParams. by rewrite Hp.
Qed.

(** Redeeming collateral never makes the account liquidatable: after a
    redemption that leaves a positive debt, no liquidation of the account in
    that collateral returns in the same block, under the same margins. *)
Theorem redeem_collateral_not_liquidatable ctx w msg w' prm a x lmsg :
  maker_inv (w_maker w) → gov_inv (w_maker w) →
  user_accounts (MRedeemCollateral msg) → RedeemCollateral ctx w msg = Ok (tt, w') →
  GetCollateralRiskParams w (Denom (rc_CollateralOut msg)) = Some prm → ltv_margin prm →
  AccAddressFromBech32 (rc_Sender msg) = Ok a →
  GetAccountCollateral w' a (Denom (rc_CollateralOut msg)) = Some x → 0 < Amount (ac_GridDebt x) →
  AccAddressFromBech32 (lc_Debtor lmsg) = Ok a →
  Denom (lc_Collateral lmsg) = Denom (rc_CollateralOut msg) →
  is_ok (LiquidateCollateral ctx w' lmsg) = false.
Proof.
  intros I G Hu E Hprm Hmar Ha Hx Hpos Hdebtor Hd.
  destruct (RedeemCollateral_stored _ _ _ _ _ I Hu Ha E)
    as (prm' & x' & ltv & m & Hprm' & Hl & Hdebt & Hden & Hs & Ho & Hp & Hx').
  rewrite Hx in Hx'. injection Hx' as <-. rewrite Hprm in Hprm'. injection Hprm' as <-.
  pose proof precision_pos.
  destruct (redeem_ltv_limit _ _ _ _ _ Hl (gov_c _ G _ _ Hprm) Hmar ltac:(nia))
    as (cp & v & Hcp & Hv' & Hv0 & Hm & Hth).
  rewrite Hden in Hcp.
  eapply within_ltv_not_liquidatable; rewrite ?Hd, ?(GetExchangeRate_oracle _ _ _ Ho); eauto.
  unfold GetCollateralRiskParams. by rewrite Hp.
Qed.

(** C12. A liquidation returns only for an account whose debt, after interest
    at the rate of its collateral, has reached the liquidation value of the
    collateral, up to one unit of rounding; it takes no more collateral than the
    account has, charges the liquidator at most the stated maximum and no more
    than the price of the collateral taken, up to one 10^-18 unit.  The price is
    not negative, the liquidation fee is a ratio, and the message's amount is
    not negative. *)
Theorem liquidation_guarded ctx w msg resp w' prm apr threshold liqFee cp :
  LiquidateCollateral ctx w msg = Ok (resp, w') →
  GetCollateralRiskParams w (Denom (lc_Collateral msg)) = Some prm →
  crp_InterestFee prm = Some apr →
  crp_LiquidationThreshold prm = Some threshold → crp_LiquidationFee prm = Some liqFee →
  GetExchangeRate w (Denom (lc_Collateral msg)) = Ok cp → 0 ≤ cp → is_ratio liqFee →
  0 ≤ Amount (lc_Collateral msg) →
  ∃ a x p t p' t' x',
    AccAddressFromBech32 (lc_Debtor msg) = Ok a ∧
    GetAccountCollateral w a (Denom (lc_Collateral msg)) = Some x ∧
    GetPoolCollateral w (Denom (lc_Collateral msg)) = Some p ∧ GetTotalCollateral w = Some t ∧
    settleInterestFee ctx x p t apr = Ok (x', p', t') ∧
    2 * Amount (ac_Collateral x') * cp * threshold ≤
      (2 * Amount (ac_GridDebt x') * precision + 1) * precision ∧
    Amount (lc_Collateral msg) ≤ Amount (ac_Collateral x') ∧
    Amount (lcr_RepayIn resp) ≤ Amount (lc_RepayInMax msg) ∧
    Amount (lcr_RepayIn resp) * precision ≤ Amount (lc_Collateral msg) * cp + 1 ∧
    0 ≤ Amount (lcr_CollateralOut resp) ≤ Amount (lc_Collateral msg).
Proof.
  intros E Hprm Hapr Hth Hfee Hcp Hcp0 Hr Hc. unfold LiquidateCollateral in E. inv_ok E. subst resp.
  apply getAvailableCollateralParams_Ok in E2 as [E2 _].
  rewrite Hprm in E2. injection E2 as <-.
  apply deref_Ok in E4. rewrite Hapr in E4. injection E4 as <-. rewrite Hcp in E6. injection E6 as <-.
  apply deref_Ok in E8. rewrite Hth in E8. injection E8 as <-.
  apply deref_Ok in E11. rewrite Hfee in E11. injection E11 as <-.
  apply Dec_Mul_ToDec in E7, E10, E12. subst. apply Dec_Mul_bounds in E9. apply Dec_Quo_One in E19.
  subst. sdk_inv. cbn [Denom Amount] in *. zbool. pose proof precision_pos.
  unfold getCollateral in E3. inv_ok E3. simplify_eq.
  eexists _, _, _, _, _, _, _. split_and!; [done|done|done|done|exact E5|..]; simpl; try lia.
  - unfold MicroUSMTarget, OneDec in *. nia.
  - unfold ToDec, is_ratio, OneDec in *.
    set (amt := Amount (lc_Collateral msg)) in *.
    assert (0 ≤ amt * liqFee ≤ amt * precision) by nia.
    pose proof (Dec_Mul_nonneg _ _ _ E18 ltac:(lia) ltac:(lia)). apply Dec_Mul_bounds in E18.
    apply Dec_TruncateInt_bounds in E20 as (? & ? & ?); [|done].
    assert (0 ≤ amt * liqFee * cp) by (apply Z.mul_nonneg_nonneg; lia).
    assert ((amt * precision - amt * liqFee) * cp ≤ amt * cp * precision) by lia.
    match type of E18 with _ ≤ 2 * ?c * precision ≤ _ =>
      assert (2 * c ≤ 2 * (amt * cp) + 1) by (apply (Z.mul_le_mono_pos_r _ _ precision); lia) end.
    lia.
Qed.

(** Settling interest adds the same amount to the account's interest, its
    debt and the debts of pool and total; the amount is not negative and is
    principal times rate times elapsed blocks over the blocks of a year, to the
    nearest unit; and settling again in the same block changes nothing. *)
Theorem interest_settlement ctx x p t apr x' p' t' :
  settleInterestFee ctx x p t apr = Ok (x', p', t') → 0 ≤ apr →
  0 ≤ BlockHeight ctx - ac_LastSettlementBlock x < 2 ^ 63 → 0 ≤ principal x →
  ∃ n b, settled n b x x' p p' t t' ∧ 0 ≤ n ∧
  2 * Z.abs (n * precision * BlocksPerYear -
             principal x * apr * (BlockHeight ctx - ac_LastSettlementBlock x)) ≤
    (precision + 2) * BlocksPerYear ∧
  settleInterestFee ctx x' p' t' apr = Ok (x', p', t').
Proof.
  intros E Hapr Hh Hpr.
  pose proof (settleInterestFee_again _ _ p' t' apr (settleInterestFee_settled_at _ _ _ _ _ _ _ _ E)) as Hag.
  unfold settleInterestFee, Coin_AddAmount in E. rewrite i64_small in E by lia.
  pose proof precision_pos. assert (0 < BlocksPerYear) by reflexivity.
  inv_ok E; zbool; simplify_eq.
  - exists 0, (ac_LastSettlementBlock x'). unfold settled. rewrite !bump_0.
    split_and!; [by destruct x'|by destruct p'|by destruct t'|done|nia|done].
  - inv_all. apply Coin_Sub_Ok in E0 as (_ & -> & _). apply Dec_Mul_ToDec in E1.
    apply Dec_MulInt_Ok in E2. apply Dec_QuoInt_Ok in E3 as [_ E3]. apply Dec_RoundInt_bounds in E4.
    rewrite i64_small in E3 by (unfold BlocksPerYear, BlocksPerDay, BlocksPerHour, BlocksPerMinute; lia).
    simpl in E1. fold (principal x) in E1. subst r0 r1.
    set (k := BlockHeight ctx - ac_LastSettlementBlock x) in *.
    assert (0 ≤ principal x * apr * k) by (repeat apply Z.mul_nonneg_nonneg; lia).
    rewrite Z.quot_div_nonneg in E3 by lia.
    pose proof (Z.div_mod (principal x * apr * k) BlocksPerYear ltac:(lia)).
    pose proof (Z.mod_pos_bound (principal x * apr * k) BlocksPerYear ltac:(lia)).
    rewrite <- E3 in *. assert (0 ≤ r2) by (subst r2; apply Z.div_pos; lia).
    exists r3, (BlockHeight ctx). unfold settled, bump. sdk_inv.
    split_and!; [done|done|done|nia|nia|exact Hag].
Qed.

(** With a catalytic ratio of zero, which the proposals accept, a
    redemption returns only when it leaves no collateral value: the division by
    the ratio panics otherwise, while minting handles the zero ratio. *)
Theorem redeem_zero_ratio_needs_all ctx w msg w' prm a x cp :
  maker_inv (w_maker w) → user_accounts (MRedeemCollateral msg) →
  RedeemCollateral ctx w msg = Ok (tt, w') →
  GetCollateralRiskParams w (Denom (rc_CollateralOut msg)) = Some prm →
  crp_CatalyticIronRatio prm = Some 0 →
  AccAddressFromBech32 (rc_Sender msg) = Ok a →
  GetAccountCollateral w' a (Denom (rc_CollateralOut msg)) = Some x →
  GetExchangeRate w (Denom (rc_CollateralOut msg)) = Ok cp →
  Amount (ac_Collateral x) * cp ≤ 0.
Proof.
  intros I Hu E Hprm Hz Ha Hx Hcp.
  destruct (RedeemCollateral_stored _ _ _ _ _ I Hu Ha E)
    as (prm' & x' & ltv & m & Hprm' & Hl & _ & Hden & _ & _ & _ & Hx').
  rewrite Hx in Hx'. injection Hx' as <-. rewrite Hprm in Hprm'. injection Hprm' as <-.
  unfold maxLoanToValueForAccount in Hl. rewrite Hden, Hcp in Hl. inv_ok Hl; simplify_eq.
  - apply Dec_Mul_ToDec in E2. subst. zbool. lia.
  - apply deref_Ok in E5. rewrite Hz in E5. injection E5 as <-.
    rewrite Dec_Quo_zero in E10. discriminate E10.
Qed.

(** The burn price check ignores the burn price bias: the accessor reads
    the mint bias, so no value of the parameter changes any outcome of the
    check. *)
Theorem burn_price_bias_ignored w (b : Dec) :
  let p := maker_GetParams w in
  checkBurnPriceUpperBound
    (maker_SetParams w (mkMakerParams (mp_BackingRatioStep p) (mp_BackingRatioPriceBand p)
       (mp_BackingRatioCooldownPeriod p) (mp_MintPriceBias p) b (mp_RebackBonus p)
       (mp_LiquidationCommissionFee p))) = checkBurnPriceUpperBound w.
Proof. reflexivity. Qed.

(** A ceiling left out at registration can never be set: a proposal that
    gives one writes through a nil pointer and panics. *)
Theorem missing_ceiling_cannot_be_set w patch p v :
  GetBackingRiskParams w (brp_BackingDenom patch) = Some p →
  brp_MaxBacking p = None → brp_MaxBacking patch = Some v →
  maker_NewProposalHandler w (PSetBackingRiskParams patch) = Panic.
Proof.
  intros Hp Hn Hv. simpl. unfold HandleSetBackingRiskParamsProposal, setBackingRiskParamsProposal.
  by rewrite Hp, Hn, Hv.
Qed.
End ValueProps.

(** ** Witnesses *)

Module MakerValueWitness.
Import MakerDemo.

Lemma inv_of w : maker_reach gs0 w → maker_inv (w_maker w) ∧ gov_inv (w_maker w).
Proof. intros (I & G & _)%maker_reach_inv. done. Qed.

Lemma is_ok_unit (d : World) (m : outcome (unit * World)) :
  is_ok m = true → m = Ok (tt, (ok_or (tt, d) m).2).
Proof. by destruct m as [[[] w]| |]. Qed.

Definition mint1_resp : MsgMintBySwapResponse * World :=
  ok_or (mkMsgMintBySwapResponse (mkCoin "" 0) (mkCoin "" 0) (mkCoin "" 0) (mkCoin "" 0), w2) (MintBySwap w2 mint1).

Lemma mint1_runs : MintBySwap w2 mint1 = Ok (mint1_resp.1, mint1_resp.2).
Proof. rewrite <- surjective_pairing. apply is_ok_or. by vm_compute. Qed.

Lemma mint_by_swap_limits_witness :
  Amount (mbs_MintOutMin mint1) ≤ Amount (mbsr_MintOut mint1_resp.1).
Proof.
  apply (mint_by_swap_limits w2 mint1 mint1_resp.1 mint1_resp.2);
    [apply inv_of, reach2|by vm_compute|users_demo|exact mint1_runs].
Defined.

Lemma mint_by_swap_value_witness :
  (Amount (mbsr_MintOut mint1_resp.1) + Amount (mbsr_MintFee mint1_resp.1)) * precision ≤
  Amount (mbsr_BackingIn mint1_resp.1) * OneDec + Amount (mbsr_IronIn mint1_resp.1) * ToDec 2 +
  OneDec + ToDec 2 + 1.
Proof.
  apply (mint_by_swap_value w2 mint1 mint1_resp.1 mint1_resp.2);
    [by vm_compute..|exact mint1_runs].
Defined.

(** Grid falls to 0.98, and alice burns. *)
Definition w3b : World :=
  set_oracle (rates_only (<["uusm"%string := NewDecWithPrec 98 2]> (os_ExchangeRates oracle0))) w3.
Definition burn1 : MsgBurnBySwap :=
  mkMsgBurnBySwap "alice" "bob" (mkCoin "uusm" 5000) (mkCoin "ubusd" 4000) (mkCoin "airon" 0).
Definition burn1_resp : MsgBurnBySwapResponse * World :=
  ok_or (mkMsgBurnBySwapResponse (mkCoin "" 0) (mkCoin "" 0) (mkCoin "" 0), w3b) (BurnBySwap w3b burn1).

Lemma burn_by_swap_value_witness :
  Amount (bbsr_BackingOut burn1_resp.1) * OneDec + Amount (bbsr_IronOut burn1_resp.1) * ToDec 2 ≤
  (Amount (bbs_BurnIn burn1) - Amount (bbsr_BurnFee burn1_resp.1)) * precision + 1.
Proof.
  apply (burn_by_swap_value w3b burn1 burn1_resp.1 burn1_resp.2); [by vm_compute..|].
  rewrite <- surjective_pairing. apply is_ok_or. by vm_compute.
Defined.

(** The ratio is lowered at the end of the block, and bob's iron buys backing. *)
Definition w3c : World := ok_or w3 (maker_EndBlocker ctx1 w3).
Definition buy1 : MsgBuyBacking := mkMsgBuyBacking "alice" "" (mkCoin "airon" 100) (mkCoin "ubusd" 150).
Definition buy1_resp : MsgBuyBackingResponse * World :=
  ok_or (mkMsgBuyBackingResponse (mkCoin "" 0) (mkCoin "" 0), w3c) (BuyBacking w3c buy1).

Lemma reach3c : maker_reach gs0 w3c.
Proof.
  apply (reach_step _ ctx1 w3); [exact reach3|]. apply step_end_block.
  apply (is_ok_or w3). by vm_compute.
Qed.

Lemma buy_backing_within_excess_witness :
  ∃ e, getExcessBackingValue w3c = Ok e ∧ Amount (bb_IronIn buy1) * ToDec 2 ≤ e * precision ∧
  (backing_value w3c - backing_value buy1_resp.2 - e * precision) * precision < OneDec.
Proof.
  apply (buy_backing_within_excess w3c buy1 buy1_resp.1 buy1_resp.2 OneDec (ToDec 2));
    [apply inv_of, reach3c|by vm_compute|users_demo|by vm_compute..|].
  rewrite <- surjective_pairing. apply is_ok_or. by vm_compute.
Defined.

Definition btc' : CollateralRiskParams :=
  ok_or btc (deref (GetCollateralRiskParams w5 "ubtc")).
Lemma btc_margin : ltv_margin btc'.
Proof.
  exists (NewDecWithPrec 70 2), (NewDecWithPrec 60 2), (NewDecWithPrec 10 2). by vm_compute.
Qed.

Definition liquidate0 : MsgLiquidateCollateral :=
  mkMsgLiquidateCollateral "bob" "" "alice" (mkCoin "ubtc" 100) (mkCoin "uusm" 100000).

Definition borrow1_resp : MsgMintByCollateralResponse * World :=
  ok_or (mkMsgMintByCollateralResponse (mkCoin "" 0), w4) (MintByCollateral ctx1 w4 borrow1).
Definition acc_of (w : World) : AccountCollateral :=
  default (mkAccountCollateral "" (mkCoin "" 0) (mkCoin "" 0) (mkCoin "" 0) (mkCoin "" 0) 0)
    (GetAccountCollateral w "alice" "ubtc").

Lemma mint_by_collateral_not_liquidatable_witness :
  is_ok (LiquidateCollateral ctx1 borrow1_resp.2 liquidate0) = false.
Proof.
  apply (mint_by_collateral_not_liquidatable ctx1 w4 borrow1 borrow1_resp.1 borrow1_resp.2
    btc' "alice" (acc_of borrow1_resp.2));
    [apply inv_of, reach4|apply inv_of, reach4|by vm_compute|users_demo| |by vm_compute
    |exact btc_margin|by vm_compute..].
  rewrite <- surjective_pairing. apply is_ok_or. by vm_compute.
Defined.

Definition redeem1 : MsgRedeemCollateral :=
  mkMsgRedeemCollateral "alice" "" (mkCoin "ubtc" 1000) (mkCoin "airon" 0).
Definition redeem1_world : unit * World := ok_or (tt, w5) (RedeemCollateral ctx1 w5 redeem1).

Lemma redeem_collateral_not_liquidatable_witness :
  is_ok (LiquidateCollateral ctx1 redeem1_world.2 liquidate0) = false.
Proof.
  apply (redeem_collateral_not_liquidatable ctx1 w5 redeem1 redeem1_world.2
    btc' "alice" (acc_of redeem1_world.2));
    [apply inv_of, reach5|apply inv_of, reach5|users_demo| |by vm_compute
    |exact btc_margin|by vm_compute..].
  apply (is_ok_unit w5). by vm_compute.
Defined.

(** The collateral price falls to one half and bob liquidates. *)
Definition w5c : World :=
  set_oracle (rates_only (<["ubtc"%string := NewDecWithPrec 5 1]> (os_ExchangeRates oracle0))) w5.
Definition liquidate1 : MsgLiquidateCollateral :=
  mkMsgLiquidateCollateral "bob" "" "alice" (mkCoin "ubtc" 50000) (mkCoin "uusm" 100000).
Definition liquidate1_resp : MsgLiquidateCollateralResponse * World :=
  ok_or (mkMsgLiquidateCollateralResponse (mkCoin "" 0) (mkCoin "" 0), w5c)
    (LiquidateCollateral ctx2 w5c liquidate1).

Lemma liquidation_guarded_witness :
  ∃ a x p t p' t' x',
    AccAddressFromBech32 (lc_Debtor liquidate1) = Ok a ∧
    GetAccountCollateral w5c a (Denom (lc_Collateral liquidate1)) = Some x ∧
    GetPoolCollateral w5c (Denom (lc_Collateral liquidate1)) = Some p ∧ GetTotalCollateral w5c = Some t ∧
    settleInterestFee ctx2 x p t (default 0 (crp_InterestFee btc')) = Ok (x', p', t') ∧
    2 * Amount (ac_Collateral x') * NewDecWithPrec 5 1 * NewDecWithPrec 70 2 ≤
      (2 * Amount (ac_GridDebt x') * precision + 1) * precision ∧
    Amount (lc_Collateral liquidate1) ≤ Amount (ac_Collateral x') ∧
    Amount (lcr_RepayIn liquidate1_resp.1) ≤ Amount (lc_RepayInMax liquidate1) ∧
    Amount (lcr_RepayIn liquidate1_resp.1) * precision ≤
      Amount (lc_Collateral liquidate1) * NewDecWithPrec 5 1 + 1 ∧
    0 ≤ Amount (lcr_CollateralOut liquidate1_resp.1) ≤ Amount (lc_Collateral liquidate1).
Proof.
  apply (liquidation_guarded ctx2 w5c liquidate1 liquidate1_resp.1 liquidate1_resp.2 btc' _ _
    (NewDecWithPrec 10 2)); [|by vm_compute..].
  rewrite <- surjective_pairing. apply is_ok_or. by vm_compute.
Defined.

Definition pool5 : PoolCollateral := default (mkPoolCollateral (mkCoin "" 0) (mkCoin "" 0) (mkCoin "" 0))
  (GetPoolCollateral w5 "ubtc").
Definition total5 : TotalCollateral := default (mkTotalCollateral (mkCoin "" 0) (mkCoin "" 0))
  (GetTotalCollateral w5).
Definition settle5 : AccountCollateral * PoolCollateral * TotalCollateral :=
  ok_or (acc_of w5, pool5, total5)
    (settleInterestFee ctx2 (acc_of w5) pool5 total5 (NewDecWithPrec 1 2)).

Lemma interest_settlement_witness :
  ∃ n b, settled n b (acc_of w5) settle5.1.1 pool5 settle5.1.2 total5 settle5.2 ∧ 0 ≤ n ∧
  2 * Z.abs (n * precision * BlocksPerYear -
             principal (acc_of w5) * NewDecWithPrec 1 2 *
               (BlockHeight ctx2 - ac_LastSettlementBlock (acc_of w5))) ≤
    (precision + 2) * BlocksPerYear ∧
  settleInterestFee ctx2 settle5.1.1 settle5.1.2 settle5.2 (NewDecWithPrec 1 2) =
    Ok (settle5.1.1, settle5.1.2, settle5.2).
Proof.
  apply (interest_settlement ctx2 (acc_of w5) pool5 total5);
    [rewrite <- !surjective_pairing; apply is_ok_or; by vm_compute|by vm_compute..].
Defined.

(** Governance sets the catalytic ratio to zero; alice redeems everything. *)
Definition zero_ratio : CollateralRiskParams :=
  mkCollateralRiskParams "ubtc" true None None None None None (Some 0) None None None.
Definition w4z : World := ok_or w4 (maker_NewProposalHandler w4 (PSetCollateralRiskParams zero_ratio)).
Definition redeem_all : MsgRedeemCollateral :=
  mkMsgRedeemCollateral "alice" "" (mkCoin "ubtc" 50000) (mkCoin "airon" 10000).
Definition redeem_all_world : unit * World := ok_or (tt, w4z) (RedeemCollateral ctx1 w4z redeem_all).
Definition btc_zero : CollateralRiskParams := ok_or btc (deref (GetCollateralRiskParams w4z "ubtc")).

Lemma reach4z : maker_reach gs0 w4z.
Proof.
  apply (reach_step _ ctx1 w4); [exact reach4|].
  apply (step_proposal _ _ (PSetCollateralRiskParams zero_ratio)); [by vm_compute|].
  apply (is_ok_or w4). by vm_compute.
Qed.

Lemma redeem_zero_ratio_needs_all_witness :
  Amount (ac_Collateral (acc_of redeem_all_world.2)) * ToDec 20 ≤ 0.
Proof.
  apply (redeem_zero_ratio_needs_all ctx1 w4z redeem_all redeem_all_world.2 btc_zero "alice");
    [apply inv_of, reach4z|users_demo|apply (is_ok_unit w4z); by vm_compute|by vm_compute..].
Defined.

(** The collateral was registered without a ceiling on it; a backing too. *)
Definition dai : BackingRiskParams :=
  mkBackingRiskParams "airon" true None None None None None None.
Definition w2d : World := ok_or w2 (maker_NewProposalHandler w2 (PRegisterBacking dai)).
Definition dai_stored : BackingRiskParams := ok_or dai (deref (GetBackingRiskParams w2d "airon")).
Definition dai_patch : BackingRiskParams :=
  mkBackingRiskParams "airon" true (Some 1000) None None None None None.

Lemma missing_ceiling_cannot_be_set_witness :
  maker_NewProposalHandler w2d (PSetBackingRiskParams dai_patch) = Panic.
Proof. apply (missing_ceiling_cannot_be_set w2d dai_patch dai_stored 1000); by vm_compute. Defined.
End MakerValueWitness.
