(* ===== verification/MakerQuery.v ===== *)
(** The maker query server ([src/x/maker/keeper/grpc_query.go]): store reads
    and the estimates, which run the calculations of the handlers without
    changing the state.  A response is the tuple of its fields. *)

From stdpp Require Import base gmap strings list.
From Stdlib Require Import ZArith Lia.
From S2P Require Import Prelude Sdk SdkRef Types MakerTypes VeTypes World MakerKeeper MakerCalc MakerMsg MakerGov MakerInv MakerEffects MakerSafety MakerDemo.

#[local] Open Scope Z_scope.

Section Query.
Context `{!Sdk, !BankKeeper, !NftKeeper}.
Implicit Types (w : World) (ctx : Ctx).

(** [status.Errorf(codes.NotFound, ...)] *)
Definition ErrNotFound : error := ErrExt "grpc/not found".

Definition AllBackingRiskParams w : outcome (list BackingRiskParams) := Ok (GetAllBackingRiskParams w).
Definition AllCollateralRiskParams w : outcome (list CollateralRiskParams) :=
  Ok (GetAllCollateralRiskParams w).
Definition AllBackingPools w : outcome (list PoolBacking) := Ok (GetAllPoolBacking w).
Definition AllCollateralPools w : outcome (list PoolCollateral) := Ok (GetAllPoolCollateral w).

Definition BackingPool w (backingDenom : string) : outcome PoolBacking :=
  match GetPoolBacking w backingDenom with
  | Some pool => Ok pool
  | None => Err ErrNotFound
  end.

Definition CollateralPool w (collateralDenom : string) : outcome PoolCollateral :=
  match GetPoolCollateral w collateralDenom with
  | Some pool => Ok pool
  | None => Err ErrNotFound
  end.

Definition CollateralOfAccount ctx w (accountStr collateralDenom : string) : outcome AccountCollateral :=
  account ← AccAddressFromBech32 accountStr;
  match GetAccountCollateral w account collateralDenom with
  | Some collateral => Ok collateral
  | None =>
      fail_if negb (IsCollateralRegistered w collateralDenom) with ErrCollateralCoinNotFound ;;
      collateral ← NewCoin collateralDenom 0;
      gridDebt ← NewCoin MicroUSMDenom 0;
      ironCollateralized ← NewCoin AttoIronDenom 0;
      lastInterest ← NewCoin MicroUSMDenom 0;
      Ok (mkAccountCollateral (AccAddress_String account) collateral gridDebt
            ironCollateralized lastInterest (BlockHeight ctx))
  end.

(** A total that was never set is returned with empty coins and the computed
    value. *)
Definition query_TotalBacking w : outcome TotalBacking :=
  let total := default (mkTotalBacking 0 (mkCoin "" 0) (mkCoin "" 0)) (GetTotalBacking w) in
  totalBackingValue ← totalBackingInUSD w;
  Ok (mkTotalBacking totalBackingValue (tb_GridMinted total) (tb_IronBurned total)).

Definition query_TotalCollateral w : outcome TotalCollateral :=
  Ok (default (mkTotalCollateral (mkCoin "" 0) (mkCoin "" 0)) (GetTotalCollateral w)).

Definition query_BackingRatio w : outcome (Dec * Z) :=
  Ok (GetBackingRatio w, GetBackingRatioLastBlock w).

Definition query_Params w : outcome MakerParams := Ok (maker_GetParams w).

Definition EstimateMintBySwapIn w (mintOut : Coin) (backingDenom : string) (fullBacking : bool) :
    outcome (Coin * Coin * Coin) := calculateMintBySwapIn w mintOut backingDenom fullBacking.
Definition EstimateMintBySwapOut w (backingInMax ironInMax : Coin) (fullBacking : bool) :
    outcome (Coin * Coin * Coin * Coin) := calculateMintBySwapOut w backingInMax ironInMax fullBacking.
Definition EstimateBurnBySwapIn w (backingOutMax ironOutMax : Coin) :
    outcome (Coin * Coin * Coin * Coin) := calculateBurnBySwapIn w backingOutMax ironOutMax.
Definition EstimateBurnBySwapOut w (burnIn : Coin) (backingDenom : string) :
    outcome (Coin * Coin * Coin) := calculateBurnBySwapOut w burnIn backingDenom.
Definition EstimateBuyBackingIn w (backingOut : Coin) : outcome (Coin * Coin) :=
  calculateBuyBackingIn w backingOut.
Definition EstimateBuyBackingOut w (ironIn : Coin) (backingDenom : string) : outcome (Coin * Coin) :=
  calculateBuyBackingOut w ironIn backingDenom.
Definition EstimateSellBackingIn w (ironOut : Coin) (backingDenom : string) : outcome (Coin * Coin) :=
  calculateSellBackingIn w ironOut backingDenom.
Definition EstimateSellBackingOut w (backingIn : Coin) : outcome (Coin * Coin) :=
  calculateSellBackingOut w backingIn.
End Query.

Section QueryProps.
Context `{!Sdk, !BankKeeper, !NftKeeper, !SdkLaws, !BankLaws}.
Implicit Types (w : World) (ctx : Ctx).

(** What a query of an account shows is what a deposit starts from. *)
Lemma getCollateral_matches_query ctx w s a d t p x :
  AccAddressFromBech32 s = Ok a → maker_inv (w_maker w) →
  getCollateral ctx w a d true = Ok (t, p, x) → CollateralOfAccount ctx w s d = Ok x.
Proof.
  intros Ha I E. unfold CollateralOfAccount. rewrite Ha. simpl.
  unfold getCollateral in E. inv_ok E; simplify_eq; [done|].
  assert (IsCollateralRegistered w d = true) as ->.
  { apply bool_decide_eq_true. apply (inv_creg _ I). unfold GetPoolCollateral in *. eauto. }
  simpl. repeat match goal with
  | E : NewCoin ?d ?x = Ok _ |- context [NewCoin ?d ?x ≫= _] => rewrite E; simpl
  end. repeat f_equal; congruence.
Qed.
End QueryProps.
