(* ===== verification/OracleProps.v ===== *)
(** The properties of the oracle module, with the concrete runs that discharge
    their hypotheses. *)

From stdpp Require Import base gmap strings list.
From Stdlib Require Import ZArith Lia.
From S2P Require Import Prelude Sdk SdkRef Types MakerTypes VeTypes SdkExt SdkExtRef OracleTypes GaugeTypes VestingTypes World OracleKeeper OracleBallot OracleEnd OracleMedian OracleOrder OracleReward OracleHistory MakerDemo.

#[local] Open Scope string_scope.
#[local] Open Scope Z_scope.

(** * A concrete chain on which the oracle's theorems are applied: two bonded
    validators that commit to rates in one vote period, reveal them in the
    next, and are rewarded at its end. *)

Module OracleDemo.
Export SdkRef SdkExtRef.
#[export] Existing Instance order_up.
#[export] Existing Instance order_up_laws.

Definition obank : ledger := mkLedger
  (list_to_map [((GetModuleAddress "oracle", "uusm"), 10 ^ 12)])
  (list_to_map [("uusm", 10 ^ 13); ("ubtc", 10 ^ 13)]).

Definition ostaking : stk := mkStk
  (list_to_map [("val1", mkVal true false 60); ("val2", mkVal true false 40)]) ["val1"; "val2"] [].

Definition ochain : Chain := mkChain bank nft staking distr
  (mkWorld bank nft MakerDemo.maker0 (rates_only ∅) MakerDemo.ve0
     gauge_store0 voter_store0 (vesting_store0 (mkAllocation 0 0 0 0 0 0 0)) obank (mkNfts ∅ ∅)) ostaking [].

(** Two targets quoted by validators. *)
Definition target d : TargetParams := mkTargetParams d TARGET_SOURCE_VALIDATORS "".
Definition o1 : Chain := ok_or ochain (HandleRegisterTargetProposal ochain (target "uusm")).
Definition o2 : Chain := ok_or o1 (HandleRegisterTargetProposal o1 (target "ubtc")).

Definition hctx (h : Z) : Ctx := mkCtx h (1650000000 * 10 ^ 9 + h * 6 * 10 ^ 9).

(** The prevote and the vote of a validator that feeds its own rates. *)
Definition commit (v rates : string) : OracleMsg := OPrevote
  (mkMsgPrevote (AggregateVoteHash_String (GetAggregateVoteHash "salt" rates v)) v v).
Definition reveal (v rates : string) : OracleMsg := OVote (mkMsgVote "salt" rates v v).

Definition rates1 : string := "uusm:1.02,ubtc:20.5".
Definition rates2 : string := "uusm:1.03, ubtc:20.4".

Definition o3 : Chain := ok_or o2 (oracle_NewHandler (hctx 5) o2 (commit "val1" rates1)).
Definition o4 : Chain := ok_or o3 (oracle_NewHandler (hctx 6) o3 (commit "val2" rates2)).
Definition o5 : Chain := ok_or o4 (oracle_NewHandler (hctx 15) o4 (reveal "val1" rates1)).
Definition o6 : Chain := ok_or o5 (oracle_NewHandler (hctx 16) o5 (reveal "val2" rates2)).
Definition o7 : Chain := ok_or o6 (oracle_EndBlocker (hctx 19) o6).

Example oracle_demo_runs :
  is_ok (HandleRegisterTargetProposal ochain (target "uusm")) = true ∧
  is_ok (HandleRegisterTargetProposal o1 (target "ubtc")) = true ∧
  is_ok (oracle_NewHandler (hctx 5) o2 (commit "val1" rates1)) = true ∧
  is_ok (oracle_NewHandler (hctx 6) o3 (commit "val2" rates2)) = true ∧
  is_ok (oracle_NewHandler (hctx 15) o4 (reveal "val1" rates1)) = true ∧
  is_ok (oracle_NewHandler (hctx 16) o5 (reveal "val2" rates2)) = true ∧
  is_ok (oracle_EndBlocker (hctx 19) o6) = true.
Proof. vm_compute. done. Qed.

End OracleDemo.

(** * The properties *)

Section Props.
Context `{HS : Sdk, HL : !SdkLaws, HE : SdkExt, HEL : !SdkExtLaws, HB : BankKeeper, HBL : !BankLaws, HN : NftKeeper,
  HK : StakingKeeper, HD : DistrKeeper, HG : GoSort, HGL : !GoSortLaws HG}.
Implicit Types (c : Chain).

(** C29. The weighted median of a ballot, once sorted, is the least rate whose
    cumulated power reaches half of the total, whatever order the sort gives
    to votes of equal rate; it is one of the rates voted, the votes below and
    above it carry at most half of the power each (rounded up above), and with
    a total power of at least two it is positive when abstentions carry none. *)
Theorem weighted_median_exact pb :
  ballot_ok pb → pb ≠ [] →
  ∃ m, WeightedMedianWithAssertion (sort_Sort Less pb) = Ok m ∧ is_weighted_median pb m ∧
    2 * power_below pb m ≤ total_power pb ∧ 2 * power_above pb m ≤ total_power pb + 1 ∧
    (Forall (fun v => vt_ExchangeRate v ≤ 0 → vt_Power v = 0) pb → 2 ≤ total_power pb → 0 < m).
Proof.
  intros Hok Hne. pose proof (sort_perm Less pb) as Hp.
  pose proof (sort_sorted vt_ExchangeRate pb : sort_IsSorted Less (sort_Sort Less pb) = true) as Hs.
  assert (is_weighted_median pb (WeightedMedian (sort_Sort Less pb))) as Hm.
  { eapply is_weighted_median_perm; [exact Hp|]. apply median_sound; [by rewrite Hp| |done].
    intros E. rewrite E in Hp. by apply Permutation_nil in Hp. }
  exists (WeightedMedian (sort_Sort Less pb)). destruct (median_halves _ _ (proj1 Hok) Hm).
  unfold WeightedMedianWithAssertion. rewrite Hs. split_and!; auto. by intros; apply (median_positive pb).
Qed.

(** C30. The end of a block does not depend on the order in which the Go maps
    are visited: for any two orders, the tally of a vote period has the same
    outcome, panics included, and when both runs of the end blocker return,
    the oracle's store, the staking state, every balance and every supply are
    the same, provided the vote threshold is not negative. *)
Theorem oracle_end_deterministic (O1 O2 : MapOrder) (L1 : MapOrderLaws O1) (L2 : MapOrderLaws O2) ctx c :
  (∀ thr, threshold_votes c = Ok thr → 0 ≤ thr) →
  returned (@tally_period _ _ _ _ _ _ _ O1 c) = returned (@tally_period _ _ _ _ _ _ _ O2 c) ∧
  ∀ c1 c2, @oracle_EndBlocker _ _ _ _ _ _ _ O1 ctx c = Ok c1 →
    @oracle_EndBlocker _ _ _ _ _ _ _ O2 ctx c = Ok c2 → same_chain c1 c2.
Proof.
  intros Ht. split; [by apply tally_period_same|]. intros c1 c2 H1 H2.
  unfold oracle_EndBlocker in *. cbv zeta in *.
  apply bind_Ok in H1 as (last & El & H1). rewrite El in H2. cbn [mbind outcome_bind] in H2.
  apply bind_Ok in H1 as (d1 & E1 & H1). apply bind_Ok in H2 as (d2 & E2 & H2).
  apply bind_Ok in H1 as (slash & Es & H1). rewrite Es in H2. cbn [mbind outcome_bind] in H2.
  assert (same_chain d1 d2) as Hd.
  { destruct last; [by eapply (end_vote_period_same O1 O2)|]. injection E1 as <-. by injection E2 as <-. }
  destruct slash; [by eapply slash_same|]. injection H1 as <-. by injection H2 as <-.
Qed.

(** C31. Commit and reveal: along any history of the module, a vote that is in
    the store was revealed by a vote message of its validator whose salt and
    rates hash to what an earlier prevote message of the same validator
    committed to, in the vote period just before; its tuples are what the
    message parses to, each denomination once. *)
Theorem oracle_votes_committed `{HO : MapOrder, HOL : !MapOrderLaws HO} log c v vote :
  oracle_run log c → 0 < op_VotePeriod (os_Params (ch_oracle c)) →
  os_Votes (ch_oracle c) !! v = Some vote →
  revealed (op_VotePeriod (os_Params (ch_oracle c))) log v vote ∧
  NoDup (ert_Denom <$> av_ExchangeRateTuples vote).
Proof.
  intros Hr Hvp Hv. pose proof (proj2 (run_history _ _ Hvp Hr) _ _ Hv) as H. split; [done|].
  destruct H as (l1 & l2 & l3 & h & m & h0 & e0 & _ & _ & _ & _ & Hp & _).
  by apply ParseExchangeRateTuples_spec in Hp as [Hn _].
Qed.

(** C32. The rewards of a period move coins from the oracle's account to the
    distribution module only, and never more than the account holds, when
    weights are not negative and the vote period is within the distribution
    window. *)
Theorem oracle_rewards_within_pool `{HO : MapOrder, HOL : !MapOrderLaws HO} c vp window targets claims c' :
  weights_ok claims → 0 ≤ vp ≤ window → 0 < window →
  RewardBallotWinners c vp window targets claims = Ok c' →
  ∀ d, 0 ≤ pool c d →
    0 ≤ pool c' d ≤ pool c d ∧ supply (w_bank (ch_world c')) d = supply (w_bank (ch_world c)) d ∧
    ∀ a, bal (w_bank (ch_world c')) a d - bal (w_bank (ch_world c)) a d =
      if_addr a (GetModuleAddress distribution_ModuleName) (pool c d - pool c' d)
      - if_addr a (GetModuleAddress oracle_ModuleName) (pool c d - pool c' d).
Proof.
  intros Hw Hv Hwin E d Hp. apply reward_effect in E as (_ & _ & E); [|done].
  destruct (E d) as [Hs Hb]. pose proof (paid_bound c vp window targets claims d Hw Hv Hwin Hp) as Hpd.
  assert (pool c' d = pool c d - paid c vp window targets claims d) as Epool.
  { unfold pool. rewrite Hb. unfold if_addr. rewrite decide_True by done.
    rewrite decide_False; [lia|]. intros Ea%GetModuleAddress_inj. discriminate Ea. }
  rewrite Epool. split_and!; [lia|lia|done|]. intros a. rewrite Hb.
  replace (pool c d - (pool c d - paid c vp window targets claims d)) with (paid c vp window targets claims d) by lia.
  lia.
Qed.

(** A validator over the limit of misses whose record is gone from the staking
    module stops the end of the slash window: the end blocker cannot return. *)
Theorem oracle_slash_needs_validator `{!StakingKeepsGone} ctx c op miss n c' :
  window_periods (os_Params (ch_oracle c)) = Ok n → i64 n ≠ 0 →
  os_MissCounters (ch_oracle c) !! op = Some miss → below_min (os_Params (ch_oracle c)) n miss →
  Validator (ch_staking c) op = None → SlashAndResetMissCounters ctx c ≠ Ok c'.
Proof.
  intros Ew Hn Hm Hb Hv. rewrite slash_all, Ew. cbn [mbind outcome_bind]. intros E.
  apply bind_Ok in E as (stk & E & _). revert E. apply (slash_loop_gone _ _ _ _ _ op miss); try done.
  unfold IterateMissCounters. rewrite val_iter_perm. by apply elem_of_map_to_list.
Qed.
End Props.

Module OraclePropsWitness.
Import OracleDemo.

Definition ballot0 : ExchangeRateBallot :=
  [mkVoteForTally (ToDec 3) "uusm" "val1" 30; mkVoteForTally (ToDec 1) "uusm" "val2" 20;
   mkVoteForTally 0 "uusm" "val3" 0; mkVoteForTally (ToDec 3) "uusm" "val4" 10].

Lemma weighted_median_exact_witness :
  ∃ m, WeightedMedianWithAssertion (sort_Sort Less ballot0) = Ok m ∧ is_weighted_median ballot0 m ∧
    2 * power_below ballot0 m ≤ total_power ballot0 ∧ 2 * power_above ballot0 m ≤ total_power ballot0 + 1 ∧
    (Forall (fun v => vt_ExchangeRate v ≤ 0 → vt_Power v = 0) ballot0 → 2 ≤ total_power ballot0 → 0 < m).
Proof.
  apply (weighted_median_exact ballot0); [|discriminate].
  split; [|vm_compute; done]. repeat constructor; simpl; lia.
Defined.

(** A total power of one: the abstention at the head of the ballot decides. *)
Example median_of_power_one :
  WeightedMedian [mkVoteForTally 0 "uusm" "val1" 0; mkVoteForTally (ToDec 1) "uusm" "val2" 1] = 0.
Proof. reflexivity. Qed.

Lemma threshold_o6 thr : threshold_votes o6 = Ok thr → 0 ≤ thr.
Proof.
  assert (threshold_votes o6 = Ok 50) as -> by (vm_compute; reflexivity).
  intros E. injection E as <-. lia.
Qed.

Lemma oracle_end_deterministic_witness :
  returned (@tally_period _ _ _ _ _ _ _ order_up o6) = returned (@tally_period _ _ _ _ _ _ _ order_down o6) ∧
  ∀ c1 c2, @oracle_EndBlocker _ _ _ _ _ _ _ order_up (hctx 19) o6 = Ok c1 →
    @oracle_EndBlocker _ _ _ _ _ _ _ order_down (hctx 19) o6 = Ok c2 → same_chain c1 c2.
Proof.
  exact (oracle_end_deterministic order_up order_down order_up_laws order_down_laws (hctx 19) o6 threshold_o6).
Defined.

Definition log6 : list (Z * OracleMsg) :=
  [(16, reveal "val2" rates2); (15, reveal "val1" rates1); (6, commit "val2" rates2); (5, commit "val1" rates1)].

Lemma run_o6 : oracle_run log6 o6.
Proof.
  assert (∀ ctx c m, is_ok (oracle_NewHandler ctx c m) = true →
    oracle_NewHandler ctx c m = Ok (ok_or c (oracle_NewHandler ctx c m))) as Hok
    by (intros; by apply is_ok_or).
  apply (run_msg _ o5 (hctx 16)); [|vm_compute; split; congruence|apply Hok; by vm_compute].
  apply (run_msg _ o4 (hctx 15)); [|vm_compute; split; congruence|apply Hok; by vm_compute].
  apply (run_msg _ o3 (hctx 6)); [|vm_compute; split; congruence|apply Hok; by vm_compute].
  apply (run_msg _ o2 (hctx 5)); [|vm_compute; split; congruence|apply Hok; by vm_compute].
  apply run_start; vm_compute; reflexivity.
Qed.

Definition vote1 : AggregateVote :=
  mkVote [mkTuple "uusm" (NewDecWithPrec 102 2); mkTuple "ubtc" (NewDecWithPrec 205 1)] "val1".

Lemma oracle_votes_committed_witness :
  revealed (op_VotePeriod (os_Params (ch_oracle o6))) log6 "val1" vote1 ∧
  NoDup (ert_Denom <$> av_ExchangeRateTuples vote1).
Proof.
  apply (oracle_votes_committed log6 o6 "val1" vote1 run_o6); [|]; by vm_compute.
Defined.

Definition claims0 : gmap string Claim :=
  list_to_map [("val1", mkClaim 60 120 2 "val1"); ("val2", mkClaim 40 40 1 "val2")].
Definition targets0 : gmap string unit := list_to_map [("uusm", tt); ("ubtc", tt)].
Definition rewarded : Chain := ok_or o6 (RewardBallotWinners o6 10 1000 targets0 claims0).

Lemma oracle_rewards_within_pool_witness :
  0 ≤ pool rewarded "uusm" ≤ pool o6 "uusm" ∧
  supply (w_bank (ch_world rewarded)) "uusm" = supply (w_bank (ch_world o6)) "uusm" ∧
  ∀ a, bal (w_bank (ch_world rewarded)) a "uusm" - bal (w_bank (ch_world o6)) a "uusm" =
    if_addr a (GetModuleAddress distribution_ModuleName) (pool o6 "uusm" - pool rewarded "uusm")
    - if_addr a (GetModuleAddress oracle_ModuleName) (pool o6 "uusm" - pool rewarded "uusm").
Proof.
  apply (oracle_rewards_within_pool o6 10 1000 targets0 claims0 rewarded); try lia.
  - split_and!; [|by vm_compute|by vm_compute].
    intros k cl. unfold claims0. simpl. rewrite !lookup_insert_Some, lookup_empty.
    intros [[_ <-]|[_ [[_ <-]|[_ ?]]]]; simpl; [lia|lia|done].
  - apply is_ok_or. by vm_compute.
  - by vm_compute.
Defined.

(** A single validator can halt the chain: a huge rate for the reference and a
    tiny one for another target, both accepted by the message's validation,
    overflow the cross rate at the end of the period, and the end blocker
    panics. *)
Definition huge : string := "ubtc:1" ++ String.concat "" (repeat "0000000000" 7) ++ ",uusm:0.000000000000000001".
Definition h3 : Chain := ok_or o3 (oracle_NewHandler (hctx 6) o3 (commit "val2" huge)).
Definition h4 : Chain := ok_or h3 (oracle_NewHandler (hctx 15) h3 (reveal "val1" rates1)).
Definition h5 : Chain := ok_or h4 (oracle_NewHandler (hctx 16) h4 (reveal "val2" huge)).

Theorem oracle_overflow_halts :
  is_ok (MsgAggregateExchangeRateVote_ValidateBasic (mkMsgVote "salt" huge "val2" "val2")) = true ∧
  is_ok (oracle_NewHandler (hctx 6) o3 (commit "val2" huge)) = true ∧
  is_ok (oracle_NewHandler (hctx 15) h3 (reveal "val1" rates1)) = true ∧
  is_ok (oracle_NewHandler (hctx 16) h4 (reveal "val2" huge)) = true ∧
  is_panic (oracle_EndBlocker (hctx 19) h5) = true.
Proof. vm_compute. done. Qed.
End OraclePropsWitness.
