(* ===== verification/VeKeeper.v ===== *)
(** The ve keeper ([src/x/ve/keeper/]): store access, the checkpoint history
    and the voting powers read from it.

    [uint64] and [int64] arithmetic is written with its wrap-around; amounts are
    [sdk.Int].  The store holds [uint64] values as eight big-endian bytes, so
    the maps are keyed by the number itself. *)

From stdpp Require Import base gmap strings list.
From Stdlib Require Import ZArith Lia.
From S2P Require Import Prelude Sdk Types MakerTypes VeTypes World.

#[local] Open Scope Z_scope.

Section VeKeeper.
Context `{!Sdk, !BankKeeper, !NftKeeper}.
Implicit Types (w : World) (ctx : Ctx).

Definition on_ve (f : VeStore → VeStore) w : World := set_ve (f (w_ve w)) w.

(** ** Store access ([locked.go], [nft.go], [checkpoint.go], [params.go]) *)

Definition LockDenom w : string := vs_LockDenom (w_ve w).
Definition ve_SetParams w (lockDenom : string) : World := on_ve (vs_set_LockDenom lockDenom) w.
Definition ve_GetParams w : string := vs_LockDenom (w_ve w).

Definition SetTotalLockedAmount w (amount : Z) : World :=
  on_ve (vs_set_TotalLockedAmount (Some amount)) w.
Definition GetTotalLockedAmount w : Z := default 0 (vs_TotalLockedAmount (w_ve w)).

Definition SetLockedAmountByUser w (veID : Z) (amount : LockedBalance) : World :=
  on_ve (fun s => vs_set_LockedAmountByUser (<[veID := amount]> (vs_LockedAmountByUser s)) s) w.
Definition GetLockedAmountByUser w (veID : Z) : LockedBalance :=
  default NewLockedBalance (vs_LockedAmountByUser (w_ve w) !! veID).
Definition DeleteLockedAmountByUser w (veID : Z) : World :=
  on_ve (fun s => vs_set_LockedAmountByUser (delete veID (vs_LockedAmountByUser s)) s) w.

Definition SetNextVeID w (nextVeID : Z) : World := on_ve (vs_set_NextVeID (Some nextVeID)) w.
Definition GetNextVeID w : Z := default 0 (vs_NextVeID (w_ve w)).

Definition SetVeAttached w (veID attached : Z) : World :=
  on_ve (fun s => vs_set_Attached (<[veID := attached]> (vs_Attached s)) s) w.
Definition GetVeAttached w (veID : Z) : Z := default 0 (vs_Attached (w_ve w) !! veID).
Definition IncVeAttached w (veID : Z) : World :=
  SetVeAttached w veID (u64 (GetVeAttached w veID + 1)).
Definition DecVeAttached w (veID : Z) : outcome World :=
  let attached := GetVeAttached w veID in
  if attached =? 0 then Panic else Ok (SetVeAttached w veID (u64 (attached - 1))).

Definition SetVeVoted w (veID : Z) (voted : bool) : World :=
  on_ve (fun s => vs_set_Voted (<[veID := voted]> (vs_Voted s)) s) w.
Definition GetVeVoted w (veID : Z) : bool := default false (vs_Voted (w_ve w) !! veID).

Definition CheckVeAttached w (veID : Z) : outcome unit :=
  fail_if negb (GetVeAttached w veID =? 0) || GetVeVoted w veID with ErrVeAttached ;; Ok tt.

Definition SaveNftClass w : outcome World := on_nft (fun n => nft_SaveClass n VeNftClassId) w.
Definition HasNftClass w : bool := nft_HasClass (w_nft w) VeNftClassId.

(** The nft module's [Send], which the ve module wraps: a ve token that is
    attached or has voted cannot be sent. *)
Definition nft_keeper_Send w (classId id sender receiver : string) : outcome World :=
  _ ← (if decide (classId = VeNftClassId) then CheckVeAttached w (Uint64FromVeID id) else Ok tt);
  on_nft (fun n => nft_Send n classId id sender receiver) w.

Definition SetEpoch w (epoch : Z) : World := on_ve (vs_set_Epoch (Some epoch)) w.
Definition GetEpoch w : Z := default 0 (vs_Epoch (w_ve w)).

Definition EmptyCheckpoint : Checkpoint := mkCheckpoint 0 0 0 0.

Definition SetCheckpoint w (epoch : Z) (point : Checkpoint) : World :=
  on_ve (fun s => vs_set_PointHistoryByEpoch (<[epoch := point]> (vs_PointHistoryByEpoch s)) s) w.
Definition GetCheckpoint w (epoch : Z) : Checkpoint :=
  default EmptyCheckpoint (vs_PointHistoryByEpoch (w_ve w) !! epoch).

Definition SetUserEpoch w (veID epoch : Z) : World :=
  on_ve (fun s => vs_set_UserEpoch (<[veID := epoch]> (vs_UserEpoch s)) s) w.
Definition GetUserEpoch w (veID : Z) : Z := default 0 (vs_UserEpoch (w_ve w) !! veID).

Definition SetUserCheckpoint w (veID epoch : Z) (point : Checkpoint) : World :=
  on_ve (fun s => vs_set_UserPointHistoryByUserEpoch
    (<[(veID, epoch) := point]> (vs_UserPointHistoryByUserEpoch s)) s) w.
Definition GetUserCheckpoint w (veID epoch : Z) : Checkpoint :=
  default EmptyCheckpoint (vs_UserPointHistoryByUserEpoch (w_ve w) !! (veID, epoch)).

Definition SetSlopeChange w (timestamp slopeChange : Z) : World :=
  on_ve (fun s => vs_set_SlopeChange (<[timestamp := slopeChange]> (vs_SlopeChange s)) s) w.
Definition GetSlopeChange w (timestamp : Z) : Z :=
  default 0 (vs_SlopeChange (w_ve w) !! timestamp).

(** [uint64(ctx.BlockTime().Unix())] *)
Definition now_of ctx : Z := u64 (BlockTime ctx).

(** [int64(a - b)] of two [uint64]. *)
Definition diff_i64 (a b : Z) : Z := i64 (u64 (a - b)).

(** ** The system checkpoint ([checkpoint.go]) *)

(** One round of the loop of [regulateCheckpoint]: the point at [ti] from the
    last one at [timeLast]. *)
Definition round_point (initial : Checkpoint) (blockSlope : Dec) (ti slopeChange timeLast : Z)
    (pointLast : Checkpoint) : outcome Checkpoint :=
  decay ← Int_Mul (cp_Slope pointLast) (diff_i64 ti timeLast);
  bias ← Int_Sub (cp_Bias pointLast) decay;
  let bias := if bias <? 0 then 0 else bias in
  slope ← Int_Add (cp_Slope pointLast) slopeChange;
  let slope := if slope <? 0 then 0 else slope in
  blocks ← Dec_MulInt blockSlope (diff_i64 ti (cp_Timestamp initial));
  blocks ← Dec_TruncateInt64 blocks;
  Ok (mkCheckpoint bias slope ti (i64 (cp_Block initial + blocks))).

(** The loop: from the last regulated time up to now, one round per regulated
    period; the third round panics, which is the source's own bound, kept as
    the fuel.  Returns the epoch reached and the point at [now]. *)
Fixpoint regulate_rounds (rounds : nat) ctx w (initial : Checkpoint) (blockSlope : Dec)
    (ti timeLast epoch : Z) (pointLast : Checkpoint) : outcome (World * Z * Checkpoint) :=
  match rounds with
  | O => Panic
  | S rounds =>
      let now := now_of ctx in
      next ← NextRegulatedUnixTime ti;
      let '(ti, slopeChange) :=
        if now <? next then (now, 0) else (next, GetSlopeChange w next) in
      point ← round_point initial blockSlope ti slopeChange timeLast pointLast;
      let epoch := u64 (epoch + 1) in
      if ti =? now then
        Ok (w, epoch, mkCheckpoint (cp_Bias point) (cp_Slope point) ti (BlockHeight ctx))
      else
        regulate_rounds rounds ctx (SetCheckpoint w epoch point) initial blockSlope
          ti ti epoch point
  end.

Definition regulateCheckpoint ctx w (userSlopeChange userBiasChange : Z) : outcome World :=
  let now := now_of ctx in
  let epoch := GetEpoch w in
  let pointLast :=
    if 0 <? epoch then GetCheckpoint w epoch else mkCheckpoint 0 0 now (BlockHeight ctx) in
  let timeLast := cp_Timestamp pointLast in
  blockSlope ←
    (if timeLast <? now then
       Dec_QuoInt (ToDec (i64 (BlockHeight ctx - cp_Block pointLast))) (diff_i64 now timeLast)
     else Ok ZeroDec);
  '(w, epoch, point) ←
    regulate_rounds 2 ctx w pointLast blockSlope (RegulatedUnixTime timeLast) timeLast epoch pointLast;
  let w := SetEpoch w epoch in
  bias ←
    (if 0 <? userBiasChange then
       b ← Int_Add (cp_Bias point) userBiasChange; Ok (if b <? 0 then 0 else b)
     else Ok (cp_Bias point));
  slope ←
    (if 0 <? userSlopeChange then
       s ← Int_Add (cp_Slope point) userSlopeChange; Ok (if s <? 0 then 0 else s)
     else Ok (cp_Slope point));
  Ok (SetCheckpoint w epoch (mkCheckpoint bias slope (cp_Timestamp point) (cp_Block point))).

Definition RegulateCheckpoint ctx w : outcome World :=
  let now := now_of ctx in
  let pointLast := GetCheckpoint w (GetEpoch w) in
  if RegulatedPeriod <=? u64 (now - cp_Timestamp pointLast)
  then regulateCheckpoint ctx w 0 0 else Ok w.

(** [ve.EndBlocker] *)
Definition ve_EndBlocker ctx w : outcome World := RegulateCheckpoint ctx w.

(** Slope and bias of a locked balance from now on. *)
Definition user_point (now : Z) (locked : LockedBalance) : outcome (Z * Z) :=
  if (now <? lb_End locked) && (0 <? lb_Amount locked) then
    slope ← Int_Quo (lb_Amount locked) MaxLockTime;
    bias ← Int_Mul slope (diff_i64 (lb_End locked) now);
    Ok (slope, bias)
  else Ok (0, 0).

Definition RegulateUserCheckpoint ctx w (veID : Z) (lockedOld lockedNew : LockedBalance) :
    outcome World :=
  _ ← CheckRegulatedUnixTime (lb_End lockedOld);
  _ ← CheckRegulatedUnixTime (lb_End lockedNew);
  let now := now_of ctx in
  '(slopeOld, biasOld) ← user_point now lockedOld;
  '(slopeNew, biasNew) ← user_point now lockedNew;
  userSlopeChange ← Int_Sub slopeNew slopeOld;
  userBiasChange ← Int_Sub biasNew biasOld;
  w ← regulateCheckpoint ctx w userSlopeChange userBiasChange;
  let slopeChangeOld := GetSlopeChange w (lb_End lockedOld) in
  let slopeChangeNew := GetSlopeChange w (lb_End lockedNew) in
  w ← (if now <? lb_End lockedOld then
         c ← Int_Add slopeChangeOld slopeOld;
         c ← (if lb_End lockedNew =? lb_End lockedOld then Int_Sub c slopeNew else Ok c);
         Ok (SetSlopeChange w (lb_End lockedOld) c)
       else Ok w);
  w ← (if (now <? lb_End lockedNew) && (lb_End lockedOld <? lb_End lockedNew) then
         c ← Int_Sub slopeChangeNew slopeNew;
         Ok (SetSlopeChange w (lb_End lockedNew) c)
       else Ok w);
  let userEpoch := u64 (GetUserEpoch w veID + 1) in
  let w := SetUserEpoch w veID userEpoch in
  Ok (SetUserCheckpoint w veID userEpoch (mkCheckpoint biasNew slopeNew now (BlockHeight ctx))).
End VeKeeper.

#[global] Arguments regulate_rounds {_ _ _} _ _ _ _ _ _ _ _ _ : simpl never.
