(* ===== verification/VeVoting.v ===== *)
(** Voting powers read from the checkpoint history, and the ve queries
    ([src/x/ve/keeper/grpc_query.go]). *)

From stdpp Require Import base gmap strings list.
From Stdlib Require Import ZArith Lia.
From S2P Require Import Prelude Sdk Types MakerTypes VeTypes World VeKeeper.

#[local] Open Scope Z_scope.

Section VeVoting.
Context `{!Sdk, !BankKeeper, !NftKeeper}.
Implicit Types (w : World) (ctx : Ctx).

(** The binary search of [findTimeEpoch] and [findBlockEpoch] over a history
    [key]; [max - min] halves in every round, so 64 rounds are enough for
    64-bit epochs. *)
Fixpoint search_epoch (rounds : nat) (key : Z → Z) (target min max : Z) : Z :=
  match rounds with
  | O => min
  | S rounds =>
      if max <=? min then min else
      let mid := u64 (min + max + 1) / 2 in
      if key mid <=? target then search_epoch rounds key target mid max
      else search_epoch rounds key target min (u64 (mid - 1))
  end.

Definition history_point w (veID epoch : Z) : Checkpoint :=
  if veID =? EmptyVeID then GetCheckpoint w epoch else GetUserCheckpoint w veID epoch.

Definition findTimeEpoch w (veID timestamp maxEpoch : Z) : Z :=
  search_epoch 65 (fun mid => cp_Timestamp (history_point w veID mid)) timestamp 0 maxEpoch.

Definition findBlockEpoch w (veID block maxEpoch : Z) : Z :=
  search_epoch 65 (fun mid => cp_Block (history_point w veID mid)) block 0 maxEpoch.

(** [bias - slope * dt] *)
Definition decayed (point : Checkpoint) (dt : Z) : outcome Z :=
  d ← Int_Mul (cp_Slope point) dt; Int_Sub (cp_Bias point) d.

(** The loop of [GetTotalVotingPower] into the future: one round per regulated
    period up to [atTime]. *)
Fixpoint future_power (rounds : nat) w (atTime ti : Z) (pointLast : Checkpoint) : outcome Z :=
  match rounds with
  | O => Panic
  | S rounds =>
      next ← NextRegulatedUnixTime ti;
      let '(ti, slopeChange) :=
        if atTime <? next then (atTime, 0) else (next, GetSlopeChange w next) in
      bias ← decayed pointLast (diff_i64 ti (cp_Timestamp pointLast));
      if ti =? atTime then Ok bias
      else
        slope ← Int_Add (cp_Slope pointLast) slopeChange;
        future_power rounds w atTime ti (mkCheckpoint bias slope ti (cp_Block pointLast))
  end.

(** The time that passed between a point of the system history and a block, by
    linear interpolation with the next point or with the current block. *)
Definition block_dt ctx w (targetEpoch epoch atBlock : Z) (point : Checkpoint) : Z :=
  if targetEpoch <? epoch then
    let pointNext := GetCheckpoint w (u64 (targetEpoch + 1)) in
    if cp_Block point =? cp_Block pointNext then 0
    else Z.quot (i64 (i64 (atBlock - cp_Block point) *
                      diff_i64 (cp_Timestamp pointNext) (cp_Timestamp point)))
                (i64 (cp_Block pointNext - cp_Block point))
  else if cp_Block point =? BlockHeight ctx then 0
  else Z.quot (i64 (i64 (atBlock - cp_Block point) *
                    i64 (BlockTime ctx - i64 (cp_Timestamp point))))
              (i64 (BlockHeight ctx - cp_Block point)).

Definition clip (power : Z) : Z := if power <? 0 then 0 else power.

(** With neither a time nor a block, [power] stays nil and the sign test
    panics. *)
Definition GetTotalVotingPower ctx w (atTime atBlock : Z) : outcome Z :=
  let epoch := GetEpoch w in
  power ←
    (if 0 <? atTime then
       let pointLast := GetCheckpoint w epoch in
       if atTime <=? cp_Timestamp pointLast then
         let targetEpoch := findTimeEpoch w EmptyVeID atTime epoch in
         let point := GetCheckpoint w targetEpoch in
         let dt :=
           if targetEpoch <? epoch then
             if cp_Block point =? cp_Block (GetCheckpoint w (u64 (targetEpoch + 1))) then 0
             else diff_i64 atTime (cp_Timestamp point)
           else if cp_Block point =? BlockHeight ctx then 0
           else diff_i64 atTime (cp_Timestamp point) in
         decayed point dt
       else
         let rounds := (atTime - RegulatedUnixTime (cp_Timestamp pointLast)) / RegulatedPeriod in
         future_power (S (Z.to_nat rounds)) w atTime
           (RegulatedUnixTime (cp_Timestamp pointLast)) pointLast
     else if 0 <? atBlock then
       let targetEpoch := findBlockEpoch w EmptyVeID atBlock epoch in
       let point := GetCheckpoint w targetEpoch in
       decayed point (block_dt ctx w targetEpoch epoch atBlock point)
     else Panic);
  Ok (clip power).

Definition GetVotingPower ctx w (veID atTime atBlock : Z) : outcome Z :=
  let epoch := GetEpoch w in
  let userEpoch := GetUserEpoch w veID in
  power ←
    (if 0 <? atTime then
       let userPoint := GetUserCheckpoint w veID userEpoch in
       let userPoint :=
         if atTime <=? cp_Timestamp userPoint
         then GetUserCheckpoint w veID (findTimeEpoch w veID atTime userEpoch) else userPoint in
       decayed userPoint (diff_i64 atTime (cp_Timestamp userPoint))
     else if 0 <? atBlock then
       let targetEpoch := findBlockEpoch w EmptyVeID atBlock epoch in
       let point := GetCheckpoint w targetEpoch in
       let dt := block_dt ctx w targetEpoch epoch atBlock point in
       let blockTimestamp := u64 (cp_Timestamp point + u64 dt) in
       let userPoint := GetUserCheckpoint w veID (findBlockEpoch w veID atBlock userEpoch) in
       decayed userPoint (diff_i64 blockTimestamp (cp_Timestamp userPoint))
     else Panic);
  Ok (clip power).

(** ** Queries *)

Definition ErrInvalidArgument : error := ErrExt "grpc/invalid argument".

(** Exactly one of the time and the block, and no block of the future. *)
Definition check_at ctx (atTime atBlock : Z) : outcome unit :=
  if 0 <? atTime then
    fail_if 0 <? atBlock with ErrInvalidArgument ;; Ok tt
  else if 0 <? atBlock then
    fail_if BlockHeight ctx <? atBlock with ErrInvalidArgument ;; Ok tt
  else Err ErrInvalidArgument.

Definition query_TotalVotingPower ctx w (atTime atBlock : Z) : outcome Z :=
  _ ← check_at ctx atTime atBlock;
  GetTotalVotingPower ctx w atTime atBlock.

Definition query_VotingPower ctx w (veId : string) (atTime atBlock : Z) : outcome Z :=
  fail_if negb (nft_HasNFT (w_nft w) VeNftClassId veId) with ErrInvalidVeID ;;
  let veID := Uint64FromVeID veId in
  _ ← check_at ctx atTime atBlock;
  GetVotingPower ctx w veID atTime atBlock.

Definition ve_query_Params w : outcome string := Ok (ve_GetParams w).
End VeVoting.
