(* ===== verification/VeMsg.v ===== *)
(** The ve message handlers ([src/x/ve/keeper/msg_server.go]), slashing of a
    locked balance ([staking.go]) and genesis ([src/x/ve/genesis.go]). *)

From stdpp Require Import base gmap strings list.
From Stdlib Require Import ZArith Lia.
From S2P Require Import Prelude Sdk Types MakerTypes VeTypes World VeKeeper VeVoting.

#[local] Open Scope Z_scope.

Section VeMsg.
Context `{!Sdk, !BankKeeper, !NftKeeper}.
(** The keeper's field [getDelegatedAmount], a function of the staking module
    or nil. *)
Context (getDelegatedAmount : option (World → Z → Z)).
Implicit Types (w : World) (ctx : Ctx).

(** Assigns the field of a copy of the keeper (the receiver is a value): the
    keeper of the caller keeps its field. *)
Definition SetGetDelegatedAmountByUser (f : World → Z → Z) : option (World → Z → Z) :=
  getDelegatedAmount.

Definition checkLockDenom w (amount : Coin) : outcome unit :=
  fail_if bool_decide (Denom amount ≠ LockDenom w) with ErrInvalidLockDenom ;; Ok tt.

Definition DepositFor ctx w (sender : Addr) (veID amount unlockTime : Z)
    (locked : LockedBalance) (sendCoins : bool) : outcome World :=
  w ← (if 0 <? amount then
         w ← (if sendCoins then
                coin ← NewCoin (LockDenom w) amount;
                cs ← NewCoins [coin];
                on_bank (fun b => SendCoinsFromAccountToModule b sender ve_ModuleName cs) w
              else Ok w);
         totalLocked ← Int_Add (GetTotalLockedAmount w) amount;
         Ok (SetTotalLockedAmount w totalLocked)
       else Ok w);
  let lockedOld := locked in
  newAmount ← Int_Add (lb_Amount lockedOld) amount;
  let locked := mkLockedBalance newAmount (if 0 <? unlockTime then unlockTime else lb_End locked) in
  let w := SetLockedAmountByUser w veID locked in
  RegulateUserCheckpoint ctx w veID lockedOld locked.

(** Returns the ve identifier and the unlocking time. *)
Definition Create ctx w (msg : MsgCreate) : outcome (string * Z * World) :=
  _ ← checkLockDenom w (cr_Amount msg);
  '(sender, receiver) ← getSenderReceiver (cr_Sender msg) (cr_To msg);
  let unlockTime := RegulatedUnixTimeFromNow ctx (cr_LockDuration msg) in
  fail_if unlockTime <=? now_of ctx with ErrPastLockTime ;;
  fail_if u64 (now_of ctx + MaxLockTime) <? unlockTime with ErrTooLongLockTime ;;
  let veID := GetNextVeID w in
  fail_if (MaxVeID <? veID) || (veID =? EmptyVeID) with ErrInvalidVeID ;;
  let w := SetNextVeID w (u64 (veID + 1)) in
  w ← on_nft (fun n => nft_Mint n VeNftClassId (VeIDFromUint64 veID) receiver) w;
  w ← DepositFor ctx w sender veID (Amount (cr_Amount msg)) unlockTime NewLockedBalance true;
  Ok (VeIDFromUint64 veID, unlockTime, w).

Definition Deposit ctx w (msg : MsgDeposit) : outcome World :=
  _ ← checkLockDenom w (de_Amount msg);
  sender ← AccAddressFromBech32 (de_Sender msg);
  fail_if negb (nft_HasNFT (w_nft w) VeNftClassId (de_VeId msg)) with ErrInvalidVeID ;;
  let veID := Uint64FromVeID (de_VeId msg) in
  let locked := GetLockedAmountByUser w veID in
  fail_if negb (0 <? lb_Amount locked) with ErrAmountNotPositive ;;
  fail_if lb_End locked <=? now_of ctx with ErrLockExpired ;;
  DepositFor ctx w sender veID (Amount (de_Amount msg)) 0 locked true.

Definition ExtendTime ctx w (msg : MsgExtendTime) : outcome World :=
  sender ← AccAddressFromBech32 (et_Sender msg);
  fail_if negb (nft_HasNFT (w_nft w) VeNftClassId (et_VeId msg)) with ErrInvalidVeID ;;
  let veID := Uint64FromVeID (et_VeId msg) in
  let locked := GetLockedAmountByUser w veID in
  fail_if negb (0 <? lb_Amount locked) with ErrAmountNotPositive ;;
  fail_if lb_End locked <=? now_of ctx with ErrLockExpired ;;
  let owner := nft_GetOwner (w_nft w) VeNftClassId (et_VeId msg) in
  fail_if bool_decide (sender ≠ owner) with ErrUnauthorized ;;
  let unlockTime := RegulatedUnixTimeFromNow ctx (et_LockDuration msg) in
  fail_if unlockTime <=? lb_End locked with ErrNotIncreasedLockTime ;;
  fail_if u64 (now_of ctx + MaxLockTime) <? unlockTime with ErrTooLongLockTime ;;
  DepositFor ctx w sender veID 0 unlockTime locked false.

(** [if getDelegatedAmount != nil && getDelegatedAmount(veID).IsPositive()] *)
Definition is_delegated w (veID : Z) : bool :=
  match getDelegatedAmount with Some f => 0 <? f w veID | None => false end.

Definition Merge ctx w (msg : MsgMerge) : outcome World :=
  sender ← AccAddressFromBech32 (me_Sender msg);
  let fromOwner := nft_GetOwner (w_nft w) VeNftClassId (me_FromVeId msg) in
  let toOwner := nft_GetOwner (w_nft w) VeNftClassId (me_ToVeId msg) in
  fail_if bool_decide (sender ≠ fromOwner) with ErrUnauthorized ;;
  fail_if bool_decide (sender ≠ toOwner) with ErrUnauthorized ;;
  let fromVeID := Uint64FromVeID (me_FromVeId msg) in
  let toVeID := Uint64FromVeID (me_ToVeId msg) in
  _ ← CheckVeAttached w fromVeID;
  let lockedFrom := GetLockedAmountByUser w fromVeID in
  let lockedTo := GetLockedAmountByUser w toVeID in
  fail_if is_delegated w fromVeID with ErrInvalidRequest ;;
  let endTime := if lb_End lockedFrom <? lb_End lockedTo then lb_End lockedTo else lb_End lockedFrom in
  let w := DeleteLockedAmountByUser w fromVeID in
  w ← RegulateUserCheckpoint ctx w fromVeID lockedFrom NewLockedBalance;
  w ← on_nft (fun n => nft_Burn n VeNftClassId (me_FromVeId msg)) w;
  DepositFor ctx w sender toVeID (lb_Amount lockedFrom) endTime lockedTo false.

Definition Withdraw ctx w (msg : MsgWithdraw) : outcome World :=
  sender ← AccAddressFromBech32 (wd_Sender msg);
  let owner := nft_GetOwner (w_nft w) VeNftClassId (wd_VeId msg) in
  fail_if bool_decide (sender ≠ owner) with ErrUnauthorized ;;
  let veID := Uint64FromVeID (wd_VeId msg) in
  _ ← CheckVeAttached w veID;
  let locked := GetLockedAmountByUser w veID in
  fail_if now_of ctx <? lb_End locked with ErrLockNotExpired ;;
  fail_if is_delegated w veID with ErrInvalidRequest ;;
  let w := DeleteLockedAmountByUser w veID in
  totalLocked ← Int_Sub (GetTotalLockedAmount w) (lb_Amount locked);
  if totalLocked <? 0 then Panic else
  let w := SetTotalLockedAmount w totalLocked in
  w ← RegulateUserCheckpoint ctx w veID locked NewLockedBalance;
  w ← on_nft (fun n => nft_Burn n VeNftClassId (wd_VeId msg)) w;
  coin ← NewCoin (LockDenom w) (lb_Amount locked);
  cs ← NewCoins [coin];
  on_bank (fun b => SendCoinsFromModuleToAccount b ve_ModuleName sender cs) w.

(** Called by the staking module; a failed burn panics. *)
Definition SlashLockedAmountByUser ctx w (veID amount : Z) : outcome World :=
  coin ← NewCoin (LockDenom w) amount;
  cs ← NewCoins [coin];
  w ← match on_bank (fun b => BurnCoins b ve_ModuleName cs) w with
      | Ok w => Ok w
      | _ => Panic
      end;
  totalLocked ← Int_Sub (GetTotalLockedAmount w) amount;
  let w := SetTotalLockedAmount w totalLocked in
  let locked := GetLockedAmountByUser w veID in
  newAmount ← Int_Sub (lb_Amount locked) amount;
  let locked' := mkLockedBalance newAmount (lb_End locked) in
  let w := SetLockedAmountByUser w veID locked' in
  RegulateUserCheckpoint ctx w veID locked locked'.

(** ** Genesis *)

Definition ve_DefaultParams : string := BaseDenom.

Definition ve_Params_Validate (lockDenom : string) : outcome unit :=
  fail_if negb (ValidDenom lockDenom) with Errorf "invalid denom" ;; Ok tt.

Definition ve_InitGenesis w (lockDenom : string) : outcome World :=
  let w := ve_SetParams w lockDenom in
  if HasNftClass w then Ok w else
  w ← match SaveNftClass w with Ok w => Ok w | _ => Panic end;
  let w := SetTotalLockedAmount w 0 in
  let w := SetNextVeID w FirstVeID in
  let w := SetEpoch w EmptyEpoch in
  Ok (SetCheckpoint w EmptyEpoch (mkCheckpoint 0 0 0 0)).

Definition ve_ExportGenesis w : string := ve_GetParams w.
End VeMsg.
