(* ===== verification/VeEmission.v ===== *)
(** Emission and distribution of the lock coin
    ([src/x/ve/keeper/emission.go], [distribution.go]). *)

From stdpp Require Import base gmap strings list.
From Stdlib Require Import ZArith Lia.
From S2P Require Import Prelude Sdk Types MakerTypes VeTypes World VeKeeper VeVoting.

#[local] Open Scope Z_scope.

Section VeEmission.
Context `{!Sdk, !BankKeeper, !NftKeeper}.
Implicit Types (w : World) (ctx : Ctx).

(** ** Store access *)

Definition SetTotalEmission w (total : Z) : World := on_ve (vs_set_TotalEmission (Some total)) w.
Definition GetTotalEmission w : Z := default 0 (vs_TotalEmission (w_ve w)).
Definition SetEmissionAtLastPeriod w (emission : Z) : World :=
  on_ve (vs_set_EmissionAtLastPeriod (Some emission)) w.
Definition GetEmissionAtLastPeriod w : Z := default 0 (vs_EmissionAtLastPeriod (w_ve w)).
Definition SetEmissionLastTimestamp w (timestamp : Z) : World :=
  on_ve (vs_set_EmissionLastTimestamp (Some timestamp)) w.
Definition GetEmissionLastTimestamp w : Z := default 0 (vs_EmissionLastTimestamp (w_ve w)).

Definition SetDistributionAccruedLastTimestamp w (timestamp : Z) : World :=
  on_ve (vs_set_DistributionAccruedLastTimestamp (Some timestamp)) w.
Definition GetDistributionAccruedLastTimestamp w : Z :=
  default 0 (vs_DistributionAccruedLastTimestamp (w_ve w)).
Definition SetDistributionTotalAmount w (total : Z) : World :=
  on_ve (vs_set_DistributionTotalAmount (Some total)) w.
Definition GetDistributionTotalAmount w : Z := default 0 (vs_DistributionTotalAmount (w_ve w)).
Definition SetDistributionPerPeriod w (timestamp amount : Z) : World :=
  on_ve (fun s => vs_set_DistributionPerPeriod (<[timestamp := amount]> (vs_DistributionPerPeriod s)) s) w.
Definition GetDistributionPerPeriod w (timestamp : Z) : Z :=
  default 0 (vs_DistributionPerPeriod (w_ve w) !! timestamp).
Definition SetDistributionClaimLastTimestampByUser w (veID timestamp : Z) : World :=
  on_ve (fun s => vs_set_DistributionClaimLastTimestampByUser
    (<[veID := timestamp]> (vs_DistributionClaimLastTimestampByUser s)) s) w.
Definition GetDistributionClaimLastTimestampByUser w (veID : Z) : Z :=
  default 0 (vs_DistributionClaimLastTimestampByUser (w_ve w) !! veID).

(** ** The distributor *)

(** The loop of [DistributePerPeriod] over the regulated periods from the last
    distribution to now; [timeLast] stays the time of the last distribution. *)
Fixpoint distribute_periods (rounds : nat) w (amount now timeLast duration epochTime : Z) :
    outcome World :=
  match rounds with
  | O => Panic
  | S rounds =>
      let amountExisting := GetDistributionPerPeriod w epochTime in
      if (duration =? 0) || (now <=? epochTime) then
        x ← Int_Add amountExisting amount; Ok (SetDistributionPerPeriod w epochTime x)
      else
        nextEpochTime ← NextRegulatedUnixTime epochTime;
        let endTime := Min nextEpochTime now in
        x ← Int_Mul amount (diff_i64 endTime timeLast);
        amountAdd ← Int_Quo x (i64 duration);
        x ← Int_Add amountExisting amountAdd;
        let w := SetDistributionPerPeriod w epochTime x in
        if now <=? nextEpochTime then Ok w
        else distribute_periods rounds w amount now timeLast duration nextEpochTime
  end.

Definition DistributePerPeriod ctx w : outcome World :=
  let totalAmount := Amount (GetBalance (w_bank w) (GetModuleAddress DistributionPoolName) (LockDenom w)) in
  let totalAmountLast := GetDistributionTotalAmount w in
  let w := SetDistributionTotalAmount w totalAmount in
  amount ← Int_Sub totalAmount totalAmountLast;
  let now := now_of ctx in
  let timeLast := GetDistributionAccruedLastTimestamp w in
  let w := SetDistributionAccruedLastTimestamp w now in
  let duration := u64 (now - timeLast) in
  let epochTime := RegulatedUnixTime timeLast in
  distribute_periods (S (S (Z.to_nat ((now - epochTime) / RegulatedPeriod)))) w amount now timeLast duration epochTime.

(** The loop of [Claim] over the regulated times after [epochTime] up to now. *)
Fixpoint claim_periods (rounds : nat) ctx w (veID now epochTime amount : Z) : outcome Z :=
  match rounds with
  | O => Panic
  | S rounds =>
      epochTime ← NextRegulatedUnixTime epochTime;
      if RegulatedUnixTime now <? epochTime then Ok amount else
      previous ← PreviousRegulatedUnixTime epochTime;
      let amountOfPeriod := GetDistributionPerPeriod w previous in
      votingPower ← GetVotingPower ctx w veID epochTime 0;
      totalVotingPower ← GetTotalVotingPower ctx w epochTime 0;
      x ← Int_Mul amountOfPeriod votingPower;
      share ← Int_Quo x totalVotingPower;
      amount ← Int_Add amount share;
      claim_periods rounds ctx w veID now epochTime amount
  end.

Definition Claim ctx w (veID : Z) : outcome World :=
  w ← RegulateCheckpoint ctx w;
  let owner := nft_GetOwner (w_nft w) VeNftClassId (VeIDFromUint64 veID) in
  let now := now_of ctx in
  let timeLast := GetDistributionClaimLastTimestampByUser w veID in
  if u64 (now - timeLast) <? RegulatedPeriod then Ok w else
  let w := SetDistributionClaimLastTimestampByUser w veID now in
  let epochTime := RegulatedUnixTime timeLast in
  amount ← claim_periods (S (S (Z.to_nat ((now - epochTime) / RegulatedPeriod)))) ctx w veID now epochTime 0;
  if negb (0 <? amount) then Ok w else
  coin ← NewCoin (LockDenom w) amount;
  cs ← NewCoins [coin];
  on_bank (fun b => SendCoinsFromModuleToAccount b DistributionPoolName owner cs) w.

(** ** The emitter *)

Definition AddTotalEmission w (emission : Z) : outcome World :=
  if negb (0 <? emission) then Panic else
  total ← Int_Add (GetTotalEmission w) emission;
  let w := SetTotalEmission w total in
  a ← Dec_Sub OneDec EmissionRatio;
  x ← Dec_Mul (ToDec emission) a;
  r ← Dec_Power EmissionRatio MaxLockTimeWeeks;
  b ← Dec_Sub OneDec r;
  x ← Dec_Quo x b;
  emissionInitial ← Dec_TruncateInt x;
  emission ← Int_Add (GetEmissionAtLastPeriod w) emissionInitial;
  Ok (SetEmissionAtLastPeriod w emission).

Definition CirculationSupply ctx w : outcome Z :=
  let totalSupply := Amount (GetSupply (w_bank w) (LockDenom w)) in
  veLocked ← GetTotalVotingPower ctx w 0 (BlockHeight ctx);
  Int_Sub totalSupply veLocked.

Definition CirculationRate ctx w : outcome Dec :=
  let totalSupply := Amount (GetSupply (w_bank w) (LockDenom w)) in
  s ← CirculationSupply ctx w;
  Dec_QuoInt (ToDec s) totalSupply.

Definition Emission ctx w : outcome Z :=
  emission ← Dec_Mul (ToDec (GetEmissionAtLastPeriod w)) EmissionRatio;
  circulationRate ← CirculationRate ctx w;
  let circulationRate :=
    if circulationRate <? MinEmissionCirculating then MinEmissionCirculating else circulationRate in
  x ← Dec_Mul emission circulationRate;
  Dec_TruncateInt x.

Definition EmissionCompensation ctx w (emission : Z) : outcome Z :=
  circulationRate ← CirculationRate ctx w;
  rest ← Dec_Sub OneDec circulationRate;
  x ← Dec_Mul (ToDec emission) rest;
  Dec_TruncateInt x.

(** A bank call whose error is a panic. *)
Definition must_bank (f : bank_state → outcome bank_state) w : outcome World :=
  match on_bank f w with Ok w => Ok w | _ => Panic end.

(** The part of [Emit] after the early return. *)
Definition emit_period ctx w (timestamp : Z) : outcome (Z * World) :=
  emission ← Emission ctx w;
  emissionAmt ← NewCoin (LockDenom w) emission;
  cs ← NewCoins [emissionAmt];
  w ← must_bank (fun b => MintCoins b EmissionPoolName cs) w;
  let w := SetEmissionLastTimestamp w timestamp in
  let w := SetEmissionAtLastPeriod w emission in
  compensation ← EmissionCompensation ctx w emission;
  compensationAmt ← NewCoin (LockDenom w) compensation;
  cs ← NewCoins [compensationAmt];
  w ← must_bank (fun b => SendCoinsFromModuleToModule b EmissionPoolName DistributionPoolName cs) w;
  w ← DistributePerPeriod ctx w;
  w ← RegulateCheckpoint ctx w;
  rest ← Int_Sub emission compensation;
  Ok (rest, w).

(** The source returns zero in [if true] before any emission. *)
Definition Emit ctx w : outcome (Z * World) :=
  let timestamp := RegulatedUnixTimeFromNow ctx 0 in
  let timeLast := GetEmissionLastTimestamp w in
  if u64 (timestamp - timeLast) <? RegulatedPeriod then Ok (0, w) else
  if true then Ok (0, w) else
  emit_period ctx w timestamp.
End VeEmission.
