(* ===== verification/VeInv.v ===== *)
(** What the ve operations change: frames of the checkpoint code, the locked
    amounts against the module account, and the invariant on the locks. *)

From stdpp Require Import base gmap strings list.
From Stdlib Require Import ZArith Lia.
From S2P Require Import Prelude Sdk Types MakerTypes VeTypes World VeKeeper VeVoting VeMsg.

#[local] Open Scope Z_scope.

(** ** Regulated times *)

Lemma RegulatedUnixTime_le t : RegulatedUnixTime t ≤ t < RegulatedUnixTime t + RegulatedPeriod.
Proof.
  unfold RegulatedUnixTime. pose proof (Z.div_mod t RegulatedPeriod ltac:(done)).
  pose proof (Z.mod_pos_bound t RegulatedPeriod ltac:(done)). lia.
Qed.

Lemma RegulatedUnixTime_idemp t : RegulatedUnixTime (RegulatedUnixTime t) = RegulatedUnixTime t.
Proof. unfold RegulatedUnixTime. by rewrite Z.div_mul. Qed.

Lemma RegulatedUnixTime_add t k :
  RegulatedUnixTime (t + k * RegulatedPeriod) = RegulatedUnixTime t + k * RegulatedPeriod.
Proof. unfold RegulatedUnixTime. rewrite Z.div_add by done. lia. Qed.

Lemma CheckRegulatedUnixTime_Ok t u : CheckRegulatedUnixTime t = Ok u ↔ RegulatedUnixTime t = t.
Proof.
  unfold CheckRegulatedUnixTime. destruct (Z.eqb_spec (RegulatedUnixTime t) t), u; split; congruence.
Qed.

Lemma NextRegulatedUnixTime_Ok t n :
  NextRegulatedUnixTime t = Ok n → RegulatedUnixTime t = t ∧ n = t + RegulatedPeriod.
Proof.
  unfold NextRegulatedUnixTime. intros E. inv_ok E.
  by apply CheckRegulatedUnixTime_Ok in E0.
Qed.

Lemma NextRegulatedUnixTime_fits t :
  RegulatedUnixTime t = t → t ≤ MaxUnixTime - RegulatedPeriod →
  NextRegulatedUnixTime t = Ok (t + RegulatedPeriod).
Proof.
  intros Hr Hm. unfold NextRegulatedUnixTime.
  rewrite (proj2 (CheckRegulatedUnixTime_Ok t tt) Hr). simpl.
  by rewrite (proj2 (Z.ltb_ge _ _) Hm).
Qed.

Section VeInv.
Context `{!Sdk, !BankKeeper, !NftKeeper, !SdkLaws, !BankLaws}.
Implicit Types (w : World) (ctx : Ctx).

(** ** Frames *)

(** The checkpoint code leaves everything but the histories alone. *)
Record ve_frame w w' : Prop := {
  vf_maker : w_maker w' = w_maker w;
  vf_oracle : w_oracle w' = w_oracle w;
  vf_bank : w_bank w' = w_bank w;
  vf_nft : w_nft w' = w_nft w;
  vf_denom : LockDenom w' = LockDenom w;
  vf_total : vs_TotalLockedAmount (w_ve w') = vs_TotalLockedAmount (w_ve w);
  vf_locked : vs_LockedAmountByUser (w_ve w') = vs_LockedAmountByUser (w_ve w);
  vf_next : vs_NextVeID (w_ve w') = vs_NextVeID (w_ve w);
  vf_attached : vs_Attached (w_ve w') = vs_Attached (w_ve w);
  vf_voted : vs_Voted (w_ve w') = vs_Voted (w_ve w);
}.

Lemma ve_frame_refl w : ve_frame w w.
Proof. by constructor. Qed.

Lemma ve_frame_trans w1 w2 w3 : ve_frame w1 w2 → ve_frame w2 w3 → ve_frame w1 w3.
Proof. intros [] []. constructor; congruence. Qed.

Lemma SetCheckpoint_frame w e p : ve_frame w (SetCheckpoint w e p).
Proof. by constructor. Qed.
Lemma SetEpoch_frame w e : ve_frame w (SetEpoch w e).
Proof. by constructor. Qed.
Lemma SetSlopeChange_frame w t c : ve_frame w (SetSlopeChange w t c).
Proof. by constructor. Qed.
Lemma SetUserEpoch_frame w i e : ve_frame w (SetUserEpoch w i e).
Proof. by constructor. Qed.
Lemma SetUserCheckpoint_frame w i e p : ve_frame w (SetUserCheckpoint w i e p).
Proof. by constructor. Qed.

Lemma regulate_rounds_frame n ctx w initial bs ti tl e p w' e' p' :
  regulate_rounds n ctx w initial bs ti tl e p = Ok (w', e', p') → ve_frame w w'.
Proof.
  revert w ti tl e p. induction n as [|n IH]; intros w ti tl e p E; unfold regulate_rounds in E; fold regulate_rounds in E; [discriminate|].
  inv_ok E; simplify_eq; try apply ve_frame_refl;
    (eapply ve_frame_trans; [apply SetCheckpoint_frame|eapply IH; exact E]).
Qed.

Lemma regulateCheckpoint_frame ctx w us ub w' :
  regulateCheckpoint ctx w us ub = Ok w' → ve_frame w w'.
Proof.
  unfold regulateCheckpoint. intros E. inv_ok E. subst w'.
  apply regulate_rounds_frame in E1.
  eapply ve_frame_trans; [exact E1|].
  eapply ve_frame_trans; [apply SetEpoch_frame|apply SetCheckpoint_frame].
Qed.

Lemma RegulateCheckpoint_frame ctx w w' : RegulateCheckpoint ctx w = Ok w' → ve_frame w w'.
Proof.
  unfold RegulateCheckpoint. intros E. inv_ok E;
    [by eapply regulateCheckpoint_frame|subst; apply ve_frame_refl].
Qed.

Lemma RegulateUserCheckpoint_frame ctx w i o n w' :
  RegulateUserCheckpoint ctx w i o n = Ok w' →
  ve_frame w w' ∧ RegulatedUnixTime (lb_End o) = lb_End o ∧ RegulatedUnixTime (lb_End n) = lb_End n.
Proof.
  unfold RegulateUserCheckpoint. intros E. inv_ok E.
  apply CheckRegulatedUnixTime_Ok in E0, E1. split; [|done].
  apply regulateCheckpoint_frame in E6. subst w'.
  assert (ve_frame r3 r4) by (inv_ok E7; subst; [apply SetSlopeChange_frame|apply ve_frame_refl]).
  assert (ve_frame r4 r5) by (inv_ok E8; subst; [apply SetSlopeChange_frame|apply ve_frame_refl]).
  do 3 (eapply ve_frame_trans; [eassumption|]).
  eapply ve_frame_trans; [apply SetUserEpoch_frame|apply SetUserCheckpoint_frame].
Qed.

(** ** Coins and locks *)

Definition ve_addr : Addr := GetModuleAddress ve_ModuleName.

(** Balance of an account in the lock denomination. *)
Definition lbal w (a : Addr) : Z := bal (w_bank w) a (LockDenom w).

(** The amounts locked by all users. *)
Definition locked_sum w : Z := map_sum (fun _ lb => lb_Amount lb) (vs_LockedAmountByUser (w_ve w)).

(** [x] coins of the lock denomination moved from [from] to [to]; no other
    account changed. *)
Definition paid w w' (from to : Addr) (x : Z) : Prop :=
  ∀ a, lbal w' a = lbal w a - if_addr a from x + if_addr a to x.

(** What an operation did to the locks: the map of locks, the counter of
    identifiers, the total and the tokens. *)
Record lock_effect w w' (locks : gmap Z LockedBalance) (total next : Z) (tokens : nft_state) : Prop := {
  le_locked : vs_LockedAmountByUser (w_ve w') = locks;
  le_total : GetTotalLockedAmount w' = total;
  le_next : GetNextVeID w' = next;
  le_denom : LockDenom w' = LockDenom w;
  le_nft : w_nft w' = tokens;
  le_attached : vs_Attached (w_ve w') = vs_Attached (w_ve w);
  le_voted : vs_Voted (w_ve w') = vs_Voted (w_ve w);
}.

Lemma at_lock w veID :
  at_key (fun _ lb => lb_Amount lb) (vs_LockedAmountByUser (w_ve w)) veID =
  lb_Amount (GetLockedAmountByUser w veID).
Proof. unfold at_key, GetLockedAmountByUser. by destruct (_ !! _). Qed.

Lemma paid_refl w w' from to :
  w_bank w' = w_bank w → LockDenom w' = LockDenom w → paid w w' from to 0.
Proof. intros Hb Hd a. unfold lbal, if_addr. rewrite Hb, Hd. repeat case_decide; lia. Qed.

Lemma paid_then w w1 w2 from to x :
  paid w w1 from to x → w_bank w2 = w_bank w1 → LockDenom w2 = LockDenom w1 → paid w w2 from to x.
Proof. intros Hp Hb Hd a. rewrite <- Hp. unfold lbal. by rewrite Hb, Hd. Qed.

(** The one-coin list the handlers build. *)
Lemma lock_coins w x coin cs :
  NewCoin (LockDenom w) x = Ok coin → NewCoins [coin] = Ok cs →
  0 ≤ x ∧ coins_amt (LockDenom w) cs = x.
Proof.
  intros E1 E2. sdk_inv. apply NewCoins_Ok in E2 as [E2 _]. split; [done|].
  rewrite E2. simpl. rewrite decide_True by done. lia.
Qed.

Definition set_lock (veID : Z) (lb : LockedBalance) w : gmap Z LockedBalance :=
  <[veID := lb]> (vs_LockedAmountByUser (w_ve w)).

Lemma frame_effect w w' :
  ve_frame w w' →
  lock_effect w w' (vs_LockedAmountByUser (w_ve w)) (GetTotalLockedAmount w) (GetNextVeID w) (w_nft w).
Proof.
  intros []. constructor; try done; unfold GetTotalLockedAmount, GetNextVeID; congruence.
Qed.

(** [DepositFor]: the lock and the total grow by the amount, which is taken
    from the sender when asked. *)
Lemma DepositFor_effect ctx w sender veID amount unlock locked (send : bool) w' :
  DepositFor ctx w sender veID amount unlock locked send = Ok w' →
  let locked' := mkLockedBalance (lb_Amount locked + amount) (if 0 <? unlock then unlock else lb_End locked) in
  lock_effect w w' (set_lock veID locked' w) (GetTotalLockedAmount w + Z.max 0 amount)
    (GetNextVeID w) (w_nft w) ∧
  paid w w' sender ve_addr (if send then Z.max 0 amount else 0) ∧
  RegulatedUnixTime (lb_End locked) = lb_End locked ∧ RegulatedUnixTime (lb_End locked') = lb_End locked'.
Proof.
  intros E locked'. unfold DepositFor in E. inv_ok E. rename r into w1. sdk_inv.
  apply RegulateUserCheckpoint_frame in E as (F & R1 & R2).
  fold locked' in F, R2.
  assert (lock_effect w w1 (vs_LockedAmountByUser (w_ve w)) (GetTotalLockedAmount w + Z.max 0 amount)
      (GetNextVeID w) (w_nft w) ∧
    paid w w1 sender ve_addr (if send then Z.max 0 amount else 0)) as [L P].
  { destruct (Z.ltb_spec 0 amount) as [Ha|Ha].
    - rewrite Z.max_r by lia. inv_ok E0. sdk_inv. destruct send.
      + inv_ok E. unfold on_bank in E. inv_ok E. subst. split; [by constructor|].
        destruct (lock_coins _ _ _ _ E0 E1) as [_ Hc].
        apply SendCoinsFromAccountToModule_Ok in E2. intros a.
        destruct (E2 (LockDenom w)) as [_ Hb]. rewrite Hc in Hb. apply Hb.
      + inv_ok E. subst. split; [by constructor|by apply paid_refl].
    - rewrite Z.max_l by lia. inv_ok E0. subst. split; [constructor; try done; lia|].
      destruct send; by apply paid_refl. }
  destruct L as [L1 L2 L3 L4 L5 L6 L7]. destruct F as [_ _ F1 F2 F3 F4 F5 F6 F7 F8].
  split_and!; [constructor|eapply paid_then; [exact P|exact F1|exact F3]|done|done].
  - rewrite F5. simpl. unfold set_lock. by rewrite L1.
  - rewrite <- L2. unfold GetTotalLockedAmount. by rewrite F4.
  - rewrite <- L3. unfold GetNextVeID. by rewrite F6.
  - rewrite <- L4. by rewrite F3.
  - by rewrite F2, <- L5.
  - by rewrite F7.
  - by rewrite F8.
Qed.

Lemma checkLockDenom_Ok w c u : checkLockDenom w c = Ok u → Denom c = LockDenom w.
Proof.
  unfold checkLockDenom. intros E. inv_ok E. by apply bool_decide_eq_false, dec_stable in G.
Qed.

(** Effects compose: the later one fixes the locks. *)
Lemma lock_effect_trans w w1 w2 l t n k l' t' n' k' :
  lock_effect w w1 l t n k → lock_effect w1 w2 l' t' n' k' → lock_effect w w2 l' t' n' k'.
Proof. intros [] []. constructor; congruence. Qed.

Lemma lock_effect_eq w w' l t n k l' t' n' k' :
  lock_effect w w' l t n k → l = l' → t = t' → n = n' → k = k' → lock_effect w w' l' t' n' k'.
Proof. intros ? -> -> -> ->. done. Qed.

Lemma burn_effect id w w' :
  on_nft (fun n => nft_Burn n VeNftClassId id) w = Ok w' →
  ∃ tokens, nft_Burn (w_nft w) VeNftClassId id = Ok tokens ∧ w_bank w' = w_bank w ∧
    lock_effect w w' (vs_LockedAmountByUser (w_ve w)) (GetTotalLockedAmount w) (GetNextVeID w) tokens.
Proof. unfold on_nft. intros E. inv_ok E. subst. eexists. by split_and!. Qed.

(** The checkpoint and the burn of a token that is consumed, run in [w]. *)
Lemma consume_effect ctx w i o lb id w1 w2 :
  RegulateUserCheckpoint ctx w i o lb = Ok w1 →
  on_nft (fun n => nft_Burn n VeNftClassId id) w1 = Ok w2 →
  ∃ tokens, nft_Burn (w_nft w) VeNftClassId id = Ok tokens ∧ w_bank w2 = w_bank w ∧
    RegulatedUnixTime (lb_End o) = lb_End o ∧
    lock_effect w w2 (vs_LockedAmountByUser (w_ve w)) (GetTotalLockedAmount w) (GetNextVeID w) tokens.
Proof.
  intros E1 E2. apply RegulateUserCheckpoint_frame in E1 as (F & R & _).
  apply burn_effect in E2 as (tokens & B & Hb & L2). pose proof (frame_effect _ _ F) as L1.
  exists tokens. split_and!; [by rewrite <- (vf_nft _ _ F)|by rewrite Hb, (vf_bank _ _ F)|done|].
  eapply lock_effect_eq; [exact (lock_effect_trans _ _ _ _ _ _ _ _ _ _ _ L1 L2)|..];
    [apply L1|apply L1|apply L1|done].
Qed.

Lemma Create_effect ctx w msg id unlock w' :
  Create ctx w msg = Ok (id, unlock, w') →
  let veID := GetNextVeID w in
  let amount := Amount (cr_Amount msg) in
  ∃ sender receiver tokens,
    getSenderReceiver (cr_Sender msg) (cr_To msg) = Ok (sender, receiver) ∧
    Denom (cr_Amount msg) = LockDenom w ∧
    id = VeIDFromUint64 veID ∧ unlock = RegulatedUnixTimeFromNow ctx (cr_LockDuration msg) ∧
    now_of ctx < unlock ≤ u64 (now_of ctx + MaxLockTime) ∧ veID ≠ EmptyVeID ∧ veID ≤ MaxVeID ∧
    nft_Mint (w_nft w) VeNftClassId id receiver = Ok tokens ∧
    lock_effect w w' (set_lock veID (mkLockedBalance amount unlock) w)
      (GetTotalLockedAmount w + Z.max 0 amount) (u64 (veID + 1)) tokens ∧
    paid w w' sender ve_addr (Z.max 0 amount).
Proof.
  intros E veID amount. subst veID amount. unfold Create in E. inv_ok E. apply checkLockDenom_Ok in E0.
  simplify_eq. unfold on_nft in E2. inv_ok E2. subst r0.
  apply DepositFor_effect in E3 as (L & P & _ & R). zbool.
  assert ((0 <? RegulatedUnixTimeFromNow ctx (cr_LockDuration msg)) = true) as Hu.
  { apply Z.ltb_lt. pose proof (u64_range (BlockTime ctx)). unfold now_of in *. lia. }
  rewrite Hu in *. exists s, s0, r1. split_and!; try done; try lia.
  destruct L. by constructor.
Qed.

Lemma Deposit_effect ctx w msg w' :
  Deposit ctx w msg = Ok w' →
  let veID := Uint64FromVeID (de_VeId msg) in
  let amount := Amount (de_Amount msg) in
  let old := GetLockedAmountByUser w veID in
  ∃ sender, AccAddressFromBech32 (de_Sender msg) = Ok sender ∧
    nft_HasNFT (w_nft w) VeNftClassId (de_VeId msg) = true ∧
    Denom (de_Amount msg) = LockDenom w ∧ 0 < lb_Amount old ∧ now_of ctx < lb_End old ∧
    lock_effect w w' (set_lock veID (mkLockedBalance (lb_Amount old + amount) (lb_End old)) w)
      (GetTotalLockedAmount w + Z.max 0 amount) (GetNextVeID w) (w_nft w) ∧
    paid w w' sender ve_addr (Z.max 0 amount).
Proof.
  intros E. cbv zeta. unfold Deposit in E. inv_ok E. apply checkLockDenom_Ok in E0. zbool.
  apply DepositFor_effect in E as (L & P & _). eexists. split_and!; [done..|exact L|exact P].
Qed.

Lemma ExtendTime_effect ctx w msg w' :
  ExtendTime ctx w msg = Ok w' →
  let veID := Uint64FromVeID (et_VeId msg) in
  let old := GetLockedAmountByUser w veID in
  let unlock := RegulatedUnixTimeFromNow ctx (et_LockDuration msg) in
  AccAddressFromBech32 (et_Sender msg) = Ok (nft_GetOwner (w_nft w) VeNftClassId (et_VeId msg)) ∧
  nft_HasNFT (w_nft w) VeNftClassId (et_VeId msg) = true ∧
  0 < lb_Amount old ∧ now_of ctx < lb_End old < unlock ∧ unlock ≤ u64 (now_of ctx + MaxLockTime) ∧
  lock_effect w w' (set_lock veID (mkLockedBalance (lb_Amount old) unlock) w)
    (GetTotalLockedAmount w) (GetNextVeID w) (w_nft w) ∧
  paid w w' ve_addr ve_addr 0.
Proof.
  intros E. cbv zeta. unfold ExtendTime in E. inv_ok E. zbool.
  apply bool_decide_eq_false, dec_stable in G2. subst r.
  apply DepositFor_effect in E as (L & P & _). rewrite Z.add_0_r, Z.max_id, Z.add_0_r in L.
  assert ((0 <? RegulatedUnixTimeFromNow ctx (et_LockDuration msg)) = true) as Hu.
  { apply Z.ltb_lt. pose proof (u64_range (BlockTime ctx)). unfold now_of in *. lia. }
  rewrite Hu in L. split_and!; try done; try lia.
  intros a. rewrite P. unfold if_addr. repeat case_decide; lia.
Qed.

(** The tests every operation that consumes a token makes. *)
Lemma CheckVeAttached_Ok w veID u :
  CheckVeAttached w veID = Ok u → GetVeAttached w veID = 0 ∧ GetVeVoted w veID = false.
Proof.
  unfold CheckVeAttached. intros E. inv_ok E. apply orb_false_iff in G as [G ->].
  split; [|done]. apply negb_false_iff in G. lia.
Qed.

Lemma Merge_effect dlg ctx w msg w' :
  Merge dlg ctx w msg = Ok w' → 0 ≤ lb_End (GetLockedAmountByUser w (Uint64FromVeID (me_ToVeId msg))) →
  let from := Uint64FromVeID (me_FromVeId msg) in
  let to := Uint64FromVeID (me_ToVeId msg) in
  let lockedFrom := GetLockedAmountByUser w from in
  let lockedTo := GetLockedAmountByUser w to in
  ∃ sender tokens, AccAddressFromBech32 (me_Sender msg) = Ok sender ∧
    nft_GetOwner (w_nft w) VeNftClassId (me_FromVeId msg) = sender ∧
    nft_GetOwner (w_nft w) VeNftClassId (me_ToVeId msg) = sender ∧
    GetVeAttached w from = 0 ∧ GetVeVoted w from = false ∧ is_delegated dlg w from = false ∧
    nft_Burn (w_nft w) VeNftClassId (me_FromVeId msg) = Ok tokens ∧
    RegulatedUnixTime (lb_End lockedFrom) = lb_End lockedFrom ∧
    RegulatedUnixTime (lb_End lockedTo) = lb_End lockedTo ∧
    lock_effect w w'
      (<[to := mkLockedBalance (lb_Amount lockedTo + lb_Amount lockedFrom)
                 (Z.max (lb_End lockedFrom) (lb_End lockedTo))]>
         (delete from (vs_LockedAmountByUser (w_ve w))))
      (GetTotalLockedAmount w + Z.max 0 (lb_Amount lockedFrom)) (GetNextVeID w) tokens ∧
    paid w w' ve_addr ve_addr 0.
Proof.
  intros E He. cbv zeta in *. unfold Merge in E. inv_ok E.
  apply bool_decide_eq_false, dec_stable in G, G0. apply CheckVeAttached_Ok in E1 as [A V].
  destruct (consume_effect _ _ _ _ _ _ _ _ E2 E3) as (tokens & B & Hb & R1 & L1).
  apply DepositFor_effect in E as (L2 & P & R2 & _).
  set (from := Uint64FromVeID (me_FromVeId msg)) in *. set (to := Uint64FromVeID (me_ToVeId msg)) in *.
  exists r, tokens. split_and!; try done.
  - eapply lock_effect_eq; [eapply lock_effect_trans; [|exact L2]; destruct L1; by constructor|..].
    + unfold set_lock. rewrite (le_locked _ _ _ _ _ _ L1). simpl. f_equal. f_equal.
      destruct (Z.ltb_spec (lb_End (GetLockedAmountByUser w from)) (lb_End (GetLockedAmountByUser w to)));
        match goal with |- (if ?b then _ else _) = _ => destruct b eqn:? end; zbool; lia.
    + by rewrite (le_total _ _ _ _ _ _ L1).
    + by rewrite (le_next _ _ _ _ _ _ L1).
    + by rewrite (le_nft _ _ _ _ _ _ L1).
  - intros a. rewrite P. unfold lbal. rewrite Hb, (le_denom _ _ _ _ _ _ L1).
    unfold if_addr. repeat case_decide; simpl; unfold LockDenom; simpl; lia.
Qed.

Lemma Withdraw_effect dlg ctx w msg w' :
  Withdraw dlg ctx w msg = Ok w' →
  let veID := Uint64FromVeID (wd_VeId msg) in
  let locked := GetLockedAmountByUser w veID in
  ∃ sender tokens, AccAddressFromBech32 (wd_Sender msg) = Ok sender ∧
    nft_GetOwner (w_nft w) VeNftClassId (wd_VeId msg) = sender ∧
    GetVeAttached w veID = 0 ∧ GetVeVoted w veID = false ∧ is_delegated dlg w veID = false ∧
    lb_End locked ≤ now_of ctx ∧ 0 ≤ lb_Amount locked ≤ GetTotalLockedAmount w ∧
    nft_Burn (w_nft w) VeNftClassId (wd_VeId msg) = Ok tokens ∧
    lock_effect w w' (delete veID (vs_LockedAmountByUser (w_ve w)))
      (GetTotalLockedAmount w - lb_Amount locked) (GetNextVeID w) tokens ∧
    paid w w' ve_addr sender (lb_Amount locked).
Proof.
  intros E. cbv zeta. unfold Withdraw in E. inv_ok E.
  apply bool_decide_eq_false, dec_stable in G. apply CheckVeAttached_Ok in E1 as [A V].
  destruct (consume_effect _ _ _ _ _ _ _ _ E3 E4) as (tokens & Bn & Hb & R1 & L1).
  destruct (lock_coins _ _ _ _ E5 E6) as [Hpos Hc].
  unfold on_bank in E. inv_ok E. sdk_inv. zbool.
  apply SendCoinsFromModuleToAccount_Ok in E1. destruct L1 as [L1 L2 L3 L4 L5 L6 L7].
  eexists _, tokens. split_and!; try done; try lia.
  - unfold GetTotalLockedAmount in *. simpl in *. lia.
  - intros a. destruct (E1 (LockDenom r3)) as [_ Hbal]. rewrite Hc in Hbal.
    unfold lbal. specialize (Hbal a). rewrite Hb in Hbal. rewrite L4 in Hbal. simpl in Hbal.
    change (LockDenom (set_bank r6 r3)) with (LockDenom r3). rewrite L4. exact Hbal.
Qed.

Lemma Slash_effect ctx w veID amount w' :
  SlashLockedAmountByUser ctx w veID amount = Ok w' →
  let locked := GetLockedAmountByUser w veID in
  0 ≤ amount ∧ RegulatedUnixTime (lb_End locked) = lb_End locked ∧
  lock_effect w w' (set_lock veID (mkLockedBalance (lb_Amount locked - amount) (lb_End locked)) w)
    (GetTotalLockedAmount w - amount) (GetNextVeID w) (w_nft w) ∧
  ∀ a, lbal w' a = lbal w a - if_addr a ve_addr amount.
Proof.
  intros E. cbv zeta. unfold SlashLockedAmountByUser in E. inv_ok E.
  destruct (on_bank (fun b => BurnCoins b ve_ModuleName r0) w) as [w1| |] eqn:Ebank; simplify_eq E2; intros ->.
  unfold on_bank in Ebank. inv_ok Ebank. apply BurnCoins_Ok in E5.
  apply Int_Sub_Ok in E3, E4. subst. destruct (lock_coins _ _ _ _ E0 E1) as [Hpos Hc].
  apply RegulateUserCheckpoint_frame in E as (F & R1 & _).
  pose proof (frame_effect _ _ F) as L. split_and!; [done|done|destruct L; by constructor|].
  intros a. unfold lbal. rewrite (vf_bank _ _ F), (vf_denom _ _ F). simpl.
  destruct (E5 (LockDenom w)) as [_ Hb]. rewrite Hc in Hb. apply Hb.
Qed.
End VeInv.
