(* ===== verification/VeSafety.v ===== *)
(** The ve module as a state machine: its message service, the steps other
    modules make on its state, and the invariant that every reachable state
    has its locks backed by coins and represented by tokens. *)

From stdpp Require Import base gmap strings list.
From Stdlib Require Import ZArith Lia.
From S2P Require Import Prelude Sdk Types MakerTypes VeTypes World VeKeeper VeVoting VeMsg VeEmission VeInv.

#[local] Open Scope Z_scope.

Inductive ve_msg :=
| VCreate (m : MsgCreate)
| VDeposit (m : MsgDeposit)
| VExtendTime (m : MsgExtendTime)
| VMerge (m : MsgMerge)
| VWithdraw (m : MsgWithdraw).

Section VeMachine.
Context `{!Sdk, !BankKeeper, !NftKeeper}.
Context (dlg : option (World → Z → Z)).
Implicit Types (w : World) (ctx : Ctx).

Definition ve_ValidateBasic (m : ve_msg) : outcome unit :=
  match m with
  | VCreate m => MsgCreate_ValidateBasic m
  | VDeposit m => MsgDeposit_ValidateBasic m
  | VExtendTime m => MsgExtendTime_ValidateBasic m
  | VMerge m => MsgMerge_ValidateBasic m
  | VWithdraw m => MsgWithdraw_ValidateBasic m
  end.

(** The module's Msg service: the message server's method for the message. *)
Definition ve_handler ctx w (m : ve_msg) : outcome World :=
  match m with
  | VCreate m => snd <$> Create ctx w m
  | VDeposit m => Deposit ctx w m
  | VExtendTime m => ExtendTime ctx w m
  | VMerge m => Merge dlg ctx w m
  | VWithdraw m => Withdraw dlg ctx w m
  end.

Definition ve_sender (m : ve_msg) : string :=
  match m with
  | VCreate m => cr_Sender m
  | VDeposit m => de_Sender m
  | VExtendTime m => et_Sender m
  | VMerge m => me_Sender m
  | VWithdraw m => wd_Sender m
  end.

(** The signer of a message is not the module's own account, which has no
    key. *)
Definition ve_user (m : ve_msg) : Prop := AccAddressFromBech32 (ve_sender m) ≠ Ok ve_addr.

(** Steps of the chain on the ve state. *)
Inductive ve_step (ctx : Ctx) : World → World → Prop :=
| VeDeliver w m w' :
    ve_ValidateBasic m = Ok tt → ve_user m → ve_handler ctx w m = Ok w' → ve_step ctx w w'
| VeEndBlock w w' : ve_EndBlocker ctx w = Ok w' → ve_step ctx w w'
| VeSendToken w class id sender receiver w' :
    nft_keeper_Send w class id sender receiver = Ok w' → ve_step ctx w w'
| VeAttach w veID : ve_step ctx w (IncVeAttached w veID)
| VeDetach w veID w' : DecVeAttached w veID = Ok w' → ve_step ctx w w'
| VeVote w veID voted : ve_step ctx w (SetVeVoted w veID voted)
| VeClaim w veID w' : Claim ctx w veID = Ok w' → ve_step ctx w w'
  (* the staking module slashes a lock by at most its amount *)
| VeSlash w veID amount w' :
    is_Some (vs_LockedAmountByUser (w_ve w) !! veID) →
    amount ≤ lb_Amount (GetLockedAmountByUser w veID) →
    SlashLockedAmountByUser ctx w veID amount = Ok w' → ve_step ctx w w'
  (* the vesting module adds its allocation to the emission *)
| VeAddEmission w emission w' : AddTotalEmission w emission = Ok w' → ve_step ctx w w'
  (* anything else: other stores change and coins move, but none leave the
     module's account *)
| VeOther w w' :
    w_ve w' = w_ve w → w_nft w' = w_nft w → lbal w ve_addr ≤ lbal w' ve_addr → ve_step ctx w w'.

(** Before genesis nothing is stored per user or per time. *)
Definition ve_store_empty w : Prop :=
  vs_LockedAmountByUser (w_ve w) = ∅ ∧ vs_UserEpoch (w_ve w) = ∅ ∧
  vs_UserPointHistoryByUserEpoch (w_ve w) = ∅ ∧ vs_PointHistoryByEpoch (w_ve w) = ∅ ∧
  vs_SlopeChange (w_ve w) = ∅.

(** States reachable at a block time from genesis, with block times that do
    not go back and before 2^62 checkpoints were made. *)
Inductive ve_reach (lockDenom : string) : Z → World → Prop :=
| ve_reach_genesis w w' t :
    nft_HasClass (w_nft w) VeNftClassId = false →
    (∀ s, nft_HasNFT (w_nft w) VeNftClassId s = false) →
    ve_store_empty w → 0 ≤ lbal w' ve_addr →
    ve_InitGenesis w lockDenom = Ok w' → 0 ≤ t → ve_reach lockDenom t w'
| ve_reach_step t w ctx w' :
    ve_reach lockDenom t w → t ≤ BlockTime ctx < 2 ^ 63 → ve_step ctx w w' →
    GetEpoch w' < 2 ^ 62 → ve_reach lockDenom (BlockTime ctx) w'.
End VeMachine.

Section VeInvariant.
Context `{!Sdk, !BankKeeper, !NftKeeper, !SdkLaws, !BankLaws, !NftLaws}.
Context (dlg : option (World → Z → Z)).
Implicit Types (w : World) (ctx : Ctx).

(** A lock is a non-negative amount until the start of a week. *)
Definition lock_ok (lb : LockedBalance) : Prop :=
  0 ≤ lb_Amount lb ∧ 0 ≤ lb_End lb ∧ RegulatedUnixTime (lb_End lb) = lb_End lb.

Definition has_token w (s : string) : bool := nft_HasNFT (w_nft w) VeNftClassId s.

Record ve_inv w : Prop := {
  vi_next : 0 ≤ GetNextVeID w < 2 ^ 64;
  vi_locks veID lb :
    vs_LockedAmountByUser (w_ve w) !! veID = Some lb →
    0 < veID < GetNextVeID w ∧ lock_ok lb ∧ has_token w (VeIDFromUint64 veID) = true;
  vi_tokens s :
    has_token w s = true →
    ∃ veID, s = VeIDFromUint64 veID ∧ is_Some (vs_LockedAmountByUser (w_ve w) !! veID);
  vi_solvent : locked_sum w ≤ lbal w ve_addr;
  vi_total : locked_sum w ≤ GetTotalLockedAmount w;
}.

(** A token of a reachable state is the printed form of the number the
    handlers parse from it. *)
Lemma token_lock w s :
  ve_inv w → has_token w s = true →
  s = VeIDFromUint64 (Uint64FromVeID s) ∧ 0 < Uint64FromVeID s < GetNextVeID w ∧
  vs_LockedAmountByUser (w_ve w) !! Uint64FromVeID s = Some (GetLockedAmountByUser w (Uint64FromVeID s)) ∧
  lock_ok (GetLockedAmountByUser w (Uint64FromVeID s)).
Proof.
  intros I Hs. destruct (vi_tokens _ I _ Hs) as (n & -> & [lb Hl]).
  destruct (vi_locks _ I _ _ Hl) as (Hn & Hok & _). pose proof (vi_next _ I).
  rewrite Uint64FromVeID_print by lia. unfold GetLockedAmountByUser. by rewrite Hl.
Qed.

(** The owner of a token, compared with an address, is a proof that the token
    exists. *)
Lemma owner_has_token w s a s' :
  AccAddressFromBech32 s' = Ok a → nft_GetOwner (w_nft w) VeNftClassId s = a → has_token w s = true.
Proof.
  intros Ha Ho. unfold has_token. destruct (nft_HasNFT _ _ _) eqn:E; [done|].
  apply nft_GetOwner_missing in E. apply AccAddressFromBech32_nonempty in Ha. congruence.
Qed.

Lemma VeID_inj i j : 0 < i < 2 ^ 64 → 0 < j < 2 ^ 64 → VeIDFromUint64 i = VeIDFromUint64 j → i = j.
Proof.
  intros Hi Hj E. rewrite <- (Uint64FromVeID_print i), <- (Uint64FromVeID_print j) by lia. by rewrite E.
Qed.

(** Two different tokens have different locks. *)
Lemma token_inj w s s' :
  ve_inv w → has_token w s = true → has_token w s' = true →
  Uint64FromVeID s = Uint64FromVeID s' → s = s'.
Proof.
  intros I Hs Hs' E. destruct (token_lock _ _ I Hs) as [-> _], (token_lock _ _ I Hs') as [-> _].
  by rewrite E.
Qed.

Lemma locked_sum_set w w' veID lb :
  vs_LockedAmountByUser (w_ve w') = set_lock veID lb w →
  locked_sum w' = locked_sum w - lb_Amount (GetLockedAmountByUser w veID) + lb_Amount lb.
Proof. intros E. unfold locked_sum. rewrite E. unfold set_lock. by rewrite map_sum_insert, at_lock. Qed.

Lemma locked_sum_delete w w' veID :
  vs_LockedAmountByUser (w_ve w') = delete veID (vs_LockedAmountByUser (w_ve w)) →
  locked_sum w' = locked_sum w - lb_Amount (GetLockedAmountByUser w veID).
Proof. intros E. unfold locked_sum. rewrite E. by rewrite map_sum_delete, at_lock. Qed.

Lemma locked_sum_nonneg w : ve_inv w → 0 ≤ locked_sum w.
Proof. intros I. apply map_sum_nonneg. intros i lb Hl. apply (vi_locks _ I _ _ Hl). Qed.

(** An existing lock is replaced. *)
Lemma set_lock_inv w w' veID lb total :
  ve_inv w → is_Some (vs_LockedAmountByUser (w_ve w) !! veID) → lock_ok lb →
  lock_effect w w' (set_lock veID lb w) total (GetNextVeID w) (w_nft w) →
  locked_sum w' ≤ lbal w' ve_addr → locked_sum w' ≤ total → ve_inv w'.
Proof.
  intros I [lb0 Hl] Hok [L1 L2 L3 L4 L5 _ _] Hs Ht. destruct (vi_locks _ I _ _ Hl) as (Hn & _ & Hk).
  constructor; [rewrite L3; apply I| | |done|by rewrite L2].
  - intros i x. rewrite L1, L3. unfold set_lock, has_token. rewrite L5.
    intros [[<- <-]|[_ Hi]]%lookup_insert_Some; [done|by apply I].
  - intros s. unfold has_token. rewrite L1, L5. intros Hs'.
    destruct (vi_tokens _ I s Hs') as (n & -> & Hn'). exists n. split; [done|].
    unfold set_lock. rewrite lookup_insert. case_decide; eauto.
Qed.

(** A lock is removed and its token burned. *)
Lemma delete_lock_inv w w' s total tokens :
  ve_inv w → has_token w s = true → nft_Burn (w_nft w) VeNftClassId s = Ok tokens →
  lock_effect w w' (delete (Uint64FromVeID s) (vs_LockedAmountByUser (w_ve w))) total (GetNextVeID w) tokens →
  locked_sum w' ≤ lbal w' ve_addr → locked_sum w' ≤ total → ve_inv w'.
Proof.
  intros I Hk B [L1 L2 L3 L4 L5 _ _] Hs Ht.
  apply nft_Burn_Ok in B as (_ & Hgone & Hrest). destruct (token_lock _ _ I Hk) as (Es & Hn & _).
  constructor; [rewrite L3; apply I| | |done|by rewrite L2].
  - intros i x. rewrite L1, L3. intros [Hi Hl]%lookup_delete_Some.
    destruct (vi_locks _ I _ _ Hl) as (Hi' & Hok & Hki). split; [exact Hi'|split; [exact Hok|]].
    unfold has_token. rewrite L5. destruct (Hrest VeNftClassId (VeIDFromUint64 i)) as [-> _]; [|done].
    rewrite Es. intros E%(f_equal snd). pose proof (vi_next _ I). apply VeID_inj in E; [congruence|lia|lia].
  - intros s'. unfold has_token. rewrite L5, L1. intros Hs'.
    assert (s' ≠ s) as Hne by congruence.
    destruct (Hrest VeNftClassId s') as [E _]; [congruence|]. rewrite E in Hs'.
    destruct (vi_tokens _ I s' Hs') as (n & -> & Hl). exists n. split; [done|].
    rewrite lookup_delete_ne; [done|]. intros <-. apply Hne. by symmetry.
Qed.

(** A fresh identifier gets a lock and a token. *)
Lemma create_lock_inv w w' lb total tokens owner :
  ve_inv w → lock_ok lb → GetNextVeID w ≠ EmptyVeID → GetNextVeID w ≤ MaxVeID →
  nft_Mint (w_nft w) VeNftClassId (VeIDFromUint64 (GetNextVeID w)) owner = Ok tokens →
  lock_effect w w' (set_lock (GetNextVeID w) lb w) total (u64 (GetNextVeID w + 1)) tokens →
  locked_sum w' ≤ lbal w' ve_addr → locked_sum w' ≤ total → ve_inv w'.
Proof.
  intros I Hok Hz Hmax M [L1 L2 L3 L4 L5 _ _] Hs Ht. pose proof (vi_next _ I) as Hn.
  unfold EmptyVeID, MaxVeID in *. rewrite u64_small in L3 by lia.
  apply nft_Mint_Ok in M as (_ & Hnew & _ & Hrest).
  constructor; [lia| | |done|by rewrite L2].
  - intros i x. rewrite L1, L3. unfold set_lock, has_token. rewrite L5.
    intros [[<- <-]|[Hi Hl]]%lookup_insert_Some; [split_and!; try done; lia|].
    destruct (vi_locks _ I _ _ Hl) as (Hi' & Hoki & Hki). split_and!; try done; try lia.
    destruct (Hrest VeNftClassId (VeIDFromUint64 i)) as [-> _]; [|done].
    intros E%(f_equal snd). apply VeID_inj in E; lia.
  - intros s. unfold has_token. rewrite L5, L1. intros Hs'. unfold set_lock.
    destruct (decide (s = VeIDFromUint64 (GetNextVeID w))) as [->|Hne].
    { eexists. split; [done|]. by rewrite lookup_insert_eq. }
    destruct (Hrest VeNftClassId s) as [E _]; [congruence|]. rewrite E in Hs'.
    destruct (vi_tokens _ I s Hs') as (n & -> & Hl). exists n. split; [done|].
    rewrite lookup_insert. case_decide; eauto.
Qed.

(** The next identifier has no lock yet. *)
Lemma next_fresh w : ve_inv w → lb_Amount (GetLockedAmountByUser w (GetNextVeID w)) = 0.
Proof.
  intros I. unfold GetLockedAmountByUser. destruct (_ !! _) as [lb|] eqn:Hl; [|done].
  destruct (vi_locks _ I _ _ Hl). lia.
Qed.

(** The operations that leave locks, tokens and the counter alone. *)
Lemma same_locks_inv w w' :
  ve_inv w → vs_LockedAmountByUser (w_ve w') = vs_LockedAmountByUser (w_ve w) →
  GetTotalLockedAmount w' = GetTotalLockedAmount w → GetNextVeID w' = GetNextVeID w →
  (∀ s, has_token w' s = has_token w s) → lbal w ve_addr ≤ lbal w' ve_addr → ve_inv w'.
Proof.
  intros [I1 I2 I3 I4 I5] HL HT HN Hk Hb.
  constructor; unfold locked_sum; rewrite ?HL, ?HT, ?HN; try done.
  - intros i lb Hl. rewrite Hk. eauto.
  - intros s. rewrite Hk. auto.
  - unfold locked_sum in I4. lia.
Qed.

Lemma frame_inv w w' : ve_inv w → ve_frame w w' → ve_inv w'.
Proof.
  intros I F. destruct (frame_effect _ _ F) as [L1 L2 L3 L4 L5 _ _].
  apply (same_locks_inv w); try done.
  - intros s. unfold has_token. by rewrite L5.
  - unfold lbal. rewrite (vf_bank _ _ F), L4. lia.
Qed.

Lemma max0 x : 0 < x → Z.max 0 x = x.
Proof. lia. Qed.

(** Coins paid to the module account by somebody else. *)
Lemma paid_in w w' from x : paid w w' from ve_addr x → from ≠ ve_addr → lbal w' ve_addr = lbal w ve_addr + x.
Proof. intros P Hf. rewrite P. unfold if_addr. rewrite decide_False, decide_True by done. lia. Qed.

Lemma paid_out w w' to x : paid w w' ve_addr to x → 0 ≤ x → lbal w ve_addr - x ≤ lbal w' ve_addr.
Proof. intros P Hx. rewrite P. unfold if_addr. repeat case_decide; subst; try done; lia. Qed.

Lemma regulated_from_now ctx d :
  RegulatedUnixTime (RegulatedUnixTimeFromNow ctx d) = RegulatedUnixTimeFromNow ctx d.
Proof. apply RegulatedUnixTime_idemp. Qed.

Lemma Create_inv ctx w m id unlock w' :
  ve_inv w → MsgCreate_ValidateBasic m = Ok tt → ve_user (VCreate m) →
  Create ctx w m = Ok (id, unlock, w') → ve_inv w'.
Proof.
  intros I V U E. unfold MsgCreate_ValidateBasic in V. inv_ok V. zbool.
  apply Create_effect in E as (sender & receiver & tokens & Es & Ed & -> & -> & Ht & Hz & Hm & M & L & P).
  pose proof (locked_sum_set _ _ _ _ (le_locked _ _ _ _ _ _ L)) as S.
  rewrite max0 in P, L by lia. rewrite next_fresh in S by done. simpl in S.
  pose proof (vi_solvent _ I). pose proof (vi_total _ I).
  assert (sender ≠ ve_addr) as Hne.
  { unfold getSenderReceiver in Es. inv_ok Es; simplify_eq; unfold ve_user in U; simpl in U; congruence. }
  pose proof (paid_in _ _ _ _ P Hne).
  eapply create_lock_inv; [exact I| |exact Hz|exact Hm|exact M|exact L|lia|lia].
  pose proof (u64_range (BlockTime ctx)). unfold now_of in Ht.
  split_and!; simpl; [lia|lia|apply regulated_from_now].
Qed.

Lemma Deposit_inv ctx w m w' :
  ve_inv w → MsgDeposit_ValidateBasic m = Ok tt → ve_user (VDeposit m) →
  Deposit ctx w m = Ok w' → ve_inv w'.
Proof.
  intros I V U E. unfold MsgDeposit_ValidateBasic in V. inv_ok V. zbool.
  apply Deposit_effect in E as (sender & Es & Hk & Ed & _ & _ & L & P).
  destruct (token_lock _ _ I Hk) as (_ & _ & Hl & (Ha & He & Hr)).
  pose proof (locked_sum_set _ _ _ _ (le_locked _ _ _ _ _ _ L)) as S. simpl in S.
  rewrite max0 in P, L by lia. pose proof (vi_solvent _ I). pose proof (vi_total _ I).
  assert (sender ≠ ve_addr) as Hne by (unfold ve_user in U; simpl in U; congruence).
  pose proof (paid_in _ _ _ _ P Hne).
  eapply set_lock_inv; [exact I|by eexists| |exact L|lia|lia]. split_and!; simpl; [lia|done|done].
Qed.

Lemma ExtendTime_inv ctx w m w' :
  ve_inv w → ExtendTime ctx w m = Ok w' → ve_inv w'.
Proof.
  intros I E. apply ExtendTime_effect in E as (_ & Hk & Ha & He & _ & L & P).
  destruct (token_lock _ _ I Hk) as (_ & _ & Hl & _).
  pose proof (locked_sum_set _ _ _ _ (le_locked _ _ _ _ _ _ L)) as S. simpl in S.
  pose proof (vi_solvent _ I). pose proof (vi_total _ I).
  pose proof (paid_out _ _ _ _ P ltac:(lia)). pose proof (u64_range (BlockTime ctx)). unfold now_of in He.
  eapply set_lock_inv; [exact I|by eexists| |exact L|lia|lia].
  split_and!; simpl; [lia|lia|apply regulated_from_now].
Qed.

Lemma Withdraw_inv ctx w m w' : ve_inv w → Withdraw dlg ctx w m = Ok w' → ve_inv w'.
Proof.
  intros I E. apply Withdraw_effect in E as (sender & tokens & Es & Ho & _ & _ & _ & _ & Ha & B & L & P).
  pose proof (owner_has_token _ _ _ _ Es Ho) as Hk.
  pose proof (locked_sum_delete _ _ _ (le_locked _ _ _ _ _ _ L)) as S.
  pose proof (vi_solvent _ I). pose proof (vi_total _ I). pose proof (paid_out _ _ _ _ P ltac:(lia)).
  eapply delete_lock_inv; [exact I|exact Hk|exact B|exact L|lia|lia].
Qed.

(** The tokens of a merge are distinct, so their locks are. *)
Lemma merge_distinct ctx w m w' :
  ve_inv w → MsgMerge_ValidateBasic m = Ok tt → Merge dlg ctx w m = Ok w' →
  has_token w (me_FromVeId m) = true ∧ has_token w (me_ToVeId m) = true ∧
  Uint64FromVeID (me_FromVeId m) ≠ Uint64FromVeID (me_ToVeId m).
Proof.
  intros I V E. unfold MsgMerge_ValidateBasic in V. inv_ok V.
  apply bool_decide_eq_false in G1. unfold Merge in E. inv_ok E.
  apply bool_decide_eq_false, dec_stable in G2, G3. subst.
  assert (has_token w (me_FromVeId m) = true) as H1' by by eapply owner_has_token.
  assert (has_token w (me_ToVeId m) = true) as H2' by by eapply owner_has_token.
  split_and!; [done|done|]. intros Eq. by apply G1, (token_inj w).
Qed.

(** Before the coins of the first token are added to the second. *)
Definition merge_mid w (s : string) tokens : World :=
  set_nft tokens (DeleteLockedAmountByUser w (Uint64FromVeID s)).

Lemma Merge_inv ctx w m w' :
  ve_inv w → MsgMerge_ValidateBasic m = Ok tt → Merge dlg ctx w m = Ok w' → ve_inv w'.
Proof.
  intros I V E. destruct (merge_distinct _ _ _ _ I V E) as (Hf & Ht & Hne).
  destruct (token_lock _ _ I Hf) as (_ & _ & Hlf & (Haf & Hef & Hrf)).
  destruct (token_lock _ _ I Ht) as (_ & _ & Hlt & (Hat & Het & Hrt)).
  apply Merge_effect in E as (sender & tokens & _ & _ & _ & _ & _ & _ & B & _ & _ & L & P); [|done].
  set (w1 := merge_mid w (me_FromVeId m) tokens).
  pose proof (locked_sum_delete w w1 _ eq_refl) as S1.
  pose proof (vi_solvent _ I). pose proof (vi_total _ I). pose proof (paid_out _ _ _ _ P ltac:(lia)).
  assert (ve_inv w1) as I1.
  { eapply (delete_lock_inv w w1 _ (GetTotalLockedAmount w)); [exact I|exact Hf|exact B|by constructor| |lia].
    change (lbal w1 ve_addr) with (lbal w ve_addr). lia. }
  set (lb := mkLockedBalance _ _) in L.
  assert (lock_effect w1 w' (set_lock (Uint64FromVeID (me_ToVeId m)) lb w1)
    (GetTotalLockedAmount w + Z.max 0 (lb_Amount (GetLockedAmountByUser w (Uint64FromVeID (me_FromVeId m)))))
    (GetNextVeID w1) (w_nft w1)) as L' by (destruct L; by constructor).
  assert (vs_LockedAmountByUser (w_ve w1) !! Uint64FromVeID (me_ToVeId m) =
    Some (GetLockedAmountByUser w (Uint64FromVeID (me_ToVeId m)))) as Hl1.
  { simpl. by rewrite lookup_delete_ne. }
  pose proof (locked_sum_set _ _ _ _ (le_locked _ _ _ _ _ _ L')) as S2.
  unfold GetLockedAmountByUser at 1 in S2. rewrite Hl1 in S2. simpl in S2.
  eapply set_lock_inv; [exact I1|by eexists| |exact L'|lia|lia].
  split_and!; simpl; [lia|lia|]. destruct (Z.max_spec (lb_End (GetLockedAmountByUser w (Uint64FromVeID (me_FromVeId m))))
    (lb_End (GetLockedAmountByUser w (Uint64FromVeID (me_ToVeId m))))) as [[_ ->]|[_ ->]]; done.
Qed.

Lemma Slash_inv ctx w veID amount w' :
  ve_inv w → is_Some (vs_LockedAmountByUser (w_ve w) !! veID) →
  amount ≤ lb_Amount (GetLockedAmountByUser w veID) →
  SlashLockedAmountByUser ctx w veID amount = Ok w' → ve_inv w'.
Proof.
  intros I Hl Ha E. apply Slash_effect in E as (Hp & Hr & L & P).
  pose proof (locked_sum_set _ _ _ _ (le_locked _ _ _ _ _ _ L)) as S. simpl in S.
  pose proof (vi_solvent _ I). pose proof (vi_total _ I).
  specialize (P ve_addr). unfold if_addr in P. rewrite decide_True in P by done.
  eapply set_lock_inv; [exact I|exact Hl| |exact L|lia|lia].
  destruct Hl as [lb Hl]. destruct (vi_locks _ I _ _ Hl) as (_ & (_ & He & _) & _).
  split_and!; simpl; [lia| |exact Hr]. unfold GetLockedAmountByUser. by rewrite Hl.
Qed.

(** ** The recorded total against the sum of the locks *)

Lemma Create_total ctx w m id unlock w' :
  ve_inv w → MsgCreate_ValidateBasic m = Ok tt → Create ctx w m = Ok (id, unlock, w') →
  GetTotalLockedAmount w' - locked_sum w' = GetTotalLockedAmount w - locked_sum w + 0.
Proof.
  intros I V E. unfold MsgCreate_ValidateBasic in V. inv_ok V. zbool.
  apply Create_effect in E as (? & ? & ? & _ & _ & _ & _ & _ & _ & _ & _ & L & _).
  rewrite (locked_sum_set _ _ _ _ (le_locked _ _ _ _ _ _ L)), (le_total _ _ _ _ _ _ L), next_fresh by done.
  simpl. lia.
Qed.

Lemma Deposit_total ctx w m w' :
  MsgDeposit_ValidateBasic m = Ok tt → Deposit ctx w m = Ok w' →
  GetTotalLockedAmount w' - locked_sum w' = GetTotalLockedAmount w - locked_sum w + 0.
Proof.
  intros V E. unfold MsgDeposit_ValidateBasic in V. inv_ok V. zbool.
  apply Deposit_effect in E as (? & _ & _ & _ & _ & _ & L & _).
  rewrite (locked_sum_set _ _ _ _ (le_locked _ _ _ _ _ _ L)), (le_total _ _ _ _ _ _ L). simpl. lia.
Qed.

Lemma ExtendTime_total ctx w m w' :
  ExtendTime ctx w m = Ok w' →
  GetTotalLockedAmount w' - locked_sum w' = GetTotalLockedAmount w - locked_sum w + 0.
Proof.
  intros E. apply ExtendTime_effect in E as (_ & _ & _ & _ & _ & L & _).
  rewrite (locked_sum_set _ _ _ _ (le_locked _ _ _ _ _ _ L)), (le_total _ _ _ _ _ _ L). simpl. lia.
Qed.

Lemma Withdraw_total ctx w m w' :
  Withdraw dlg ctx w m = Ok w' →
  GetTotalLockedAmount w' - locked_sum w' = GetTotalLockedAmount w - locked_sum w + 0.
Proof.
  intros E. apply Withdraw_effect in E as (? & ? & _ & _ & _ & _ & _ & _ & _ & _ & L & _).
  rewrite (locked_sum_delete _ _ _ (le_locked _ _ _ _ _ _ L)), (le_total _ _ _ _ _ _ L). lia.
Qed.

(** A merge keeps the sum of the locks. *)
Lemma Merge_sum ctx w m w' :
  ve_inv w → MsgMerge_ValidateBasic m = Ok tt → Merge dlg ctx w m = Ok w' →
  locked_sum w' = locked_sum w.
Proof.
  intros I V E. destruct (merge_distinct _ _ _ _ I V E) as (Hf & Ht & Hne).
  destruct (token_lock _ _ I Ht) as (_ & _ & Hlt & (_ & Het & _)).
  apply Merge_effect in E as (sender & tokens & _ & _ & _ & _ & _ & _ & _ & _ & _ & L & _); [|done].
  set (w1 := DeleteLockedAmountByUser w (Uint64FromVeID (me_FromVeId m))).
  rewrite (locked_sum_set w1 w' _ _ (le_locked _ _ _ _ _ _ L)), (locked_sum_delete w w1 _ eq_refl).
  unfold GetLockedAmountByUser at 2. unfold w1 at 1. simpl. rewrite lookup_delete_ne by done.
  rewrite Hlt. simpl. lia.
Qed.

Lemma Merge_total ctx w m w' :
  ve_inv w → MsgMerge_ValidateBasic m = Ok tt → Merge dlg ctx w m = Ok w' →
  GetTotalLockedAmount w' - locked_sum w' = GetTotalLockedAmount w - locked_sum w +
    lb_Amount (GetLockedAmountByUser w (Uint64FromVeID (me_FromVeId m))).
Proof.
  intros I V E. rewrite (Merge_sum _ _ _ _ I V E). destruct (merge_distinct _ _ _ _ I V E) as (Hf & Ht & _).
  destruct (token_lock _ _ I Ht) as (_ & _ & _ & (_ & Het & _)).
  destruct (token_lock _ _ I Hf) as (_ & _ & _ & (Haf & _)).
  apply Merge_effect in E as (sender & tokens & _ & _ & _ & _ & _ & _ & _ & _ & _ & L & _); [|done].
  rewrite (le_total _ _ _ _ _ _ L). lia.
Qed.

(** A claim pays from the distribution pool. *)
Lemma Claim_inv ctx w veID w' : ve_inv w → Claim ctx w veID = Ok w' → ve_inv w'.
Proof.
  intros I E. unfold Claim in E. apply bind_Ok in E as (w1 & E1 & E).
  assert (ve_inv w1) as I1 by (eapply frame_inv; [exact I|by eapply RegulateCheckpoint_frame]).
  destruct (_ <? _) in E; [by simplify_eq|].
  set (w2 := SetDistributionClaimLastTimestampByUser w1 veID (now_of ctx)) in E.
  assert (ve_inv w2) as I2 by (by apply (same_locks_inv w1)).
  apply bind_Ok in E as (amount & _ & E). destruct (negb _) in E; [by simplify_eq|].
  inv_ok E. destruct (lock_coins _ _ _ _ E0 E2) as [Hp Hc]. unfold on_bank in E. inv_ok E. subst w'.
  apply SendCoinsFromModuleToAccount_Ok in E3.
  apply (same_locks_inv w2); try done.
  destruct (E3 (LockDenom w2)) as [_ Hb]. rewrite Hc in Hb. unfold lbal. rewrite Hb.
  unfold if_addr. rewrite (decide_False (P := ve_addr = _)); [case_decide; lia|].
  intros Eq%GetModuleAddress_inj. done.
Qed.

Lemma ve_handler_inv ctx w m w' :
  ve_inv w → ve_ValidateBasic m = Ok tt → ve_user m → ve_handler dlg ctx w m = Ok w' → ve_inv w'.
Proof.
  intros I V U E. destruct m; simpl in *.
  - destruct (Create ctx w m) as [[[id u] w1]| |] eqn:Ec; simplify_eq/=. by eapply Create_inv.
  - by eapply Deposit_inv.
  - by eapply ExtendTime_inv.
  - by eapply Merge_inv.
  - by eapply Withdraw_inv.
Qed.

Lemma ve_step_inv ctx w w' : ve_inv w → ve_step dlg ctx w w' → ve_inv w'.
Proof.
  intros I St.
  destruct St as [w m w' V U E|w w' E|w cl id sd rc w' E|w i|w i w' E|w i v|w i w' E|w i a w' Hs Ha E|w x w' E|w w' Ev En Eb].
  - by eapply ve_handler_inv.
  - eapply frame_inv; [exact I|]. by eapply RegulateCheckpoint_frame.
  - unfold nft_keeper_Send, on_nft in E. inv_ok E. subst w'.
    apply (same_locks_inv w); try done. intros s. unfold has_token. simpl. by eapply nft_Send_Ok.
  - by apply (same_locks_inv w).
  - unfold DecVeAttached in E. inv_ok E. subst w'. by apply (same_locks_inv w).
  - by apply (same_locks_inv w).
  - by eapply Claim_inv.
  - by eapply Slash_inv.
  - unfold AddTotalEmission in E. inv_ok E. subst w'. by apply (same_locks_inv w).
  - apply (same_locks_inv w); try done; unfold GetTotalLockedAmount, GetNextVeID, has_token; congruence.
Qed.

Lemma genesis_inv w denom w' :
  nft_HasClass (w_nft w) VeNftClassId = false →
  (∀ s, nft_HasNFT (w_nft w) VeNftClassId s = false) → ve_store_empty w → 0 ≤ lbal w' ve_addr →
  ve_InitGenesis w denom = Ok w' → ve_inv w'.
Proof.
  intros Hc Hn (He & _) Hb E. unfold ve_InitGenesis, HasNftClass in E. simpl in E. rewrite Hc in E.
  destruct (SaveNftClass _) as [w1| |] eqn:Es; simplify_eq/=.
  unfold SaveNftClass, on_nft in Es. inv_ok Es. subst w1.
  pose proof (nft_SaveClass_Ok _ _ _ E) as Hk.
  assert (∀ s, nft_HasNFT r VeNftClassId s = false) as Hn' by (intros s; rewrite Hk; apply Hn).
  constructor; unfold locked_sum, has_token; simpl; rewrite ?He.
  - vm_compute; split; congruence.
  - done.
  - intros s Hs. by rewrite Hn' in Hs.
  - by rewrite map_sum_empty.
  - by rewrite map_sum_empty.
Qed.

Lemma ve_reach_inv denom t w : ve_reach dlg denom t w → ve_inv w.
Proof. induction 1; [by eapply genesis_inv|by eapply ve_step_inv]. Qed.
End VeInvariant.
