(* ===== verification/VeHistory.v ===== *)
(** The checkpoint history: it stays sorted by time, the binary search over it
    finds the last point before a time, and the loops have enough rounds. *)

From stdpp Require Import base gmap strings list.
From Stdlib Require Import ZArith Lia.
From S2P Require Import Prelude Sdk Types MakerTypes VeTypes World VeKeeper VeVoting VeMsg VeEmission VeInv VeSafety.

#[local] Open Scope Z_scope.

(** ** Binary search *)

(** [key] is sorted on the epochs [lo..hi]. *)
Definition sorted_on (key : Z → Z) (lo hi : Z) : Prop :=
  ∀ i j, lo ≤ i → i ≤ j → j ≤ hi → key i ≤ key j.

(** [e] is the last epoch of [lo..hi] whose key is at most the target, or [lo]. *)
Definition last_before (key : Z → Z) (target lo hi e : Z) : Prop :=
  lo ≤ e ≤ hi ∧ (e = lo ∨ key e ≤ target) ∧ ∀ e', e < e' → e' ≤ hi → target < key e'.

Lemma search_epoch_last rounds key target lo hi :
  0 ≤ lo ≤ hi → hi < 2 ^ 63 → hi - lo < 2 ^ Z.of_nat rounds → sorted_on key lo hi →
  last_before key target lo hi (search_epoch rounds key target lo hi).
Proof.
  revert lo hi. induction rounds as [|n IH]; intros lo hi Hlo Hhi Hr Hs.
  - change (2 ^ Z.of_nat 0) with 1 in Hr. unfold last_before. simpl. split_and!; [lia|lia|by left|lia].
  - rewrite Nat2Z.inj_succ, Z.pow_succ_r in Hr by lia. cbn [search_epoch].
    destruct (Z.leb_spec hi lo) as [Hle|Hlt].
    { unfold last_before. split_and!; [lia|lia|by left|lia]. }
    rewrite u64_small by lia.
    pose proof (Z.div_mod (lo + hi + 1) 2 ltac:(lia)) as Hd.
    pose proof (Z.mod_pos_bound (lo + hi + 1) 2 ltac:(lia)) as Hm.
    set (mid := (lo + hi + 1) / 2) in *.
    destruct (Z.leb_spec (key mid) target) as [Hk|Hk].
    + destruct (IH mid hi) as (H1 & H2 & H3); [lia|lia|lia|intros i j ???; apply Hs; lia|].
      split_and!; [lia|lia| |done]. right. by destruct H2 as [->|].
    + rewrite u64_small by lia.
      destruct (IH lo (mid - 1)) as (H1 & H2 & H3); [lia|lia|lia|intros i j ???; apply Hs; lia|].
      split_and!; [lia|lia|done|]. intros e' He' He'h.
      destruct (Z.le_gt_cases e' (mid - 1)); [by apply H3|].
      pose proof (Hs mid e' ltac:(lia) ltac:(lia) ltac:(lia)). lia.
Qed.

Section VeHistory.
Context `{!Sdk, !BankKeeper, !NftKeeper, !SdkLaws, !BankLaws, !NftLaws}.
Context (dlg : option (World → Z → Z)).
Implicit Types (w : World) (ctx : Ctx).

Definition ts w (e : Z) : Z := cp_Timestamp (GetCheckpoint w e).
Definition uts w (i e : Z) : Z := cp_Timestamp (GetUserCheckpoint w i e).

(** The histories are sorted and end at or before time [t]; a user has no more
    points than the system. *)
Record hist_inv (t : Z) w : Prop := {
  hi_epoch : 0 ≤ GetEpoch w;
  hi_sorted : sorted_on (ts w) 0 (GetEpoch w);
  hi_last : ts w (GetEpoch w) ≤ t;
  hi_uepoch i : 0 ≤ GetUserEpoch w i ≤ GetEpoch w;
  hi_usorted i : sorted_on (uts w i) 0 (GetUserEpoch w i);
  hi_ulast i : uts w i (GetUserEpoch w i) ≤ t;
}.

(** Everything the invariant reads. *)
Definition hist w :=
  (vs_Epoch (w_ve w), vs_PointHistoryByEpoch (w_ve w), vs_UserEpoch (w_ve w),
   vs_UserPointHistoryByUserEpoch (w_ve w)).

Lemma hist_inv_same t t' w w' : hist w' = hist w → t ≤ t' → hist_inv t w → hist_inv t' w'.
Proof.
  unfold hist. intros [= E1 E2 E3 E4] Ht [I1 I2 I3 I4 I5 I6].
  assert (GetEpoch w' = GetEpoch w) as Ee by (unfold GetEpoch; by rewrite E1).
  assert (ts w' = ts w) as Et by (unfold ts, GetCheckpoint; by rewrite E2).
  assert (∀ i, GetUserEpoch w' i = GetUserEpoch w i) as Eu by (intros; unfold GetUserEpoch; by rewrite E3).
  assert (uts w' = uts w) as Eut by (unfold uts, GetUserCheckpoint; by rewrite E4).
  constructor; rewrite ?Ee, ?Et; try done; try lia; intros i; rewrite ?Eu, ?Eut, ?Ee; auto.
  specialize (I6 i). lia.
Qed.

Lemma sorted_on_snoc key key' hi x :
  0 ≤ hi → (∀ e, e ≤ hi → key' e = key e) → key' (hi + 1) = x → key hi ≤ x →
  sorted_on key 0 hi → sorted_on key' 0 (hi + 1).
Proof.
  intros Hhi Hk Hx Hle Hs i j Hi Hij Hj. destruct (decide (j = hi + 1)) as [->|Hne].
  - rewrite Hx. destruct (decide (i = hi + 1)) as [->|]; [lia|].
    rewrite Hk by lia. pose proof (Hs i hi ltac:(lia) ltac:(lia) ltac:(lia)). lia.
  - rewrite !Hk by lia. apply Hs; lia.
Qed.

Lemma ts_SetCheckpoint w e p e' :
  ts (SetCheckpoint w e p) e' = if decide (e = e') then cp_Timestamp p else ts w e'.
Proof.
  unfold ts, GetCheckpoint. simpl. rewrite lookup_insert. by case_decide.
Qed.

Lemma round_point_ts initial bs ti sc tl p p' :
  round_point initial bs ti sc tl p = Ok p' → cp_Timestamp p' = ti.
Proof. unfold round_point. intros E. inv_ok E. by subst. Qed.

(** The rounds of [regulateCheckpoint] append points between the last one and
    now, and leave one for now. *)
Lemma regulate_rounds_hist n ctx w initial bs ti tl e p w' e' p' :
  regulate_rounds n ctx w initial bs ti tl e p = Ok (w', e', p') →
  0 ≤ e → e + Z.of_nat n < 2 ^ 64 → sorted_on (ts w) 0 e →
  ts w e ≤ now_of ctx → ts w e ≤ ti + RegulatedPeriod →
  sorted_on (ts w') 0 (e' - 1) ∧ ts w' (e' - 1) ≤ now_of ctx ∧ cp_Timestamp p' = now_of ctx ∧
  e < e' ≤ e + Z.of_nat n ∧
  vs_UserEpoch (w_ve w') = vs_UserEpoch (w_ve w) ∧
  vs_UserPointHistoryByUserEpoch (w_ve w') = vs_UserPointHistoryByUserEpoch (w_ve w).
Proof.
  revert w ti tl e p. induction n as [|n IH]; intros w ti tl e p E He Hn Hs Hnow Hti;
    unfold regulate_rounds in E; fold regulate_rounds in E; [discriminate|].
  apply bind_Ok in E as (next & En & E). apply NextRegulatedUnixTime_Ok in En as [_ ->].
  destruct (now_of ctx <? ti + RegulatedPeriod) eqn:Hlt.
  - inv_ok E; zbool; simplify_eq. rewrite u64_small by lia.
    replace (e + 1 - 1) with e by lia. simpl. split_and!; try done; lia.
  - inv_ok E; zbool; simplify_eq; rewrite u64_small in * by lia.
    + replace (e + 1 - 1) with e by lia. simpl. split_and!; try done; lia.
    + apply round_point_ts in E0.
      apply IH in E as (S & L & T & Hb & U1 & U2); try lia.
      * split_and!; try done; lia.
      * eapply (sorted_on_snoc (ts w)); [done| |rewrite ts_SetCheckpoint, decide_True by done; reflexivity|simpl; lia|done].
        intros e0 He0. rewrite ts_SetCheckpoint, decide_False by lia. done.
      * rewrite ts_SetCheckpoint, decide_True by done. simpl. lia.
      * rewrite ts_SetCheckpoint, decide_True by done. rewrite E0. assert (0 < RegulatedPeriod) by done. lia.
Qed.

Lemma regulateCheckpoint_hist t ctx w us ub w' :
  regulateCheckpoint ctx w us ub = Ok w' → hist_inv t w → t ≤ now_of ctx → GetEpoch w < 2 ^ 63 →
  hist_inv (now_of ctx) w' ∧ GetEpoch w < GetEpoch w' ≤ GetEpoch w + 2 ∧
  vs_UserEpoch (w_ve w') = vs_UserEpoch (w_ve w) ∧
  vs_UserPointHistoryByUserEpoch (w_ve w') = vs_UserPointHistoryByUserEpoch (w_ve w).
Proof.
  intros E [I1 I2 I3 I4 I5 I6] Ht He. unfold regulateCheckpoint in E.
  apply bind_Ok in E as (bs & _ & E). apply bind_Ok in E as ([[w1 e1] p1] & Er & E).
  apply regulate_rounds_hist in Er as (S & L & T & Hb & U1 & U2); [|lia|lia|done|lia|].
  2:{ destruct (Z.ltb_spec 0 (GetEpoch w)).
      - pose proof (RegulatedUnixTime_le (cp_Timestamp (GetCheckpoint w (GetEpoch w)))). unfold ts. lia.
      - simpl. pose proof (RegulatedUnixTime_le (now_of ctx)). lia. }
  apply bind_Ok in E as (b & _ & E). apply bind_Ok in E as (s & _ & E).
  injection E as E. set (w2 := SetCheckpoint _ _ _) in E. subst w'.
  assert (GetEpoch w2 = e1) as Ee by done.
  assert (∀ e, ts w2 e = if decide (e1 = e) then now_of ctx else ts w1 e) as Ets.
  { intros e. unfold w2. rewrite ts_SetCheckpoint. simpl. rewrite T. by case_decide. }
  split_and!; try done; try (rewrite Ee; lia).
  assert (∀ i, GetUserEpoch w2 i = GetUserEpoch w i) as Eu
    by (intros; unfold GetUserEpoch; simpl; by rewrite U1).
  assert (∀ i e, uts w2 i e = uts w i e) as Eut
    by (intros; unfold uts, GetUserCheckpoint; simpl; by rewrite U2).
  constructor; rewrite ?Ee.
  - lia.
  - replace e1 with (e1 - 1 + 1) by lia. eapply (sorted_on_snoc (ts w1)); [lia| |reflexivity| |done].
    + intros e He'. rewrite Ets, decide_False by lia. done.
    + rewrite Ets, decide_True by lia. done.
  - rewrite Ets, decide_True by done. lia.
  - intros i. rewrite Eu. specialize (I4 i). lia.
  - intros i. rewrite Eu. intros a b' ???. rewrite !Eut. by apply I5.
  - intros i. rewrite Eu, Eut. specialize (I6 i). lia.
Qed.

Lemma uts_SetUserCheckpoint w i e p i' e' :
  uts (SetUserCheckpoint w i e p) i' e' = if decide ((i, e) = (i', e')) then cp_Timestamp p else uts w i' e'.
Proof. unfold uts, GetUserCheckpoint. simpl. rewrite lookup_insert. by case_decide. Qed.

Lemma GetUserEpoch_set w i e i' :
  GetUserEpoch (SetUserEpoch w i e) i' = if decide (i = i') then e else GetUserEpoch w i'.
Proof. unfold GetUserEpoch. simpl. rewrite lookup_insert. by case_decide. Qed.

(** A user point for now is appended. *)
Lemma user_append_hist t w i p :
  hist_inv t w → GetUserEpoch w i < GetEpoch w < 2 ^ 64 → cp_Timestamp p = t →
  let e := u64 (GetUserEpoch w i + 1) in
  hist_inv t (SetUserCheckpoint (SetUserEpoch w i e) i e p).
Proof.
  intros [I1 I2 I3 I4 I5 I6] Hlt Hp. cbv zeta. pose proof (I4 i). rewrite u64_small by lia.
  set (e := GetUserEpoch w i + 1).
  assert (∀ j, GetUserEpoch (SetUserCheckpoint (SetUserEpoch w i e) i e p) j =
    if decide (i = j) then e else GetUserEpoch w j) as Eu by apply GetUserEpoch_set.
  constructor; try done; intros j; rewrite Eu; case_decide as Hj; subst.
  - change (0 ≤ e ≤ GetEpoch w). lia.
  - apply I4.
  - eapply (sorted_on_snoc (uts w j)); [lia| |reflexivity| |apply I5].
    + intros e0 He0. rewrite uts_SetUserCheckpoint, decide_False; [done|]. intros [= E]. lia.
    + rewrite uts_SetUserCheckpoint, decide_True by done. apply I6.
  - intros a b ???. rewrite !uts_SetUserCheckpoint, !decide_False by congruence. by apply I5.
  - rewrite uts_SetUserCheckpoint, decide_True by done. lia.
  - rewrite uts_SetUserCheckpoint, decide_False by congruence. apply I6.
Qed.

Lemma RegulateUserCheckpoint_hist t ctx w i o n w' :
  RegulateUserCheckpoint ctx w i o n = Ok w' → hist_inv t w → t ≤ now_of ctx → GetEpoch w < 2 ^ 63 →
  hist_inv (now_of ctx) w' ∧ GetEpoch w < GetEpoch w' ≤ GetEpoch w + 2.
Proof.
  intros E I Ht He. unfold RegulateUserCheckpoint in E. inv_ok E.
  destruct (regulateCheckpoint_hist _ _ _ _ _ _ E6 I Ht He) as (I1 & Hb & U & _).
  assert (hist r4 = hist r3) as Hh4 by (inv_ok E7; by subst).
  assert (hist r5 = hist r4) as Hh5 by (inv_ok E8; by subst).
  assert (hist_inv (now_of ctx) r5) as I5 by (eapply hist_inv_same; [|reflexivity|exact I1]; congruence).
  assert (GetEpoch r5 = GetEpoch r3 ∧ GetUserEpoch r5 i = GetUserEpoch w i) as [Ee Eu].
  { unfold hist in *. simplify_eq. unfold GetEpoch, GetUserEpoch. split; congruence. }
  subst w'. split; [|change (GetEpoch w < GetEpoch r5 ≤ GetEpoch w + 2); lia].
  apply user_append_hist; [done| |done]. pose proof (hi_uepoch _ _ I i). lia.
Qed.

Lemma DepositFor_hist t ctx w a i x u lb b w' :
  DepositFor ctx w a i x u lb b = Ok w' → hist_inv t w → t ≤ now_of ctx → GetEpoch w < 2 ^ 63 →
  hist_inv (now_of ctx) w'.
Proof.
  intros E I Ht He. unfold DepositFor in E. apply bind_Ok in E as (w1 & E1 & E). inv_ok E.
  assert (hist w1 = hist w) as Hh.
  { unfold on_bank in E1. inv_ok E1; subst; try done. inv_ok E2; subst; try done. }
  eapply (RegulateUserCheckpoint_hist t) in E as [? _]; [done| |done|].
  - by eapply (hist_inv_same t t w).
  - change (GetEpoch w1 < 2 ^ 63). unfold hist in Hh. unfold GetEpoch in *. simplify_eq. congruence.
Qed.

Lemma ve_handler_hist t ctx w m w' :
  ve_handler dlg ctx w m = Ok w' → hist_inv t w → t ≤ now_of ctx → GetEpoch w < 2 ^ 62 →
  hist_inv (now_of ctx) w'.
Proof.
  intros E I Ht He. destruct m; simpl in E.
  - destruct (Create ctx w m) as [[[id u] w1]| |] eqn:Ec; simplify_eq/=.
    unfold Create in Ec. inv_ok Ec. simplify_eq. unfold on_nft in E1. inv_ok E1. subst.
    eapply DepositFor_hist; [exact E2|by eapply (hist_inv_same t t w)|done|].
    change (GetEpoch w < 2 ^ 63). lia.
  - unfold Deposit in E. inv_ok E. eapply DepositFor_hist; [exact E|done..|lia].
  - unfold ExtendTime in E. inv_ok E. eapply DepositFor_hist; [exact E|done..|lia].
  - unfold Merge in E. inv_ok E. unfold on_nft in E3. inv_ok E3. subst.
    eapply (RegulateUserCheckpoint_hist t) in E2 as [I1 Hb]; [|by eapply (hist_inv_same t t w)|done|].
    + eapply DepositFor_hist; [exact E|by eapply hist_inv_same; [|reflexivity|exact I1]|done|].
      change (GetEpoch r1 < 2 ^ 63). change (GetEpoch (DeleteLockedAmountByUser _ _)) with (GetEpoch w) in Hb. lia.
    + change (GetEpoch w < 2 ^ 63). lia.
  - unfold Withdraw in E. inv_ok E. unfold on_nft in E4. inv_ok E4. unfold on_bank in E. inv_ok E. subst.
    eapply (RegulateUserCheckpoint_hist t) in E3 as [I1 _]; [|by eapply (hist_inv_same t t w)|done|].
    + by eapply hist_inv_same; [|reflexivity|exact I1].
    + change (GetEpoch w < 2 ^ 63). lia.
Qed.

Lemma RegulateCheckpoint_hist t ctx w w' :
  RegulateCheckpoint ctx w = Ok w' → hist_inv t w → t ≤ now_of ctx → GetEpoch w < 2 ^ 62 →
  hist_inv (now_of ctx) w'.
Proof.
  intros E I Ht He. unfold RegulateCheckpoint in E. inv_ok E.
  - eapply regulateCheckpoint_hist in E as [? _]; [done..|lia].
  - subst. by eapply hist_inv_same.
Qed.

Lemma ve_step_hist t ctx w w' :
  ve_step dlg ctx w w' → hist_inv t w → t ≤ now_of ctx → GetEpoch w < 2 ^ 62 →
  hist_inv (now_of ctx) w'.
Proof.
  intros St I Ht He.
  destruct St as [w m w' V U E|w w' E|w cl id sd rc w' E|w i|w i w' E|w i v|w i w' E|w i a w' Hs Ha E|w x w' E|w w' Ev En Eb].
  - by eapply ve_handler_hist.
  - by eapply RegulateCheckpoint_hist.
  - unfold nft_keeper_Send, on_nft in E. inv_ok E. subst w'. by eapply (hist_inv_same t _ w).
  - by eapply (hist_inv_same t _ w).
  - unfold DecVeAttached in E. inv_ok E. subst w'. by eapply (hist_inv_same t _ w).
  - by eapply (hist_inv_same t _ w).
  - unfold Claim in E. apply bind_Ok in E as (w1 & E1 & E).
    eapply RegulateCheckpoint_hist in E1; [|done..].
    eapply (hist_inv_same _ _ w1); [|reflexivity|done].
    inv_ok E; try (subst; done). unfold on_bank in E. inv_ok E. by subst.
  - unfold SlashLockedAmountByUser in E. inv_ok E.
    destruct (on_bank _ w) as [w1| |] eqn:Eb; simplify_eq/=. unfold on_bank in Eb. inv_ok Eb. subst.
    eapply (RegulateUserCheckpoint_hist t) in E as [? _]; [done|by eapply (hist_inv_same t t w)|done|].
    change (GetEpoch w < 2 ^ 63). lia.
  - unfold AddTotalEmission in E. inv_ok E. subst w'. by eapply (hist_inv_same t _ w).
  - eapply (hist_inv_same t _ w); [|done|done]. unfold hist. by rewrite Ev.
Qed.

Lemma genesis_hist t w denom w' :
  nft_HasClass (w_nft w) VeNftClassId = false → ve_store_empty w → ve_InitGenesis w denom = Ok w' →
  0 ≤ t → hist_inv t w' ∧ GetEpoch w' < 2 ^ 62.
Proof.
  intros Hc (_ & Hu & Hp & Hh & _) E Ht. unfold ve_InitGenesis, HasNftClass in E. simpl in E. rewrite Hc in E.
  destruct (SaveNftClass _) as [w1| |] eqn:Es; simplify_eq/=.
  unfold SaveNftClass, on_nft in Es. inv_ok Es. subst w1.
  split; [|done]. set (w' := SetCheckpoint _ _ _).
  assert (ts w' 0 = 0) as E0' by (unfold w'; by rewrite ts_SetCheckpoint).
  assert (∀ i, GetUserEpoch w' i = 0) as Eu by (intros; unfold GetUserEpoch; simpl; by rewrite Hu).
  assert (∀ i e, uts w' i e = 0) as Eut by (intros; unfold uts, GetUserCheckpoint; simpl; by rewrite Hp).
  change (GetEpoch w') with 0 in *. constructor; change (GetEpoch w') with 0; try (intros; rewrite ?Eu, ?Eut); try lia.
  - intros i j ???. replace i with j by lia. lia.
  - intros a b ???. rewrite !Eut. lia.
Qed.

Lemma ve_reach_hist denom t w :
  ve_reach dlg denom t w → 0 ≤ t ∧ hist_inv t w ∧ GetEpoch w < 2 ^ 62.
Proof.
  induction 1 as [w w' t Hc Hn He Hb E Ht|t w ctx w' R (Ht & I & He) Hctx St Hlim].
  - split; [done|]. by eapply genesis_hist.
  - assert (now_of ctx = BlockTime ctx) as En by (apply u64_small; lia).
    split_and!; [lia| |done]. rewrite <- En. eapply ve_step_hist; [exact St|exact I|lia|done].
Qed.
End VeHistory.
