(* ===== verification/VeCheckpoint.v ===== *)
(** When the system checkpoint can be taken, and what voting power a user
    checkpoint gives. *)

From stdpp Require Import base gmap strings list.
From Stdlib Require Import ZArith Lia.
From S2P Require Import Prelude Sdk Types MakerTypes VeTypes World VeKeeper VeVoting VeMsg VeEmission VeInv.

#[local] Open Scope Z_scope.

Lemma diff_i64_small a b : 0 ≤ a - b < 2 ^ 63 → diff_i64 a b = a - b.
Proof. intros Hd. unfold diff_i64. rewrite u64_small by lia. apply i64_small. lia. Qed.

Lemma quot_nonneg a b : 0 ≤ a → 0 < b → 0 ≤ Z.quot a b ∧ Z.quot a b * b ≤ a.
Proof.
  intros Ha Hb. rewrite Z.quot_div_nonneg by lia. split; [apply Z.div_pos; lia|].
  rewrite Z.mul_comm. apply Z.mul_div_le. lia.
Qed.

Section VeCheckpoint.
Context `{!Sdk, !BankKeeper, !NftKeeper, !SdkLaws}.
Implicit Types (w : World) (ctx : Ctx).

(** Amounts far below the limits of [sdk.Int]: 2^180 base units. *)
Definition small (x : Z) : Prop := Z.abs x ≤ 2 ^ 180.

(** The last checkpoint, as [regulateCheckpoint] reads it. *)
Definition last_point w : Checkpoint := GetCheckpoint w (GetEpoch w).

(** Values a running chain has: a checkpoint was taken, fewer than 2^62 were;
    times and heights below 2^62 that do not go back, amounts that are small. *)
Record checkpoint_sane ctx w : Prop := {
  cs_epoch : 0 < GetEpoch w < 2 ^ 62;
  cs_time : 0 ≤ cp_Timestamp (last_point w) ≤ BlockTime ctx;
  cs_now : BlockTime ctx < 2 ^ 62;
  cs_block : 0 ≤ cp_Block (last_point w) ≤ BlockHeight ctx;
  cs_height : BlockHeight ctx < 2 ^ 62;
  cs_bias : 0 ≤ cp_Bias (last_point w) ≤ 2 ^ 180;
  cs_slope : 0 ≤ cp_Slope (last_point w) ≤ 2 ^ 180;
  cs_changes t : small (GetSlopeChange w t);
}.

(** A round computes its point. *)
Lemma round_point_ok initial bs ti sc tl p :
  0 ≤ tl ≤ ti → ti < 2 ^ 62 → 0 ≤ cp_Timestamp initial ≤ ti →
  0 ≤ cp_Bias p ≤ 2 ^ 182 → 0 ≤ cp_Slope p ≤ 2 ^ 182 → small sc →
  0 ≤ bs → bs * (ti - cp_Timestamp initial) ≤ 2 ^ 62 * precision →
  ∃ p', round_point initial bs ti sc tl p = Ok p' ∧
    0 ≤ cp_Bias p' ≤ cp_Bias p ∧ 0 ≤ cp_Slope p' ≤ cp_Slope p + 2 ^ 180 ∧ cp_Timestamp p' = ti.
Proof.
  unfold small. intros Htl Hti Hi Hb Hs Hc Hbs Hblk. unfold round_point.
  rewrite !diff_i64_small by lia.
  assert (0 ≤ cp_Slope p * (ti - tl) ≤ 2 ^ 182 * 2 ^ 62) as Hd by nia.
  rewrite Int_Mul_fits by (unfold int_fits; lia). simpl.
  rewrite Int_Sub_fits by (unfold int_fits; lia). simpl.
  rewrite Int_Add_fits by (unfold int_fits; lia). simpl.
  set (x := bs * (ti - cp_Timestamp initial)) in *. assert (0 ≤ x) by (unfold x; nia).
  rewrite Dec_MulInt_fits by (unfold dec_fits; fold x; unfold precision in *; lia). fold x. simpl.
  assert (0 < precision) as Hp by done.
  destruct (quot_nonneg x precision) as [Hq1 Hq2]; [done|done|].
  assert (Z.quot x precision ≤ 2 ^ 62) as Hq3 by (unfold precision in *; nia).
  unfold Dec_TruncateInt64. rewrite Dec_TruncateInt_fits by (unfold int_fits; lia). simpl.
  rewrite i64_small, Z.eqb_refl by lia. simpl. eexists. split; [reflexivity|]. simpl.
  repeat match goal with |- context [if ?b <? 0 then _ else _] => destruct (Z.ltb_spec b 0) end; lia.
Qed.

(** One more round: it ends the loop when now is not after the next regulated
    time, and goes on from there otherwise. *)
Lemma regulate_round ctx w initial bs ti tl e p n :
  now_of ctx < 2 ^ 62 → RegulatedUnixTime ti = ti → 0 ≤ ti ≤ now_of ctx → 0 ≤ tl ≤ now_of ctx →
  tl ≤ ti + RegulatedPeriod → 0 ≤ cp_Timestamp initial ≤ now_of ctx →
  cp_Timestamp initial ≤ ti + RegulatedPeriod → (∀ t, small (GetSlopeChange w t)) →
  0 ≤ cp_Bias p ≤ 2 ^ 182 → 0 ≤ cp_Slope p ≤ 2 ^ 181 →
  0 ≤ bs → bs * (now_of ctx - cp_Timestamp initial) ≤ 2 ^ 62 * precision →
  if now_of ctx <=? ti + RegulatedPeriod then
    ∃ p', regulate_rounds (S n) ctx w initial bs ti tl e p = Ok (w, u64 (e + 1), p') ∧
      0 ≤ cp_Bias p' ≤ cp_Bias p ∧ 0 ≤ cp_Slope p' ≤ cp_Slope p + 2 ^ 180
  else
    ∃ p', 0 ≤ cp_Bias p' ≤ cp_Bias p ∧ 0 ≤ cp_Slope p' ≤ cp_Slope p + 2 ^ 180 ∧
    regulate_rounds (S n) ctx w initial bs ti tl e p =
    regulate_rounds n ctx (SetCheckpoint w (u64 (e + 1)) p') initial bs
      (ti + RegulatedPeriod) (ti + RegulatedPeriod) (u64 (e + 1)) p'.
Proof.
  intros Hnow Hr Hti Htl Htl' Hi Hi' Hc Hb Hs Hbs Hblk.
  assert (RegulatedPeriod = 604800) as HP by done.
  unfold regulate_rounds; fold regulate_rounds.
  rewrite (NextRegulatedUnixTime_fits ti Hr) by (unfold MaxUnixTime; lia). simpl.
  set (next := ti + RegulatedPeriod) in *.
  destruct (Z.leb_spec (now_of ctx) next) as [Hle|Hgt].
  - assert (∃ sc, small sc ∧ (if now_of ctx <? next then (now_of ctx, 0) else (next, GetSlopeChange w next))
      = (now_of ctx, sc)) as (sc & Hsc & ->).
    { destruct (Z.ltb_spec (now_of ctx) next); [exists 0; by split|].
      exists (GetSlopeChange w next). split; [done|]. assert (next = now_of ctx) as -> by lia. done. }
    destruct (round_point_ok initial bs (now_of ctx) sc tl p) as (p' & -> & Hb' & Hs' & _); try done; try lia.
    simpl. rewrite Z.eqb_refl. eexists. split; [reflexivity|]. simpl. lia.
  - rewrite (proj2 (Z.ltb_ge _ _)) by lia.
    destruct (round_point_ok initial bs next (GetSlopeChange w next) tl p) as (p' & -> & Hb' & Hs' & _);
      try done; try lia; [nia|].
    simpl. rewrite (proj2 (Z.eqb_neq _ _)) by lia. exists p'. split_and!; try done; lia.
Qed.

Lemma regulate_rounds_O ctx w initial bs ti tl e p : regulate_rounds 0 ctx w initial bs ti tl e p = Panic.
Proof. done. Qed.

Lemma block_slope_bound ctx w :
  checkpoint_sane ctx w →
  ∃ bs, (if cp_Timestamp (last_point w) <? now_of ctx then
       Dec_QuoInt (ToDec (i64 (BlockHeight ctx - cp_Block (last_point w)))) (diff_i64 (now_of ctx) (cp_Timestamp (last_point w)))
     else Ok ZeroDec) = Ok bs ∧ 0 ≤ bs ∧
    bs * (now_of ctx - cp_Timestamp (last_point w)) ≤ 2 ^ 62 * precision.
Proof.
  intros []. assert (now_of ctx = BlockTime ctx) as -> by (apply u64_small; lia).
  assert (0 < precision) as Hp by done.
  destruct (Z.ltb_spec (cp_Timestamp (last_point w)) (BlockTime ctx)) as [Hlt|Hge].
  - rewrite i64_small by lia. rewrite diff_i64_small by lia. rewrite Dec_QuoInt_fits by lia.
    set (h := BlockHeight ctx - cp_Block (last_point w)) in *.
    destruct (quot_nonneg (ToDec h) (BlockTime ctx - cp_Timestamp (last_point w))) as [H1' H2'];
      [unfold ToDec; nia|lia|].
    eexists. split_and!; [reflexivity|done|]. unfold ToDec in *. nia.
  - exists ZeroDec. split_and!; [done|done|]. unfold ZeroDec, precision. lia.
Qed.

(** The loop returns exactly when now is within two periods of the week of the
    last checkpoint. *)
Lemma regulate_rounds_iff ctx w bs :
  checkpoint_sane ctx w → 0 ≤ bs →
  bs * (now_of ctx - cp_Timestamp (last_point w)) ≤ 2 ^ 62 * precision →
  let T := cp_Timestamp (last_point w) in
  let r := regulate_rounds 2 ctx w (last_point w) bs (RegulatedUnixTime T) T (GetEpoch w) (last_point w) in
  if now_of ctx <=? RegulatedUnixTime T + 2 * RegulatedPeriod then
    ∃ w' e' p', r = Ok (w', e', p') ∧ 0 ≤ cp_Bias p' ≤ 2 ^ 182 ∧ 0 ≤ cp_Slope p' ≤ 2 ^ 182
  else r = Panic.
Proof.
  intros [] Hbs Hblk T r. assert (now_of ctx = BlockTime ctx) as En by (apply u64_small; lia).
  assert (RegulatedPeriod = 604800) as HP by done.
  pose proof (RegulatedUnixTime_le T) as HT. pose proof (RegulatedUnixTime_idemp T) as Hid.
  assert (0 ≤ RegulatedUnixTime T) as HT0 by (unfold RegulatedUnixTime; pose proof (Z.div_pos T RegulatedPeriod); nia).
  unfold last_point in *.
  pose proof (regulate_round ctx w (GetCheckpoint w (GetEpoch w)) bs (RegulatedUnixTime T) T (GetEpoch w)
    (GetCheckpoint w (GetEpoch w)) 1) as R1.
  specialize (R1 ltac:(lia) Hid ltac:(lia) ltac:(lia) ltac:(lia) ltac:(lia) ltac:(unfold T in *; lia) ltac:(done) ltac:(lia) ltac:(lia) Hbs Hblk).
  destruct (Z.leb_spec (now_of ctx) (RegulatedUnixTime T + RegulatedPeriod)) as [H1'|H1'].
  - rewrite (proj2 (Z.leb_le _ _)) by lia. destruct R1 as (p' & Er & Hb & Hs).
    eexists _, _, p'. split_and!; [exact Er|lia..].
  - destruct R1 as (p1 & Hb1 & Hs1 & Er). unfold r. rewrite Er.
    pose proof (regulate_round ctx (SetCheckpoint w (u64 (GetEpoch w + 1)) p1) (GetCheckpoint w (GetEpoch w)) bs
      (RegulatedUnixTime T + RegulatedPeriod) (RegulatedUnixTime T + RegulatedPeriod) (u64 (GetEpoch w + 1)) p1 0) as R2.
    specialize (R2 ltac:(lia)).
    rewrite <- (Z.mul_1_l RegulatedPeriod) in R2 at 1. rewrite RegulatedUnixTime_add, Hid in R2.
    specialize (R2 ltac:(lia) ltac:(lia) ltac:(lia) ltac:(lia) ltac:(lia) ltac:(unfold T in *; lia) ltac:(done) ltac:(lia) ltac:(lia) Hbs Hblk).
    replace (RegulatedUnixTime T + RegulatedPeriod + RegulatedPeriod) with (RegulatedUnixTime T + 2 * RegulatedPeriod) in R2 by lia.
    destruct (now_of ctx <=? RegulatedUnixTime T + 2 * RegulatedPeriod).
    + destruct R2 as (p' & -> & Hb & Hs). eexists _, _, p'. split_and!; [reflexivity|lia..].
    + destruct R2 as (p' & _ & _ & ->). apply regulate_rounds_O.
Qed.

Lemma regulateCheckpoint_iff ctx w us ub :
  checkpoint_sane ctx w → small us → small ub →
  let deadline := RegulatedUnixTime (cp_Timestamp (last_point w)) + 2 * RegulatedPeriod in
  if now_of ctx <=? deadline then ∃ w', regulateCheckpoint ctx w us ub = Ok w'
  else regulateCheckpoint ctx w us ub = Panic.
Proof.
  unfold small. intros Hs Hus Hub. cbv zeta. set (deadline := _ + 2 * RegulatedPeriod).
  destruct (block_slope_bound _ _ Hs) as (bs & Ebs & Hbs & Hblk).
  pose proof (regulate_rounds_iff ctx w bs Hs Hbs Hblk) as R. cbv zeta in R. fold deadline in R.
  unfold regulateCheckpoint.
  rewrite (proj2 (Z.ltb_lt 0 (GetEpoch w)) (proj1 (cs_epoch _ _ Hs))). fold (last_point w). rewrite Ebs. simpl.
  destruct (now_of ctx <=? deadline); [|by rewrite R].
  destruct R as (w1 & e1 & p1 & -> & Hb & Hsl). simpl.
  assert (∀ x y, 0 ≤ x ≤ 2 ^ 182 → Z.abs y ≤ 2 ^ 180 → ∃ z,
    (if 0 <? y then b ← Int_Add x y; Ok (if b <? 0 then 0 else b) else Ok x) = Ok z) as Hadd.
  { intros x y Hx Hy. destruct (0 <? y); [|by eexists].
    rewrite Int_Add_fits by (unfold int_fits; lia). by eexists. }
  destruct (Hadd _ _ Hb Hub) as [b ->]. simpl. destruct (Hadd _ _ Hsl Hus) as [sl ->]. simpl.
  by eexists.
Qed.

(** The same for the end of a block, which skips the checkpoint while the last
    one is less than a period old. *)
Lemma ve_EndBlocker_iff ctx w :
  checkpoint_sane ctx w →
  let deadline := RegulatedUnixTime (cp_Timestamp (last_point w)) + 2 * RegulatedPeriod in
  if now_of ctx <=? deadline then ∃ w', ve_EndBlocker ctx w = Ok w'
  else ve_EndBlocker ctx w = Panic.
Proof.
  intros Hs. cbv zeta. set (deadline := _ + 2 * RegulatedPeriod).
  pose proof (regulateCheckpoint_iff ctx w 0 0 Hs ltac:(done) ltac:(done)) as R. cbv zeta in R.
  fold deadline in R. unfold ve_EndBlocker, RegulateCheckpoint. fold (last_point w).
  destruct Hs. assert (now_of ctx = BlockTime ctx) as En by (apply u64_small; lia).
  rewrite u64_small by lia.
  destruct (Z.leb_spec RegulatedPeriod (now_of ctx - cp_Timestamp (last_point w))) as [Hle|Hlt]; [exact R|].
  pose proof (RegulatedUnixTime_le (cp_Timestamp (last_point w))) as HT.
  rewrite (proj2 (Z.leb_le _ _)) by (unfold deadline; lia). by eexists.
Qed.

Lemma ve_EndBlocker_early ctx w :
  checkpoint_sane ctx w → now_of ctx < cp_Timestamp (last_point w) + RegulatedPeriod → ve_EndBlocker ctx w = Ok w.
Proof.
  intros [] Hlt. assert (now_of ctx = BlockTime ctx) as En by (apply u64_small; lia).
  unfold ve_EndBlocker, RegulateCheckpoint. fold (last_point w).
  by rewrite u64_small, (proj2 (Z.leb_gt _ _)) by lia.
Qed.

(** What the loop leaves behind when it ends after the first regulated time
    from where it starts, or there: the point at now, and the point of that time
    when now is later. *)
Lemma regulate_rounds_points ctx w initial bs ti tl e p w' e' p' :
  RegulatedUnixTime ti = ti → 0 ≤ ti → ti + RegulatedPeriod ≤ now_of ctx < 2 ^ 62 →
  regulate_rounds 2 ctx w initial bs ti tl e p = Ok (w', e', p') →
  cp_Timestamp p' = now_of ctx ∧ cp_Block p' = BlockHeight ctx ∧
  if now_of ctx =? ti + RegulatedPeriod then w' = w ∧ e' = u64 (e + 1)
  else ∃ q, w' = SetCheckpoint w (u64 (e + 1)) q ∧ e' = u64 (u64 (e + 1) + 1) ∧
    cp_Timestamp q = ti + RegulatedPeriod.
Proof.
  intros Hr Hti Hnow E. assert (RegulatedPeriod = 604800) as HP by done.
  unfold regulate_rounds in E. rewrite (NextRegulatedUnixTime_fits ti Hr) in E by (unfold MaxUnixTime; lia).
  cbn [mbind outcome_bind] in E. rewrite (proj2 (Z.ltb_ge (now_of ctx) _)) in E by lia.
  apply bind_Ok in E as (q & Eq & E). rewrite (Z.eqb_sym _ (now_of ctx)) in E.
  destruct (Z.eqb_spec (now_of ctx) (ti + RegulatedPeriod)) as [En|Hne].
  - injection E as <- <- <-. simpl. by rewrite En.
  - apply bind_Ok in E as (next & _ & E).
    destruct (if now_of ctx <? next then _ else _) as [ti' sc'].
    apply bind_Ok in E as (q' & _ & E). destruct (Z.eqb_spec ti' (now_of ctx)) as [->|]; [|discriminate].
    injection E as <- <- <-. split_and!; [done|done|]. exists q. split_and!; [done|done|].
    unfold round_point in Eq. inv_ok Eq. by subst q.
Qed.

(** The end of a block that is a period or more after the last checkpoint, and
    returns, has taken one: the last checkpoint is of this block, and when the
    block is after the end of the week, there is one for the end of the week
    before it. *)
Lemma ve_EndBlocker_takes ctx w w' :
  checkpoint_sane ctx w →
  let T := cp_Timestamp (last_point w) in
  let week := RegulatedUnixTime T + RegulatedPeriod in
  T + RegulatedPeriod ≤ now_of ctx → ve_EndBlocker ctx w = Ok w' →
  cp_Timestamp (last_point w') = now_of ctx ∧ cp_Block (last_point w') = BlockHeight ctx ∧
  GetEpoch w' = GetEpoch w + (if now_of ctx =? week then 1 else 2) ∧
  (now_of ctx ≠ week → cp_Timestamp (GetCheckpoint w' (GetEpoch w + 1)) = week).
Proof.
  intros Hs T week Hdue E. pose proof Hs as []. assert (now_of ctx = BlockTime ctx) as En by (apply u64_small; lia).
  pose proof (RegulatedUnixTime_le T) as HT.
  assert (0 ≤ RegulatedUnixTime T) as HT0 by (unfold RegulatedUnixTime; pose proof (Z.div_pos T RegulatedPeriod); nia).
  unfold ve_EndBlocker, RegulateCheckpoint in E. fold (last_point w) in E.
  rewrite u64_small, (proj2 (Z.leb_le _ _)) in E by (unfold T in *; lia).
  unfold regulateCheckpoint in E. rewrite (proj2 (Z.ltb_lt 0 (GetEpoch w))) in E by lia. fold (last_point w) in E.
  apply bind_Ok in E as (bs & _ & E). apply bind_Ok in E as ([[w1 e1] p1] & Er & E).
  apply regulate_rounds_points in Er as (Ht & Hb & Hw); [|apply RegulatedUnixTime_idemp|done|fold T; lia].
  cbn [Z.ltb Z.compare mbind outcome_bind] in E. injection E as <-. fold T in Hw. fold week in Hw. rewrite !u64_small in Hw by lia.
  unfold last_point, GetCheckpoint, GetEpoch. simpl. rewrite lookup_insert_eq. simpl. split_and!; [done|done| |].
  - destruct (now_of ctx =? week); [by destruct Hw as [_ ->]|destruct Hw as (q & _ & -> & _); unfold GetEpoch; lia].
  - intros Hne. rewrite (proj2 (Z.eqb_neq _ _) Hne) in Hw. destruct Hw as (q & -> & -> & Hq).
    unfold GetEpoch. simpl. rewrite lookup_insert_ne by lia. by rewrite lookup_insert_eq.
Qed.

(** ** Voting power of a user checkpoint *)

(** The power at time [t] of [amount] locked until [e], seen from [now < e]. *)
Definition lock_power (amount e t : Z) : Z := Z.max 0 (amount / MaxLockTime * (e - t)).

Lemma lock_power_bounds amount e now t :
  0 ≤ amount → now ≤ t → e ≤ now + MaxLockTime →
  0 ≤ lock_power amount e t ≤ amount ∧ (e ≤ t → lock_power amount e t = 0).
Proof.
  intros Ha Ht He. unfold lock_power. assert (0 < MaxLockTime) as Hm by done.
  pose proof (Z.div_pos amount MaxLockTime Ha Hm). pose proof (Z.mul_div_le amount MaxLockTime Hm).
  split; [|intros; nia]. split; [lia|]. apply Z.max_lub; [lia|]. nia.
Qed.

Lemma GetUserPoint_set w i e p :
  GetUserCheckpoint (SetUserCheckpoint (SetUserEpoch w i e) i e p) i e = p ∧
  GetUserEpoch (SetUserCheckpoint (SetUserEpoch w i e) i e p) i = e.
Proof.
  unfold GetUserCheckpoint, GetUserEpoch. simpl. by rewrite !lookup_insert_eq.
Qed.

Lemma RegulateUserCheckpoint_point ctx w i o n w' :
  RegulateUserCheckpoint ctx w i o n = Ok w' →
  ∃ slope bias, user_point (now_of ctx) n = Ok (slope, bias) ∧
    GetUserCheckpoint w' i (GetUserEpoch w' i) = mkCheckpoint bias slope (now_of ctx) (BlockHeight ctx).
Proof.
  unfold RegulateUserCheckpoint. intros E. inv_ok E. subst w'. eexists _, _. split; [exact E3|].
  set (e := u64 _).
  match goal with |- GetUserCheckpoint (SetUserCheckpoint (SetUserEpoch ?w0 _ _) _ _ ?p) _ _ = _ =>
    destruct (GetUserPoint_set w0 i e p) as [E1' E2'] end.
  by rewrite E2', E1'.
Qed.

Lemma GetVotingPower_after ctx w i o n w' ctx' t :
  RegulateUserCheckpoint ctx w i o n = Ok w' →
  0 ≤ lb_Amount n ≤ 2 ^ 180 → now_of ctx < lb_End n < 2 ^ 62 → now_of ctx < t < 2 ^ 62 →
  GetVotingPower ctx' w' i t 0 = Ok (lock_power (lb_Amount n) (lb_End n) t).
Proof.
  intros E Ha He Ht. destruct (RegulateUserCheckpoint_point _ _ _ _ _ _ E) as (slope & bias & Hp & Hpt).
  assert (0 ≤ now_of ctx) as Hnow by apply u64_range.
  assert (0 < MaxLockTime) as Hm by done.
  assert (slope = lb_Amount n / MaxLockTime ∧ bias = slope * (lb_End n - now_of ctx)) as [Hsl Hb].
  { unfold user_point in Hp. rewrite (proj2 (Z.ltb_lt _ _)) in Hp by lia. simpl in Hp.
    destruct (Z.ltb_spec 0 (lb_Amount n)) as [Hpos|Hz]; simpl in Hp.
    - inv_ok Hp. sdk_inv. simplify_eq. rewrite diff_i64_small by lia.
      by rewrite Z.quot_div_nonneg by lia.
    - simplify_eq. replace (lb_Amount n) with 0 by lia. done. }
  pose proof (Z.div_pos (lb_Amount n) MaxLockTime ltac:(lia) Hm).
  pose proof (Z.mul_div_le (lb_Amount n) MaxLockTime Hm).
  assert (slope ≤ 2 ^ 180) as Hsb by nia.
  unfold GetVotingPower. rewrite (proj2 (Z.ltb_lt 0 t)) by lia. rewrite Hpt. simpl.
  rewrite (proj2 (Z.leb_gt _ _)) by lia. unfold decayed. simpl. rewrite diff_i64_small by lia.
  rewrite Int_Mul_fits by (unfold int_fits; nia). simpl.
  rewrite Int_Sub_fits by (unfold int_fits; subst bias; nia). simpl. f_equal.
  unfold clip, lock_power. rewrite <- Hsl, Hb.
  replace (slope * (lb_End n - now_of ctx) - slope * (t - now_of ctx)) with (slope * (lb_End n - t)) by lia.
  destruct (Z.ltb_spec (slope * (lb_End n - t)) 0); lia.
Qed.
End VeCheckpoint.

(** * What [DistributePerPeriod] assigns to the weeks between two distributions. *)

Section VeDistribution.
Context `{!Sdk, !BankKeeper, !NftKeeper, !SdkLaws}.
Implicit Types (w : World) (ctx : Ctx).

Lemma GetDistribution_set w t x t' :
  GetDistributionPerPeriod (SetDistributionPerPeriod w t x) t' =
  if decide (t = t') then x else GetDistributionPerPeriod w t'.
Proof. unfold GetDistributionPerPeriod. simpl. rewrite lookup_insert. by case_decide. Qed.

(** A round that ends the loop, for the week that contains [now]; it adds the
    whole amount, however long ago the last distribution was: the share is
    taken from the time since then, which is the whole duration. *)
Lemma distribute_last n w amount now timeLast epochTime :
  RegulatedUnixTime epochTime = epochTime → 0 ≤ epochTime ≤ now → now < 2 ^ 62 →
  now ≤ epochTime + RegulatedPeriod → 0 ≤ timeLast ≤ now →
  small amount → small (GetDistributionPerPeriod w epochTime) →
  distribute_periods (S n) w amount now timeLast (now - timeLast) epochTime =
  Ok (SetDistributionPerPeriod w epochTime (GetDistributionPerPeriod w epochTime + amount)).
Proof.
  unfold small. intros Hr He Hnow Hle Ht Ha Hx. cbn [distribute_periods].
  assert (RegulatedPeriod = 604800) as HP by done.
  destruct ((now - timeLast =? 0) || (now <=? epochTime)) eqn:Hz.
  { by rewrite Int_Add_fits by (unfold int_fits; lia). }
  apply orb_false_iff in Hz as [Hz1 Hz2]. zbool.
  rewrite (NextRegulatedUnixTime_fits _ Hr) by (unfold MaxUnixTime; lia). simpl.
  rewrite Min_spec, Z.min_r by lia. rewrite diff_i64_small by lia.
  rewrite Int_Mul_fits by (unfold int_fits; nia). simpl. rewrite i64_small by lia.
  rewrite Int_Quo_fits by (unfold int_fits; nia || lia). simpl.
  rewrite Z.quot_mul by lia. rewrite Int_Add_fits by (unfold int_fits; lia). simpl.
  by rewrite (proj2 (Z.leb_le now (epochTime + RegulatedPeriod))) by lia.
Qed.

(** A round before the last one adds the share of the time up to the end of
    its week. *)
Lemma distribute_next n w amount now timeLast epochTime :
  RegulatedUnixTime epochTime = epochTime → 0 ≤ epochTime → now < 2 ^ 62 →
  epochTime + RegulatedPeriod < now → 0 ≤ timeLast ≤ epochTime + RegulatedPeriod →
  small amount → small (GetDistributionPerPeriod w epochTime) →
  distribute_periods (S n) w amount now timeLast (now - timeLast) epochTime =
  distribute_periods n
    (SetDistributionPerPeriod w epochTime (GetDistributionPerPeriod w epochTime +
       Z.quot (amount * (epochTime + RegulatedPeriod - timeLast)) (now - timeLast)))
    amount now timeLast (now - timeLast) (epochTime + RegulatedPeriod).
Proof.
  unfold small. intros Hr He Hnow Hlt Ht Ha Hx. cbn [distribute_periods].
  assert (RegulatedPeriod = 604800) as HP by done.
  rewrite (proj2 (orb_false_iff _ _)) by (split; lia).
  rewrite (NextRegulatedUnixTime_fits _ Hr) by (unfold MaxUnixTime; lia). simpl.
  rewrite Min_spec, Z.min_l by lia. rewrite diff_i64_small by lia.
  set (a := amount * _).
  assert (Z.abs a ≤ 2 ^ 180 * 2 ^ 62) as Hab by (unfold a; nia).
  rewrite Int_Mul_fits by (unfold int_fits; lia). simpl. rewrite i64_small by lia.
  rewrite Int_Quo_fits by (unfold int_fits; lia). simpl.
  assert (Z.abs (Z.quot a (now - timeLast)) ≤ Z.abs a) as Hq.
  { rewrite <- Z.quot_abs by lia. apply Z.quot_le_upper_bound; nia. }
  fold a. rewrite Int_Add_fits by (unfold int_fits; lia). simpl.
  by rewrite (proj2 (Z.leb_gt now (epochTime + RegulatedPeriod))) by lia.
Qed.

(** The new coins of the distribution pool since the last distribution. *)
Definition distributable w : Z :=
  bal (w_bank w) (GetModuleAddress DistributionPoolName) (LockDenom w) - GetDistributionTotalAmount w.

(** The state the loop of [DistributePerPeriod] starts from. *)
Definition distribution_start ctx w : World :=
  SetDistributionAccruedLastTimestamp
    (SetDistributionTotalAmount w (bal (w_bank w) (GetModuleAddress DistributionPoolName) (LockDenom w)))
    (now_of ctx).

Lemma DistributePerPeriod_start ctx w :
  let L := GetDistributionAccruedLastTimestamp w in
  small (distributable w) → 0 ≤ L ≤ now_of ctx →
  ∃ n, DistributePerPeriod ctx w =
    distribute_periods (S (S n)) (distribution_start ctx w) (distributable w) (now_of ctx) L
      (now_of ctx - L) (RegulatedUnixTime L) ∧
    (n = Z.to_nat ((now_of ctx - RegulatedUnixTime L) / RegulatedPeriod)).
Proof.
  intros L Ha Ht. unfold small in Ha. eexists. split; [|reflexivity]. unfold DistributePerPeriod.
  change (Amount (GetBalance _ _ _)) with (bal (w_bank w) (GetModuleAddress DistributionPoolName) (LockDenom w)).
  rewrite Int_Sub_fits by (unfold int_fits; unfold distributable in Ha; lia). simpl. fold (distributable w).
  pose proof (u64_range (BlockTime ctx)).
  change (GetDistributionAccruedLastTimestamp (SetDistributionTotalAmount _ _)) with L.
  rewrite u64_small by (unfold now_of in *; lia). done.
Qed.
End VeDistribution.
