(* ===== verification/VeDemo.v ===== *)
(** A concrete chain on which the ve theorems are applied: the reference SDK,
    bank and nft keeper of [SdkRef], and a user who creates two locks, merges
    them and withdraws. *)

From stdpp Require Import base gmap strings list.
From Stdlib Require Import ZArith Lia.
From S2P Require Import Prelude Sdk SdkRef Types MakerTypes VeTypes World VeKeeper VeVoting VeMsg VeEmission VeInv VeSafety VeHistory MakerDemo.

#[local] Open Scope Z_scope.
#[local] Open Scope string_scope.

Module VeDemo.
Export MakerDemo.

Definition no_dlg : option (World → Z → Z) := None.

(** Genesis, then blocks at three times: the second a minute and the third ten
    weeks after the first. *)
Definition v0 : World := ok_or pre0 (ve_InitGenesis pre0 AttoIronDenom).
Definition t1 : Z := 1650000000.
Definition vctx (height t : Z) : Ctx := mkCtx height (t * 10 ^ 9).
Definition vctx1 : Ctx := vctx 1000 t1.
Definition vctx2 : Ctx := vctx 1010 (t1 + 60).

(** A lock of a million base units for eight weeks, and one for four years. *)
Definition create1 : MsgCreate := mkMsgCreate "alice" "" (mkCoin "airon" (10 ^ 18)) (8 * 604800).
Definition create2 : MsgCreate := mkMsgCreate "alice" "" (mkCoin "airon" (10 ^ 12)) MaxLockTime.
Definition v1 : World := ok_or v0 (ve_handler no_dlg vctx1 v0 (VCreate create1)).
Definition v2 : World := ok_or v1 (ve_handler no_dlg vctx2 v1 (VCreate create2)).

Definition merge1 : MsgMerge := mkMsgMerge "alice" "ve-2" "ve-1".
Definition v3 : World := ok_or v2 (ve_handler no_dlg vctx2 v2 (VMerge merge1)).

(** The chain goes on: a block a week for nine weeks. *)
Definition week_ctx (k : Z) : Ctx := vctx (1000 + k * 100000) (t1 + 120 + k * 604800).
Definition end_block (w : World) (k : Z) : World := ok_or w (ve_EndBlocker (week_ctx k) w).
Definition v2_later : World := fold_left end_block [1; 2; 3; 4; 5; 6; 7; 8; 9] v2.
Definition vctx3 : Ctx := vctx 2000000 (t1 + 9 * 604800 + 180).
Definition withdraw1 : MsgWithdraw := mkMsgWithdraw "alice" "ve-1".
Definition v4 : World := ok_or v2_later (ve_handler no_dlg vctx3 v2_later (VWithdraw withdraw1)).

(** The same calls with the message server's own functions. *)
Definition create1_result : string * Z * World := ok_or ("", 0, v0) (Create vctx1 v0 create1).

Lemma vreach0 : ve_reach no_dlg AttoIronDenom 0 v0.
Proof.
  apply (ve_reach_genesis _ _ pre0).
  - by vm_compute.
  - intros s. reflexivity.
  - by split_and!.
  - apply Z.leb_le. by vm_compute.
  - apply (is_ok_or pre0). by vm_compute.
  - done.
Qed.

Lemma vreach_step (t : Z) (w w' : World) (ctx : Ctx) :
  ve_reach no_dlg AttoIronDenom t w → ((t <=? BlockTime ctx) && (BlockTime ctx <? 2 ^ 63))%Z = true →
  ve_step no_dlg ctx w w' → (GetEpoch w' <? 2 ^ 62)%Z = true →
  ve_reach no_dlg AttoIronDenom (BlockTime ctx) w'.
Proof. intros R Ht St He. zbool. by eapply (ve_reach_step no_dlg AttoIronDenom t w ctx). Qed.

Lemma vreach_msg t w m d ctx :
  ve_reach no_dlg AttoIronDenom t w → ((t <=? BlockTime ctx) && (BlockTime ctx <? 2 ^ 63))%Z = true →
  ve_ValidateBasic m = Ok tt → ve_sender m = "alice" → is_ok (ve_handler no_dlg ctx w m) = true →
  (GetEpoch (ok_or d (ve_handler no_dlg ctx w m)) <? 2 ^ 62)%Z = true →
  ve_reach no_dlg AttoIronDenom (BlockTime ctx) (ok_or d (ve_handler no_dlg ctx w m)).
Proof.
  intros R Ht Hv Hs Ho He. eapply vreach_step; [exact R|exact Ht| |exact He].
  eapply VeDeliver; [exact Hv| |by apply is_ok_or]. unfold ve_user. rewrite Hs. vm_compute. discriminate.
Qed.

Lemma vreach1 : ve_reach no_dlg AttoIronDenom t1 v1.
Proof. apply (vreach_msg 0 v0 (VCreate create1) v0 vctx1); [exact vreach0|by vm_compute..]. Qed.
Lemma vreach2 : ve_reach no_dlg AttoIronDenom (t1 + 60) v2.
Proof. apply (vreach_msg t1 v1 (VCreate create2) v1 vctx2); [exact vreach1|by vm_compute..]. Qed.
Lemma vreach3 : ve_reach no_dlg AttoIronDenom (t1 + 60) v3.
Proof. apply (vreach_msg (t1 + 60) v2 (VMerge merge1) v2 vctx2); [exact vreach2|by vm_compute..]. Qed.

Lemma vreach_block t w k :
  ve_reach no_dlg AttoIronDenom t w → ((t <=? BlockTime (week_ctx k)) && (BlockTime (week_ctx k) <? 2 ^ 63))%Z = true →
  is_ok (ve_EndBlocker (week_ctx k) w) = true → (GetEpoch (end_block w k) <? 2 ^ 62)%Z = true →
  ve_reach no_dlg AttoIronDenom (BlockTime (week_ctx k)) (end_block w k).
Proof.
  intros R Ht Ho He. eapply vreach_step; [exact R|exact Ht| |exact He].
  apply VeEndBlock. unfold end_block. by apply is_ok_or.
Qed.

Fixpoint blocks_ok (t : Z) (ks : list Z) (w : World) : bool :=
  match ks with
  | [] => true
  | k :: ks =>
      ((t <=? BlockTime (week_ctx k)) && (BlockTime (week_ctx k) <? 2 ^ 63))%Z &&
      is_ok (ve_EndBlocker (week_ctx k) w) && (GetEpoch (end_block w k) <? 2 ^ 62)%Z &&
      blocks_ok (BlockTime (week_ctx k)) ks (end_block w k)
  end.

Definition blocks_end (t : Z) (ks : list Z) : Z := fold_left (fun _ k => BlockTime (week_ctx k)) ks t.

Lemma vreach_blocks ks t w :
  ve_reach no_dlg AttoIronDenom t w → blocks_ok t ks w = true →
  ve_reach no_dlg AttoIronDenom (blocks_end t ks) (fold_left end_block ks w).
Proof.
  revert t w. induction ks as [|k ks IH]; intros t w R Hb; [exact R|]. cbn [blocks_ok] in Hb.
  apply andb_true_iff in Hb as [Hb H4]. apply andb_true_iff in Hb as [Hb H3].
  apply andb_true_iff in Hb as [H1 H2].
  apply IH; [|exact H4]. by apply (vreach_block t).
Qed.

Lemma vreach2_later : ve_reach no_dlg AttoIronDenom (t1 + 120 + 9 * 604800) v2_later.
Proof. apply (vreach_blocks [1; 2; 3; 4; 5; 6; 7; 8; 9] (t1 + 60) v2); [exact vreach2|by vm_compute]. Qed.
End VeDemo.
