(* ===== verification/GaugeKeeper.v ===== *)
(** The gauge keeper's store ([src/x/gauge/keeper/store.go]): pools that users
    deposit coins into (gauges) and pools that follow votes (bribes), both
    built on [Base]. *)

From stdpp Require Import base gmap strings list.
From Stdlib Require Import ZArith Lia.
From S2P Require Import Prelude Sdk Types VeTypes GaugeTypes World.

#[local] Open Scope string_scope.
#[local] Open Scope Z_scope.

(** [Base]: the denomination and which of the two kinds of pool it is. *)
Record Base := mkBase { b_depositDenom : string; b_isGauge : bool }.

Definition Base_prefixKey (b : Base) : string :=
  if b_isGauge b then GaugeKey (b_depositDenom b) else BribeKey (b_depositDenom b).

Definition PoolDenom (b : Base) : string := b_depositDenom b.
Definition PoolName (b : Base) : string :=
  (if b_isGauge b then GaugePoolName else BribePoolName) ++ "_" ++ b_depositDenom b.

Section GaugeKeeper.
Context `{Sdk, BankKeeper, NftKeeper}.
Implicit Types (w : World) (b : Base).

Definition on_gauge (f : GaugeStore → GaugeStore) w : World := set_gauge (f (w_gauge w)) w.

(** The address of the pool's account; accounts are created on first use,
    which changes no balance. *)
Definition EscrowPool b : Addr := GetModuleAddress (PoolName b).

Definition SetGauge w (denom : string) : World :=
  on_gauge (fun s => gs_set_Gauges (<[denom := denom]> (gs_Gauges s)) s) w.
Definition HasGauge w (denom : string) : bool := bool_decide (is_Some (gs_Gauges (w_gauge w) !! denom)).
Definition GetGauges w : list string := (kv_iter (gs_Gauges (w_gauge w))).*1.

Definition SetTotalDepositedAmount b w (x : Z) : World :=
  on_gauge (fun s => gs_set_TotalDeposited (<[Base_prefixKey b := x]> (gs_TotalDeposited s)) s) w.
Definition GetTotalDepositedAmount b w : Z :=
  default 0 (gs_TotalDeposited (w_gauge w) !! Base_prefixKey b).
Definition SetDepositedAmountByUser b w (veID x : Z) : World :=
  on_gauge (fun s => gs_set_Deposited (<[(Base_prefixKey b, veID) := x]> (gs_Deposited s)) s) w.
Definition GetDepositedAmountByUser b w (veID : Z) : Z :=
  default 0 (gs_Deposited (w_gauge w) !! (Base_prefixKey b, veID)).
Definition DeleteDepositedAmountByUser b w (veID : Z) : World :=
  on_gauge (fun s => gs_set_Deposited (delete (Base_prefixKey b, veID) (gs_Deposited s)) s) w.

Definition SetTotalDerivedAmount b w (x : Z) : World :=
  on_gauge (fun s => gs_set_TotalDerived (<[Base_prefixKey b := x]> (gs_TotalDerived s)) s) w.
Definition GetTotalDerivedAmount b w : Z :=
  default 0 (gs_TotalDerived (w_gauge w) !! Base_prefixKey b).
Definition SetDerivedAmountByUser b w (veID x : Z) : World :=
  on_gauge (fun s => gs_set_Derived (<[(Base_prefixKey b, veID) := x]> (gs_Derived s)) s) w.
Definition GetDerivedAmountByUser b w (veID : Z) : Z :=
  default 0 (gs_Derived (w_gauge w) !! (Base_prefixKey b, veID)).

Definition SetReward b w (rewardDenom : string) (r : Reward) : World :=
  on_gauge (fun s => gs_set_Reward (<[RewardKey (Base_prefixKey b) rewardDenom := r]> (gs_Reward s)) s) w.
Definition GetReward b w (rewardDenom : string) : Reward :=
  default (mkReward rewardDenom 0 0 0 0 0)
    (gs_Reward (w_gauge w) !! RewardKey (Base_prefixKey b) rewardDenom).

(** [IterateRewards]: every reward whose key starts with the pool's key. *)
Definition IterateRewards b w : list Reward :=
  snd <$> filter (fun kv => String.prefix (Base_prefixKey b) kv.1 = true)
    (kv_iter (gs_Reward (w_gauge w))).

Definition SetUserReward b w (rewardDenom : string) (veID : Z) (r : UserReward) : World :=
  on_gauge (fun s =>
    gs_set_UserReward (<[(RewardKey (Base_prefixKey b) rewardDenom, veID) := r]> (gs_UserReward s)) s) w.
Definition GetUserReward b w (rewardDenom : string) (veID : Z) : UserReward :=
  default (mkUserReward rewardDenom veID 0 0)
    (gs_UserReward (w_gauge w) !! (RewardKey (Base_prefixKey b) rewardDenom, veID)).

Definition SetUserVeIDByAddress b w (acc : Addr) (veID : Z) : World :=
  on_gauge (fun s =>
    gs_set_UserVeID (<[UserVeIDByAddressKey (Base_prefixKey b) acc := veID]> (gs_UserVeID s)) s) w.
Definition GetUserVeIDByAddress b w (acc : Addr) : Z :=
  default EmptyVeID (gs_UserVeID (w_gauge w) !! UserVeIDByAddressKey (Base_prefixKey b) acc).
Definition DeleteUserVeIDByAddress b w (acc : Addr) : World :=
  on_gauge (fun s => gs_set_UserVeID (delete (UserVeIDByAddressKey (Base_prefixKey b) acc) (gs_UserVeID s)) s) w.

Definition Base_SetEpoch b w (epoch : Z) : World :=
  on_gauge (fun s => gs_set_Epoch (<[Base_prefixKey b := epoch]> (gs_Epoch s)) s) w.
Definition Base_GetEpoch b w : Z := default EmptyEpoch (gs_Epoch (w_gauge w) !! Base_prefixKey b).
Definition Base_SetCheckpoint b w (epoch : Z) (p : GaugePoint) : World :=
  on_gauge (fun s => gs_set_Point (<[(Base_prefixKey b, epoch) := p]> (gs_Point s)) s) w.
Definition Base_GetCheckpoint b w (epoch : Z) : GaugePoint :=
  default EmptyPoint (gs_Point (w_gauge w) !! (Base_prefixKey b, epoch)).

Definition Base_SetUserEpoch b w (veID epoch : Z) : World :=
  on_gauge (fun s => gs_set_UserEpoch (<[(Base_prefixKey b, veID) := epoch]> (gs_UserEpoch s)) s) w.
Definition Base_GetUserEpoch b w (veID : Z) : Z :=
  default EmptyEpoch (gs_UserEpoch (w_gauge w) !! (Base_prefixKey b, veID)).
Definition Base_SetUserCheckpoint b w (veID epoch : Z) (p : GaugePoint) : World :=
  on_gauge (fun s => gs_set_UserPoint (<[(Base_prefixKey b, veID, epoch) := p]> (gs_UserPoint s)) s) w.
Definition Base_GetUserCheckpoint b w (veID epoch : Z) : GaugePoint :=
  default EmptyPoint (gs_UserPoint (w_gauge w) !! (Base_prefixKey b, veID, epoch)).

Definition SetRewardEpoch b w (rewardDenom : string) (epoch : Z) : World :=
  on_gauge (fun s =>
    gs_set_RewardEpoch (<[RewardKey (Base_prefixKey b) rewardDenom := epoch]> (gs_RewardEpoch s)) s) w.
Definition GetRewardEpoch b w (rewardDenom : string) : Z :=
  default EmptyEpoch (gs_RewardEpoch (w_gauge w) !! RewardKey (Base_prefixKey b) rewardDenom).
Definition SetRewardCheckpoint b w (rewardDenom : string) (epoch : Z) (p : GaugePoint) : World :=
  on_gauge (fun s =>
    gs_set_RewardPoint (<[(RewardKey (Base_prefixKey b) rewardDenom, epoch) := p]> (gs_RewardPoint s)) s) w.
Definition GetRewardCheckpoint b w (rewardDenom : string) (epoch : Z) : GaugePoint :=
  default EmptyPoint (gs_RewardPoint (w_gauge w) !! (RewardKey (Base_prefixKey b) rewardDenom, epoch)).

(** [isRewardDenom] and [getRewardDenoms] read the denomination inside the
    stored reward. *)
Definition isRewardDenom b w (denom : string) : bool :=
  existsb (fun r => bool_decide (rw_Denom r = denom)) (IterateRewards b w).
Definition getRewardDenoms b w : list string := rw_Denom <$> IterateRewards b w.
End GaugeKeeper.
