(* ===== verification/GaugeBase.v ===== *)
(** Pools ([src/x/gauge/keeper/base.go]): the search in histories of
    checkpoints, rewards per ticket, claims and reward deposits. *)

From stdpp Require Import base gmap strings list.
From Stdlib Require Import ZArith Lia.
From S2P Require Import Prelude Sdk Types VeTypes GaugeTypes World VeKeeper VeVoting GaugeKeeper.

#[local] Open Scope string_scope.
#[local] Open Scope Z_scope.

(** A use of an amount that may be a nil [sdk.Int]. *)
Definition int_of (x : option Z) : outcome Z := deref x.

(** The binary search: the last epoch in [lower..upper] whose time is not
    after [timestamp]; the rounds are bounded by the width of the interval. *)
Fixpoint prior_search (fuel : nat) (stamp : Z → Z) (timestamp lower upper : Z) : Z :=
  match fuel with
  | O => lower
  | S fuel =>
      if lower <? upper then
        let mid := u64 (u64 (lower + upper) + 1) / 2 in
        if stamp mid =? timestamp then mid
        else if stamp mid <? timestamp then prior_search fuel stamp timestamp mid upper
        else prior_search fuel stamp timestamp lower (u64 (mid - 1))
      else lower
  end.

(** Rounds that are always enough for epochs of 64 bits. *)
Definition search_fuel : nat := 65.

Definition find_prior (epoch : Z) (stamp : Z → Z) (timestamp : Z) : Z :=
  if epoch =? EmptyEpoch then EmptyEpoch
  else if stamp epoch <=? timestamp then epoch
  else if timestamp <? stamp FirstEpoch then EmptyEpoch
  else prior_search search_fuel stamp timestamp 0 epoch.

Section Base.
Context `{Sdk, BankKeeper, NftKeeper}.
Implicit Types (ctx : Ctx) (w : World) (b : Base).

Definition findPriorEpoch b w (veID : Z) (rewardDenom : string) (timestamp : Z) : outcome Z :=
  let byReward := negb (String.length rewardDenom =? 0)%nat in
  if negb (veID =? EmptyVeID) && byReward then Panic else
  let epoch :=
    if negb (veID =? EmptyVeID) then Base_GetUserEpoch b w veID
    else if byReward then GetRewardEpoch b w rewardDenom
    else Base_GetEpoch b w in
  let getCheckpoint e :=
    if negb (veID =? EmptyVeID) then Base_GetUserCheckpoint b w veID e
    else if byReward then GetRewardCheckpoint b w rewardDenom e
    else Base_GetCheckpoint b w e in
  Ok (find_prior epoch (fun e => gp_Timestamp (getCheckpoint e)) timestamp).

(** The amount may be nil: the caller panics when it uses it. *)
Definition findPriorRewardPerTicket b w (rewardDenom : string) (timestamp : Z) : outcome (option Z) :=
  epoch ← findPriorEpoch b w EmptyVeID rewardDenom timestamp;
  Ok (gp_Amount (GetRewardCheckpoint b w rewardDenom epoch)).

Definition lastTimeRewardAvailable ctx b w (rewardDenom : string) : Z :=
  Min (now_of ctx) (rw_FinishTime (GetReward b w rewardDenom)).

(** [Int.MulRaw] and [Int.QuoRaw] take an [int64]. *)
Definition MulRaw (a i : Z) : outcome Z := Int_Mul a i.
Definition QuoRaw (a i : Z) : outcome Z := Int_Quo a i.

Definition rewardPerTicket ctx b w (rewardDenom : string) : outcome Z :=
  let totalAmount := if b_isGauge b then GetTotalDerivedAmount b w else GetTotalDepositedAmount b w in
  let reward := GetReward b w rewardDenom in
  if totalAmount =? 0 then Ok (rw_CumulativePerTicket reward)
  else
    let timeFromLast := u64 (lastTimeRewardAvailable ctx b w rewardDenom -
                             Min (rw_LastUpdateTime reward) (rw_FinishTime reward)) in
    x ← MulRaw (rw_Rate reward) (i64 timeFromLast);
    rewardFromLast ← Int_Quo x totalAmount;
    Int_Add (rw_CumulativePerTicket reward) rewardFromLast.

Definition derivedTickets ctx b w (veID : Z) : outcome Z :=
  if negb (b_isGauge b) then Ok 0
  else
    let totalDeposited := GetTotalDepositedAmount b w in
    let deposited := GetDepositedAmountByUser b w veID in
    d ← MulRaw deposited 40; derived ← QuoRaw d 100;
    totalPower ← GetTotalVotingPower ctx w (now_of ctx) 0;
    adjusted ← (if 0 <? totalPower then
                  power ← GetVotingPower ctx w veID (now_of ctx) 0;
                  x ← Int_Mul totalDeposited power;
                  x ← Int_Quo x totalPower;
                  x ← MulRaw x 60;
                  QuoRaw x 100
                else Ok 0);
    tickets ← Int_Add derived adjusted;
    Ok (if tickets <? deposited then tickets else deposited).

Definition calculateRewardPerTicket b w (rewardDenom : string)
    (timestamp0 timestamp1 startTimestamp totalAmount : Z) : outcome (Z * Z) :=
  let reward := GetReward b w rewardDenom in
  let endTimestamp := Max timestamp1 startTimestamp in
  let duration := u64 (Min endTimestamp (rw_FinishTime reward) -
                       Min (Max timestamp0 startTimestamp) (rw_FinishTime reward)) in
  x ← MulRaw (rw_Rate reward) (i64 duration);
  perTicket ← Int_Quo x totalAmount;
  Ok (perTicket, endTimestamp).

(** ** Checkpoints *)

(** A checkpoint of the same second is overwritten, a later one is appended. *)
Definition next_point (now epoch : Z) (p : GaugePoint) (amount : Z) : Z * GaugePoint :=
  if (0 <? epoch) && (gp_Timestamp p =? now) then (epoch, mkGaugePoint now (Some amount))
  else (u64 (epoch + 1), mkGaugePoint now (Some amount)).

Definition writeUserCheckpoint ctx b w (veID amount : Z) : World :=
  let epoch := Base_GetUserEpoch b w veID in
  let '(epoch', p) := next_point (now_of ctx) epoch (Base_GetUserCheckpoint b w veID epoch) amount in
  let w := if epoch' =? epoch then w else Base_SetUserEpoch b w veID epoch' in
  Base_SetUserCheckpoint b w veID epoch' p.

Definition writeRewardPerTicketCheckpoint b w (rewardDenom : string) (reward timestamp : Z) : World :=
  let epoch := GetRewardEpoch b w rewardDenom in
  let '(epoch', p) := next_point timestamp epoch (GetRewardCheckpoint b w rewardDenom epoch) reward in
  let w := if epoch' =? epoch then w else SetRewardEpoch b w rewardDenom epoch' in
  SetRewardCheckpoint b w rewardDenom epoch' p.

Definition writeCheckpoint ctx b w : World :=
  let epoch := Base_GetEpoch b w in
  let amount := if b_isGauge b then GetTotalDerivedAmount b w else GetTotalDepositedAmount b w in
  let '(epoch', p) := next_point (now_of ctx) epoch (Base_GetCheckpoint b w epoch) amount in
  let w := if epoch' =? epoch then w else Base_SetEpoch b w epoch' in
  Base_SetCheckpoint b w epoch' p.

(** ** Rewards *)

(** The rounds [i = startEpoch .. epoch - 2] of [updateRewardPerTicket]. *)
Fixpoint update_rounds (n : nat) b w (rewardDenom : string) (i cumulative startTimestamp : Z) :
    outcome (World * Z * Z) :=
  match n with
  | O => Ok (w, cumulative, startTimestamp)
  | S n =>
      let point := Base_GetCheckpoint b w i in
      amount ← int_of (gp_Amount point);
      if 0 <? amount then
        let nextPoint := Base_GetCheckpoint b w (u64 (i + 1)) in
        '(perTicket, endTimestamp) ←
          calculateRewardPerTicket b w rewardDenom (gp_Timestamp point) (gp_Timestamp nextPoint)
            startTimestamp amount;
        cumulative ← Int_Add cumulative perTicket;
        let w := writeRewardPerTicketCheckpoint b w rewardDenom cumulative endTimestamp in
        update_rounds n b w rewardDenom (u64 (i + 1)) cumulative endTimestamp
      else update_rounds n b w rewardDenom (u64 (i + 1)) cumulative startTimestamp
  end.

Definition with_update (r : Reward) (cumulative lastUpdate : Z) : Reward :=
  mkReward (rw_Denom r) (rw_Rate r) (rw_FinishTime r) lastUpdate cumulative (rw_AccruedAmount r).

(** The number of rounds of [for i := start; i < epoch-1; i++] on [uint64]. *)
Definition rounds (start epoch : Z) : nat := Z.to_nat (u64 (epoch - 1) - start).

Definition updateRewardPerTicket ctx b w (rewardDenom : string) : outcome World :=
  let epoch := Base_GetEpoch b w in
  if epoch =? EmptyEpoch then Ok w
  else
    let now := now_of ctx in
    let reward := GetReward b w rewardDenom in
    let startTimestamp := rw_LastUpdateTime reward in
    if rw_Rate reward =? 0 then
      Ok (SetReward b w rewardDenom (with_update reward (rw_CumulativePerTicket reward) now))
    else
      startEpoch ← findPriorEpoch b w 0 "" startTimestamp;
      '(w, cumulative, startTimestamp) ←
        update_rounds (rounds startEpoch epoch) b w rewardDenom startEpoch
          (rw_CumulativePerTicket reward) startTimestamp;
      let point := Base_GetCheckpoint b w epoch in
      amount ← int_of (gp_Amount point);
      '(w, cumulative, startTimestamp) ←
        (if 0 <? amount then
           '(perTicket, _) ←
             calculateRewardPerTicket b w rewardDenom (Max (gp_Timestamp point) startTimestamp)
               (lastTimeRewardAvailable ctx b w rewardDenom) startTimestamp amount;
           cumulative ← Int_Add cumulative perTicket;
           Ok (writeRewardPerTicketCheckpoint b w rewardDenom cumulative now, cumulative, now)
         else Ok (w, cumulative, startTimestamp));
      Ok (SetReward b w rewardDenom (with_update reward cumulative startTimestamp)).

(** The rounds of [userReward]. *)
Fixpoint reward_rounds (n : nat) b w (rewardDenom : string) (veID i reward : Z) : outcome Z :=
  match n with
  | O => Ok reward
  | S n =>
      let point := Base_GetUserCheckpoint b w veID i in
      let nextPoint := Base_GetUserCheckpoint b w veID (u64 (i + 1)) in
      perTicket ← findPriorRewardPerTicket b w rewardDenom (gp_Timestamp point);
      nextPerTicket ← findPriorRewardPerTicket b w rewardDenom (gp_Timestamp nextPoint);
      next ← int_of nextPerTicket; prev ← int_of perTicket;
      delta ← Int_Sub next prev;
      amount ← int_of (gp_Amount point);
      x ← Int_Mul amount delta;
      reward ← Int_Add reward x;
      reward_rounds n b w rewardDenom veID (u64 (i + 1)) reward
  end.

Definition userReward ctx b w (rewardDenom : string) (veID : Z) : outcome Z :=
  let epoch := Base_GetUserEpoch b w veID in
  if epoch =? EmptyEpoch then Ok 0
  else
    let ur := GetUserReward b w rewardDenom veID in
    let startTimestamp := Max (ur_LastClaimTime ur)
                              (gp_Timestamp (GetRewardCheckpoint b w rewardDenom FirstEpoch)) in
    startEpoch ← findPriorEpoch b w veID "" startTimestamp;
    reward ← reward_rounds (rounds startEpoch epoch) b w rewardDenom veID startEpoch 0;
    let point := Base_GetUserCheckpoint b w veID epoch in
    perTicket ← findPriorRewardPerTicket b w rewardDenom (gp_Timestamp point);
    current ← rewardPerTicket ctx b w rewardDenom;
    prev ← int_of perTicket;
    delta ← Int_Sub current (Z.max prev (ur_CumulativePerTicket ur));
    amount ← int_of (gp_Amount point);
    x ← Int_Mul amount delta;
    Int_Add reward x.

Definition deriveAmountForUser ctx b w (veID : Z) : outcome World :=
  if negb (b_isGauge b) then Ok w
  else
    totalDerived ← Int_Sub (GetTotalDerivedAmount b w) (GetDerivedAmountByUser b w veID);
    derived ← derivedTickets ctx b w veID;
    let w := SetDerivedAmountByUser b w veID derived in
    totalDerived ← Int_Add totalDerived derived;
    let w := SetTotalDerivedAmount b w totalDerived in
    let w := writeUserCheckpoint ctx b w veID derived in
    Ok (writeCheckpoint ctx b w).

(** The loop of [claimReward] over the reward denominations.  The record of
    what the user has claimed is computed but not stored. *)
Definition claim_denom ctx b (owner : Addr) (veID : Z) w (rewardDenom : string) : outcome World :=
  w ← updateRewardPerTicket ctx b w rewardDenom;
  rewardAmount ← userReward ctx b w rewardDenom veID;
  if 0 <? rewardAmount then
    coin ← NewCoin rewardDenom rewardAmount;
    coins ← NewCoins [coin];
    on_bank (fun bk => SendCoins bk (EscrowPool b) owner coins) w
  else Ok w.

Definition claimReward ctx b w (veID : Z) : outcome World :=
  let owner := nft_GetOwner (w_nft w) VeNftClassId (VeIDFromUint64 veID) in
  w ← for_each (claim_denom ctx b owner veID) (getRewardDenoms b w) w;
  deriveAmountForUser ctx b w veID.

Definition RemainingReward ctx b w (rewardDenom : string) : outcome Z :=
  let now := now_of ctx in
  let reward := GetReward b w rewardDenom in
  if rw_FinishTime reward <=? now then Ok 0
  else MulRaw (rw_Rate reward) (diff_i64 (rw_FinishTime reward) now).

Definition depositReward ctx b w (sender : Addr) (rewardDenom : string) (amount : Z) : outcome World :=
  fail_if bool_decide (rewardDenom = b_depositDenom b) with ErrInvalidDepositDenom ;;
  fail_if negb (0 <? amount) with ErrInvalidAmount ;;
  let now := now_of ctx in
  let w := if rw_Rate (GetReward b w rewardDenom) =? 0
           then writeRewardPerTicketCheckpoint b w rewardDenom 0 now else w in
  w ← updateRewardPerTicket ctx b w rewardDenom;
  let reward := GetReward b w rewardDenom in
  coin ← NewCoin rewardDenom amount;
  coins ← NewCoins [coin];
  w ← on_bank (fun bk => SendCoins bk sender (EscrowPool b) coins) w;
  rewardAmount ←
    (if now <? rw_FinishTime reward then
       remaining ← MulRaw (rw_Rate reward) (diff_i64 (rw_FinishTime reward) now);
       fail_if amount <=? remaining with ErrTooSmallRewardAmount ;;
       Int_Add amount remaining
     else Ok amount);
  rate ← QuoRaw rewardAmount RegulatedPeriod;
  fail_if negb (0 <? rate) with ErrTooSmallRewardAmount ;;
  if Amount (GetBalance (w_bank w) (EscrowPool b) rewardDenom) <? rewardAmount then Panic
  else Ok (SetReward b w rewardDenom
             (mkReward (rw_Denom reward) rate (u64 (now + RegulatedPeriod))
                (rw_LastUpdateTime reward) (rw_CumulativePerTicket reward) (rw_AccruedAmount reward))).
End Base.
