(* ===== verification/GaugeSearch.v ===== *)
(** The histories of checkpoints of a pool: the binary search of
    [findPriorEpoch] ends and finds the checkpoint that was in force, and a
    history that is written at every change of a quantity answers what the
    quantity was at any earlier time. *)

From stdpp Require Import base gmap strings list.
From Stdlib Require Import ZArith Lia.
From S2P Require Import Prelude Sdk Types VeTypes GaugeTypes World VeKeeper VeVoting GaugeKeeper GaugeBase.

#[local] Open Scope Z_scope.

(** ** The loop of [findPriorEpoch], without a bound on its rounds *)
Inductive search_loop (stamp : Z → Z) (t : Z) : Z → Z → Z → Prop :=
| search_done lower upper : upper ≤ lower → search_loop stamp t lower upper lower
| search_hit lower upper mid :
    lower < upper → mid = u64 (u64 (lower + upper) + 1) / 2 →
    stamp mid = t → search_loop stamp t lower upper mid
| search_right lower upper mid r :
    lower < upper → mid = u64 (u64 (lower + upper) + 1) / 2 → stamp mid < t →
    search_loop stamp t mid upper r → search_loop stamp t lower upper r
| search_left lower upper mid r :
    lower < upper → mid = u64 (u64 (lower + upper) + 1) / 2 → t < stamp mid →
    search_loop stamp t lower (u64 (mid - 1)) r → search_loop stamp t lower upper r.

(** The middle of an interval of epochs, rounded up, does not wrap. *)
Lemma mid_bounds lower upper :
  0 ≤ lower < upper → upper < 2 ^ 63 →
  let mid := u64 (u64 (lower + upper) + 1) / 2 in
  lower < mid ≤ upper ∧ upper - mid ≤ (upper - lower) / 2 ∧
  mid - 1 - lower ≤ (upper - lower) / 2 ∧ u64 (mid - 1) = mid - 1.
Proof.
  intros Hl Hu mid. subst mid. rewrite u64_u64_add, u64_small by lia.
  pose proof (Z.div_mod (lower + upper + 1) 2 ltac:(lia)).
  pose proof (Z.mod_pos_bound (lower + upper + 1) 2 ltac:(lia)).
  pose proof (Z.div_mod (upper - lower) 2 ltac:(lia)).
  pose proof (Z.mod_pos_bound (upper - lower) 2 ltac:(lia)).
  rewrite u64_small by lia. lia.
Qed.

(** Each round halves the interval. *)
Lemma prior_search_loop stamp t (fuel : nat) : ∀ lower upper,
  0 ≤ lower ≤ upper → upper < 2 ^ 63 → upper - lower < 2 ^ Z.of_nat fuel →
  search_loop stamp t lower upper (prior_search (S fuel) stamp t lower upper).
Proof.
  induction fuel as [|fuel IH]; intros lower upper Hl Hu Hf;
    cbn [prior_search]; destruct (Z.ltb_spec lower upper) as [Hlt|Hge];
    try (apply search_done; lia).
  - change (2 ^ Z.of_nat 0) with 1 in Hf. lia.
  - pose proof (mid_bounds lower upper ltac:(lia) Hu) as (Hm & Hr & Hleft & Hu1).
    set (mid := u64 (u64 (lower + upper) + 1) / 2) in *.
    rewrite Nat2Z.inj_succ, Z.pow_succ_r in Hf by lia.
    assert ((upper - lower) / 2 < 2 ^ Z.of_nat fuel) by (apply Z.div_lt_upper_bound; lia).
    destruct (Z.eqb_spec (stamp mid) t) as [Heq|Hne]; [by eapply search_hit|].
    destruct (Z.ltb_spec (stamp mid) t).
    + apply search_right with mid; [lia|done|done|]. apply IH; lia.
    + apply search_left with mid; [lia|done|lia|]. rewrite Hu1. apply IH; lia.
Qed.

(** What the loop returns on increasing stamps. *)
Definition is_prior (stamp : Z → Z) (epoch t e : Z) : Prop :=
  0 ≤ e ≤ epoch ∧ (1 ≤ e → stamp e ≤ t) ∧ ∀ e', e < e' ≤ epoch → t < stamp e'.

Definition increasing (stamp : Z → Z) (epoch : Z) : Prop :=
  ∀ i j, 1 ≤ i < j → j ≤ epoch → stamp i < stamp j.

Lemma search_loop_prior stamp t epoch lower upper r :
  search_loop stamp t lower upper r → increasing stamp epoch →
  0 ≤ lower ≤ upper → upper ≤ epoch < 2 ^ 63 →
  (1 ≤ lower → stamp lower ≤ t) → (∀ e', upper < e' ≤ epoch → t < stamp e') →
  is_prior stamp epoch t r.
Proof.
  induction 1 as [lower upper|lower upper mid Hlt -> Hs|lower upper mid r Hlt -> Hs _ IH
                 |lower upper mid r Hlt -> Hs _ IH]; intros Hinc Hl Hu Hlo Hup.
  - split; [lia|]. split; [done|]. intros e' He'. apply Hup. lia.
  - pose proof (mid_bounds lower upper ltac:(lia) ltac:(lia)) as (Hm & _).
    split; [lia|]. split; [lia|]. intros e' He'. rewrite <- Hs. apply Hinc; lia.
  - pose proof (mid_bounds lower upper ltac:(lia) ltac:(lia)) as (Hm & _). apply IH; auto; lia.
  - pose proof (mid_bounds lower upper ltac:(lia) ltac:(lia)) as (Hm & _ & _ & Hu1).
    set (mid := u64 (u64 (lower + upper) + 1) / 2) in *. rewrite Hu1 in IH.
    apply IH; [done|lia|lia|done|].
    intros e' He'. destruct (decide (e' = mid)) as [->|]; [done|].
    etransitivity; [exact Hs|]. apply Hinc; lia.
Qed.

Lemma find_prior_spec epoch stamp t :
  0 ≤ epoch < 2 ^ 63 → increasing stamp epoch →
  is_prior stamp epoch t (find_prior epoch stamp t).
Proof.
  intros He Hinc. unfold find_prior, EmptyEpoch, FirstEpoch.
  destruct (Z.eqb_spec epoch 0) as [->|]; [repeat split; lia|].
  destruct (Z.leb_spec (stamp epoch) t); [split; [lia|]; split; [done|]; lia|].
  destruct (Z.ltb_spec t (stamp 1)) as [H1|H1].
  { split; [lia|]. split; [lia|]. intros e' He'.
    destruct (decide (e' = 1)) as [->|]; [done|]. pose proof (Hinc 1 e'). lia. }
  eapply search_loop_prior; [apply prior_search_loop|..]; try lia; done.
Qed.

Lemma is_prior_unique stamp epoch t e e' :
  increasing stamp epoch → is_prior stamp epoch t e → is_prior stamp epoch t e' → e = e'.
Proof.
  intros _ (He & Hs & Hl) (He' & Hs' & Hl').
  destruct (Z.lt_trichotomy e e') as [Hlt|[->|Hlt]]; [|done|].
  - specialize (Hl e' ltac:(lia)). specialize (Hs' ltac:(lia)). lia.
  - specialize (Hl' e ltac:(lia)). specialize (Hs ltac:(lia)). lia.
Qed.

(** ** Histories *)

Record hist := mkHist { h_epoch : Z; h_point : Z → GaugePoint }.

Definition stamp_of (h : hist) (e : Z) : Z := gp_Timestamp (h_point h e).

(** Two histories with the same checkpoints. *)
Definition hist_eq (h h' : hist) : Prop :=
  h_epoch h = h_epoch h' ∧ ∀ e, h_point h e = h_point h' e.

(** A checkpoint written over the last one or after it. *)
Definition hist_write (now amount : Z) (h : hist) : hist :=
  let r := next_point now (h_epoch h) (h_point h (h_epoch h)) amount in
  mkHist r.1 (fun e => if e =? r.1 then r.2 else h_point h e).

(** What the history says about time [t]; nothing is 0. *)
Definition recorded (h : hist) (t : Z) : Z :=
  default 0 (gp_Amount (h_point h (find_prior (h_epoch h) (stamp_of h) t))).

#[export] Instance hist_eq_equiv : Equivalence hist_eq.
Proof.
  split.
  - by split.
  - intros h h' [E P]. split; [done|]. intros e. by rewrite P.
  - intros h1 h2 h3 [E P] [E' P']. split; [by rewrite E|]. intros e. by rewrite P.
Qed.

(** The values a quantity took: times and values, the latest first. *)
Definition value_at (t : Z) (log : list (Z * Z)) : Z :=
  default 0 (snd <$> head (filter (fun tv => tv.1 ≤ t) log)).

Lemma value_at_cons t now x log :
  value_at t ((now, x) :: log) = if decide (now ≤ t) then x else value_at t log.
Proof. unfold value_at. rewrite filter_cons. simpl. by destruct (decide (now ≤ t)). Qed.

(** [h] records the quantity whose values are [log]. *)
Record hist_ok (log : list (Z * Z)) (h : hist) : Prop := mk_hist_ok {
  ok_epoch : 0 ≤ h_epoch h ≤ Z.of_nat (length log);
  ok_first : default 0 (gp_Amount (h_point h 0)) = 0;
  ok_incr : increasing (stamp_of h) (h_epoch h);
  ok_past : 1 ≤ h_epoch h → ∃ tv, head log = Some tv ∧ stamp_of h (h_epoch h) ≤ tv.1;
  ok_value t e : is_prior (stamp_of h) (h_epoch h) t e →
    default 0 (gp_Amount (h_point h e)) = value_at t log;
}.

(** The time of the latest entry. *)
Definition log_time (log : list (Z * Z)) (t : Z) : Prop := ∀ tv, head log = Some tv → tv.1 ≤ t.

Lemma hist_ok_empty h :
  h_epoch h = 0 → default 0 (gp_Amount (h_point h 0)) = 0 → hist_ok [] h.
Proof.
  intros He H0. split; rewrite ?He; try done; [intros i j ? ?; lia|].
  intros t e (Hb & _). by replace e with 0 by lia.
Qed.

Lemma hist_ok_eq log h h' : hist_eq h h' → hist_ok log h → hist_ok log h'.
Proof.
  intros [E P] [Ha Hb Hc Hd Hf].
  assert (∀ e, stamp_of h' e = stamp_of h e) as S by (intros e; unfold stamp_of; by rewrite P).
  split; rewrite <- ?E, <- ?P, ?S; try done.
  - intros i j Hi Hj. rewrite !S. by apply Hc.
  - intros t e (H1 & H2 & H3). rewrite <- P. apply Hf. split; [done|].
    split; [intros; rewrite <- S; auto|]. intros e' He'. rewrite <- S. auto.
Qed.

(** A history answers with the value of the quantity at that time. *)
Lemma hist_recorded log h t :
  hist_ok log h → Z.of_nat (length log) < 2 ^ 63 → recorded h t = value_at t log.
Proof.
  intros Hok Hl. apply (ok_value _ _ Hok), find_prior_spec; [|apply (ok_incr _ _ Hok)].
  pose proof (ok_epoch _ _ Hok). lia.
Qed.

(** The epochs of a history that ends before [t]. *)
Lemma prior_last log h t :
  hist_ok log h → log_time log t → is_prior (stamp_of h) (h_epoch h) t (h_epoch h).
Proof.
  intros Hok Ht. pose proof (ok_epoch _ _ Hok). split; [lia|]. split; [|lia].
  intros H1. destruct (ok_past _ _ Hok H1) as (tv & Htv & Hle). specialize (Ht _ Htv). lia.
Qed.

Lemma is_prior_epoch stamp epoch t e :
  is_prior stamp epoch t e → 1 ≤ epoch → stamp epoch ≤ t → e = epoch.
Proof.
  intros (He & _ & Hl) H1 Ht. destruct (decide (e = epoch)); [done|].
  specialize (Hl epoch ltac:(lia)). lia.
Qed.

(** A step that leaves the quantity as it is needs no checkpoint. *)
Lemma hist_ok_same log h now x :
  hist_ok log h → log_time log now → x = value_at now log → hist_ok ((now, x) :: log) h.
Proof.
  intros Hok Ht Hx. pose proof (prior_last _ _ _ Hok Ht) as Hlast.
  destruct Hok as [Ha Hb Hc Hd Hf]. split; try done.
  - simpl. lia.
  - intros H1. exists (now, x). split; [done|]. simpl. by apply Hlast.
  - intros t e Hp. rewrite value_at_cons. destruct (decide (now ≤ t)) as [Hle|]; [|auto].
    subst x. rewrite (Hf _ _ Hp), <- (Hf _ _ Hlast).
    assert (e = h_epoch h) as ->; [|symmetry; auto].
    destruct (decide (h_epoch h = 0)) as [E|]; [destruct Hp; lia|].
    eapply is_prior_epoch; [done|lia|]. pose proof (proj1 (proj2 Hlast)). lia.
Qed.

(** The stamps of a history after a write. *)
Lemma hist_write_cases now x h :
  0 ≤ h_epoch h < 2 ^ 64 - 1 → (1 ≤ h_epoch h → stamp_of h (h_epoch h) ≤ now) →
  let h' := hist_write now x h in
  let n := h_epoch h' in
  1 ≤ n ∧ h_epoch h ≤ n ≤ h_epoch h + 1 ∧ h_point h' n = mkGaugePoint now (Some x) ∧
  (∀ e, e ≠ n → h_point h' e = h_point h e) ∧ (1 ≤ n - 1 → n - 1 = h_epoch h → stamp_of h (n - 1) < now) ∧
  (n = h_epoch h → stamp_of h n = now).
Proof.
  intros He Hs. unfold hist_write, next_point. unfold stamp_of in *.
  destruct (Z.ltb_spec 0 (h_epoch h)) as [Hp|Hp]; simpl;
    [destruct (Z.eqb_spec (gp_Timestamp (h_point h (h_epoch h))) now) as [Heq|Hne]|]; simpl;
    rewrite ?u64_small, ?Z.eqb_refl by lia.
  - split_and!; try done; try lia. intros e Hne. by rewrite (proj2 (Z.eqb_neq _ _) Hne).
  - split_and!; try done; try lia.
    + intros e Hn. by rewrite (proj2 (Z.eqb_neq _ _) Hn).
    + intros _ E. rewrite E. specialize (Hs ltac:(lia)). lia.
  - split_and!; try done; try lia. intros e Hn. by rewrite (proj2 (Z.eqb_neq _ _) Hn).
Qed.

(** A write records the quantity's new value. *)
Lemma hist_ok_write log h now x :
  hist_ok log h → log_time log now → Z.of_nat (length log) < 2 ^ 63 →
  hist_ok ((now, x) :: log) (hist_write now x h).
Proof.
  intros Hok Ht Hl. pose proof (prior_last _ _ _ Hok Ht) as (_ & Hpast & _).
  destruct Hok as [Ha Hb Hc Hd Hf].
  destruct (hist_write_cases now x h ltac:(lia) Hpast) as (H1 & Hn & Hpt & Hkeep & Hbelow & Hsame).
  set (h' := hist_write now x h) in *.
  assert (stamp_of h' (h_epoch h') = now) as Hnow by (unfold stamp_of; by rewrite Hpt).
  assert (∀ e, e ≠ h_epoch h' → stamp_of h' e = stamp_of h e) as Hst
    by (intros e He; unfold stamp_of; by rewrite Hkeep).
  assert (∀ i, 1 ≤ i < h_epoch h' → stamp_of h i < now) as Hlow.
  { intros i Hi. destruct (decide (h_epoch h' = h_epoch h)) as [E|].
    - rewrite <- (Hsame E). apply Hc; lia.
    - destruct (decide (i = h_epoch h)) as [->|].
      + replace (h_epoch h) with (h_epoch h' - 1) by lia. apply Hbelow; lia.
      + etransitivity; [apply (Hc i (h_epoch h)); lia|].
        replace (h_epoch h) with (h_epoch h' - 1) by lia. apply Hbelow; lia. }
  split.
  - rewrite length_cons. lia.
  - rewrite Hkeep by lia. done.
  - intros i j Hi Hj. rewrite (Hst i) by lia. destruct (decide (j = h_epoch h')) as [->|].
    + rewrite Hnow. apply Hlow. lia.
    + rewrite Hst by done. apply Hc; lia.
  - intros _. exists (now, x). split; [done|]. by rewrite Hnow.
  - intros t e Hp. rewrite value_at_cons. destruct (decide (now ≤ t)) as [Hle|Hgt].
    + rewrite (is_prior_epoch _ _ _ _ Hp) by (rewrite ?Hnow; lia). by rewrite Hpt.
    + destruct Hp as (He & Hs & Hu). assert (e ≠ h_epoch h') as Hne.
      { intros ->. rewrite Hnow in Hs. specialize (Hs H1). lia. }
      rewrite Hkeep by done. apply Hf. split; [lia|].
      split; [intros; rewrite <- Hst by done; auto|].
      intros e' He'. destruct (decide (e' = h_epoch h')) as [->|].
      * rewrite Hsame; lia.
      * rewrite <- Hst by done. apply Hu. lia.
Qed.
