(* ===== verification/Voter.v ===== *)
(** Bribes and gauges as their users see them
    ([src/x/gauge/keeper/bribe.go], [gauge.go]), and the voter, which
    distributes emissions to gauges by the votes of locked tokens
    ([src/x/voter/keeper/voter.go], [store.go], [src/x/voter/abci.go]). *)

From stdpp Require Import base gmap strings list.
From Stdlib Require Import ZArith Lia.
From S2P Require Import Prelude Sdk SdkExt Types VeTypes GaugeTypes World VeKeeper VeVoting VeEmission GaugeKeeper GaugeBase.

#[local] Open Scope string_scope.
#[local] Open Scope Z_scope.

Section Pools.
Context `{Sdk, BankKeeper, NftKeeper}.
Implicit Types (ctx : Ctx) (w : World).

(** ** [bribe.go] *)

Definition Bribe w (denom : string) : outcome Base :=
  if HasGauge w denom then Ok (mkBase denom false) else Panic.

Definition Bribe_ClaimReward ctx (b : Base) w (veID : Z) : outcome World := claimReward ctx b w veID.

Definition Bribe_Deposit ctx (b : Base) w (veID amount : Z) : outcome World :=
  totalDeposited ← Int_Add (GetTotalDepositedAmount b w) amount;
  deposited ← Int_Add (GetDepositedAmountByUser b w veID) amount;
  let w := SetTotalDepositedAmount b w totalDeposited in
  let w := SetDepositedAmountByUser b w veID deposited in
  let w := writeUserCheckpoint ctx b w veID deposited in
  Ok (writeCheckpoint ctx b w).

Definition Bribe_Withdraw ctx (b : Base) w (veID amount : Z) : outcome World :=
  fail_if GetDepositedAmountByUser b w veID <? amount with ErrTooLargeAmount ;;
  totalDeposited ← Int_Sub (GetTotalDepositedAmount b w) amount;
  deposited ← Int_Sub (GetDepositedAmountByUser b w veID) amount;
  let w := SetTotalDepositedAmount b w totalDeposited in
  let w := if 0 <? deposited then SetDepositedAmountByUser b w veID deposited
           else DeleteDepositedAmountByUser b w veID in
  let w := writeUserCheckpoint ctx b w veID deposited in
  Ok (writeCheckpoint ctx b w).

(** ** [gauge.go] *)

Definition gauge_CreateGauge w (denom : string) : outcome World :=
  if HasGauge w denom then Panic else Ok (SetGauge w denom).

Definition Gauge w (denom : string) : outcome Base :=
  if HasGauge w denom then Ok (mkBase denom true) else Panic.

Definition Gauge_Deposit ctx (g : Base) w (veID amount : Z) : outcome World :=
  let owner := nft_GetOwner (w_nft w) VeNftClassId (VeIDFromUint64 veID) in
  coin ← NewCoin (b_depositDenom g) amount;
  coins ← NewCoins [coin];
  w ← on_bank (fun bk => SendCoins bk owner (EscrowPool g) coins) w;
  totalDeposited ← Int_Add (GetTotalDepositedAmount g w) amount;
  deposited ← Int_Add (GetDepositedAmountByUser g w veID) amount;
  let w := SetTotalDepositedAmount g w totalDeposited in
  let w := SetDepositedAmountByUser g w veID deposited in
  let w := if GetUserVeIDByAddress g w owner =? EmptyVeID
           then IncVeAttached (SetUserVeIDByAddress g w owner veID) veID else w in
  deriveAmountForUser ctx g w veID.

Definition Gauge_Withdraw ctx (g : Base) w (veID amount : Z) : outcome World :=
  let owner := nft_GetOwner (w_nft w) VeNftClassId (VeIDFromUint64 veID) in
  fail_if GetDepositedAmountByUser g w veID <? amount with ErrTooLargeAmount ;;
  totalDeposited ← Int_Sub (GetTotalDepositedAmount g w) amount;
  deposited ← Int_Sub (GetDepositedAmountByUser g w veID) amount;
  let w := SetTotalDepositedAmount g w totalDeposited in
  w ← (if 0 <? deposited then Ok (SetDepositedAmountByUser g w veID deposited)
       else DecVeAttached (DeleteUserVeIDByAddress g (DeleteDepositedAmountByUser g w veID) owner) veID);
  coin ← NewCoin (b_depositDenom g) amount;
  coins ← NewCoins [coin];
  w ← on_bank (fun bk => SendCoins bk (EscrowPool g) owner coins) w;
  deriveAmountForUser ctx g w veID.

Definition Gauge_DepositReward ctx (g : Base) w (sender : Addr) (rewardDenom : string) (amount : Z) :
    outcome World :=
  depositReward ctx g w sender rewardDenom amount.

(** [DepositFees]: what the claimee pays out is returned with the state.  The
    bribe of a gauge is the zero value of its struct, without a keeper: reading
    its rewards panics, so the loop ends at the first fee. *)
Definition DepositFees ctx (g : Base) w (ClaimFees : World → Addr → outcome (World * Coins)) : outcome World :=
  '(w, claimed) ← ClaimFees w (EscrowPool g);
  match claimed with
  | [] => Ok w
  | fee :: _ =>
      _ ← Int_Add (rw_AccruedAmount (GetReward g w (Denom fee))) (Amount fee);
      Panic
  end.
End Pools.

(** ** The voter's store ([store.go]) *)
Section Store.
Context `{Sdk, BankKeeper, NftKeeper}.
Implicit Types (w : World).

Definition on_voter (f : VoterStore → VoterStore) w : World := set_voter (f (w_voter w)) w.
Definition vo_set_TotalVotes x s := mkVoterStore x (vo_TotalVotesByUser s) (vo_Votes s) (vo_Index s)
  (vo_IndexAtLastUpdated s) (vo_Claimable s).
Definition vo_set_TotalVotesByUser x s := mkVoterStore (vo_TotalVotes s) x (vo_Votes s) (vo_Index s)
  (vo_IndexAtLastUpdated s) (vo_Claimable s).
Definition vo_set_Votes x s := mkVoterStore (vo_TotalVotes s) (vo_TotalVotesByUser s) x (vo_Index s)
  (vo_IndexAtLastUpdated s) (vo_Claimable s).
Definition vo_set_Index x s := mkVoterStore (vo_TotalVotes s) (vo_TotalVotesByUser s) (vo_Votes s) x
  (vo_IndexAtLastUpdated s) (vo_Claimable s).
Definition vo_set_IndexAtLastUpdated x s := mkVoterStore (vo_TotalVotes s) (vo_TotalVotesByUser s)
  (vo_Votes s) (vo_Index s) x (vo_Claimable s).
Definition vo_set_Claimable x s := mkVoterStore (vo_TotalVotes s) (vo_TotalVotesByUser s)
  (vo_Votes s) (vo_Index s) (vo_IndexAtLastUpdated s) x.

Definition SetTotalVotes w (x : Z) : World := on_voter (vo_set_TotalVotes (Some x)) w.
Definition GetTotalVotes w : Z := default 0 (vo_TotalVotes (w_voter w)).
Definition SetTotalVotesByUser w (veID x : Z) : World :=
  on_voter (fun s => vo_set_TotalVotesByUser (<[veID := x]> (vo_TotalVotesByUser s)) s) w.
Definition GetTotalVotesByUser w (veID : Z) : Z := default 0 (vo_TotalVotesByUser (w_voter w) !! veID).
Definition DeleteTotalVotesByUser w (veID : Z) : World :=
  on_voter (fun s => vo_set_TotalVotesByUser (delete veID (vo_TotalVotesByUser s)) s) w.

Definition SetPoolWeightedVotes w (poolDenom : string) (x : Z) : World :=
  on_voter (fun s => vo_set_Votes (<[PoolWeightedVotesKey poolDenom := x]> (vo_Votes s)) s) w.
Definition GetPoolWeightedVotes w (poolDenom : string) : Z :=
  default 0 (vo_Votes (w_voter w) !! PoolWeightedVotesKey poolDenom).
Definition SetPoolWeightedVotesByUser w (veID : Z) (poolDenom : string) (x : Z) : World :=
  on_voter (fun s => vo_set_Votes (<[PoolWeightedVotesByUserKey veID poolDenom := x]> (vo_Votes s)) s) w.
Definition GetPoolWeightedVotesByUser w (veID : Z) (poolDenom : string) : Z :=
  default 0 (vo_Votes (w_voter w) !! PoolWeightedVotesByUserKey veID poolDenom).
Definition DeletePoolWeightedVotesByUser w (veID : Z) (poolDenom : string) : World :=
  on_voter (fun s => vo_set_Votes (delete (PoolWeightedVotesByUserKey veID poolDenom) (vo_Votes s)) s) w.

Definition SetIndex w (x : Z) : World := on_voter (vo_set_Index (Some x)) w.
Definition GetIndex w : Z := default 0 (vo_Index (w_voter w)).
Definition SetIndexAtLastUpdatedByGauge w (poolDenom : string) (x : Z) : World :=
  on_voter (fun s => vo_set_IndexAtLastUpdated (<[poolDenom := x]> (vo_IndexAtLastUpdated s)) s) w.
Definition GetIndexAtLastUpdatedByGauge w (poolDenom : string) : Z :=
  default 0 (vo_IndexAtLastUpdated (w_voter w) !! poolDenom).
Definition SetClaimableRewardByGauge w (poolDenom : string) (x : Z) : World :=
  on_voter (fun s => vo_set_Claimable (<[poolDenom := x]> (vo_Claimable s)) s) w.
Definition GetClaimableRewardByGauge w (poolDenom : string) : Z :=
  default 0 (vo_Claimable (w_voter w) !! poolDenom).
End Store.

(** ** The voter ([voter.go]) *)
Section Voter.
Context `{Sdk, BankKeeper, NftKeeper}.
Implicit Types (ctx : Ctx) (w : World).

Definition updateClaimableForGauge w (poolDenom : string) : outcome World :=
  let votes := GetPoolWeightedVotes w poolDenom in
  let index := GetIndex w in
  w ← (if 0 <? votes then
         delta ← Int_Sub index (GetIndexAtLastUpdatedByGauge w poolDenom);
         if 0 <? delta then
           claimableDelta ← Int_Mul delta votes;
           claimable ← Int_Add (GetClaimableRewardByGauge w poolDenom) claimableDelta;
           Ok (SetClaimableRewardByGauge w poolDenom claimable)
         else Ok w
       else Ok w);
  Ok (SetIndexAtLastUpdatedByGauge w poolDenom index).

Definition voter_CreateGauge w (denom : string) : outcome World :=
  w ← (if HasGauge w denom then Ok w else gauge_CreateGauge w denom);
  updateClaimableForGauge w denom.

(** One gauge of the loop of [Abstain], with the running total of votes. *)
Definition abstain_pool ctx (veID : Z) (st : World * Z) (poolDenom : string) : outcome (World * Z) :=
  let '(w, totalVotes) := st in
  w ← updateClaimableForGauge w poolDenom;
  let weightedVotes := GetPoolWeightedVotesByUser w veID poolDenom in
  if weightedVotes =? 0 then Ok (w, totalVotes)
  else
    let w := DeletePoolWeightedVotesByUser w veID poolDenom in
    pv ← Int_Sub (GetPoolWeightedVotes w poolDenom) weightedVotes;
    let w := SetPoolWeightedVotes w poolDenom pv in
    totalVotes ← Int_Sub totalVotes (Z.abs weightedVotes);
    if 0 <? weightedVotes then
      b ← Bribe w poolDenom;
      match Bribe_Withdraw ctx b w veID weightedVotes with
      | Ok w => Ok (w, totalVotes)
      | _ => Panic
      end
    else Ok (w, totalVotes).

Definition Abstain ctx w (veID : Z) : outcome World :=
  '(w, totalVotes) ← for_each (abstain_pool ctx veID) (GetGauges w) (w, GetTotalVotes w);
  let w := DeleteTotalVotesByUser w veID in
  let w := SetTotalVotes w totalVotes in
  Ok (SetVeVoted w veID false).

(** The state of the loop of [Vote]: the running totals. *)
Record VoteLoop := mkVoteLoop {
  vl_world : World; vl_user : Z; vl_total : Z; vl_weights : Dec }.

Definition vote_pool ctx (veID votingPower : Z) (st : VoteLoop) (e : string * Dec) : outcome VoteLoop :=
  let '(poolDenom, weight) := e in
  let w := vl_world st in
  if negb (HasGauge w poolDenom) then Panic
  else
    w ← updateClaimableForGauge w poolDenom;
    totalWeights ← Dec_Add (vl_weights st) (Z.abs weight);
    x ← Dec_Mul (ToDec votingPower) weight;
    weightedVotes ← Dec_TruncateInt x;
    if weightedVotes =? 0 then Panic
    else
      user ← Int_Add (vl_user st) (Z.abs weightedVotes);
      total ← Int_Add (vl_total st) (Z.abs weightedVotes);
      let w := SetPoolWeightedVotesByUser w veID poolDenom weightedVotes in
      pv ← Int_Add (GetPoolWeightedVotes w poolDenom) weightedVotes;
      let w := SetPoolWeightedVotes w poolDenom pv in
      w ← (if 0 <? weightedVotes then
             b ← Bribe w poolDenom; Bribe_Deposit ctx b w veID weightedVotes
           else Ok w);
      Ok (mkVoteLoop w user total totalWeights).

(** [Vote], with the entries of the Go map of weights in the order visited. *)
Definition vote_entries ctx w (veID : Z) (poolWeights : list (string * Dec)) : outcome World :=
  w ← Abstain ctx w veID;
  votingPower ← GetVotingPower ctx w veID (now_of ctx) 0;
  st ← for_each (vote_pool ctx veID votingPower) poolWeights
         (mkVoteLoop w (GetTotalVotesByUser w veID) (GetTotalVotes w) ZeroDec);
  if negb (vl_weights st =? OneDec) then Panic
  else
    let w := SetTotalVotesByUser (vl_world st) veID (vl_user st) in
    let w := SetTotalVotes w (vl_total st) in
    Ok (SetVeVoted w veID true).

Definition site_vote : nat := 6.
Definition Vote `{MapOrder} ctx w (veID : Z) (poolWeights : gmap string Dec) : outcome World :=
  vote_entries ctx w veID (range site_vote poolWeights).

(** The weights [Poke] votes again with: the user's shares of its own total,
    their sum, and the last pool. *)
Definition poke_pool (veID totalVotesByUser : Z) w (st : gmap string Dec * Dec * string)
    (poolDenom : string) : outcome (gmap string Dec * Dec * string) :=
  let '(weights, total, fineTuning) := st in
  let weightedVotes := GetPoolWeightedVotesByUser w veID poolDenom in
  if weightedVotes =? 0 then Ok st
  else
    weight ← Dec_QuoInt (ToDec weightedVotes) totalVotesByUser;
    total ← Dec_Add total weight;
    Ok (<[poolDenom := weight]> weights, total, poolDenom).

Definition Poke `{MapOrder} ctx w (veID : Z) : outcome World :=
  let totalVotesByUser := GetTotalVotesByUser w veID in
  if negb (0 <? totalVotesByUser) then Ok w
  else
    '(weights, totalWeights, fineTuning) ←
      for_each (poke_pool veID totalVotesByUser w) (GetGauges w) (∅, ZeroDec, "");
    weights ← (if totalWeights =? OneDec then
                 rest ← Dec_Sub OneDec totalWeights;
                 x ← Dec_Add (default 0 (weights !! fineTuning)) rest;
                 Ok (<[fineTuning := x]> weights)
               else Ok weights);
    Vote ctx w veID weights.

Definition voter_DepositReward w (sender : Addr) (amount : Z) : outcome World :=
  coin ← NewCoin (LockDenom w) amount;
  coins ← NewCoins [coin];
  match on_bank (fun bk => SendCoinsFromAccountToModule bk sender voter_ModuleName coins) w with
  | Ok w =>
      let totalVotes := GetTotalVotes w in
      if totalVotes =? 0 then Ok w
      else
        q ← Int_Quo amount totalVotes;
        index ← Int_Add (GetIndex w) q;
        Ok (SetIndex w index)
  | _ => Panic
  end.

Definition EmitReward ctx w : outcome World :=
  '(emission, w) ← Emit ctx w;
  if 0 <? emission then voter_DepositReward w (GetModuleAddress EmissionPoolName) emission
  else Ok w.

Definition voter_EndBlocker ctx w : outcome World := EmitReward ctx w.

Definition DistributeReward ctx w (poolDenom : string) : outcome World :=
  g ← Gauge w poolDenom;
  w ← EmitReward ctx w;
  w ← updateClaimableForGauge w poolDenom;
  let claimable := GetClaimableRewardByGauge w poolDenom in
  remaining ← RemainingReward ctx g w poolDenom;
  due ← (if remaining <? claimable then q ← QuoRaw claimable RegulatedPeriod; Ok (0 <? q) else Ok false);
  if due : bool then
    let w := SetClaimableRewardByGauge w poolDenom 0 in
    match Gauge_DepositReward ctx g w (GetModuleAddress voter_ModuleName) poolDenom claimable with
    | Ok w => Ok w
    | _ => Panic
    end
  else Ok w.

(** [Gauge.ClaimReward], which asks the voter to distribute first. *)
Definition Gauge_ClaimReward ctx (g : Base) w (veID : Z) : outcome World :=
  w ← DistributeReward ctx w (PoolDenom g);
  claimReward ctx g w veID.
End Voter.
