(* ===== verification/GaugeHistory.v ===== *)
(** What the operations on pools do to tickets and their checkpoints: every
    operation that changes the tickets of a user or of a pool writes the new
    value into the history, and no other operation touches either. *)

From stdpp Require Import base gmap strings list.
From Stdlib Require Import ZArith Lia.
From S2P Require Import Prelude Sdk SdkExt Types VeTypes GaugeTypes World VeKeeper VeVoting VeEmission GaugeKeeper GaugeBase GaugeSearch Voter.

#[local] Open Scope string_scope.
#[local] Open Scope Z_scope.

#[export] Instance Base_eq_dec : EqDecision Base.
Proof. solve_decision. Defined.

Lemma Base_prefixKey_inj b b' : Base_prefixKey b = Base_prefixKey b' → b = b'.
Proof.
  assert (byte_of prefixGaugeDenom ≠ byte_of prefixBribeDenom) by (by vm_compute).
  destruct b as [d []], b' as [d' []]; unfold Base_prefixKey, GaugeKey, BribeKey;
    cbn [b_isGauge b_depositDenom]; congruence.
Qed.

#[export] Instance Base_prefixKey_Inj : Inj (=) (=) Base_prefixKey.
Proof. exact Base_prefixKey_inj. Qed.

Section History.
Context `{Sdk, BankKeeper, NftKeeper}.
Implicit Types (ctx : Ctx) (w : World) (b : Base).

(** ** Tickets

    Rewards are shared by derived amounts in gauges and by deposits in
    bribes. *)
Definition tickets b w (veID : Z) : Z :=
  if b_isGauge b then GetDerivedAmountByUser b w veID else GetDepositedAmountByUser b w veID.
Definition total_tickets b w : Z :=
  if b_isGauge b then GetTotalDerivedAmount b w else GetTotalDepositedAmount b w.

Definition user_hist b w (veID : Z) : hist :=
  mkHist (Base_GetUserEpoch b w veID) (Base_GetUserCheckpoint b w veID).
Definition pool_hist b w : hist := mkHist (Base_GetEpoch b w) (Base_GetCheckpoint b w).

Definition same_user b (veID : Z) w w' : Prop :=
  tickets b w' veID = tickets b w veID ∧ hist_eq (user_hist b w' veID) (user_hist b w veID).
Definition same_pool b w w' : Prop :=
  total_tickets b w' = total_tickets b w ∧ hist_eq (pool_hist b w') (pool_hist b w).

(** No tickets and no history change. *)
Definition quiet w w' : Prop := ∀ b, (∀ veID, same_user b veID w w') ∧ same_pool b w w'.

(** The tickets of one user of one pool, and the pool's, change at [now], and
    the histories say so. *)
Record pool_step (now : Z) b (veID : Z) w w' : Prop := mk_pool_step {
  st_users b' v : (b', v) ≠ (b, veID) → same_user b' v w w';
  st_pools b' : b' ≠ b → same_pool b' w w';
  st_user : hist_eq (user_hist b w' veID) (hist_write now (tickets b w' veID) (user_hist b w veID));
  st_pool : hist_eq (pool_hist b w') (hist_write now (total_tickets b w') (pool_hist b w));
}.

Lemma quiet_trans w1 w2 w3 : quiet w1 w2 → quiet w2 w3 → quiet w1 w3.
Proof.
  intros Q1 Q2 b. destruct (Q1 b) as [U1 [P1 E1]], (Q2 b) as [U2 [P2 E2]]. split.
  - intros v. destruct (U1 v) as [T1 F1], (U2 v) as [T2 F2]. split; [by rewrite T2|by rewrite F2].
  - split; [by rewrite P2|by rewrite E2].
Qed.

Lemma hist_write_eq now x h h' : hist_eq h h' → hist_eq (hist_write now x h) (hist_write now x h').
Proof.
  intros [E P]. unfold hist_write. rewrite E, (P (h_epoch h')). split; [done|].
  intros e. simpl. by rewrite P.
Qed.

Lemma quiet_step now b v w1 w2 w3 : quiet w1 w2 → pool_step now b v w2 w3 → pool_step now b v w1 w3.
Proof.
  intros Q [U P Hu Hp]. split.
  - intros b' v' Hne. destruct (Q b') as [QU _], (QU v') as [T1 F1], (U b' v' Hne) as [T2 F2].
    split; [by rewrite T2|by rewrite F2].
  - intros b' Hne. destruct (Q b') as [_ [T1 F1]], (P b' Hne) as [T2 F2].
    split; [by rewrite T2|by rewrite F2].
  - rewrite Hu. apply hist_write_eq, Q.
  - rewrite Hp. apply hist_write_eq, Q.
Qed.

(** A world whose tickets and histories are stored as before. *)
Lemma quiet_fields w w' :
  gs_TotalDeposited (w_gauge w') = gs_TotalDeposited (w_gauge w) →
  gs_Deposited (w_gauge w') = gs_Deposited (w_gauge w) →
  gs_TotalDerived (w_gauge w') = gs_TotalDerived (w_gauge w) →
  gs_Derived (w_gauge w') = gs_Derived (w_gauge w) →
  gs_Epoch (w_gauge w') = gs_Epoch (w_gauge w) → gs_Point (w_gauge w') = gs_Point (w_gauge w) →
  gs_UserEpoch (w_gauge w') = gs_UserEpoch (w_gauge w) →
  gs_UserPoint (w_gauge w') = gs_UserPoint (w_gauge w) → quiet w w'.
Proof.
  intros E1 E2 E3 E4 E5 E6 E7 E8 b.
  unfold same_user, same_pool, tickets, total_tickets, user_hist, pool_hist,
    GetDerivedAmountByUser, GetDepositedAmountByUser, GetTotalDerivedAmount, GetTotalDepositedAmount,
    Base_GetUserEpoch, Base_GetEpoch, hist_eq, Base_GetUserCheckpoint, Base_GetCheckpoint.
  cbn [h_epoch h_point]. rewrite E1, E2, E3, E4, E5, E6, E7, E8. done.
Qed.

Lemma quiet_gauge w w' : w_gauge w' = w_gauge w → quiet w w'.
Proof. intros E. by apply quiet_fields; rewrite E. Qed.

#[local] Instance quiet_preorder : PreOrder quiet.
Proof. split; [intros w; by apply quiet_gauge|intros ???; apply quiet_trans]. Qed.

Lemma quiet_SetReward b w d r : quiet w (SetReward b w d r).
Proof. by apply quiet_fields. Qed.

Lemma quiet_bank f w w' : on_bank f w = Ok w' → quiet w w'.
Proof. unfold on_bank. intros Hok. inv_ok Hok. subst w'. by apply quiet_gauge. Qed.

Lemma quiet_reward_checkpoint b w d x t : quiet w (writeRewardPerTicketCheckpoint b w d x t).
Proof.
  unfold writeRewardPerTicketCheckpoint. destruct (next_point _ _ _ _) as [e p].
  destruct (_ =? _); by apply quiet_fields.
Qed.

(** ** Writing both histories *)

(** Tickets of one user and pool are set, histories are not yet. *)
Record tickets_set b (veID : Z) w w' : Prop := mk_tickets_set {
  ts_users b' v : (b', v) ≠ (b, veID) → tickets b' w' v = tickets b' w v;
  ts_pools b' : b' ≠ b → total_tickets b' w' = total_tickets b' w;
  ts_epoch : gs_Epoch (w_gauge w') = gs_Epoch (w_gauge w);
  ts_point : gs_Point (w_gauge w') = gs_Point (w_gauge w);
  ts_user_epoch : gs_UserEpoch (w_gauge w') = gs_UserEpoch (w_gauge w);
  ts_user_point : gs_UserPoint (w_gauge w') = gs_UserPoint (w_gauge w);
}.

Ltac gauge_unfold :=
  unfold same_user, same_pool, tickets, total_tickets, user_hist, pool_hist,
    GetDerivedAmountByUser, GetDepositedAmountByUser, GetTotalDerivedAmount, GetTotalDepositedAmount,
    Base_GetUserEpoch, Base_GetEpoch, Base_GetUserCheckpoint, Base_GetCheckpoint,
    SetDerivedAmountByUser, SetDepositedAmountByUser, SetTotalDerivedAmount, SetTotalDepositedAmount,
    DeleteDepositedAmountByUser, Base_SetUserEpoch, Base_SetEpoch, Base_SetUserCheckpoint,
    Base_SetCheckpoint, on_gauge in *.

Lemma pair_key_ne b b' (v v' : Z) :
  (b', v') ≠ (b, v) → (Base_prefixKey b, v) ≠ (Base_prefixKey b', v').
Proof. intros Hne E. apply Hne. injection E as E ->. by apply Base_prefixKey_inj in E as ->. Qed.

Lemma key_ne b b' : b' ≠ b → Base_prefixKey b ≠ Base_prefixKey b'.
Proof. intros Hne E. by apply Base_prefixKey_inj in E as ->. Qed.

Lemma tickets_set_deposit b v w x y :
  b_isGauge b = false →
  tickets_set b v w (SetDepositedAmountByUser b (SetTotalDepositedAmount b w x) v y).
Proof.
  intros Hb. split; [| |done..]; intros b'; gauge_unfold; cbn.
  - intros v' Hne%pair_key_ne. by rewrite lookup_insert_ne.
  - intros Hne%key_ne. by rewrite lookup_insert_ne.
Qed.

Lemma tickets_set_withdraw b v w x y :
  b_isGauge b = false →
  tickets_set b v w
    (if 0 <? y then SetDepositedAmountByUser b (SetTotalDepositedAmount b w x) v y
     else DeleteDepositedAmountByUser b (SetTotalDepositedAmount b w x) v).
Proof.
  intros Hb. destruct (0 <? y); [by apply tickets_set_deposit|].
  split; [| |done..]; intros b'; gauge_unfold; cbn.
  - intros v' Hne%pair_key_ne. by rewrite lookup_delete_ne.
  - intros Hne%key_ne. by rewrite lookup_insert_ne.
Qed.

Lemma tickets_set_derive b v w x y :
  tickets_set b v w (SetTotalDerivedAmount b (SetDerivedAmountByUser b w v x) y).
Proof.
  split; [| |done..]; intros b'; gauge_unfold; cbn.
  - intros v' Hne%pair_key_ne. by rewrite lookup_insert_ne.
  - intros Hne%key_ne. by rewrite lookup_insert_ne.
Qed.

(** Deposits of a gauge are not its tickets. *)
Lemma quiet_gauge_total g w x : b_isGauge g = true → quiet w (SetTotalDepositedAmount g w x).
Proof.
  intros Hg b. split; [done|]. split; [|done]. gauge_unfold; cbn.
  destruct (b_isGauge b) eqn:Hb; [done|]. rewrite lookup_insert_ne; [done|].
  apply key_ne. intros ->. congruence.
Qed.

Lemma quiet_gauge_deposit g w v x : b_isGauge g = true → quiet w (SetDepositedAmountByUser g w v x).
Proof.
  intros Hg b. split; [|done]. intros v'. split; [|done]. gauge_unfold; cbn.
  destruct (b_isGauge b) eqn:Hb; [done|]. rewrite lookup_insert_ne; [done|].
  intros [= E%Base_prefixKey_inj _]. congruence.
Qed.

Lemma quiet_gauge_delete g w v : b_isGauge g = true → quiet w (DeleteDepositedAmountByUser g w v).
Proof.
  intros Hg b. split; [|done]. intros v'. split; [|done]. gauge_unfold; cbn.
  destruct (b_isGauge b) eqn:Hb; [done|]. rewrite lookup_delete_ne; [done|].
  intros [= E%Base_prefixKey_inj _]. congruence.
Qed.

Lemma default_insert_epoch {K} `{Countable K} (m : gmap (K * Z) GaugePoint) k e p e' :
  default EmptyPoint (<[(k, e) := p]> m !! (k, e')) =
  if e' =? e then p else default EmptyPoint (m !! (k, e')).
Proof.
  destruct (Z.eqb_spec e' e) as [->|Hne]; [by rewrite lookup_insert_eq|].
  rewrite lookup_insert_ne; [done|]. intros [= E]. lia.
Qed.

Lemma user_write ctx b w v x :
  let w' := writeUserCheckpoint ctx b w v x in
  hist_eq (user_hist b w' v) (hist_write (now_of ctx) x (user_hist b w v)) ∧
  (∀ b' v', (b', v') ≠ (b, v) → hist_eq (user_hist b' w' v') (user_hist b' w v')) ∧
  (∀ b', total_tickets b' w' = total_tickets b' w ∧ hist_eq (pool_hist b' w') (pool_hist b' w) ∧
         ∀ v', tickets b' w' v' = tickets b' w v').
Proof.
  unfold writeUserCheckpoint, hist_write. cbn [user_hist h_epoch h_point].
  destruct (next_point _ _ _ _) as [e p]. cbn [fst snd].
  destruct (Z.eqb_spec e (Base_GetUserEpoch b w v)) as [He|Hne]; split_and!;
    try (intros b'; by split_and!);
    try (intros b' v' Hk%pair_key_ne; split; [|intros e']; gauge_unfold; cbn;
         rewrite ?lookup_insert_ne by congruence; done).
  - split; [done|]. intros e'. gauge_unfold; cbn. apply default_insert_epoch.
  - split; [gauge_unfold; cbn; by rewrite lookup_insert_eq|].
    intros e'. gauge_unfold; cbn. apply default_insert_epoch.
Qed.

Lemma pool_write ctx b w :
  let w' := writeCheckpoint ctx b w in
  hist_eq (pool_hist b w') (hist_write (now_of ctx) (total_tickets b w) (pool_hist b w)) ∧
  (∀ b', b' ≠ b → hist_eq (pool_hist b' w') (pool_hist b' w)) ∧
  (∀ b', total_tickets b' w' = total_tickets b' w ∧ ∀ v', same_user b' v' w w').
Proof.
  unfold writeCheckpoint, hist_write. cbn [pool_hist h_epoch h_point].
  change (if b_isGauge b then GetTotalDerivedAmount b w else GetTotalDepositedAmount b w)
    with (total_tickets b w).
  destruct (next_point _ _ _ _) as [e p]. cbn [fst snd].
  destruct (Z.eqb_spec e (Base_GetEpoch b w)) as [He|Hne]; split_and!;
    try (intros b'; by split_and!);
    try (intros b' Hk%key_ne; split; [|intros e']; gauge_unfold; cbn;
         rewrite ?lookup_insert_ne by congruence; done).
  - split; [done|]. intros e'. gauge_unfold; cbn. apply default_insert_epoch.
  - split; [gauge_unfold; cbn; by rewrite lookup_insert_eq|].
    intros e'. gauge_unfold; cbn. apply default_insert_epoch.
Qed.

(** Tickets set, then both checkpoints. *)
Lemma tickets_written ctx b v w w1 x :
  tickets_set b v w w1 → tickets b w1 v = x →
  pool_step (now_of ctx) b v w (writeCheckpoint ctx b (writeUserCheckpoint ctx b w1 v x)).
Proof.
  intros [Tu Tp Te Tpt Tue Tup] <-.
  destruct (user_write ctx b w1 v (tickets b w1 v)) as (Uw & Uo & Ut).
  set (w2 := writeUserCheckpoint _ _ _ _ _) in *.
  destruct (pool_write ctx b w2) as (Pw & Po & Pt).
  set (w3 := writeCheckpoint _ _ _) in *.
  assert (∀ b' v', hist_eq (user_hist b' w1 v') (user_hist b' w v')) as HU
    by (intros b' v'; split; [|intros e]; gauge_unfold; cbn; by rewrite ?Tue, ?Tup).
  assert (∀ b', hist_eq (pool_hist b' w1) (pool_hist b' w)) as HP
    by (intros b'; split; [|intros e]; gauge_unfold; cbn; by rewrite ?Te, ?Tpt).
  split.
  - intros b' v' Hne. destruct (Pt b') as [_ Hu], (Hu v') as [E1 F1]. split.
    + rewrite E1. destruct (Ut b') as (_ & _ & ->). by apply Tu.
    + rewrite F1, (Uo _ _ Hne). apply HU.
  - intros b' Hne. destruct (Pt b') as [E1 _], (Ut b') as (E2 & F2 & _). split.
    + rewrite E1, E2. by apply Tp.
    + rewrite (Po _ Hne), F2. apply HP.
  - destruct (Pt b) as [_ Hu], (Hu v) as [E1 F1]. destruct (Ut b) as (_ & _ & E2).
    rewrite F1, Uw, E1, E2. apply hist_write_eq, HU.
  - destruct (Pt b) as [E1 _], (Ut b) as (E2 & F2 & _).
    rewrite Pw, E1. apply hist_write_eq. by rewrite F2.
Qed.

(** ** The operations *)

Lemma quiet_update_rounds n b d : ∀ w i c st w' c' st',
  update_rounds n b w d i c st = Ok (w', c', st') → quiet w w'.
Proof.
  induction n as [|n IH]; intros w i c st w' c' st' Hok; cbn [update_rounds] in Hok.
  { by injection Hok as <- _ _. }
  inv_ok_step Hok. cbv zeta in Hok. destruct (0 <? r); [|by apply IH in Hok].
  inv_ok_step Hok. destruct r0 as [pt et]. inv_ok_step Hok. apply IH in Hok.
  etransitivity; [apply quiet_reward_checkpoint|exact Hok].
Qed.

Lemma quiet_updateRewardPerTicket ctx b w d w' : updateRewardPerTicket ctx b w d = Ok w' → quiet w w'.
Proof.
  unfold updateRewardPerTicket. intros Hok. destruct (_ =? _); [by injection Hok as <-|].
  cbv zeta in Hok. destruct (_ =? _); [injection Hok as <-; apply quiet_SetReward|].
  inv_ok_step Hok. inv_ok_step Hok. destruct r0 as [[w1 c1] s1].
  apply quiet_update_rounds in E0. inv_ok_step Hok. inv_ok_step Hok. destruct r1 as [[w2 c2] s2].
  injection Hok as <-. etransitivity; [exact E0|]. etransitivity; [|apply quiet_SetReward].
  destruct (0 <? r0); [|by injection E2 as <- _ _].
  inv_ok_step E2. destruct r1. inv_ok_step E2. injection E2 as <- _ _. apply quiet_reward_checkpoint.
Qed.

Lemma quiet_claim_denom ctx b owner v w d w' : claim_denom ctx b owner v w d = Ok w' → quiet w w'.
Proof.
  unfold claim_denom. intros Hok. inv_ok_step Hok. apply quiet_updateRewardPerTicket in E.
  etransitivity; [exact E|]. inv_ok_step Hok. destruct (0 <? _); [|by injection Hok as <-].
  inv_ok_step Hok. inv_ok_step Hok. by apply quiet_bank in Hok.
Qed.

Lemma quiet_for_each {A} (f : World → A → outcome World) l :
  (∀ w a w', f w a = Ok w' → quiet w w') → ∀ w w', for_each f l w = Ok w' → quiet w w'.
Proof.
  intros Hf. induction l as [|a l IH]; intros w w' Hok; cbn [for_each] in Hok; [by injection Hok as <-|].
  inv_ok_step Hok. etransitivity; [by eapply Hf|by apply IH].
Qed.

Lemma quiet_depositReward ctx b w sender d x w' : depositReward ctx b w sender d x = Ok w' → quiet w w'.
Proof.
  unfold depositReward. intros Hok. inv_ok_step Hok. inv_ok_step Hok. cbv zeta in Hok.
  inv_ok_step Hok. inv_ok_step Hok. inv_ok_step Hok. inv_ok_step Hok. inv_ok_step Hok.
  inv_ok_step Hok. inv_ok_step Hok. inv_ok_step Hok; [done|]. injection Hok as <-.
  etransitivity; [|apply quiet_SetReward]. apply quiet_bank in E2.
  etransitivity; [|exact E2]. apply quiet_updateRewardPerTicket in E.
  etransitivity; [|exact E]. destruct (_ =? _); [apply quiet_reward_checkpoint|done].
Qed.

(** The stored tickets are what was written. *)
Lemma tickets_derived g v w x y :
  b_isGauge g = true →
  tickets g (SetTotalDerivedAmount g (SetDerivedAmountByUser g w v x) y) v = x.
Proof. intros Hg. gauge_unfold. rewrite Hg. cbn. by rewrite lookup_insert_eq. Qed.

Lemma tickets_deposited b v w x y :
  b_isGauge b = false →
  tickets b (SetDepositedAmountByUser b (SetTotalDepositedAmount b w x) v y) v = y.
Proof. intros Hb. gauge_unfold. rewrite Hb. cbn. by rewrite lookup_insert_eq. Qed.

Lemma step_derive ctx g v w w' :
  b_isGauge g = true → deriveAmountForUser ctx g w v = Ok w' → pool_step (now_of ctx) g v w w'.
Proof.
  unfold deriveAmountForUser. intros Hg Hok. rewrite Hg in Hok. simpl in Hok.
  inv_ok_step Hok. inv_ok_step Hok. inv_ok_step Hok. injection Hok as <-.
  apply tickets_written; [apply tickets_set_derive|by apply tickets_derived].
Qed.

Lemma step_bribe_deposit ctx b v x w w' :
  b_isGauge b = false → Bribe_Deposit ctx b w v x = Ok w' → pool_step (now_of ctx) b v w w'.
Proof.
  unfold Bribe_Deposit. intros Hb Hok. inv_ok_step Hok. inv_ok_step Hok. injection Hok as <-.
  apply tickets_written; [by apply tickets_set_deposit|by apply tickets_deposited].
Qed.

Lemma step_bribe_withdraw `{!SdkLaws} ctx b v x w w' :
  b_isGauge b = false → Bribe_Withdraw ctx b w v x = Ok w' → pool_step (now_of ctx) b v w w'.
Proof.
  unfold Bribe_Withdraw. intros Hb Hok. inv_ok_step Hok. inv_ok_step Hok. inv_ok_step Hok.
  injection Hok as <-. apply Z.ltb_ge in G. apply Int_Sub_Ok in E0.
  apply tickets_written; [by apply tickets_set_withdraw|].
  destruct (Z.ltb_spec 0 r0); [by apply tickets_deposited|].
  gauge_unfold. rewrite Hb. cbn. rewrite lookup_delete_eq. simpl. lia.
Qed.

Lemma quiet_attach w v : quiet w (IncVeAttached w v).
Proof. by apply quiet_gauge. Qed.

Lemma quiet_detach w v w' : DecVeAttached w v = Ok w' → quiet w w'.
Proof.
  unfold DecVeAttached. intros Hok. cbv zeta in Hok. inv_ok_step Hok; [done|].
  injection Hok as <-. by apply quiet_gauge.
Qed.

Lemma step_gauge_deposit ctx g v x w w' :
  b_isGauge g = true → Gauge_Deposit ctx g w v x = Ok w' → pool_step (now_of ctx) g v w w'.
Proof.
  unfold Gauge_Deposit. intros Hg Hok. cbv zeta in Hok. inv_ok_step Hok. inv_ok_step Hok.
  inv_ok_step Hok. inv_ok_step Hok. inv_ok_step Hok. apply quiet_bank in E1.
  eapply quiet_step; [|by apply step_derive]. etransitivity; [exact E1|].
  etransitivity; [by apply quiet_gauge_total|]. etransitivity; [by apply quiet_gauge_deposit|].
  destruct (_ =? _); [|done]. etransitivity; [|apply quiet_attach]. by apply quiet_fields.
Qed.

Lemma step_gauge_withdraw ctx g v x w w' :
  b_isGauge g = true → Gauge_Withdraw ctx g w v x = Ok w' → pool_step (now_of ctx) g v w w'.
Proof.
  unfold Gauge_Withdraw. intros Hg Hok. cbv zeta in Hok. inv_ok_step Hok. inv_ok_step Hok.
  inv_ok_step Hok. inv_ok_step Hok. inv_ok_step Hok. inv_ok_step Hok. inv_ok_step Hok.
  apply quiet_bank in E4. eapply quiet_step; [|by apply step_derive].
  etransitivity; [|exact E4]. etransitivity; [by apply quiet_gauge_total|].
  destruct (0 <? r0); [injection E1 as <-; by apply quiet_gauge_deposit|].
  apply quiet_detach in E1. etransitivity; [by apply quiet_gauge_delete|].
  etransitivity; [|exact E1]. by apply quiet_fields.
Qed.

Lemma quiet_updateClaimable w d w' : updateClaimableForGauge w d = Ok w' → quiet w w'.
Proof.
  unfold updateClaimableForGauge. intros Hok. cbv zeta in Hok. inv_ok_step Hok. injection Hok as <-.
  apply quiet_gauge. cbn. destruct (0 <? _); [|by injection E as <-].
  inv_ok_step E. destruct (0 <? _); [|by injection E as <-]. inv_ok_step E. inv_ok_step E.
  by injection E as <-.
Qed.

(** No emission is due: [Emit] returns zero. *)
Lemma EmitReward_none ctx w w' : EmitReward ctx w = Ok w' → w' = w.
Proof. unfold EmitReward, Emit. destruct (_ <? _); by injection 1. Qed.

Lemma quiet_DistributeReward ctx w d w' : DistributeReward ctx w d = Ok w' → quiet w w'.
Proof.
  unfold DistributeReward. intros Hok. inv_ok_step Hok. inv_ok_step Hok. apply EmitReward_none in E0 as ->.
  inv_ok_step Hok. inv_ok_step Hok. inv_ok_step Hok. apply quiet_updateClaimable in E0.
  etransitivity; [exact E0|]. destruct r2; [|by injection Hok as <-]. cbv zeta in Hok.
  destruct (Gauge_DepositReward _ _ _ _ _ _) as [w2| |] eqn:Hd; [injection Hok as <-|done..].
  apply quiet_depositReward in Hd. etransitivity; [|exact Hd]. by apply quiet_gauge.
Qed.

Lemma step_gauge_claim ctx g v w w' :
  b_isGauge g = true → Gauge_ClaimReward ctx g w v = Ok w' → pool_step (now_of ctx) g v w w'.
Proof.
  unfold Gauge_ClaimReward, claimReward. intros Hg Hok. inv_ok_step Hok. cbv zeta in Hok.
  inv_ok_step Hok. apply quiet_DistributeReward in E.
  eapply quiet_step; [|by apply step_derive]. etransitivity; [exact E|].
  eapply quiet_for_each; [|exact E0]. intros ???. apply quiet_claim_denom.
Qed.

Lemma quiet_bribe_claim ctx b v w w' :
  b_isGauge b = false → Bribe_ClaimReward ctx b w v = Ok w' → quiet w w'.
Proof.
  unfold Bribe_ClaimReward, claimReward, deriveAmountForUser. intros Hb Hok. rewrite Hb in Hok.
  cbv zeta in Hok. inv_ok_step Hok. injection Hok as <-.
  eapply quiet_for_each; [|exact E]. intros ???. apply quiet_claim_denom.
Qed.
End History.
