(* ===== verification/GaugeRun.v ===== *)
(** Runs of a chain with pools: operations of users on bribes and gauges,
    between other steps that leave the gauge store alone, in order of time.
    The checkpoints of the last state answer what the tickets of every user
    and every pool were at any time of the run. *)

From stdpp Require Import base gmap strings list.
From Stdlib Require Import ZArith Lia.
From S2P Require Import Prelude Sdk SdkExt Types VeTypes GaugeTypes World VeKeeper VeVoting VeEmission GaugeKeeper GaugeBase GaugeSearch Voter GaugeHistory.

#[local] Open Scope string_scope.
#[local] Open Scope Z_scope.

(** Operations on the pools of a denomination. *)
Inductive pool_act :=
| act_create (denom : string)
| act_bribe_deposit (denom : string) (veID amount : Z)
| act_bribe_withdraw (denom : string) (veID amount : Z)
| act_bribe_claim (denom : string) (veID : Z)
| act_gauge_deposit (denom : string) (veID amount : Z)
| act_gauge_withdraw (denom : string) (veID amount : Z)
| act_gauge_claim (denom : string) (veID : Z)
| act_gauge_reward (denom : string) (sender : Addr) (rewardDenom : string) (amount : Z).

Section Run.
Context `{Sdk, BankKeeper, NftKeeper}.
Implicit Types (ctx : Ctx) (w : World) (b : Base) (L : list (Z * World)).

Definition do_act ctx (a : pool_act) w : outcome World :=
  match a with
  | act_create d => voter_CreateGauge w d
  | act_bribe_deposit d v x => b ← Bribe w d; Bribe_Deposit ctx b w v x
  | act_bribe_withdraw d v x => b ← Bribe w d; Bribe_Withdraw ctx b w v x
  | act_bribe_claim d v => b ← Bribe w d; Bribe_ClaimReward ctx b w v
  | act_gauge_deposit d v x => g ← Gauge w d; Gauge_Deposit ctx g w v x
  | act_gauge_withdraw d v x => g ← Gauge w d; Gauge_Withdraw ctx g w v x
  | act_gauge_claim d v => g ← Gauge w d; Gauge_ClaimReward ctx g w v
  | act_gauge_reward d s r x => g ← Gauge w d; Gauge_DepositReward ctx g w s r x
  end.

(** The states after each step with their times, the latest first. *)
Definition current (w0 : World) L : World := default w0 (snd <$> head L).
Definition not_before L (now : Z) : Prop := ∀ tw, head L = Some tw → tw.1 ≤ now.

Inductive pool_run (w0 : World) : list (Z * World) → Prop :=
| run_start : pool_run w0 []
| run_act ctx a L w' :
    pool_run w0 L → not_before L (now_of ctx) → do_act ctx a (current w0 L) = Ok w' →
    pool_run w0 ((now_of ctx, w') :: L)
| run_other now L w' :
    pool_run w0 L → not_before L now → w_gauge w' = w_gauge (current w0 L) →
    pool_run w0 ((now, w') :: L).

(** The state at time [t]. *)
Definition world_at (w0 : World) L (t : Z) : World :=
  default w0 (snd <$> head (filter (fun tw => tw.1 ≤ t) L)).

(** ** What the operations are to the histories *)

Lemma Bribe_Ok w d b : Bribe w d = Ok b → b_isGauge b = false.
Proof. unfold Bribe. destruct (HasGauge w d); [by injection 1 as <-|done]. Qed.
Lemma Gauge_Ok w d g : Gauge w d = Ok g → b_isGauge g = true.
Proof. unfold Gauge. destruct (HasGauge w d); [by injection 1 as <-|done]. Qed.

Lemma quiet_create w d w' : voter_CreateGauge w d = Ok w' → quiet w w'.
Proof.
  unfold voter_CreateGauge, gauge_CreateGauge. intros Hok. inv_ok_step Hok.
  apply quiet_updateClaimable in Hok. eapply quiet_trans; [|exact Hok].
  destruct (HasGauge w d); injection E as <-; by apply quiet_fields.
Qed.

Lemma act_effect `{!SdkLaws} ctx a w w' :
  do_act ctx a w = Ok w' → quiet w w' ∨ ∃ b v, pool_step (now_of ctx) b v w w'.
Proof.
  destruct a; simpl; intros Hok;
    try (apply bind_Ok in Hok as (b & Hb & Hok); (apply Bribe_Ok in Hb || apply Gauge_Ok in Hb)).
  - left. by eapply quiet_create.
  - right. do 2 eexists. by eapply step_bribe_deposit.
  - right. do 2 eexists. by eapply step_bribe_withdraw.
  - left. by eapply quiet_bribe_claim.
  - right. do 2 eexists. by eapply step_gauge_deposit.
  - right. do 2 eexists. by eapply step_gauge_withdraw.
  - right. do 2 eexists. by eapply step_gauge_claim.
  - left. by eapply quiet_depositReward.
Qed.

(** ** Values along a run *)

Definition values (f : World → Z) L : list (Z * Z) := (fun tw => (tw.1, f tw.2)) <$> L.

Lemma values_length f L : length (values f L) = length L.
Proof. apply length_fmap. Qed.

Lemma values_at f w0 L t : f w0 = 0 → value_at t (values f L) = f (world_at w0 L t).
Proof.
  intros Hf0. unfold world_at. induction L as [|[s w] L IH]; [by symmetry|].
  unfold values in *. rewrite fmap_cons, value_at_cons. simpl fst.
  rewrite filter_cons. simpl fst. destruct (decide (s ≤ t)); [done|exact IH].
Qed.

Lemma values_late f L now : not_before L now → log_time (values f L) now.
Proof. destruct L as [|[s w] L]; intros Hn tv; [done|]. injection 1 as <-. simpl. by apply (Hn (s, w)). Qed.

Lemma world_at_current w0 L now : not_before L now → world_at w0 L now = current w0 L.
Proof.
  destruct L as [|[s w] L]; intros Hn; [done|]. unfold world_at. rewrite filter_cons. simpl fst.
  rewrite decide_True; [done|]. by apply (Hn (s, w)).
Qed.

(** Both kinds of history record their quantity. *)
Record tracked (w0 : World) L w : Prop := mk_tracked {
  tr_user b v : hist_ok (values (fun w => tickets b w v) L) (user_hist b w v);
  tr_pool b : hist_ok (values (total_tickets b) L) (pool_hist b w);
}.

Section Step.
Variables (w0 w w' : World) (L : list (Z * World)) (now : Z).
Hypothesis Htime : not_before L now.
Hypothesis Hcur : current w0 L = w.
Hypothesis Hlen : Z.of_nat (length L) < 2 ^ 63.

Lemma track_same f h h' :
  f w0 = 0 → hist_ok (values f L) h → f w' = f w → hist_eq h' h →
  hist_ok (values f ((now, w') :: L)) h'.
Proof.
  intros Hf0 Hok Hf Hh. apply (hist_ok_eq _ h); [by symmetry|].
  change (values f ((now, w') :: L)) with ((now, f w') :: values f L).
  apply hist_ok_same; [done|by apply values_late|].
  by rewrite (values_at f w0), (world_at_current w0), Hcur.
Qed.

Lemma track_write f h h' :
  hist_ok (values f L) h → hist_eq h' (hist_write now (f w') h) →
  hist_ok (values f ((now, w') :: L)) h'.
Proof.
  intros Hok Hh. apply (hist_ok_eq _ (hist_write now (f w') h)); [by symmetry|].
  change (values f ((now, w') :: L)) with ((now, f w') :: values f L).
  apply hist_ok_write; [done|by apply values_late|by rewrite values_length].
Qed.
End Step.

(** The state no pool has been used in. *)
Definition unused w : Prop := ∀ b,
  total_tickets b w = 0 ∧ Base_GetEpoch b w = 0 ∧ Base_GetCheckpoint b w 0 = EmptyPoint ∧
  ∀ v, tickets b w v = 0 ∧ Base_GetUserEpoch b w v = 0 ∧ Base_GetUserCheckpoint b w v 0 = EmptyPoint.

Lemma run_tracked `{!SdkLaws} w0 L :
  unused w0 → pool_run w0 L → Z.of_nat (length L) < 2 ^ 63 → tracked w0 L (current w0 L).
Proof.
  intros Hun Hrun. induction Hrun as [|ctx a L w' Hrun IH Hn Hact|now L w' Hrun IH Hn Hg]; intros Hl.
  { change (current w0 []) with w0. split; intros b; destruct (Hun b) as (? & He & Hp & Hu).
    - intros v. destruct (Hu v) as (_ & Hue & Hup). apply hist_ok_empty; [done|].
      cbn [user_hist h_point]. by rewrite Hup.
    - apply hist_ok_empty; [done|]. cbn [pool_hist h_point]. by rewrite Hp. }
  all: rewrite length_cons in Hl; destruct (IH ltac:(lia)) as [Hu Hp].
  - apply act_effect in Hact as [Q|(b & v & [Su Sp Wu Wp])].
    + split; intros b; destruct (Hun b) as (Hf0 & _ & _ & Hz); destruct (Q b) as [Qu [Qp Qh]].
      * intros v. destruct (Qu v). eapply track_same; eauto; apply Hz.
      * by eapply track_same; eauto.
    + split; intros b'; destruct (Hun b') as (Hf0 & _ & _ & Hz).
      * intros v'. destruct (decide ((b', v') = (b, v))) as [[= -> ->]|Hne].
        { eapply track_write; eauto. lia. }
        destruct (Su _ _ Hne). eapply track_same; eauto; apply Hz.
      * destruct (decide (b' = b)) as [->|Hne]; [eapply track_write; eauto; lia|].
        destruct (Sp _ Hne). by eapply track_same; eauto.
  - apply quiet_gauge in Hg as Q. split; intros b; destruct (Hun b) as (Hf0 & _ & _ & Hz);
      destruct (Q b) as [Qu [Qp Qh]].
    + intros v. destruct (Qu v). eapply track_same; eauto; apply Hz.
    + by eapply track_same; eauto.
Qed.
End Run.
