(* ===== verification/VoterVotes.v ===== *)
(** The votes of users, abstractly a map from user and pool to a signed
    number of votes, and what the stores of the voter and of the gauge module
    hold of them: each user's votes, the votes of each pool, the totals, and
    the deposits of positive votes in the pools' bribes. *)

From stdpp Require Import base gmap strings list.
From Stdlib Require Import ZArith Lia Ascii.
From S2P Require Import Prelude Sdk SdkExt Types VeTypes GaugeTypes World VeKeeper VeVoting VeEmission GaugeKeeper GaugeBase GaugeSearch Voter GaugeHistory.

#[local] Open Scope string_scope.
#[local] Open Scope Z_scope.

(** ** Keys

    The first byte of an identifier below 2^56 is zero, which no denomination
    starts with. *)
Definition plain (d : string) : bool :=
  match d with String c _ => negb (Ascii.eqb c "000"%char) | EmptyString => true end.
Definition id_ok (veID : Z) : Prop := 0 ≤ veID < 2 ^ 56.

Lemma user_key_head v d : id_ok v → ∃ s, PoolWeightedVotesByUserKey v d = String "000" s.
Proof.
  intros Hv. unfold PoolWeightedVotesByUserKey, Uint64ToBigEndian. cbn [big_endian String.append].
  change (256 ^ Z.of_nat 7) with (2 ^ 56). rewrite Z.div_small by apply Hv. by eexists.
Qed.

Lemma pool_user_key d v d' :
  plain d = true → id_ok v → PoolWeightedVotesKey d ≠ PoolWeightedVotesByUserKey v d'.
Proof.
  intros Hd Hv E. destruct (user_key_head v d' Hv) as [s Hs]. rewrite Hs in E.
  unfold PoolWeightedVotesKey in E. subst d. done.
Qed.

Lemma append_length_inj s1 s2 t1 t2 :
  String.length s1 = String.length s2 → s1 ++ t1 = s2 ++ t2 → s1 = s2 ∧ t1 = t2.
Proof.
  revert s2. induction s1 as [|c s1 IH]; intros [|c' s2] Hl E; simpl in *; try discriminate; [done|].
  injection E as -> E. injection Hl as Hl. by destruct (IH _ Hl E) as [-> ->].
Qed.

Lemma user_key_inj v d v' d' :
  id_ok v → id_ok v' → PoolWeightedVotesByUserKey v d = PoolWeightedVotesByUserKey v' d' →
  (v, d) = (v', d').
Proof.
  unfold id_ok. intros Hv Hv' E. apply append_length_inj in E as [E ->]; [|unfold Uint64ToBigEndian; by rewrite !big_endian_length].
  apply Uint64ToBigEndian_inj in E as ->; [done|lia..].
Qed.

(** ** The abstract map of votes; no entry is zero *)
Abbreviation Votes := (gmap (Z * string) Z).

Definition votes_of (a : Votes) (k : Z * string) : Z := default 0 (a !! k).
Definition put (k : Z * string) (x : Z) (a : Votes) : Votes :=
  if x =? 0 then delete k a else <[k := x]> a.

Definition in_pool (d : string) (k : Z * string) (x : Z) : Z := if decide (k.2 = d) then x else 0.
Definition by_user (v : Z) (k : Z * string) (x : Z) : Z := if decide (k.1 = v) then Z.abs x else 0.
Definition absolute (_ : Z * string) (x : Z) : Z := Z.abs x.
Definition positive (d : string) (k : Z * string) (x : Z) : Z :=
  if decide (k.2 = d) then Z.max 0 x else 0.

Lemma votes_of_put a k x k' : votes_of (put k x a) k' = if decide (k' = k) then x else votes_of a k'.
Proof.
  unfold votes_of, put. destruct (Z.eqb_spec x 0) as [->|], (decide (k' = k)) as [->|].
  - by rewrite lookup_delete_eq.
  - by rewrite lookup_delete_ne.
  - by rewrite lookup_insert_eq.
  - by rewrite lookup_insert_ne.
Qed.

Lemma sum_put f a k x :
  f k 0 = 0 → map_sum f (put k x a) = map_sum f a - f k (votes_of a k) + f k x.
Proof.
  intros Hf. assert (at_key f a k = f k (votes_of a k)) as E.
  { unfold at_key, votes_of. by destruct (a !! k). }
  unfold put. destruct (Z.eqb_spec x 0) as [->|].
  - rewrite map_sum_delete, E. lia.
  - by rewrite map_sum_insert, E.
Qed.

(** A user who abstains has no entries. *)
Definition abstained (v : Z) (a : Votes) : Votes := filter (fun e => e.1.1 ≠ v) a.

(** A user's ballot replaces its entries. *)
Definition voted (v : Z) (ballot : gmap string Z) (a : Votes) : Votes :=
  kmap (pair v) ballot ∪ abstained v a.

(** The votes a weight gives: the part of the power, truncated. *)
Definition weighted (power : Z) (weight : Dec) : Z := Z.quot (power * weight) precision.

(** ** What the stores hold of the votes *)
Section Rel.
Context `{Sdk, BankKeeper, NftKeeper}.
Implicit Types (ctx : Ctx) (w : World) (a : Votes).

Definition bribe_of (d : string) : Base := mkBase d false.

Record votes_rel a w : Prop := mk_votes_rel {
  vr_gauge d : HasGauge w d = true → plain d = true;
  vr_key v d : a !! (v, d) ≠ None → id_ok v ∧ HasGauge w d = true;
  vr_user v d : id_ok v → plain d = true → GetPoolWeightedVotesByUser w v d = votes_of a (v, d);
  vr_pool d : plain d = true → GetPoolWeightedVotes w d = map_sum (in_pool d) a;
  vr_deposit v d : GetDepositedAmountByUser (bribe_of d) w v = Z.max 0 (votes_of a (v, d));
  vr_deposits d : GetTotalDepositedAmount (bribe_of d) w = map_sum (positive d) a;
}.

(** The totals too. *)
Record votes_ok a w : Prop := mk_votes_ok {
  vo_rel : votes_rel a w;
  vo_total : GetTotalVotes w = map_sum absolute a;
  vo_users v : id_ok v → GetTotalVotesByUser w v = map_sum (by_user v) a;
}.

(** One user's votes for one pool become [x], in every place. *)
Record votes_set (v : Z) (d : string) (x : Z) w w' : Prop := mk_votes_set {
  vs_gauges d' : HasGauge w' d' = HasGauge w d';
  vs_user v' d' : id_ok v' → plain d' = true →
    GetPoolWeightedVotesByUser w' v' d' =
    if decide ((v', d') = (v, d)) then x else GetPoolWeightedVotesByUser w v' d';
  vs_pool d' : plain d' = true →
    GetPoolWeightedVotes w' d' = GetPoolWeightedVotes w d' +
    (if decide (d = d') then x - GetPoolWeightedVotesByUser w v d else 0);
  vs_deposit v' d' :
    GetDepositedAmountByUser (bribe_of d') w' v' =
    if decide ((v', d') = (v, d)) then Z.max 0 x else GetDepositedAmountByUser (bribe_of d') w v';
  vs_deposits d' :
    GetTotalDepositedAmount (bribe_of d') w' = GetTotalDepositedAmount (bribe_of d') w +
    (if decide (d = d') then Z.max 0 x - Z.max 0 (GetPoolWeightedVotesByUser w v d) else 0);
}.

Lemma votes_rel_put a w w' v d x :
  votes_rel a w → id_ok v → HasGauge w d = true → votes_set v d x w w' →
  votes_rel (put (v, d) x a) w'.
Proof.
  intros [Rg Rk Ru Rp Rd Rt] Hv Hd [Sg Su Sp Sd St].
  pose proof (Rg _ Hd) as Hpl. pose proof (Ru _ _ Hv Hpl) as Hold. split.
  - intros d'. rewrite Sg. apply Rg.
  - intros v' d' Hk. rewrite Sg. destruct (decide ((v', d') = (v, d))) as [[= -> ->]|Hne]; [done|].
    apply Rk. intros E. apply Hk. unfold put. destruct (x =? 0);
      [by rewrite lookup_delete_ne|by rewrite lookup_insert_ne].
  - intros v' d' Hv' Hd'. rewrite votes_of_put, Su by done. case_decide; [done|by apply Ru].
  - intros d' Hd'. rewrite Sp, Rp, Hold by done. rewrite sum_put by (unfold in_pool; by case_decide).
    unfold in_pool. simpl. destruct (decide (d = d')); lia.
  - intros v' d'. rewrite votes_of_put, Sd. by case_decide.
  - intros d'. rewrite St, Rt, Hold. rewrite sum_put by (unfold positive; by case_decide).
    unfold positive. simpl. destruct (decide (d = d')); lia.
Qed.

(** Sums over entries of one user. *)
Lemma put_sums a v d x :
  map_sum absolute (put (v, d) x a) = map_sum absolute a - Z.abs (votes_of a (v, d)) + Z.abs x ∧
  map_sum (by_user v) (put (v, d) x a) = map_sum (by_user v) a - Z.abs (votes_of a (v, d)) + Z.abs x ∧
  ∀ v', v' ≠ v → map_sum (by_user v') (put (v, d) x a) = map_sum (by_user v') a.
Proof.
  assert (∀ y, by_user v (v, d) y = Z.abs y) as Hb by (intros y; unfold by_user; by rewrite decide_True).
  split; [by rewrite sum_put|]. split; [by rewrite sum_put, !Hb by (by rewrite Hb)|].
  intros v' Hne. assert (∀ y, by_user v' (v, d) y = 0) as Hn
    by (intros y; unfold by_user; case_decide as E; [by destruct (Hne (eq_sym E))|done]).
  rewrite sum_put, !Hn by apply Hn. lia.
Qed.

(** ** Effects of the operations *)

(** A step of the voter that leaves votes, totals and bribes alone. *)
Record votes_kept w w' : Prop := mk_votes_kept {
  kp_gauge : w_gauge w' = w_gauge w;
  kp_ve : w_ve w' = w_ve w;
  kp_votes : vo_Votes (w_voter w') = vo_Votes (w_voter w);
  kp_total : vo_TotalVotes (w_voter w') = vo_TotalVotes (w_voter w);
  kp_users : vo_TotalVotesByUser (w_voter w') = vo_TotalVotesByUser (w_voter w);
}.

Lemma updateClaimable_kept w d w' : updateClaimableForGauge w d = Ok w' → votes_kept w w'.
Proof.
  unfold updateClaimableForGauge. intros Hok. cbv zeta in Hok. inv_ok_step Hok. injection Hok as <-.
  destruct (0 <? GetPoolWeightedVotes w d); [|by injection E as <-].
  inv_ok_step E. destruct (0 <? r0); [|by injection E as <-]. inv_ok_step E. inv_ok_step E.
  by injection E as <-.
Qed.

Lemma votes_rel_fields a w w' :
  w_gauge w' = w_gauge w → vo_Votes (w_voter w') = vo_Votes (w_voter w) → votes_rel a w → votes_rel a w'.
Proof.
  intros Kg Kv [Rg Rk Ru Rp Rd Rt]. unfold HasGauge, GetPoolWeightedVotesByUser,
    GetPoolWeightedVotes, GetDepositedAmountByUser, GetTotalDepositedAmount in *.
  split; unfold HasGauge, GetPoolWeightedVotesByUser,
    GetPoolWeightedVotes, GetDepositedAmountByUser, GetTotalDepositedAmount; rewrite ?Kg, ?Kv; auto.
Qed.

Lemma votes_rel_kept a w w' : votes_kept w w' → votes_rel a w → votes_rel a w'.
Proof. intros [Kg _ Kv _ _]. by apply votes_rel_fields. Qed.

(** What the checkpoints leave alone. *)
Definition checkpointed w w' : Prop :=
  w_voter w' = w_voter w ∧ w_ve w' = w_ve w ∧ gs_Gauges (w_gauge w') = gs_Gauges (w_gauge w) ∧
  gs_Deposited (w_gauge w') = gs_Deposited (w_gauge w) ∧
  gs_TotalDeposited (w_gauge w') = gs_TotalDeposited (w_gauge w).

Lemma checkpoints_frame ctx b w v x :
  checkpointed w (writeCheckpoint ctx b (writeUserCheckpoint ctx b w v x)).
Proof.
  unfold writeCheckpoint, writeUserCheckpoint.
  destruct (next_point _ _ (Base_GetUserCheckpoint _ _ _ _) _) as [e p].
  destruct (next_point _ _ _ _) as [e' p']. by repeat destruct (_ =? _).
Qed.

(** Deposits in a bribe after a change. *)
Definition deposits_moved (v : Z) (d : string) (x y : Z) w w' : Prop :=
  w_voter w' = w_voter w ∧ w_ve w' = w_ve w ∧ gs_Gauges (w_gauge w') = gs_Gauges (w_gauge w) ∧
  (∀ v' d', GetDepositedAmountByUser (bribe_of d') w' v' =
    if decide ((v', d') = (v, d)) then x else GetDepositedAmountByUser (bribe_of d') w v') ∧
  ∀ d', GetTotalDepositedAmount (bribe_of d') w' =
    if decide (d = d') then y else GetTotalDepositedAmount (bribe_of d') w.

Lemma bribe_key_inj d d' : Base_prefixKey (bribe_of d) = Base_prefixKey (bribe_of d') → d = d'.
Proof. by intros [= E]%Base_prefixKey_inj. Qed.

Lemma deposits_written v d x y w w1 w' :
  checkpointed w1 w' → w_voter w1 = w_voter w → w_ve w1 = w_ve w →
  gs_Gauges (w_gauge w1) = gs_Gauges (w_gauge w) →
  gs_TotalDeposited (w_gauge w1) = <[Base_prefixKey (bribe_of d) := y]> (gs_TotalDeposited (w_gauge w)) →
  gs_Deposited (w_gauge w1) = <[(Base_prefixKey (bribe_of d), v) := x]> (gs_Deposited (w_gauge w)) ∨
  x = 0 ∧ gs_Deposited (w_gauge w1) = delete (Base_prefixKey (bribe_of d), v) (gs_Deposited (w_gauge w)) →
  deposits_moved v d x y w w'.
Proof.
  intros (Cv & Ce & Cg & Cd & Ct) Ev Ee Eg Et Ed.
  split_and!; [by rewrite Cv|by rewrite Ce|by rewrite Cg| |].
  - intros v' d'. unfold GetDepositedAmountByUser. rewrite Cd.
    case_decide as E; [injection E as -> ->|].
    { destruct Ed as [->|[-> ->]]; [by rewrite lookup_insert_eq|by rewrite lookup_delete_eq]. }
    assert ((Base_prefixKey (bribe_of d), v) ≠ (Base_prefixKey (bribe_of d'), v')) as Hne.
    { intros Hk. apply E. by injection Hk as -> ->. }
    destruct Ed as [->|[_ ->]]; [by rewrite lookup_insert_ne|by rewrite lookup_delete_ne].
  - intros d'. unfold GetTotalDepositedAmount. rewrite Ct, Et.
    case_decide as E; [subst d'; by rewrite lookup_insert_eq|].
    rewrite lookup_insert_ne; [done|]. by intros Hk%bribe_key_inj.
Qed.

Lemma bribe_deposited `{!SdkLaws} ctx w v d x w' :
  Bribe_Deposit ctx (bribe_of d) w v x = Ok w' →
  deposits_moved v d (GetDepositedAmountByUser (bribe_of d) w v + x)
    (GetTotalDepositedAmount (bribe_of d) w + x) w w'.
Proof.
  unfold Bribe_Deposit. intros Hok. inv_ok_step Hok. inv_ok_step Hok. injection Hok as <-. sdk_inv.
  eapply deposits_written; [apply checkpoints_frame|done..|by left].
Qed.

Lemma bribe_withdrawn `{!SdkLaws} ctx w v d x w' :
  Bribe_Withdraw ctx (bribe_of d) w v x = Ok w' →
  deposits_moved v d (GetDepositedAmountByUser (bribe_of d) w v - x)
    (GetTotalDepositedAmount (bribe_of d) w - x) w w'.
Proof.
  unfold Bribe_Withdraw. intros Hok. inv_ok_step Hok. inv_ok_step Hok. inv_ok_step Hok.
  injection Hok as <-. sdk_inv. apply Z.ltb_ge in G.
  destruct (Z.ltb_spec 0 (GetDepositedAmountByUser (bribe_of d) w v - x)).
  - eapply deposits_written; [apply checkpoints_frame|done..|by left].
  - eapply deposits_written; [apply checkpoints_frame|done..|right; split; [lia|done]].
Qed.

(** Votes of a user and of a pool after a change. *)
Lemma votes_map_changed (m m1 : gmap string Z) v d x p :
  id_ok v → plain d = true →
  (m1 = <[PoolWeightedVotesByUserKey v d := x]> m ∨ x = 0 ∧ m1 = delete (PoolWeightedVotesByUserKey v d) m) →
  let m' := <[PoolWeightedVotesKey d := p]> m1 in
  (∀ v' d', id_ok v' → plain d' = true →
     default 0 (m' !! PoolWeightedVotesByUserKey v' d') =
     if decide ((v', d') = (v, d)) then x else default 0 (m !! PoolWeightedVotesByUserKey v' d')) ∧
  (∀ d', plain d' = true →
     default 0 (m' !! PoolWeightedVotesKey d') =
     if decide (d = d') then p else default 0 (m !! PoolWeightedVotesKey d')).
Proof.
  intros Hv Hd Hm1 m'. subst m'. split.
  - intros v' d' Hv' Hd'. rewrite lookup_insert_ne by (by apply pool_user_key).
    case_decide as E; [injection E as -> ->|].
    { destruct Hm1 as [->|[-> ->]]; [by rewrite lookup_insert_eq|by rewrite lookup_delete_eq]. }
    assert (PoolWeightedVotesByUserKey v d ≠ PoolWeightedVotesByUserKey v' d') as Hne.
    { intros Hk%user_key_inj; [|done..]. by apply E. }
    destruct Hm1 as [->|[_ ->]]; [by rewrite lookup_insert_ne|by rewrite lookup_delete_ne].
  - intros d' Hd'. case_decide as E; [subst d'; by rewrite lookup_insert_eq|].
    rewrite lookup_insert_ne by done.
    pose proof (pool_user_key d' v d Hd' Hv) as Hne.
    destruct Hm1 as [->|[_ ->]]; [by rewrite lookup_insert_ne|by rewrite lookup_delete_ne].
Qed.

(** The voter's own totals and the locks, which the loops leave alone. *)
Definition totals_kept w w' : Prop :=
  w_ve w' = w_ve w ∧ vo_TotalVotes (w_voter w') = vo_TotalVotes (w_voter w) ∧
  vo_TotalVotesByUser (w_voter w') = vo_TotalVotesByUser (w_voter w) ∧
  gs_Gauges (w_gauge w') = gs_Gauges (w_gauge w).

#[export] Instance totals_kept_preorder : PreOrder totals_kept.
Proof.
  split; [by intros w|]. intros w1 w2 w3 (A & B & C & D) (A' & B' & C' & D').
  split_and!; congruence.
Qed.

Lemma kept_totals w w' : votes_kept w w' → totals_kept w w'.
Proof. intros [Kg Ke _ Kt Ku]. split_and!; [done..|by rewrite Kg]. Qed.

Lemma votes_set_intro v d x w w2 w' m1 :
  id_ok v → plain d = true →
  let old := GetPoolWeightedVotesByUser w v d in
  (m1 = <[PoolWeightedVotesByUserKey v d := x]> (vo_Votes (w_voter w)) ∨
   x = 0 ∧ m1 = delete (PoolWeightedVotesByUserKey v d) (vo_Votes (w_voter w))) →
  vo_Votes (w_voter w2) = <[PoolWeightedVotesKey d := GetPoolWeightedVotes w d + (x - old)]> m1 →
  w_gauge w2 = w_gauge w →
  deposits_moved v d (Z.max 0 x) (GetTotalDepositedAmount (bribe_of d) w + (Z.max 0 x - Z.max 0 old)) w2 w' →
  votes_set v d x w w'.
Proof.
  intros Hv Hd old Hm1 Hm2 Hg (Mv & _ & Mg & Md & Mt).
  destruct (votes_map_changed (vo_Votes (w_voter w)) m1 v d x
              (GetPoolWeightedVotes w d + (x - old)) Hv Hd Hm1) as [Hu Hp].
  split.
  - intros d'. unfold HasGauge. by rewrite Mg, Hg.
  - intros v' d' Hv' Hd'. unfold GetPoolWeightedVotesByUser at 1. rewrite Mv, Hm2. by apply Hu.
  - intros d' Hd'. unfold GetPoolWeightedVotes at 1. rewrite Mv, Hm2, Hp by done.
    case_decide; [by subst d'|]. unfold GetPoolWeightedVotes. lia.
  - intros v' d'. rewrite Md. case_decide; [done|]. unfold GetDepositedAmountByUser. by rewrite Hg.
  - intros d'. rewrite Mt. case_decide; [by subst d'|]. unfold GetTotalDepositedAmount. rewrite Hg. lia.
Qed.

(** No deposit moves when the positive part stays. *)
Lemma deposits_unmoved v d x w2 :
  GetDepositedAmountByUser (bribe_of d) w2 v = x →
  deposits_moved v d x (GetTotalDepositedAmount (bribe_of d) w2) w2 w2.
Proof.
  intros Hx. split_and!; [done..| |].
  - intros v' d'. case_decide as E; [by injection E as -> ->|done].
  - intros d'. by case_decide; [subst|].
Qed.

Lemma bribe_Ok w d b : Bribe w d = Ok b → b = bribe_of d.
Proof. unfold Bribe. destruct (HasGauge w d); [by injection 1|done]. Qed.

Lemma votes_set_same v d w :
  GetDepositedAmountByUser (bribe_of d) w v = Z.max 0 (GetPoolWeightedVotesByUser w v d) →
  votes_set v d (GetPoolWeightedVotesByUser w v d) w w.
Proof.
  intros Hd. split; try done.
  - intros v' d' _ _. case_decide as E; [by injection E as -> ->|done].
  - intros d' _. case_decide; lia.
  - intros v' d'. case_decide as E; [by injection E as -> ->|done].
  - intros d'. case_decide; lia.
Qed.

Lemma abstain_pool_effect `{!SdkLaws} ctx a v d w tv w' tv' :
  votes_rel a w → id_ok v → HasGauge w d = true →
  abstain_pool ctx v (w, tv) d = Ok (w', tv') →
  votes_rel (put (v, d) 0 a) w' ∧ tv' = tv - Z.abs (votes_of a (v, d)) ∧ totals_kept w w'.
Proof.
  intros Hrel Hv Hd Hok. unfold abstain_pool in Hok. inv_ok_step Hok. cbv zeta in Hok.
  apply updateClaimable_kept in E as Hk. pose proof (votes_rel_kept _ _ _ Hk Hrel) as Hr.
  assert (HasGauge r d = true) as Hd' by (unfold HasGauge; by rewrite (kp_gauge _ _ Hk)).
  pose proof (vr_gauge _ _ Hr _ Hd') as Hpl. pose proof (vr_user _ _ Hr _ _ Hv Hpl) as Hold.
  pose proof (vr_deposit _ _ Hr v d) as Hdep. rewrite <- Hold in Hdep |- *.
  set (old := GetPoolWeightedVotesByUser r v d) in *.
  destruct (Z.eqb_spec old 0) as [Hz|Hz].
  { injection Hok as <- <-. split_and!; [|lia|by apply kept_totals].
    eapply votes_rel_put; [done..|]. rewrite <- Hz. by apply votes_set_same. }
  inv_ok_step Hok. inv_ok_step Hok. sdk_inv.
  set (w2 := SetPoolWeightedVotes _ _ _) in Hok.
  assert (∀ w3, deposits_moved v d 0 (GetTotalDepositedAmount (bribe_of d) r + (0 - Z.max 0 old)) w2 w3 →
          votes_rel (put (v, d) 0 a) w3) as Hset.
  { intros w3 Hm. eapply votes_rel_put; [exact Hr|done..|].
    eapply (votes_set_intro v d 0 r w2 w3); [done|done|by right|..|exact Hm]; [|done].
    subst w2. cbn. fold old. do 2 f_equal. unfold GetPoolWeightedVotes. cbn.
    rewrite lookup_delete_ne; [lia|]. intros Hk'. by apply (pool_user_key d v d). }
  assert (totals_kept w w2) as Ht2 by (etransitivity; [by apply kept_totals|done]).
  destruct (Z.ltb_spec 0 old) as [Hpos|Hneg].
  - inv_ok_step Hok. apply bribe_Ok in E0 as ->.
    destruct (Bribe_Withdraw _ _ _ _ _) as [w3| |] eqn:Hw; [injection Hok as <- <-|done..].
    apply bribe_withdrawn in Hw. split_and!; [apply Hset| |].
    + replace 0 with (GetDepositedAmountByUser (bribe_of d) w2 v - old) at 1
        by (change (GetDepositedAmountByUser (bribe_of d) r v - old = 0); lia).
      replace (_ + (0 - Z.max 0 old)) with (GetTotalDepositedAmount (bribe_of d) w2 - old)
        by (change (GetTotalDepositedAmount (bribe_of d) r - old =
                    GetTotalDepositedAmount (bribe_of d) r + (0 - Z.max 0 old)); lia).
      done.
    + lia.
    + etransitivity; [exact Ht2|]. destruct Hw as (Wv & We & Wg & _). split_and!; by rewrite ?Wv.
  - injection Hok as <- <-. split_and!; [apply Hset|lia|done].
    replace (_ + (0 - Z.max 0 old)) with (GetTotalDepositedAmount (bribe_of d) w2)
      by (change (GetTotalDepositedAmount (bribe_of d) r =
                  GetTotalDepositedAmount (bribe_of d) r + (0 - Z.max 0 old)); lia).
    apply deposits_unmoved. change (GetDepositedAmountByUser (bribe_of d) r v = 0). lia.
Qed.

Lemma vote_pool_effect `{!SdkLaws} ctx a v power st d wt st' :
  votes_rel a (vl_world st) → id_ok v → votes_of a (v, d) = 0 →
  vote_pool ctx v power st (d, wt) = Ok st' →
  let x := weighted power wt in
  x ≠ 0 ∧ HasGauge (vl_world st) d = true ∧
  votes_rel (put (v, d) x a) (vl_world st') ∧ totals_kept (vl_world st) (vl_world st') ∧
  vl_user st' = vl_user st + Z.abs x ∧ vl_total st' = vl_total st + Z.abs x ∧
  vl_weights st' = vl_weights st + Z.abs wt.
Proof.
  intros Hrel Hv Hnew Hok. unfold vote_pool in Hok. cbv zeta in Hok.
  destruct (HasGauge (vl_world st) d) eqn:Hd; [simpl in Hok|done].
  inv_ok_step Hok. inv_ok_step Hok. inv_ok_step Hok. apply Dec_Mul_ToDec in E1 as ->.
  inv_ok_step Hok. apply Dec_TruncateInt_Ok in E1 as ->. fold (weighted power wt) in Hok.
  set (x := weighted power wt) in *. destruct (Z.eqb_spec x 0) as [|Hx]; [done|].
  inv_ok_step Hok. inv_ok_step Hok. inv_ok_step Hok. inv_ok_step Hok. injection Hok as <-.
  simpl. sdk_inv. apply updateClaimable_kept in E as Hk.
  pose proof (votes_rel_kept _ _ _ Hk Hrel) as Hr.
  assert (HasGauge r d = true) as Hd' by (unfold HasGauge; by rewrite (kp_gauge _ _ Hk)).
  pose proof (vr_gauge _ _ Hr _ Hd') as Hpl. pose proof (vr_user _ _ Hr _ _ Hv Hpl) as Hold.
  pose proof (vr_deposit _ _ Hr v d) as Hdep. rewrite Hnew in Hold, Hdep.
  set (w2 := SetPoolWeightedVotes _ _ _) in *.
  assert (totals_kept (vl_world st) w2) as Ht2 by (etransitivity; [by apply kept_totals|done]).

  assert (deposits_moved v d (Z.max 0 x) (GetTotalDepositedAmount (bribe_of d) r + (Z.max 0 x - 0)) w2 r4)
    as Hm.
  { destruct (Z.ltb_spec 0 x).
    - apply bind_Ok in E4 as (b & ->%bribe_Ok & E4). apply bribe_deposited in E4.
      change (GetDepositedAmountByUser (bribe_of d) w2 v) with (GetDepositedAmountByUser (bribe_of d) r v) in E4.
      change (GetTotalDepositedAmount (bribe_of d) w2) with (GetTotalDepositedAmount (bribe_of d) r) in E4.
      rewrite Hdep in E4. rewrite Z.max_r, Z.sub_0_r by lia. done.
    - injection E4 as <-. rewrite Z.max_l, Z.sub_0_r, Z.add_0_r by lia. exact (deposits_unmoved v d 0 w2 Hdep). }
  split_and!; try done.
  - eapply votes_rel_put; [exact Hr|done..|].
    eapply (votes_set_intro v d x r w2); [done|done|by left| |done|by rewrite Hold].
    rewrite Hold, Z.sub_0_r. subst w2. cbn. do 2 f_equal. unfold GetPoolWeightedVotes. cbn.
    rewrite lookup_insert_ne; [done|]. intros Hk'. by apply (pool_user_key d v d).
  - etransitivity; [exact Ht2|]. destruct Hm as (Wv & We & Wg & _). split_and!; by rewrite ?Wv.
Qed.
End Rel.
