(* ===== verification/VoterBallots.v ===== *)
(** The loops of [Abstain] and [Vote] over the abstract map of votes: a user
    who abstains keeps no entry, and a ballot gives the user exactly the
    truncated parts of its voting power, in whatever order the map of weights
    is visited. *)

From stdpp Require Import base gmap strings list.
From Stdlib Require Import ZArith Lia Ascii.
From S2P Require Import Prelude Sdk Types VeTypes SdkExt GaugeTypes World VeKeeper VeVoting VeEmission GaugeKeeper GaugeBase GaugeSearch Voter GaugeHistory VoterVotes.

#[local] Open Scope string_scope.
#[local] Open Scope Z_scope.

(** ** Loops on the abstract map *)

Definition cleared (v : Z) (ds : list string) (a : Votes) : Votes :=
  foldl (fun a d => put (v, d) 0 a) a ds.
Definition cast (v power : Z) (es : list (string * Dec)) (a : Votes) : Votes :=
  foldl (fun a e => put (v, e.1) (weighted power e.2) a) a es.

Lemma put_lookup k x a k' :
  put k x a !! k' = if decide (k' = k) then (if x =? 0 then None else Some x) else a !! k'.
Proof.
  unfold put. case_decide as E; [subst|]; destruct (x =? 0);
    rewrite ?lookup_delete_eq, ?lookup_insert_eq, ?lookup_delete_ne, ?lookup_insert_ne; done.
Qed.

Lemma cleared_lookup v ds : ∀ a k,
  cleared v ds a !! k = if decide (k.1 = v ∧ k.2 ∈ ds) then None else a !! k.
Proof.
  induction ds as [|d ds IH]; intros a k.
  { rewrite decide_False; [done|]. by intros [_ ?%elem_of_nil]. }
  change (cleared v (d :: ds) a) with (cleared v ds (put (v, d) 0 a)). rewrite IH, put_lookup. simpl. destruct k as [v' d']; simpl.
  destruct (decide (v' = v ∧ d' ∈ ds)) as [[-> Hin]|Hn].
  { rewrite decide_True; [done|]. set_solver. }
  destruct (decide ((v', d') = (v, d))) as [[= -> ->]|Hne].
  { rewrite decide_True; [done|]. set_solver. }
  rewrite decide_False; [done|]. intros [-> Hin]. apply elem_of_cons in Hin as [->|]; [done|tauto].
Qed.

Lemma abstained_lookup v a k : abstained v a !! k = if decide (k.1 = v) then None else a !! k.
Proof.
  unfold abstained. destruct (decide (k.1 = v)) as [E|Hn].
  - apply map_lookup_filter_None. right. intros x _. simpl. tauto.
  - destruct (a !! k) eqn:Ha.
    + by apply map_lookup_filter_Some.
    + apply map_lookup_filter_None. by left.
Qed.

Lemma cleared_abstained v ds a :
  (∀ d, a !! (v, d) ≠ None → d ∈ ds) → cleared v ds a = abstained v a.
Proof.
  intros Hds. apply map_eq. intros [v' d]. rewrite cleared_lookup, abstained_lookup. simpl.
  destruct (decide (v' = v)) as [->|]; [|rewrite decide_False; [done|tauto]].
  destruct (decide (d ∈ ds)); [by rewrite decide_True|].
  rewrite decide_False by tauto. destruct (a !! (v, d)) eqn:E; [|done].
  destruct n. apply Hds. by rewrite E.
Qed.

Lemma abstained_sum v a : map_sum (by_user v) (abstained v a) = 0.
Proof.
  apply Z.le_antisymm.
  - enough (0 ≤ map_sum (fun k x => - by_user v k x) (abstained v a)) as E.
    { revert E. unfold map_sum. generalize (abstained v a) as m. intros m.
      enough (map_fold (fun k x acc => - by_user v k x + acc) 0 m =
              - map_fold (fun k x acc => by_user v k x + acc) 0 m) as -> by lia.
      induction m as [|k x m Hk IH] using map_ind; [by rewrite !map_fold_empty|].
      rewrite !map_fold_insert_L by (done || lia). lia. }
    apply map_sum_nonneg. intros k x Hk. rewrite abstained_lookup in Hk. unfold by_user.
    by case_decide.
  - apply map_sum_nonneg. intros k x _. unfold by_user. case_decide; lia.
Qed.

Lemma abstained_total v a :
  map_sum absolute a = map_sum absolute (abstained v a) + map_sum (by_user v) a.
Proof.
  induction a as [|k x a Hk IH] using map_ind; [done|].
  rewrite !(map_sum_insert_None _ a) by done. unfold abstained in *.
  rewrite map_filter_insert. unfold by_user at 1. simpl. destruct (decide (k.1 = v)) as [E|E].
  - rewrite decide_False by tauto. rewrite delete_id by done. unfold absolute at 1. lia.
  - rewrite decide_True by done. rewrite map_sum_insert_None; [lia|].
    apply map_lookup_filter_None. by left.
Qed.

(** The ballot, from an empty start. *)
Lemma cast_lookup v power es : ∀ a v' d',
  NoDup es.*1 → Forall (fun e => weighted power e.2 ≠ 0) es →
  cast v power es a !! (v', d') =
  if decide (v' = v) then
    match (list_to_map es : gmap string Dec) !! d' with
    | Some wt => Some (weighted power wt)
    | None => a !! (v', d')
    end
  else a !! (v', d').
Proof.
  induction es as [|[d wt] es IH]; intros a v' d' Hnd Hx.
  { by destruct (decide (v' = v)). }
  apply NoDup_cons in Hnd as [Hnot Hnd]. apply Forall_cons in Hx as [Hx Hxs].
  change (cast v power ((d, wt) :: es) a) with (cast v power es (put (v, d) (weighted power wt) a)).
  rewrite IH by done. rewrite put_lookup. simpl.
  simpl in Hx. rewrite (proj2 (Z.eqb_neq _ _) Hx). destruct (decide (v' = v)) as [->|Hv].
  - destruct (decide (d' = d)) as [->|Hd].
    + rewrite lookup_insert_eq, (not_elem_of_list_to_map_1 _ _ Hnot), decide_True by done. done.
    + rewrite lookup_insert_ne by done. destruct (list_to_map es !! d'); [done|].
      rewrite decide_False; [done|]. congruence.
  - rewrite decide_False; [done|]. congruence.
Qed.

Lemma cast_voted v power es (weights : gmap string Dec) a :
  es ≡ₚ map_to_list weights → Forall (fun e => weighted power e.2 ≠ 0) es →
  cast v power es (abstained v a) = voted v (weighted power <$> weights) a.
Proof.
  intros Hp Hx.
  assert (NoDup es.*1) as Hnd by (rewrite Hp; apply NoDup_fst_map_to_list).
  apply map_eq. intros [v' d']. rewrite cast_lookup by done. unfold voted.
  rewrite (list_to_map_proper es (map_to_list weights)), list_to_map_to_list by done.
  rewrite lookup_union, !abstained_lookup. simpl. destruct (decide (v' = v)) as [->|Hv].
  - rewrite lookup_kmap, lookup_fmap by apply _. by destruct (weights !! d').
  - assert (kmap (M2:=gmap (Z * string)) (pair v) (weighted power <$> weights) !! (v', d') = None) as ->.
    { apply lookup_kmap_None; [apply _|]. congruence. }
    by rewrite (left_id_L None _).
Qed.

(** Truncation toward zero never gives more than the part. *)
Lemma weighted_bound power wt : 0 ≤ power → Z.abs (weighted power wt) * precision ≤ power * Z.abs wt.
Proof.
  intros Hp. pose proof precision_pos. unfold weighted.
  rewrite <- (Z.quot_abs _ precision) by lia. rewrite (Z.abs_eq precision), Z.abs_mul, (Z.abs_eq power) by lia.
  rewrite Z.quot_div_nonneg by nia. rewrite Z.mul_comm. apply Z.mul_div_le. lia.
Qed.

Section Loops.
Context `{SdkLaws, BankKeeper, NftKeeper}.
Implicit Types (ctx : Ctx) (w : World) (a : Votes).

Lemma GetGauges_HasGauge w d : d ∈ GetGauges w ↔ HasGauge w d = true.
Proof.
  unfold GetGauges, HasGauge. rewrite bool_decide_eq_true, kv_iter_perm, list_elem_of_fmap. split.
  - intros ([d' x] & -> & Hin%elem_of_map_to_list). by eexists.
  - intros [x Hx]. exists (d, x). split; [done|]. by apply elem_of_map_to_list.
Qed.

Lemma HasGauge_kept w w' d : totals_kept w w' → HasGauge w' d = HasGauge w d.
Proof. intros (_ & _ & _ & Hg). unfold HasGauge. by rewrite Hg. Qed.

Lemma abstain_loop ctx v ds : ∀ a w tv w' tv',
  id_ok v → Forall (fun d => HasGauge w d = true) ds → votes_rel a w → tv = map_sum absolute a →
  for_each (abstain_pool ctx v) ds (w, tv) = Ok (w', tv') →
  votes_rel (cleared v ds a) w' ∧ tv' = map_sum absolute (cleared v ds a) ∧ totals_kept w w' ∧
  ∀ v', v' ≠ v → map_sum (by_user v') (cleared v ds a) = map_sum (by_user v') a.
Proof.
  induction ds as [|d ds IH]; intros a w tv w' tv' Hv Hds Hrel Htv Hok; cbn [for_each] in Hok.
  { by injection Hok as <- <-. }
  apply Forall_cons in Hds as [Hd Hds]. inv_ok_step Hok. destruct r as [w1 tv1].
  destruct (abstain_pool_effect _ _ _ _ _ _ _ _ Hrel Hv Hd E) as (Hr1 & Htv1 & Hk1).
  destruct (put_sums a v d 0) as (S1 & _ & S3).
  destruct (IH (put (v, d) 0 a) w1 tv1 w' tv') as (Hr2 & Ht2 & Hk2 & Hs2); [done| |done| |done|].
  { eapply Forall_impl; [exact Hds|]. intros d' Hd'. by rewrite (HasGauge_kept w w1). }
  { rewrite S1. lia. }
  split_and!; [done|done|by etransitivity|]. intros v' Hne.
  change (cleared v (d :: ds) a) with (cleared v ds (put (v, d) 0 a)). by rewrite Hs2, S3.
Qed.

Lemma Abstain_effect ctx a w v w' :
  id_ok v → votes_ok a w → Abstain ctx w v = Ok w' →
  votes_ok (abstained v a) w' ∧ gs_Gauges (w_gauge w') = gs_Gauges (w_gauge w) ∧
  w_ve w' = w_ve (SetVeVoted w v false) ∧ GetTotalVotesByUser w' v = 0.
Proof.
  intros Hv [Hrel Htot Husr] Hok. unfold Abstain in Hok. inv_ok_step Hok. destruct r as [w1 tv1].
  injection Hok as <-.
  destruct (abstain_loop ctx v (GetGauges w) a w (GetTotalVotes w) w1 tv1)
    as (Hr & Ht & (Kve & _ & Kusr & Kg) & Hs); [done| |done..|].
  { apply Forall_forall. intros d. apply GetGauges_HasGauge. }
  assert (cleared v (GetGauges w) a = abstained v a) as Hc.
  { apply cleared_abstained. intros d Hd. apply GetGauges_HasGauge. by apply (vr_key _ _ Hrel v d). }
  rewrite Hc in Hr, Ht, Hs.
  split_and!.
  - split; [by eapply votes_rel_fields; [..|exact Hr]|done|]. intros v' Hv'.
    unfold GetTotalVotesByUser. cbn. rewrite Kusr. destruct (decide (v' = v)) as [->|Hne].
    + by rewrite lookup_delete_eq, abstained_sum.
    + rewrite lookup_delete_ne by done. rewrite Hs by done. by apply Husr.
  - done.
  - unfold SetVeVoted, on_ve. cbn. by rewrite Kve.
  - unfold GetTotalVotesByUser. cbn. by rewrite lookup_delete_eq.
Qed.

Lemma vote_loop ctx v power es : ∀ a st st',
  id_ok v → 0 ≤ power → votes_rel a (vl_world st) → NoDup es.*1 →
  (∀ d, d ∈ es.*1 → votes_of a (v, d) = 0) →
  vl_user st = map_sum (by_user v) a → vl_total st = map_sum absolute a →
  for_each (vote_pool ctx v power) es st = Ok st' →
  let a' := cast v power es a in
  votes_rel a' (vl_world st') ∧ totals_kept (vl_world st) (vl_world st') ∧
  vl_user st' = map_sum (by_user v) a' ∧ vl_total st' = map_sum absolute a' ∧
  vl_weights st' = vl_weights st + list_sum (fun e => Z.abs e.2) es ∧
  (vl_user st' - vl_user st) * precision ≤ power * (vl_weights st' - vl_weights st) ∧
  Forall (fun e => weighted power e.2 ≠ 0 ∧ HasGauge (vl_world st) e.1 = true) es ∧
  ∀ v', v' ≠ v → map_sum (by_user v') a' = map_sum (by_user v') a.
Proof.
  induction es as [|[d wt] es IH]; intros a st st' Hv Hpow Hrel Hnd Hz Hu Ht Hok; cbn [for_each] in Hok.
  { injection Hok as <-. split_and!; try done. rewrite list_sum_nil. lia. lia. }
  apply NoDup_cons in Hnd as [Hnot Hnd]. inv_ok_step Hok. rename r into st1.
  destruct (vote_pool_effect ctx a v power st d wt st1 Hrel Hv (Hz d ltac:(apply elem_of_cons; by left)) E)
    as (Hx & Hg & Hr1 & Hk1 & Hu1 & Ht1 & Hw1).
  destruct (put_sums a v d (weighted power wt)) as (S1 & S2 & S3).
  rewrite (Hz d ltac:(apply elem_of_cons; by left)) in S1, S2.
  set (a1 := put (v, d) (weighted power wt) a) in *.
  destruct (IH a1 st1 st') as (Hr & Hk & Hu' & Ht' & Hw' & Hb & Hall & Hs);
    [done|done|done|done| |lia|lia|done|].
  { intros d' Hd'. unfold a1. rewrite votes_of_put, decide_False; [|by intros [= ->]].
    apply Hz. apply elem_of_cons. by right. }
  pose proof (weighted_bound power wt Hpow).
  change (cast v power ((d, wt) :: es) a) with (cast v power es a1).
  split_and!; [done|by etransitivity|done|done| | | |].
  - rewrite list_sum_cons. simpl. lia.
  - nia.
  - constructor; [done|]. eapply Forall_impl; [exact Hall|]. simpl. intros e [? Hge].
    by rewrite <- (HasGauge_kept _ _ _ Hk1).
  - intros v' Hne. by rewrite Hs, S3.
Qed.
End Loops.

(** * Abstaining never gets stuck: the withdrawals from bribes and the totals it
    computes are covered by what the stores hold, so [Abstain] returns unless
    the accrual of rewards overflows. *)

(** ** Sums of votes are within the absolute total *)

Lemma map_sum_bound {K V} `{Countable K} (f g : K → V → Z) (m : gmap K V) :
  (∀ k v, Z.abs (f k v) ≤ g k v) → Z.abs (map_sum f m) ≤ map_sum g m.
Proof.
  intros Hfg. induction m as [|k v m Hk IH] using map_ind; [by rewrite !map_sum_empty|].
  rewrite !map_sum_insert_None by done. specialize (Hfg k v). lia.
Qed.

Lemma pool_bound d a : Z.abs (map_sum (in_pool d) a) ≤ map_sum absolute a.
Proof. apply map_sum_bound. intros k x. unfold in_pool, absolute. case_decide; lia. Qed.
Lemma positive_bound d a : Z.abs (map_sum (positive d) a) ≤ map_sum absolute a.
Proof. apply map_sum_bound. intros k x. unfold positive, absolute. case_decide; lia. Qed.
Lemma votes_bound a k : Z.abs (votes_of a k) ≤ map_sum absolute a.
Proof.
  unfold votes_of. destruct (a !! k) as [x|] eqn:E; simpl.
  - apply (map_sum_lookup_le absolute a k x); [|done]. intros k' y _. unfold absolute. lia.
  - apply map_sum_nonneg. intros k' y _. unfold absolute. lia.
Qed.
Lemma put_bound a k : map_sum absolute (put k 0 a) ≤ map_sum absolute a.
Proof. rewrite sum_put by done. unfold absolute. lia. Qed.

Section Live.
Context `{SdkLaws, BankKeeper, NftKeeper}.
Implicit Types (ctx : Ctx) (w : World) (a : Votes).

(** The reward a pool accrues since its last update can be computed. *)
Definition accrual_fits w (d : string) : Prop :=
  let delta := GetIndex w - GetIndexAtLastUpdatedByGauge w d in
  int_fits delta ∧ int_fits (delta * GetPoolWeightedVotes w d) ∧
  int_fits (GetClaimableRewardByGauge w d + delta * GetPoolWeightedVotes w d).

Lemma updateClaimable_returns w d :
  accrual_fits w d → ∃ w', updateClaimableForGauge w d = Ok w'.
Proof.
  intros (F1 & F2 & F3). unfold updateClaimableForGauge. destruct (0 <? _); [|by eexists].
  rewrite Int_Sub_fits by done. simpl. destruct (0 <? _); [|by eexists].
  rewrite Int_Mul_fits by done. simpl. rewrite Int_Add_fits by done. by eexists.
Qed.

(** What a step for one pool leaves of the accrual of others. *)
Definition accrual_kept (d : string) w w' : Prop :=
  GetIndex w' = GetIndex w ∧ ∀ d', d' ≠ d →
  GetIndexAtLastUpdatedByGauge w' d' = GetIndexAtLastUpdatedByGauge w d' ∧
  GetClaimableRewardByGauge w' d' = GetClaimableRewardByGauge w d'.

Lemma updateClaimable_accrual w d w' : updateClaimableForGauge w d = Ok w' → accrual_kept d w w'.
Proof.
  unfold updateClaimableForGauge. intros Hok. cbv zeta in Hok. inv_ok_step Hok. injection Hok as <-.
  assert (accrual_kept d w r) as [A B].
  { destruct (0 <? GetPoolWeightedVotes w d); [|by injection E as <-].
    inv_ok_step E. destruct (0 <? r0); [|by injection E as <-]. inv_ok_step E. inv_ok_step E.
    injection E as <-. split; [done|]. intros d' Hne. split; [done|].
    unfold GetClaimableRewardByGauge. cbn. by rewrite lookup_insert_ne. }
  split; [done|]. intros d' Hne. destruct (B d' Hne) as [B1 B2]. split; [|done].
  rewrite <- B1. unfold GetIndexAtLastUpdatedByGauge. cbn. by rewrite lookup_insert_ne.
Qed.

Lemma abstain_pool_accrual ctx v d w tv w' tv' :
  abstain_pool ctx v (w, tv) d = Ok (w', tv') → accrual_kept d w w'.
Proof.
  intros Hok. unfold abstain_pool in Hok. inv_ok_step Hok. apply updateClaimable_accrual in E.
  cbv zeta in Hok. destruct (_ =? 0); [by injection Hok as <- _|].
  inv_ok_step Hok. inv_ok_step Hok. destruct (0 <? _); [|by injection Hok as <- _].
  inv_ok_step Hok. apply bribe_Ok in E2 as ->.
  destruct (Bribe_Withdraw _ _ _ _ _) as [w3| |] eqn:Hw; [injection Hok as <- _|done..].
  apply bribe_withdrawn in Hw as (Wv & _). unfold accrual_kept, GetIndex,
    GetIndexAtLastUpdatedByGauge, GetClaimableRewardByGauge in *. rewrite Wv. exact E.
Qed.

Lemma Bribe_Withdraw_returns ctx w v d x :
  GetDepositedAmountByUser (bribe_of d) w v = x →
  int_fits (GetTotalDepositedAmount (bribe_of d) w - x) →
  ∃ w', Bribe_Withdraw ctx (bribe_of d) w v x = Ok w'.
Proof.
  intros Hx Hfit. unfold Bribe_Withdraw. rewrite Hx, Z.ltb_irrefl. simpl.
  rewrite (Int_Sub_fits (GetTotalDepositedAmount (bribe_of d) w) x) by done. simpl.
  rewrite (Int_Sub_fits x x) by (unfold int_fits; lia). by eexists.
Qed.

Lemma abstain_pool_returns ctx a v d w tv :
  votes_rel a w → id_ok v → HasGauge w d = true → tv = map_sum absolute a → int_fits tv →
  accrual_fits w d → ∃ w' tv', abstain_pool ctx v (w, tv) d = Ok (w', tv').
Proof.
  intros Hrel Hv Hd -> Hfit Hacc. unfold abstain_pool.
  destruct (updateClaimable_returns w d Hacc) as [w1 E1]. rewrite E1. cbn [outcome_bind mbind].
  apply updateClaimable_kept in E1 as Hk. pose proof (votes_rel_kept _ _ _ Hk Hrel) as Hr.
  assert (HasGauge w1 d = true) as Hd' by (unfold HasGauge; by rewrite (kp_gauge _ _ Hk)).
  pose proof (vr_gauge _ _ Hr _ Hd') as Hpl. rewrite (vr_user _ _ Hr _ _ Hv Hpl).
  set (x := votes_of a (v, d)). cbv zeta.
  destruct (Z.eqb_spec x 0) as [|Hx]; [by do 2 eexists|].
  assert (GetPoolWeightedVotes (DeletePoolWeightedVotesByUser w1 v d) d = map_sum (in_pool d) a) as Hp.
  { rewrite <- (vr_pool _ _ Hr d Hpl). unfold GetPoolWeightedVotes. cbn.
    rewrite lookup_delete_ne; [done|]. intros E. by apply (pool_user_key d v d). }
  pose proof (put_bound a (v, d)) as Hput. unfold int_fits in Hfit.
  assert (map_sum (in_pool d) (put (v, d) 0 a) = map_sum (in_pool d) a - x) as Hsp
    by (rewrite sum_put by (unfold in_pool; by case_decide); unfold in_pool; simpl;
        rewrite !decide_True by done; unfold x; lia).
  pose proof (pool_bound d (put (v, d) 0 a)). pose proof (votes_bound a (v, d)) as Hvb. fold x in Hvb.
  rewrite Hp, Int_Sub_fits by (unfold int_fits; lia). cbn [outcome_bind mbind].
  rewrite Int_Sub_fits by (unfold int_fits; lia). cbn [outcome_bind mbind].
  destruct (Z.ltb_spec 0 x) as [Hpos|]; [|by do 2 eexists].
  unfold Bribe. change (HasGauge (SetPoolWeightedVotes _ _ _) d) with (HasGauge w1 d). rewrite Hd'.
  cbn [outcome_bind mbind]. fold (bribe_of d).
  set (w2 := SetPoolWeightedVotes _ _ _).
  destruct (Bribe_Withdraw_returns ctx w2 v d x) as [w3 ->]; [| |by do 2 eexists].
  - change (GetDepositedAmountByUser (bribe_of d) w1 v = x). rewrite (vr_deposit _ _ Hr). fold x. lia.
  - change (int_fits (GetTotalDepositedAmount (bribe_of d) w1 - x)). rewrite (vr_deposits _ _ Hr).
    pose proof (positive_bound d (put (v, d) 0 a)) as Hb.
    rewrite sum_put in Hb by (unfold positive; by case_decide). unfold positive at 2 3 in Hb.
    simpl in Hb. rewrite !decide_True in Hb by done. fold x in Hb. unfold int_fits. lia.
Qed.

Lemma abstain_loop_returns ctx v ds : ∀ a w tv,
  id_ok v → NoDup ds → Forall (fun d => HasGauge w d = true ∧ accrual_fits w d) ds →
  votes_rel a w → tv = map_sum absolute a → int_fits tv →
  ∃ w' tv', for_each (abstain_pool ctx v) ds (w, tv) = Ok (w', tv').
Proof.
  induction ds as [|d ds IH]; intros a w tv Hv Hnd Hds Hrel Htv Hfit; cbn [for_each]; [by do 2 eexists|].
  apply NoDup_cons in Hnd as [Hnot Hnd]. apply Forall_cons in Hds as [[Hd Hacc] Hds].
  destruct (abstain_pool_returns ctx a v d w tv) as (w1 & tv1 & E); [done..|]. rewrite E.
  cbn [outcome_bind mbind].
  destruct (abstain_pool_effect _ _ _ _ _ _ _ _ Hrel Hv Hd E) as (Hr1 & Htv1 & Hk1).
  destruct (abstain_pool_accrual _ _ _ _ _ _ _ E) as [Ai Ad].
  destruct (put_sums a v d 0) as (S1 & _ & _).
  apply (IH (put (v, d) 0 a)); [done|done| |done|lia|].
  - eapply Forall_impl; [apply Forall_and; split; [exact Hds|apply Forall_forall; by intros x Hx; exact Hx]|].
    simpl. intros d' [[Hd' Ha'] Hin]. split; [by rewrite (HasGauge_kept w w1)|].
    assert (d' ≠ d) as Hne by (by intros ->). destruct (Ad d' Hne) as [A1 A2].
    unfold accrual_fits. rewrite Ai, A1, A2.
    assert (GetPoolWeightedVotes w1 d' = GetPoolWeightedVotes w d') as ->; [|done].
    pose proof (vr_gauge _ _ Hrel _ Hd') as Hpl.
    rewrite (vr_pool _ _ Hr1 d' Hpl), (vr_pool _ _ Hrel d' Hpl).
    rewrite sum_put by (unfold in_pool; by case_decide). unfold in_pool; simpl.
    rewrite !decide_False by congruence. lia.
  - pose proof (votes_bound a (v, d)). unfold int_fits in *. lia.
Qed.

Lemma GetGauges_NoDup w : NoDup (GetGauges w).
Proof. unfold GetGauges. rewrite kv_iter_perm. apply NoDup_fst_map_to_list. Qed.

Lemma Abstain_returns ctx a w v :
  id_ok v → votes_ok a w → int_fits (GetTotalVotes w) →
  (∀ d, HasGauge w d = true → accrual_fits w d) → ∃ w', Abstain ctx w v = Ok w'.
Proof.
  intros Hv [Hrel Htot Husr] Hfit Hacc. unfold Abstain.
  destruct (abstain_loop_returns ctx v (GetGauges w) a w (GetTotalVotes w)) as (w1 & tv1 & ->);
    [done|apply GetGauges_NoDup| |done..|by eexists].
  apply Forall_forall. intros d Hd%GetGauges_HasGauge. auto.
Qed.
End Live.

(** * The voter refines a map of votes: [Abstain] removes the entries of a user,
    [Vote] and [Poke] replace them by a ballot, and the stores hold the map,
    its sums and the deposits of positive votes throughout. *)

(** Operations of the voter. *)
Inductive vote_op :=
| op_create (denom : string)
| op_abstain (veID : Z)
| op_vote (veID : Z) (weights : gmap string Dec)
| op_poke (veID : Z)
| op_end_block.

(** Identifiers in use and denominations that exist. *)
Definition op_ok (o : vote_op) : Prop :=
  match o with
  | op_create d => plain d = true
  | op_abstain v | op_vote v _ | op_poke v => id_ok v
  | op_end_block => True
  end.

Section Refine.
Context `{SdkLaws, BankKeeper, NftKeeper, MapOrderLaws}.
Implicit Types (ctx : Ctx) (w : World) (a : Votes).

Definition do_vote_op ctx (o : vote_op) w : outcome World :=
  match o with
  | op_create d => voter_CreateGauge w d
  | op_abstain v => Abstain ctx w v
  | op_vote v weights => Vote ctx w v weights
  | op_poke v => Poke ctx w v
  | op_end_block => voter_EndBlocker ctx w
  end.

(** A ballot of the whole power: the weights are one in all, every pool of the
    ballot exists and gets votes. *)
Definition full_ballot w (power : Z) (weights : gmap string Dec) : Prop :=
  map_sum (fun _ wt => Z.abs wt) weights = OneDec ∧
  ∀ d wt, weights !! d = Some wt → HasGauge w d = true ∧ weighted power wt ≠ 0.

(** What the operations mean. *)
Inductive vote_spec ctx w a : vote_op → Votes → Prop :=
| spec_create d : vote_spec ctx w a (op_create d) a
| spec_abstain v : vote_spec ctx w a (op_abstain v) (abstained v a)
| spec_vote v weights power :
    GetVotingPower ctx w v (now_of ctx) 0 = Ok power → full_ballot w power weights →
    vote_spec ctx w a (op_vote v weights) (voted v (weighted power <$> weights) a)
| spec_poke_idle v : GetTotalVotesByUser w v ≤ 0 → vote_spec ctx w a (op_poke v) a
| spec_poke v weights power :
    0 < GetTotalVotesByUser w v →
    GetVotingPower ctx w v (now_of ctx) 0 = Ok power → full_ballot w power weights →
    vote_spec ctx w a (op_poke v) (voted v (weighted power <$> weights) a)
| spec_end_block : vote_spec ctx w a op_end_block a.

(** The power of a lock does not depend on its flags nor on other modules. *)
Lemma GetVotingPower_flag ctx w w' v v' f t h :
  w_ve w' = w_ve (SetVeVoted w v' f) → GetVotingPower ctx w' v t h = GetVotingPower ctx w v t h.
Proof.
  intros E. unfold GetVotingPower, findTimeEpoch, findBlockEpoch, history_point, block_dt,
    GetEpoch, GetUserEpoch, GetCheckpoint, GetUserCheckpoint. rewrite E. cbn [SetVeVoted on_ve w_ve set_ve].
  cbn [vs_Epoch vs_UserEpoch vs_PointHistoryByEpoch vs_UserPointHistoryByUserEpoch vs_set_Voted]. reflexivity.
Qed.

Lemma GetVotingPower_nonneg ctx w v t h p : GetVotingPower ctx w v t h = Ok p → 0 ≤ p.
Proof.
  unfold GetVotingPower. intros Hok. cbv zeta in Hok. inv_ok_step Hok.
  injection Hok as <-. unfold clip. destruct (Z.ltb_spec r 0); lia.
Qed.

Lemma vote_entries_effect ctx a w v (weights : gmap string Dec) es w' :
  id_ok v → votes_ok a w → es ≡ₚ map_to_list weights → vote_entries ctx w v es = Ok w' →
  ∃ power, GetVotingPower ctx w v (now_of ctx) 0 = Ok power ∧ full_ballot w power weights ∧
    votes_ok (voted v (weighted power <$> weights) a) w' ∧ GetTotalVotesByUser w' v ≤ power.
Proof.
  intros Hv Hok Hp Hrun. unfold vote_entries in Hrun. inv_ok_step Hrun. rename r into w1.
  destruct (Abstain_effect ctx a w v w1 Hv Hok E) as ([Hr1 Ht1 Hu1] & Hg1 & Hve1 & Hz1).
  inv_ok_step Hrun. rename r into power. rewrite (GetVotingPower_flag _ _ _ _ _ _ _ _ Hve1) in E0.
  pose proof (GetVotingPower_nonneg _ _ _ _ _ _ E0) as Hpow.
  inv_ok_step Hrun. rename r into st. destruct (Z.eqb_spec (vl_weights st) OneDec) as [Hw|]; [|done].
  simpl in Hrun. injection Hrun as <-.
  assert (NoDup es.*1) as Hnd by (rewrite Hp; apply NoDup_fst_map_to_list).
  assert (∀ d, votes_of (abstained v a) (v, d) = 0) as Hnone
    by (intros d; unfold votes_of; rewrite abstained_lookup; by rewrite decide_True).
  destruct (vote_loop ctx v power es (abstained v a)
              (mkVoteLoop w1 (GetTotalVotesByUser w1 v) (GetTotalVotes w1) ZeroDec) st
              Hv Hpow Hr1 Hnd (fun d _ => Hnone d) (Hu1 v Hv) Ht1 E1)
    as (Hr & (Kve & Kt & Ku & Kg) & Hu & Ht & Hws & Hb & Hall & Hs).
  cbn [vl_world vl_user vl_weights] in Ku, Hws, Hb, Hall. rewrite Hz1 in Hb. unfold ZeroDec in Hws, Hb.
  rewrite (cast_voted v power es weights a Hp) in Hr, Hu, Ht, Hs
    by (eapply Forall_impl; [exact Hall|]; by intros ? [??]).
  exists power. split; [done|]. split; [|split].
  - split.
    + rewrite (map_sum_to_list Z.abs), <- (list_sum_perm _ _ _ Hp). lia.
    + intros d wt Hd%elem_of_map_to_list. rewrite <- Hp in Hd.
      rewrite Forall_forall in Hall. destruct (Hall _ Hd) as [Hx Hge]. split; [|done].
      unfold HasGauge in *. by rewrite <- Hg1.
  - split; [by eapply votes_rel_fields; [..|exact Hr]|done|]. intros v' Hv'.
    unfold GetTotalVotesByUser. cbn. destruct (decide (v' = v)) as [->|Hne].
    + by rewrite lookup_insert_eq.
    + rewrite lookup_insert_ne, Ku, Hs by done. by apply Hu1.
  - unfold GetTotalVotesByUser. cbn. rewrite lookup_insert_eq. simpl. unfold OneDec in Hw.
    pose proof precision_pos. nia.
Qed.

Lemma Vote_effect ctx a w v weights w' :
  id_ok v → votes_ok a w → Vote ctx w v weights = Ok w' →
  ∃ power, GetVotingPower ctx w v (now_of ctx) 0 = Ok power ∧ full_ballot w power weights ∧
    votes_ok (voted v (weighted power <$> weights) a) w' ∧ GetTotalVotesByUser w' v ≤ power.
Proof. intros Hv Hok. apply vote_entries_effect; [done..|apply range_perm]. Qed.

Lemma create_effect a w d w' :
  plain d = true → votes_ok a w → voter_CreateGauge w d = Ok w' → votes_ok a w'.
Proof.
  intros Hd [Hr Ht Hu] Hrun. unfold voter_CreateGauge, gauge_CreateGauge in Hrun. inv_ok_step Hrun.
  apply updateClaimable_kept in Hrun as Hk.
  assert (votes_rel a r ∧ w_voter r = w_voter w) as [Hr1 Ev].
  { destruct (HasGauge w d) eqn:Hh; injection E as <-; [done|]. split; [|done].
    destruct Hr as [Rg Rk Ru Rp Rd Rt]. split; try done.
    - intros d'. unfold HasGauge. cbn. rewrite bool_decide_eq_true. intros Hin.
      destruct (decide (d' = d)) as [->|]; [done|]. apply Rg. unfold HasGauge.
      rewrite bool_decide_eq_true. by rewrite lookup_insert_ne in Hin.
    - intros v d' Hk'. destruct (Rk _ _ Hk') as [? Hg]. split; [done|]. unfold HasGauge in *. cbn.
      rewrite bool_decide_eq_true in Hg |- *. destruct (decide (d' = d)) as [->|];
        [by rewrite lookup_insert_eq|by rewrite lookup_insert_ne]. }
  split; [by eapply votes_rel_kept|..]; unfold GetTotalVotes, GetTotalVotesByUser in *;
    rewrite ?(kp_total _ _ Hk), ?(kp_users _ _ Hk), Ev; done.
Qed.

Lemma Poke_effect ctx a w v w' :
  id_ok v → votes_ok a w → Poke ctx w v = Ok w' →
  (GetTotalVotesByUser w v ≤ 0 ∧ w' = w) ∨
  ∃ weights, 0 < GetTotalVotesByUser w v ∧ Vote ctx w v weights = Ok w'.
Proof.
  intros Hv Hok Hrun. unfold Poke in Hrun. cbv zeta in Hrun.
  destruct (Z.ltb_spec 0 (GetTotalVotesByUser w v)); simpl in Hrun; [right|left; by injection Hrun as <-].
  inv_ok_step Hrun. destruct r as [[ws tot] ft]. inv_ok_step Hrun. by eexists.
Qed.
End Refine.
