(* ===== verification/GaugeProps.v ===== *)
(** The properties of pools and of the voter, with the concrete runs that
    discharge their hypotheses. *)

From stdpp Require Import base gmap strings list.
From Stdlib Require Import ZArith Lia.
From S2P Require Import Prelude Sdk SdkRef Types MakerTypes VeTypes SdkExt SdkExtRef GaugeTypes World VeKeeper VeVoting VeEmission VeDemo GaugeKeeper GaugeBase GaugeSearch Voter GaugeHistory GaugeRun VoterVotes VoterBallots.

#[local] Open Scope string_scope.
#[local] Open Scope Z_scope.

(** * A concrete chain on which the theorems on pools and votes are applied:
    alice, who holds two locks, with gauges for two coins. *)

Module GaugeDemo.
Export VeDemo.
Export SdkExtRef.

#[export] Existing Instance order_up.
#[export] Existing Instance order_up_laws.

(** A block [k] seconds after alice's second lock. *)
Definition gctx (k : Z) : Ctx := vctx (1010 + k) (t1 + 60 + k).

Definition run (l : list (Z * pool_act)) (w : World) : World :=
  fold_left (fun w ka => ok_or w (do_act (gctx ka.1) ka.2 w)) l w.

Definition g1 : World := run [(0, act_create "ubusd"); (0, act_create "ubtc")] v2.

(** ** Votes *)

(** Six tenths for one pool, four tenths against the other. *)
Definition ballot1 : gmap string Dec :=
  list_to_map [("ubusd", NewDecWithPrec 6 1); ("ubtc", - NewDecWithPrec 4 1)].
Definition g2 : World := ok_or g1 (Vote (gctx 10) g1 1 ballot1).

Example vote_returns : is_ok (Vote (gctx 10) g1 1 ballot1) = true.
Proof. by vm_compute. Qed.

(** ** Deposits in a bribe, with their times *)
Definition history1 : list (Z * pool_act) :=
  [(1, act_bribe_deposit "ubusd" 1 500); (2, act_bribe_deposit "ubusd" 2 70);
   (2, act_bribe_deposit "ubusd" 1 30); (9, act_bribe_withdraw "ubusd" 1 530)].

Fixpoint run_log (l : list (Z * pool_act)) (w : World) (L : list (Z * World)) : list (Z * World) :=
  match l with
  | [] => L
  | (k, a) :: l =>
      let w' := ok_or w (do_act (gctx k) a w) in run_log l w' ((now_of (gctx k), w') :: L)
  end.

(** ** Claims of a gauge

    Alice deposits and the reward arrives in the same second. *)
Definition reward1 : list (Z * pool_act) :=
  [(1, act_gauge_deposit "ubusd" 1 1000); (1, act_gauge_reward "ubusd" "alice" "ubtc" (604800 * 1000))].
Definition g3 : World := run reward1 g1.
Definition claim_at (k : Z) : Z * pool_act := (k, act_gauge_claim "ubusd" 1).
End GaugeDemo.

(** * The properties *)

(** C33. The search in a history of checkpoints ends: for fewer than 2^63
    epochs its 65 rounds are the whole loop of the source, which has no bound
    of its own, whatever the stamps are; and when the stamps increase, the
    epoch found is the last one not after the given time, or zero when every
    checkpoint is later. *)
Theorem prior_search_terminates epoch stamp t :
  0 ≤ epoch < 2 ^ 63 →
  search_loop stamp t 0 epoch (prior_search search_fuel stamp t 0 epoch) ∧
  (increasing stamp epoch → is_prior stamp epoch t (find_prior epoch stamp t)).
Proof.
  intros He. split; [|by intros; apply find_prior_spec].
  apply (prior_search_loop stamp t 64); lia.
Qed.

Section Props.
Context `{SdkLaws, BankKeeper, NftKeeper}.
Implicit Types (ctx : Ctx) (w : World) (b : Base) (a : Votes).

(** C34. Checkpoints answer questions about the past: along any run of
    operations on bribes and gauges and of steps that leave the gauge store
    alone, in order of time, the checkpoint that [findPriorEpoch] finds in the
    last state for a user and a time carries the tickets the user had in the
    state of that time, and the one it finds for the pool carries the total;
    a checkpoint that was never written counts as zero. *)
Theorem checkpoints_answer_the_past w0 L b veID t :
  unused w0 → pool_run w0 L → Z.of_nat (length L) < 2 ^ 63 → veID ≠ EmptyVeID →
  let w := current w0 L in
  (∃ e, findPriorEpoch b w veID "" t = Ok e ∧
     default 0 (gp_Amount (Base_GetUserCheckpoint b w veID e)) = tickets b (world_at w0 L t) veID) ∧
  (∃ e, findPriorEpoch b w EmptyVeID "" t = Ok e ∧
     default 0 (gp_Amount (Base_GetCheckpoint b w e)) = total_tickets b (world_at w0 L t)).
Proof.
  intros Hun Hrun Hlen Hv w. destruct (run_tracked w0 L Hun Hrun Hlen) as [Hu Hp].
  destruct (Hun b) as (Hz & _ & _ & Hzu).
  unfold findPriorEpoch. rewrite (proj2 (Z.eqb_neq _ _) Hv). split; eexists; (split; [done|]).
  - rewrite <- (values_at (fun w => tickets b w veID) w0 L t) by apply Hzu.
    apply (hist_recorded _ (user_hist b w veID)); [apply Hu|by rewrite values_length].
  - rewrite <- (values_at (total_tickets b) w0 L t) by done.
    apply (hist_recorded _ (pool_hist b w)); [apply Hp|by rewrite values_length].
Qed.

(** C35. The voter refines a map from users and pools to votes: when the
    stores hold such a map (each user's votes for each pool, the sum per pool,
    the sums of absolute values in all and per user, and positive votes as
    deposits of the pool's bribe), every operation that returns leaves them
    holding the map the specification gives: unchanged, without the user's
    entries, or with the user's entries replaced by a ballot that gives every
    pool its weight's part of the user's power, truncated; the order in which
    the map of weights is visited does not matter. *)
Theorem votes_refine `{MapOrderLaws} ctx a w o w' :
  votes_ok a w → op_ok o → do_vote_op ctx o w = Ok w' →
  ∃ a', vote_spec ctx w a o a' ∧ votes_ok a' w'.
Proof.
  intros Hok Ho Hrun. destruct o as [d|v|v weights|v|]; simpl in Ho, Hrun.
  - exists a. split; [constructor|by eapply create_effect].
  - exists (abstained v a). split; [constructor|]. by eapply Abstain_effect.
  - destruct (Vote_effect ctx a w v weights w' Ho Hok Hrun) as (p & Hp & Hb & Hv & _).
    eexists. split; [by econstructor|done].
  - destruct (Poke_effect ctx a w v w' Ho Hok Hrun) as [[Hle ->]|(ws & Hpos & Hv)].
    + exists a. split; [by constructor|done].
    + destruct (Vote_effect ctx a w v ws w' Ho Hok Hv) as (p & Hp & Hb & Hw & _).
      eexists. split; [by eapply spec_poke|done].
  - exists a. split; [constructor|]. by apply EmitReward_none in Hrun as ->.
Qed.

(** C36. A user can always take its votes back: when the stores hold the
    votes, the total fits and the rewards accrued since the last update can be
    computed, [Abstain] returns, the user has no votes left anywhere, nobody
    else's votes change, and the total falls by exactly the user's votes. *)
Theorem abstain_returns ctx a w veID :
  id_ok veID → votes_ok a w → int_fits (GetTotalVotes w) →
  (∀ d, HasGauge w d = true → accrual_fits w d) →
  ∃ w', Abstain ctx w veID = Ok w' ∧ votes_ok (abstained veID a) w' ∧
    GetTotalVotesByUser w' veID = 0 ∧ GetVeVoted w' veID = false ∧
    GetTotalVotes w' = GetTotalVotes w - GetTotalVotesByUser w veID ∧
    ∀ v d, id_ok v → HasGauge w d = true →
      GetPoolWeightedVotesByUser w' v d = if decide (v = veID) then 0 else GetPoolWeightedVotesByUser w v d.
Proof.
  intros Hv Hok Hfit Hacc. destruct (Abstain_returns ctx a w veID Hv Hok Hfit Hacc) as [w' Hrun].
  exists w'. destruct (Abstain_effect ctx a w veID w' Hv Hok Hrun) as (Hok' & Hg & Hve & Hz).
  split_and!; [done..| | |].
  - unfold GetVeVoted. rewrite Hve. cbn. by rewrite lookup_insert_eq.
  - rewrite (vo_total _ _ Hok'), (vo_total _ _ Hok), (vo_users _ _ Hok) by done.
    pose proof (abstained_total veID a). lia.
  - intros v d Hid Hd. pose proof (vr_gauge _ _ (vo_rel _ _ Hok) _ Hd) as Hpl.
    rewrite (vr_user _ _ (vo_rel _ _ Hok') v d Hid Hpl), (vr_user _ _ (vo_rel _ _ Hok) v d Hid Hpl).
    unfold votes_of. rewrite abstained_lookup. simpl. by case_decide.
Qed.
End Props.

(** ** Behaviours of the source that its comments do not intend *)
Section Behaviours.
Context `{SdkLaws, BankKeeper, NftKeeper}.
Implicit Types (ctx : Ctx) (w : World).

(** A gauge takes no rewards in the coin it is for, and the voter pays rewards
    in just that coin: a distribution that is due panics. *)
Theorem distribute_due_panics ctx w d w1 claimable remaining :
  HasGauge w d = true → EmitReward ctx w = Ok w → updateClaimableForGauge w d = Ok w1 →
  GetClaimableRewardByGauge w1 d = claimable →
  RemainingReward ctx (mkBase d true) w1 d = Ok remaining → remaining < claimable →
  int_fits claimable → RegulatedPeriod ≤ claimable → DistributeReward ctx w d = Panic.
Proof.
  intros Hg Hem Hup Hcl Hrem Hlt Hfit Hdue. unfold DistributeReward, Gauge.
  rewrite Hg. cbn [mbind outcome_bind]. rewrite Hem. cbn [mbind outcome_bind]. rewrite Hup.
  cbn [mbind outcome_bind]. cbv zeta. rewrite Hrem, Hcl. cbn [mbind outcome_bind].
  rewrite (proj2 (Z.ltb_lt _ _) Hlt). unfold QuoRaw. rewrite Int_Quo_fits by done. cbn [mbind outcome_bind].
  assert (0 < Z.quot claimable RegulatedPeriod) as Hq.
  { change RegulatedPeriod with 604800 in *. rewrite Z.quot_div_nonneg by lia. apply Z.div_str_pos. lia. }
  rewrite (proj2 (Z.ltb_lt _ _) Hq). unfold Gauge_DepositReward, depositReward. simpl.
  by rewrite bool_decide_true.
Qed.

(** Fees that were claimed are never passed on: the bribe of a gauge is not
    set. *)
Theorem fees_are_not_deposited ctx g w claim w1 fee fees :
  claim w (EscrowPool g) = Ok (w1, fee :: fees) → ∀ w', DepositFees ctx g w claim ≠ Ok w'.
Proof.
  intros Hc w' Hrun. unfold DepositFees in Hrun. rewrite Hc in Hrun. cbn [mbind outcome_bind] in Hrun.
  by inv_ok_step Hrun.
Qed.

(** Rewards of different gauges share a key: the denominations are written one
    after the other. *)
Theorem reward_keys_collide :
  RewardKey (GaugeKey "uusd") "xatom" = RewardKey (GaugeKey "uusdx") "atom".
Proof. done. Qed.
End Behaviours.

Module GaugePropsWitness.
Import GaugeDemo.

Definition gauge_coin : Base := mkBase "ubusd" true.
Definition alice_btc (w : World) : Z := Amount (GetBalance (w_bank w) "alice" "ubtc").

(** What a user has claimed is not remembered: with a reward of a thousand per
    second and one user, four claims within 39 seconds pay more than the
    39000 that the pool gave in that time. *)
Theorem claims_pay_again :
  rw_Rate (GetReward gauge_coin g3 "ubtc") = 1000 ∧
  alice_btc (run (map claim_at [40]) g3) - alice_btc g3 = 38961 ∧
  alice_btc (run (map claim_at [10; 20; 30; 40]) g3) - alice_btc g3 = 66933.
Proof. split_and!; by vm_compute. Qed.

(** A claim panics for a user who deposited before the first reward: no
    reward checkpoint is older, and the amount of the empty one is nil. *)
Theorem claim_of_early_deposit_panics :
  is_panic (do_act (gctx 30) (act_gauge_claim "ubusd" 1)
    (run [(1, act_gauge_deposit "ubusd" 1 1000);
          (2, act_gauge_reward "ubusd" "alice" "ubtc" (604800 * 1000))] g1)) = true.
Proof. by vm_compute. Qed.

(** The weights of a poke are not corrected when they lost accuracy, and the
    vote that follows panics: thirds of the power, in the block of the vote. *)
Definition thirds : gmap string Dec :=
  let third := 333333333333333333 in
  list_to_map [("ubusd", third); ("ubtc", third); ("uusm", third + 1)].
Definition g_thirds : World :=
  let w := run [(0, act_create "uusm")] g1 in ok_or w (Vote (gctx 10) w 1 thirds).

Theorem poke_after_rounding_panics :
  0 < GetTotalVotesByUser g_thirds 1 ∧ is_panic (Poke (gctx 10) g_thirds 1) = true.
Proof. split; by vm_compute. Qed.

(** ** Witnesses *)

Definition stamps (e : Z) : Z := 10 * e.
Lemma prior_search_terminates_witness :
  find_prior 7 stamps 45 = 4 ∧ is_prior stamps 7 45 (find_prior 7 stamps 45).
Proof.
  split; [by vm_compute|]. apply (prior_search_terminates 7 stamps 45); [lia|].
  intros i j Hi Hj. unfold stamps. lia.
Defined.

(** Steps that return, in order of time. *)
Fixpoint steps_ok (l : list (Z * pool_act)) (w : World) (t : Z) : bool :=
  match l with
  | [] => true
  | (k, a) :: l =>
      (t <=? now_of (gctx k)) && is_ok (do_act (gctx k) a w) &&
      steps_ok l (ok_or w (do_act (gctx k) a w)) (now_of (gctx k))
  end.

Lemma run_log_run w0 l : ∀ L t,
  pool_run w0 L → (∀ tw, head L = Some tw → tw.1 ≤ t) → steps_ok l (current w0 L) t = true →
  pool_run w0 (run_log l (current w0 L) L).
Proof.
  induction l as [|[k x] l IH]; intros L t Hrun Ht Hok; cbn [steps_ok run_log] in *; [done|].
  apply andb_true_iff in Hok as [Hok Hl]. apply andb_true_iff in Hok as [Hk Ho]. apply Z.leb_le in Hk.
  set (w' := ok_or (current w0 L) (do_act (gctx k) x (current w0 L))) in *.
  apply (IH ((now_of (gctx k), w') :: L) (now_of (gctx k))).
  - apply run_act with x; [done| |by apply is_ok_or]. intros tw Htw. specialize (Ht _ Htw). lia.
  - intros tw [= <-]. simpl. lia.
  - done.
Qed.

(** Nothing but the gauges themselves is in the stores of [g1]. *)
Lemma g1_gauge :
  w_gauge g1 = gs_set_Gauges (list_to_map [("ubusd", "ubusd"); ("ubtc", "ubtc")]) gauge_store0.
Proof. by vm_compute. Qed.

Lemma g1_votes : vo_Votes (w_voter g1) = ∅ ∧ vo_TotalVotes (w_voter g1) = None ∧
  vo_TotalVotesByUser (w_voter g1) = ∅.
Proof. split_and!; by vm_compute. Qed.

Lemma g1_unused : unused g1.
Proof.
  intros b. unfold total_tickets, tickets, GetTotalDerivedAmount, GetTotalDepositedAmount,
    GetDerivedAmountByUser, GetDepositedAmountByUser, Base_GetEpoch, Base_GetCheckpoint,
    Base_GetUserEpoch, Base_GetUserCheckpoint. rewrite g1_gauge. by destruct (b_isGauge b).
Qed.

Definition log1 : list (Z * World) := run_log history1 g1 [].
Definition time (k : Z) : Z := now_of (gctx k).
Definition bribe_coin : Base := mkBase "ubusd" false.

(** Five seconds into the run alice had 530 in the bribe, which holds 600; she
    has withdrawn since. *)
Lemma checkpoints_answer_the_past_witness :
  (∃ e, findPriorEpoch bribe_coin (current g1 log1) 1 "" (time 5) = Ok e ∧
     default 0 (gp_Amount (Base_GetUserCheckpoint bribe_coin (current g1 log1) 1 e)) = 530) ∧
  (∃ e, findPriorEpoch bribe_coin (current g1 log1) EmptyVeID "" (time 5) = Ok e ∧
     default 0 (gp_Amount (Base_GetCheckpoint bribe_coin (current g1 log1) e)) = 600) ∧
  tickets bribe_coin (current g1 log1) 1 = 0.
Proof.
  destruct (checkpoints_answer_the_past g1 log1 bribe_coin 1 (time 5)) as [(e & He & Hu) (e' & He' & Hp)].
  - exact g1_unused.
  - apply (run_log_run g1 history1 [] 0); [constructor|done|by vm_compute].
  - by vm_compute.
  - done.
  - split; [exists e; split; [exact He|]|split; [exists e'; split; [exact He'|]|by vm_compute]].
    + rewrite Hu. by vm_compute.
    + rewrite Hp. by vm_compute.
Defined.

Lemma two_gauges w d :
  GetGauges w = ["ubtc"; "ubusd"] → HasGauge w d = true → d = "ubusd" ∨ d = "ubtc".
Proof.
  intros E Hd%GetGauges_HasGauge. rewrite E in Hd. apply elem_of_cons in Hd as [->|Hd]; [by right|].
  apply elem_of_cons in Hd as [->|Hd]; [by left|]. by apply elem_of_nil in Hd.
Qed.

Lemma g1_votes_ok : votes_ok ∅ g1.
Proof.
  destruct g1_votes as (Hv & Ht & Hu). split; [split|..].
  - intros d [->| ->]%two_gauges; by vm_compute.
  - intros v d Hk. by destruct Hk.
  - intros v d _ _. unfold GetPoolWeightedVotesByUser. by rewrite Hv.
  - intros d _. unfold GetPoolWeightedVotes. by rewrite Hv.
  - intros v d. unfold GetDepositedAmountByUser. by rewrite g1_gauge.
  - intros d. unfold GetTotalDepositedAmount. by rewrite g1_gauge.
  - unfold GetTotalVotes. by rewrite Ht.
  - intros v _. unfold GetTotalVotesByUser. by rewrite Hu.
Qed.

Lemma vote_g2 : Vote (gctx 10) g1 1 ballot1 = Ok g2.
Proof. apply (is_ok_or g1). by vm_compute. Qed.

Lemma votes_refine_witness :
  ∃ a, vote_spec (gctx 10) g1 ∅ (op_vote 1 ballot1) a ∧ votes_ok a g2.
Proof.
  apply (votes_refine (gctx 10) ∅ g1 (op_vote 1 ballot1) g2); [exact g1_votes_ok| |exact vote_g2].
  split; by vm_compute.
Defined.

(** Alice takes the votes of [g2] back. *)
Lemma abstain_returns_witness :
  ∃ w', Abstain (gctx 20) g2 1 = Ok w' ∧ GetTotalVotes w' = GetTotalVotes g2 - GetTotalVotesByUser g2 1.
Proof.
  assert (id_ok 1) as Hid by (split; by vm_compute).
  destruct (Vote_effect (gctx 10) ∅ g1 1 ballot1 g2 Hid g1_votes_ok vote_g2) as (p & _ & _ & Hok & _).
  destruct (abstain_returns (gctx 20) _ g2 1 Hid Hok) as (w' & Hrun & _ & _ & _ & Ht & _).
  - unfold int_fits. apply Z.ltb_lt. by vm_compute.
  - intros d [->| ->]%two_gauges; [..|by vm_compute];
      unfold accrual_fits, int_fits; cbv zeta; split_and!; apply Z.ltb_lt; by vm_compute.
  - exists w'. split; [exact Hrun|exact Ht].
Defined.
End GaugePropsWitness.
