(* ===== verification/SdkStaking.v ===== *)
(** The SDK's staking keeper as the staking extension uses it.

    The extension wraps [stakingkeeper.Keeper] of the Cosmos SDK: its records,
    queries, writes, queues and hooks are third-party code and are the fields of
    the class [SdkStaking].  Its state [sk_state] is the SDK's staking store
    together with what the registered hooks (distribution, slashing) keep; the
    operations that run hooks or move coins also change the bank.  What the
    extension relies on is stated in [SdkStakingLaws]. *)

From stdpp Require Import base gmap strings list fin_maps.
From Stdlib Require Import ZArith Lia.
From S2P Require Import Prelude Sdk SdkExt.

#[local] Open Scope Z_scope.

(** ** Records of [stakingtypes] *)

Inductive BondStatus := Unspecified | Unbonded | Unbonding | Bonded.

#[export] Instance BondStatus_eq_dec : EqDecision BondStatus.
Proof. solve_decision. Defined.

Record SValidator := mkSValidator {
  sv_OperatorAddress : string;
  sv_Jailed : bool;
  sv_Status : BondStatus;
  sv_Tokens : Z;
  sv_DelegatorShares : Dec;
  sv_MinSelfDelegation : Z;
}.

Definition sv_IsBonded (v : SValidator) : bool := bool_decide (sv_Status v = Bonded).
Definition sv_IsUnbonding (v : SValidator) : bool := bool_decide (sv_Status v = Unbonding).
Definition sv_IsUnbonded (v : SValidator) : bool := bool_decide (sv_Status v = Unbonded).

Record Delegation := mkDelegation {
  dl_DelegatorAddress : string;
  dl_ValidatorAddress : string;
  dl_Shares : Dec;
}.

Record UnbondingEntry := mkUnbondingEntry {
  ue_CreationHeight : Z;
  ue_CompletionTime : Z;
  ue_InitialBalance : Z;
  ue_Balance : Z;
}.

Record UnbondingDelegation := mkUnbondingDelegation {
  ud_DelegatorAddress : string;
  ud_ValidatorAddress : string;
  ud_Entries : list UnbondingEntry;
}.

Record RedelegationEntry := mkRedelegationEntry {
  re_CreationHeight : Z;
  re_CompletionTime : Z;
  re_InitialBalance : Z;
  re_SharesDst : Dec;
}.

Record Redelegation := mkRedelegation {
  rd_DelegatorAddress : string;
  rd_ValidatorSrcAddress : string;
  rd_ValidatorDstAddress : string;
  rd_Entries : list RedelegationEntry;
}.

(** [entry.IsMature(t)]: the completion time is not after [t]. *)
Definition ue_IsMature (e : UnbondingEntry) (t : Z) : bool := ue_CompletionTime e <=? t.
Definition re_IsMature (e : RedelegationEntry) (t : Z) : bool := re_CompletionTime e <=? t.

(** Times are in nanoseconds, as [BlockTimeNano]. *)
Class SdkStaking `{BankKeeper} := {
  sk_state : Type;
  (* methods of a validator *)
  sv_InvalidExRate : SValidator → bool;
  sv_GetOperator : SValidator → outcome Addr;
  sv_TokensFromShares : SValidator → Dec → outcome Dec;
  sv_String : SValidator → string;
  (* queries *)
  GetValidator : sk_state → Addr → option SValidator;
  GetValidatorByConsAddr : sk_state → Addr → option SValidator;
  GetDelegation : sk_state → Addr → Addr → option Delegation;
  GetUnbondingDelegation : sk_state → Addr → Addr → option UnbondingDelegation;
  GetRedelegation : sk_state → Addr → Addr → Addr → option Redelegation;
  GetUnbondingDelegationsFromValidator : sk_state → Addr → list UnbondingDelegation;
  GetRedelegationsFromSrcValidator : sk_state → Addr → list Redelegation;
  HasReceivingRedelegation : sk_state → Addr → Addr → bool;
  HasMaxRedelegationEntries : sk_state → Addr → Addr → Addr → bool;
  HasMaxUnbondingDelegationEntries : sk_state → Addr → Addr → bool;
  BondDenom : sk_state → string;
  UnbondingTime : sk_state → Z;
  (* completion time, height, complete now *)
  GetBeginInfo : Ctx → sk_state → Addr → outcome (Z * Z * bool);
  ValidateUnbondAmount : sk_state → Addr → Addr → Z → outcome Dec;
  TokensFromConsensusPower : sk_state → Z → outcome Z;
  (* writes *)
  SetDelegation : sk_state → Delegation → outcome sk_state;
  AddValidatorTokensAndShares : sk_state → SValidator → Z → outcome (sk_state * SValidator * Dec);
  RemoveValidatorTokensAndShares : sk_state → SValidator → Dec → outcome (sk_state * SValidator * Z);
  RemoveValidatorTokens : sk_state → SValidator → Z → outcome (sk_state * SValidator);
  JailValidator : Ctx → sk_state → SValidator → outcome sk_state;
  SetUnbondingDelegation : sk_state → UnbondingDelegation → outcome sk_state;
  RemoveUnbondingDelegation : sk_state → UnbondingDelegation → outcome sk_state;
  SetUnbondingDelegationEntry :
    sk_state → Addr → Addr → Z → Z → Z → outcome (sk_state * UnbondingDelegation);
  InsertUBDQueue : sk_state → UnbondingDelegation → Z → outcome sk_state;
  SetRedelegation : sk_state → Redelegation → outcome sk_state;
  RemoveRedelegation : sk_state → Redelegation → outcome sk_state;
  SetRedelegationEntry :
    sk_state → Addr → Addr → Addr → Z → Z → Z → Dec → Dec → outcome (sk_state * Redelegation);
  InsertRedelegationQueue : sk_state → Redelegation → Z → outcome sk_state;
  (* pairs of delegator and validator, as strings *)
  DequeueAllMatureUBDQueue : sk_state → Z → outcome (sk_state * list (string * string));
  DequeueAllMatureRedelegationQueue : sk_state → Z → outcome (sk_state * list (string * string * string));
  (* operations that run hooks *)
  BeforeDelegationSharesModified : Ctx → sk_state → bank_state → Addr → Addr → outcome (sk_state * bank_state);
  BeforeDelegationCreated : Ctx → sk_state → bank_state → Addr → Addr → outcome (sk_state * bank_state);
  AfterDelegationModified : Ctx → sk_state → bank_state → Addr → Addr → outcome (sk_state * bank_state);
  BeforeValidatorModified : Ctx → sk_state → bank_state → Addr → outcome (sk_state * bank_state);
  BeforeValidatorSlashed : Ctx → sk_state → bank_state → Addr → Dec → outcome (sk_state * bank_state);
  RemoveDelegation : Ctx → sk_state → bank_state → Delegation → outcome (sk_state * bank_state);
  RemoveValidator : Ctx → sk_state → bank_state → Addr → outcome (sk_state * bank_state);
  sk_Unbond : Ctx → sk_state → bank_state → Addr → Addr → Dec → outcome (sk_state * bank_state * Z);
  ApplyAndReturnValidatorSetUpdates : Ctx → sk_state → bank_state → outcome (sk_state * bank_state * list (Addr * Z));
  UnbondAllMatureValidators : Ctx → sk_state → bank_state → outcome (sk_state * bank_state);
  (* the pools; burning and moving between them panics on an error *)
  NotBondedTokensToBonded : sk_state → bank_state → Z → outcome bank_state;
  BondedTokensToNotBonded : sk_state → bank_state → Z → outcome bank_state;
  BurnBondedTokens : sk_state → bank_state → Z → outcome bank_state;
  BurnNotBondedTokens : sk_state → bank_state → Z → outcome bank_state;
  (* the bank's operations for delegations *)
  DelegateCoinsFromAccountToModule : bank_state → Addr → string → Coins → outcome bank_state;
  UndelegateCoinsFromModuleToAccount : bank_state → string → Addr → Coins → outcome bank_state;
  (* the genesis of the SDK's module *)
  sk_Genesis : Type;
  sk_InitGenesis : Ctx → sk_state → bank_state → sk_Genesis → outcome (sk_state * bank_state * list (Addr * Z));
}.

Definition BondedPoolName : string := "bonded_tokens_pool".
Definition NotBondedPoolName : string := "not_bonded_tokens_pool".

(** [for k, v := range m] over a [map[uint64]sdk.Int]: the entries once each,
    in an order the language leaves open. *)
Class MapOrderU64 := { range_u64 : gmap Z Z → list (Z * Z) }.

Class MapOrderU64Laws (O : MapOrderU64) : Prop := {
  range_u64_perm m : range_u64 m ≡ₚ map_to_list m;
}.

(** ** What the extension relies on *)

(** An operation that leaves the records of unbondings and redelegations
    alone. *)
Definition queue_frame `{SdkStaking} (s s' : sk_state) : Prop :=
  (∀ d v, GetUnbondingDelegation s' d v = GetUnbondingDelegation s d v) ∧
  (∀ d v v', GetRedelegation s' d v v' = GetRedelegation s d v v').

(** The records under one key are replaced, the others kept. *)
Definition ubd_updated `{SdkStaking} (s s' : sk_state) (d v : Addr) (o : option UnbondingDelegation) : Prop :=
  (∀ d' v', GetUnbondingDelegation s' d' v' =
     if decide ((d', v') = (d, v)) then o else GetUnbondingDelegation s d' v') ∧
  (∀ d' v1 v2, GetRedelegation s' d' v1 v2 = GetRedelegation s d' v1 v2).

Definition red_updated `{SdkStaking} (s s' : sk_state) (d v v' : Addr) (o : option Redelegation) : Prop :=
  (∀ d' v1, GetUnbondingDelegation s' d' v1 = GetUnbondingDelegation s d' v1) ∧
  (∀ d' v1 v2, GetRedelegation s' d' v1 v2 =
     if decide ((d', v1, v2) = (d, v, v')) then o else GetRedelegation s d' v1 v2).

Class SdkStakingLaws `{Sdk, SdkExt, BankKeeper, !SdkStaking} : Prop := {
  (* no shares are no tokens, and tokens of shares are not negative *)
  sv_TokensFromShares_zero v x : sv_TokensFromShares v 0 = Ok x → x = 0;
  sv_TokensFromShares_nonneg v s x :
    sv_TokensFromShares v s = Ok x → 0 ≤ s → 0 ≤ sv_Tokens v → 0 ≤ sv_DelegatorShares v → 0 ≤ x;
  GetValidator_nonneg s a v :
    GetValidator s a = Some v → 0 ≤ sv_Tokens v ∧ 0 ≤ sv_DelegatorShares v;
  (* the text of a validator is not the address of another one *)
  sv_String_other v a : ValAddressFromBech32 (sv_String v) = Ok a → sv_GetOperator v = Ok a;
  (* the operator is the decoded address of the record *)
  sv_GetOperator_Ok v a : sv_GetOperator v = Ok a → ValAddressFromBech32 (sv_OperatorAddress v) = Ok a;
  GetValidator_operator s a v : GetValidator s a = Some v → sv_GetOperator v = Ok a;
  (* jailing changes neither tokens nor shares *)
  JailValidator_Ok ctx s s' v v' a :
    JailValidator ctx s v = Ok s' → sv_GetOperator v = Ok a → GetValidator s a = Some v →
    GetValidator s' a = Some v' → ∀ x, sv_TokensFromShares v' x = sv_TokensFromShares v x;
  JailValidator_frame ctx s s' v : JailValidator ctx s v = Ok s' → queue_frame s s';
  (* records are stored under the addresses they carry *)
  GetUnbondingDelegation_key s d v u :
    GetUnbondingDelegation s d v = Some u →
    AccAddressFromBech32 (ud_DelegatorAddress u) = Ok d ∧ ValAddressFromBech32 (ud_ValidatorAddress u) = Ok v;
  GetRedelegation_key s d v v' r :
    GetRedelegation s d v v' = Some r →
    AccAddressFromBech32 (rd_DelegatorAddress r) = Ok d ∧
    ValAddressFromBech32 (rd_ValidatorSrcAddress r) = Ok v ∧
    ValAddressFromBech32 (rd_ValidatorDstAddress r) = Ok v';
  GetUnbondingDelegationsFromValidator_Ok s v u :
    u ∈ GetUnbondingDelegationsFromValidator s v →
    ∃ d, GetUnbondingDelegation s d v = Some u;
  GetRedelegationsFromSrcValidator_Ok s v r :
    r ∈ GetRedelegationsFromSrcValidator s v →
    ∃ d v', GetRedelegation s d v v' = Some r;
  SetDelegation_frame s s' x : SetDelegation s x = Ok s' → queue_frame s s';
  AddValidatorTokensAndShares_frame s s' v x v' n :
    AddValidatorTokensAndShares s v x = Ok (s', v', n) → queue_frame s s';
  (* tokens and issued shares are added to the given record, which is stored *)
  AddValidatorTokensAndShares_Ok s s' v x v' n :
    AddValidatorTokensAndShares s v x = Ok (s', v', n) →
    sv_Tokens v' = sv_Tokens v + x ∧ sv_DelegatorShares v' = sv_DelegatorShares v + n ∧
    sv_GetOperator v' = sv_GetOperator v ∧ ∀ a, sv_GetOperator v = Ok a → GetValidator s' a = Some v';
  AddValidatorTokensAndShares_nonneg s s' v x v' n :
    AddValidatorTokensAndShares s v x = Ok (s', v', n) →
    0 ≤ x → 0 ≤ sv_Tokens v → 0 ≤ sv_DelegatorShares v → 0 ≤ n;
  RemoveValidatorTokensAndShares_frame s s' v x v' n :
    RemoveValidatorTokensAndShares s v x = Ok (s', v', n) → queue_frame s s';
  RemoveValidatorTokens_frame s s' v x v' :
    RemoveValidatorTokens s v x = Ok (s', v') → queue_frame s s';
  SetUnbondingDelegation_Ok s s' u :
    SetUnbondingDelegation s u = Ok s' →
    ∃ d v, AccAddressFromBech32 (ud_DelegatorAddress u) = Ok d ∧
           ValAddressFromBech32 (ud_ValidatorAddress u) = Ok v ∧ ubd_updated s s' d v (Some u);
  RemoveUnbondingDelegation_Ok s s' u :
    RemoveUnbondingDelegation s u = Ok s' →
    ∃ d v, AccAddressFromBech32 (ud_DelegatorAddress u) = Ok d ∧
           ValAddressFromBech32 (ud_ValidatorAddress u) = Ok v ∧ ubd_updated s s' d v None;
  (* one entry is appended *)
  SetUnbondingDelegationEntry_Ok s s' d v h t x u :
    SetUnbondingDelegationEntry s d v h t x = Ok (s', u) →
    ud_Entries u = default [] (ud_Entries <$> GetUnbondingDelegation s d v) ++ [mkUnbondingEntry h t x x] ∧
    ubd_updated s s' d v (Some u);
  InsertUBDQueue_frame s s' u t : InsertUBDQueue s u t = Ok s' → queue_frame s s';
  SetRedelegation_Ok s s' r :
    SetRedelegation s r = Ok s' →
    ∃ d v v', AccAddressFromBech32 (rd_DelegatorAddress r) = Ok d ∧
      ValAddressFromBech32 (rd_ValidatorSrcAddress r) = Ok v ∧
      ValAddressFromBech32 (rd_ValidatorDstAddress r) = Ok v' ∧ red_updated s s' d v v' (Some r);
  RemoveRedelegation_Ok s s' r :
    RemoveRedelegation s r = Ok s' →
    ∃ d v v', AccAddressFromBech32 (rd_DelegatorAddress r) = Ok d ∧
      ValAddressFromBech32 (rd_ValidatorSrcAddress r) = Ok v ∧
      ValAddressFromBech32 (rd_ValidatorDstAddress r) = Ok v' ∧ red_updated s s' d v v' None;
  SetRedelegationEntry_Ok s s' d v v' h t x sa sd r :
    SetRedelegationEntry s d v v' h t x sa sd = Ok (s', r) →
    rd_Entries r = default [] (rd_Entries <$> GetRedelegation s d v v') ++ [mkRedelegationEntry h t x sd] ∧
    red_updated s s' d v v' (Some r);
  InsertRedelegationQueue_frame s s' r t : InsertRedelegationQueue s r t = Ok s' → queue_frame s s';
  DequeueAllMatureUBDQueue_frame s s' t l : DequeueAllMatureUBDQueue s t = Ok (s', l) → queue_frame s s';
  DequeueAllMatureRedelegationQueue_frame s s' t l :
    DequeueAllMatureRedelegationQueue s t = Ok (s', l) → queue_frame s s';
  BeforeDelegationSharesModified_frame ctx s b d v s' b' :
    BeforeDelegationSharesModified ctx s b d v = Ok (s', b') → queue_frame s s';
  BeforeDelegationCreated_frame ctx s b d v s' b' :
    BeforeDelegationCreated ctx s b d v = Ok (s', b') → queue_frame s s';
  AfterDelegationModified_frame ctx s b d v s' b' :
    AfterDelegationModified ctx s b d v = Ok (s', b') → queue_frame s s';
  BeforeValidatorModified_frame ctx s b v s' b' :
    BeforeValidatorModified ctx s b v = Ok (s', b') → queue_frame s s';
  BeforeValidatorSlashed_frame ctx s b v f s' b' :
    BeforeValidatorSlashed ctx s b v f = Ok (s', b') → queue_frame s s';
  RemoveDelegation_frame ctx s b x s' b' : RemoveDelegation ctx s b x = Ok (s', b') → queue_frame s s';
  RemoveValidator_frame ctx s b v s' b' : RemoveValidator ctx s b v = Ok (s', b') → queue_frame s s';
  sk_Unbond_frame ctx s b d v x s' b' n : sk_Unbond ctx s b d v x = Ok (s', b', n) → queue_frame s s';
  ApplyAndReturnValidatorSetUpdates_frame ctx s b s' b' l :
    ApplyAndReturnValidatorSetUpdates ctx s b = Ok (s', b', l) → queue_frame s s';
  UnbondAllMatureValidators_frame ctx s b s' b' :
    UnbondAllMatureValidators ctx s b = Ok (s', b') → queue_frame s s';
}.
