(* ===== verification/SdkStakingRef.v ===== *)
(** A concrete instance of [SdkStaking] that satisfies its laws: a staking
    keeper over finite maps, without hooks, that issues and removes shares at
    the validator's rate as the SDK documents.  The text of a validator is a
    parameter: the tests of the theorems use the operator's address, or a text
    that is no address. *)

From stdpp Require Import base gmap strings list fin_maps.
From Stdlib Require Import ZArith Lia.
From S2P Require Import Prelude Sdk SdkRef SdkExt SdkExtRef SdkStaking.

#[local] Open Scope Z_scope.

Module SdkStakingRef.
Import SdkRef SdkExtRef.

#[local] Instance outcome_string_eq_dec : EqDecision (outcome string).
Proof. solve_decision. Defined.

Record keeper := mkKeeper {
  k_vals : gmap string SValidator;
  k_cons : gmap string string;
  k_dels : gmap (string * string) Delegation;
  k_ubds : gmap (string * string) UnbondingDelegation;
  k_reds : gmap (string * string * string) Redelegation;
  k_ubdq : list (Z * (string * string));
  k_redq : list (Z * (string * string * string));
  k_denom : string;
  k_unbonding : Z;
}.

Definition k_set_vals m k := mkKeeper m (k_cons k) (k_dels k) (k_ubds k) (k_reds k) (k_ubdq k) (k_redq k) (k_denom k) (k_unbonding k).
Definition k_set_dels m k := mkKeeper (k_vals k) (k_cons k) m (k_ubds k) (k_reds k) (k_ubdq k) (k_redq k) (k_denom k) (k_unbonding k).
Definition k_set_ubds m k := mkKeeper (k_vals k) (k_cons k) (k_dels k) m (k_reds k) (k_ubdq k) (k_redq k) (k_denom k) (k_unbonding k).
Definition k_set_reds m k := mkKeeper (k_vals k) (k_cons k) (k_dels k) (k_ubds k) m (k_ubdq k) (k_redq k) (k_denom k) (k_unbonding k).
Definition k_set_ubdq q k := mkKeeper (k_vals k) (k_cons k) (k_dels k) (k_ubds k) (k_reds k) q (k_redq k) (k_denom k) (k_unbonding k).
Definition k_set_redq q k := mkKeeper (k_vals k) (k_cons k) (k_dels k) (k_ubds k) (k_reds k) (k_ubdq k) q (k_denom k) (k_unbonding k).

(** An address is any string but the empty one. *)
Definition addr (s : string) : outcome string := if decide (s = ""%string) then Panic else Ok s.

Lemma addr_Ok s a : addr s = Ok a → s = a ∧ a ≠ ""%string.
Proof. unfold addr. case_decide; [done|]. by intros [= <-]. Qed.

Definition tokens_of (v : SValidator) (x : Dec) : outcome Dec :=
  y ← Dec_MulInt x (sv_Tokens v); Dec_Quo y (sv_DelegatorShares v).

Definition shares_of (v : SValidator) (x : Z) : outcome Dec :=
  if sv_DelegatorShares v =? 0 then Ok (ToDec x) else
  y ← Dec_MulInt (sv_DelegatorShares v) x; Dec_QuoInt y (sv_Tokens v).

Definition with_stake (v : SValidator) (t : Z) (x : Dec) : SValidator :=
  mkSValidator (sv_OperatorAddress v) (sv_Jailed v) (sv_Status v) t x (sv_MinSelfDelegation v).

Definition put_val (k : keeper) (v : SValidator) : outcome keeper :=
  a ← addr (sv_OperatorAddress v); Ok (k_set_vals (<[a := v]> (k_vals k)) k).

(** Records that do not fit their key are not found. *)
Definition get_val (k : keeper) (a : string) : option SValidator :=
  match k_vals k !! a with
  | Some v => if decide (addr (sv_OperatorAddress v) = Ok a) then
                if (0 <=? sv_Tokens v) && (0 <=? sv_DelegatorShares v) then Some v else None
              else None
  | None => None
  end.

Definition get_ubd (k : keeper) (d v : string) : option UnbondingDelegation :=
  match k_ubds k !! (d, v) with
  | Some u => if decide (addr (ud_DelegatorAddress u) = Ok d ∧ addr (ud_ValidatorAddress u) = Ok v) then Some u else None
  | None => None
  end.

Definition get_red (k : keeper) (d v v' : string) : option Redelegation :=
  match k_reds k !! (d, v, v') with
  | Some r => if decide (addr (rd_DelegatorAddress r) = Ok d ∧ addr (rd_ValidatorSrcAddress r) = Ok v ∧
                         addr (rd_ValidatorDstAddress r) = Ok v') then Some r else None
  | None => None
  end.

Definition set_ubd (k : keeper) (u : UnbondingDelegation) : outcome keeper :=
  d ← addr (ud_DelegatorAddress u); v ← addr (ud_ValidatorAddress u);
  Ok (k_set_ubds (<[(d, v) := u]> (k_ubds k)) k).
Definition remove_ubd (k : keeper) (u : UnbondingDelegation) : outcome keeper :=
  d ← addr (ud_DelegatorAddress u); v ← addr (ud_ValidatorAddress u);
  Ok (k_set_ubds (delete (d, v) (k_ubds k)) k).
Definition set_red (k : keeper) (r : Redelegation) : outcome keeper :=
  d ← addr (rd_DelegatorAddress r); v ← addr (rd_ValidatorSrcAddress r); v' ← addr (rd_ValidatorDstAddress r);
  Ok (k_set_reds (<[(d, v, v') := r]> (k_reds k)) k).
Definition remove_red (k : keeper) (r : Redelegation) : outcome keeper :=
  d ← addr (rd_DelegatorAddress r); v ← addr (rd_ValidatorSrcAddress r); v' ← addr (rd_ValidatorDstAddress r);
  Ok (k_set_reds (delete (d, v, v') (k_reds k)) k).

Definition add_stake (k : keeper) (v : SValidator) (x : Z) : outcome (keeper * SValidator * Dec) :=
  n ← shares_of v x;
  let v' := with_stake v (sv_Tokens v + x) (sv_DelegatorShares v + n) in
  if (0 <=? sv_Tokens v') && (0 <=? sv_DelegatorShares v') then k ← put_val k v'; Ok (k, v', n) else Panic.

Definition remove_stake (k : keeper) (v : SValidator) (x : Dec) : outcome (keeper * SValidator * Z) :=
  let left := sv_DelegatorShares v - x in
  amt ← (if left =? 0 then Ok (sv_Tokens v) else t ← tokens_of v x; Dec_TruncateInt t);
  let v' := with_stake v (sv_Tokens v - amt) left in
  if sv_Tokens v' <? 0 then Panic else k ← put_val k v'; Ok (k, v', amt).

Definition pool_op (f : bank_state → Coins → outcome bank_state) (k : keeper) (b : bank_state) (x : Z) : outcome bank_state :=
  if x <=? 0 then Ok b else f b [mkCoin (k_denom k) x].

(** The SDK's own unbonding. *)
Definition base_unbond (k : keeper) (b : bank_state) (d v : string) (x : Dec) : outcome (keeper * bank_state * Z) :=
  match k_dels k !! (d, v), get_val k v with
  | Some dl, Some val =>
      if dl_Shares dl <? x then Err (ErrExt "staking/not enough delegation shares") else
      let left := dl_Shares dl - x in
      let k := k_set_dels (if left =? 0 then delete (d, v) (k_dels k)
                 else <[(d, v) := mkDelegation (dl_DelegatorAddress dl) (dl_ValidatorAddress dl) left]> (k_dels k)) k in
      '(k, _, amt) ← remove_stake k val x; Ok (k, b, amt)
  | _, _ => Err (ErrExt "staking/no delegation")
  end.

Definition from_validator (k : keeper) (v : string) : list UnbondingDelegation :=
  omap (fun e => if decide (e.1.2 = v) then get_ubd k e.1.1 v else None) (map_to_list (k_ubds k)).
Definition from_src (k : keeper) (v : string) : list Redelegation :=
  omap (fun e => if decide (e.1.1.2 = v) then get_red k e.1.1.1 v e.1.2 else None) (map_to_list (k_reds k)).

Section Instance.
Context (text : SValidator → string).

Definition staking_of : SdkStaking := {|
  sk_state := keeper;
  sv_InvalidExRate v := (sv_Tokens v =? 0) && (0 <? sv_DelegatorShares v);
  sv_GetOperator v := addr (sv_OperatorAddress v);
  sv_TokensFromShares := tokens_of;
  sv_String := text;
  GetValidator := get_val;
  GetValidatorByConsAddr k c := k_cons k !! c ≫= get_val k;
  GetDelegation k d v := k_dels k !! (d, v);
  GetUnbondingDelegation := get_ubd;
  GetRedelegation := get_red;
  GetUnbondingDelegationsFromValidator := from_validator;
  GetRedelegationsFromSrcValidator := from_src;
  HasReceivingRedelegation k d v :=
    existsb (fun e => bool_decide (e.1.1.1 = d) && bool_decide (e.1.2 = v)) (map_to_list (k_reds k));
  HasMaxRedelegationEntries k d v v' :=
    (7 <=? default 0 (Z.of_nat ∘ length ∘ rd_Entries <$> get_red k d v v'));
  HasMaxUnbondingDelegationEntries k d v :=
    (7 <=? default 0 (Z.of_nat ∘ length ∘ ud_Entries <$> get_ubd k d v));
  BondDenom := k_denom;
  UnbondingTime := k_unbonding;
  GetBeginInfo ctx k v :=
    match get_val k v with
    | Some val => Ok (BlockTimeNano ctx + k_unbonding k, BlockHeight ctx, sv_IsUnbonded val)
    | None => Ok (BlockTimeNano ctx + k_unbonding k, BlockHeight ctx, false)
    end;
  ValidateUnbondAmount k d v x :=
    match k_dels k !! (d, v), get_val k v with
    | Some dl, Some val => n ← shares_of val x; Ok (Z.min n (dl_Shares dl))
    | _, _ => Err (ErrExt "staking/no delegation")
    end;
  TokensFromConsensusPower _ p := Int_Mul p (10 ^ 6);
  SetDelegation k x :=
    d ← addr (dl_DelegatorAddress x); v ← addr (dl_ValidatorAddress x);
    Ok (k_set_dels (<[(d, v) := x]> (k_dels k)) k);
  AddValidatorTokensAndShares := add_stake;
  RemoveValidatorTokensAndShares := remove_stake;
  RemoveValidatorTokens k v x :=
    let v' := with_stake v (sv_Tokens v - x) (sv_DelegatorShares v) in
    if sv_Tokens v' <? 0 then Panic else k ← put_val k v'; Ok (k, v');
  JailValidator _ k v :=
    put_val k (mkSValidator (sv_OperatorAddress v) true (sv_Status v) (sv_Tokens v) (sv_DelegatorShares v) (sv_MinSelfDelegation v));
  SetUnbondingDelegation := set_ubd;
  RemoveUnbondingDelegation := remove_ubd;
  SetUnbondingDelegationEntry k d v h t x :=
    let u := default (mkUnbondingDelegation d v []) (get_ubd k d v) in
    let u := mkUnbondingDelegation (ud_DelegatorAddress u) (ud_ValidatorAddress u) (ud_Entries u ++ [mkUnbondingEntry h t x x]) in
    k ← set_ubd k u; Ok (k, u);
  InsertUBDQueue k u t := Ok (k_set_ubdq (k_ubdq k ++ [(t, (ud_DelegatorAddress u, ud_ValidatorAddress u))]) k);
  SetRedelegation := set_red;
  RemoveRedelegation := remove_red;
  SetRedelegationEntry k d v v' h t x _ n :=
    let r := default (mkRedelegation d v v' []) (get_red k d v v') in
    let r := mkRedelegation (rd_DelegatorAddress r) (rd_ValidatorSrcAddress r) (rd_ValidatorDstAddress r)
               (rd_Entries r ++ [mkRedelegationEntry h t x n]) in
    k ← set_red k r; Ok (k, r);
  InsertRedelegationQueue k r t :=
    Ok (k_set_redq (k_redq k ++ [(t, (rd_DelegatorAddress r, rd_ValidatorSrcAddress r, rd_ValidatorDstAddress r))]) k);
  DequeueAllMatureUBDQueue k t :=
    Ok (k_set_ubdq (filter (fun e => t < e.1) (k_ubdq k)) k, (filter (fun e => e.1 ≤ t) (k_ubdq k)).*2);
  DequeueAllMatureRedelegationQueue k t :=
    Ok (k_set_redq (filter (fun e => t < e.1) (k_redq k)) k, (filter (fun e => e.1 ≤ t) (k_redq k)).*2);
  BeforeDelegationSharesModified _ k b _ _ := Ok (k, b);
  BeforeDelegationCreated _ k b _ _ := Ok (k, b);
  AfterDelegationModified _ k b _ _ := Ok (k, b);
  BeforeValidatorModified _ k b _ := Ok (k, b);
  BeforeValidatorSlashed _ k b _ _ := Ok (k, b);
  RemoveDelegation _ k b x := Ok (k_set_dels (delete (dl_DelegatorAddress x, dl_ValidatorAddress x) (k_dels k)) k, b);
  RemoveValidator _ k b v := Ok (k_set_vals (delete v (k_vals k)) k, b);
  sk_Unbond _ := base_unbond;
  ApplyAndReturnValidatorSetUpdates _ k b := Ok (k, b, []);
  UnbondAllMatureValidators _ k b := Ok (k, b);
  NotBondedTokensToBonded := pool_op (fun b => SendCoinsFromModuleToModule b NotBondedPoolName BondedPoolName);
  BondedTokensToNotBonded := pool_op (fun b => SendCoinsFromModuleToModule b BondedPoolName NotBondedPoolName);
  BurnBondedTokens := pool_op (fun b => BurnCoins b BondedPoolName);
  BurnNotBondedTokens := pool_op (fun b => BurnCoins b NotBondedPoolName);
  DelegateCoinsFromAccountToModule := SendCoinsFromAccountToModule;
  UndelegateCoinsFromModuleToAccount := SendCoinsFromModuleToAccount;
  sk_Genesis := unit;
  sk_InitGenesis _ k b _ := Ok (k, b, []);
|}.
#[local] Existing Instance staking_of.

(** ** Laws *)

Lemma tokens_of_zero v x : tokens_of v 0 = Ok x → x = 0.
Proof.
  unfold tokens_of. intros E. apply bind_Ok in E as (y & E0 & E). apply Dec_MulInt_Ok in E0. apply Dec_Quo_Ok in E as [Hb E]. subst. nia.
Qed.

Lemma tokens_of_nonneg v s x :
  tokens_of v s = Ok x → 0 ≤ s → 0 ≤ sv_Tokens v → 0 ≤ sv_DelegatorShares v → 0 ≤ x.
Proof.
  unfold tokens_of. intros E Hs Ht Hd. apply bind_Ok in E as (y & E0 & E). apply Dec_MulInt_Ok in E0. subst.
  pose proof E as E'. apply Dec_Quo_Ok in E' as [Hb _]. apply Dec_Quo_nonneg in E; [done|nia|lia].
Qed.

Lemma get_val_Some k a v :
  get_val k a = Some v → k_vals k !! a = Some v ∧ addr (sv_OperatorAddress v) = Ok a ∧ 0 ≤ sv_Tokens v ∧ 0 ≤ sv_DelegatorShares v.
Proof.
  unfold get_val. destruct (k_vals k !! a); [|done]. case_decide; [|done].
  destruct (_ && _) eqn:E; [|done]. intros [= ->]. zbool. done.
Qed.

Lemma put_val_frame k v k' : put_val k v = Ok k' → queue_frame k k'.
Proof. unfold put_val. intros E. inv_ok E. by subst. Qed.

Lemma addr_same s a b : addr s = Ok a → addr s = Ok b → a = b.
Proof. congruence. Qed.

Lemma get_ubd_set k d v u d' v' :
  addr (ud_DelegatorAddress u) = Ok d → addr (ud_ValidatorAddress u) = Ok v →
  get_ubd (k_set_ubds (<[(d, v) := u]> (k_ubds k)) k) d' v' = if decide ((d', v') = (d, v)) then Some u else get_ubd k d' v'.
Proof.
  intros Hd Hv. unfold get_ubd. simpl. case_decide as E.
  - injection E as -> ->. rewrite lookup_insert_eq. by rewrite decide_True.
  - by rewrite lookup_insert_ne.
Qed.

Lemma get_red_set k d v v' r d1 v1 v2 :
  addr (rd_DelegatorAddress r) = Ok d → addr (rd_ValidatorSrcAddress r) = Ok v → addr (rd_ValidatorDstAddress r) = Ok v' →
  get_red (k_set_reds (<[(d, v, v') := r]> (k_reds k)) k) d1 v1 v2 = if decide ((d1, v1, v2) = (d, v, v')) then Some r else get_red k d1 v1 v2.
Proof.
  intros Hd Hv Hv'. unfold get_red. simpl. case_decide as E.
  - injection E as -> -> ->. rewrite lookup_insert_eq. by rewrite decide_True.
  - by rewrite lookup_insert_ne.
Qed.

Lemma get_ubd_key k d v u : get_ubd k d v = Some u → addr (ud_DelegatorAddress u) = Ok d ∧ addr (ud_ValidatorAddress u) = Ok v.
Proof. unfold get_ubd. destruct (_ !! _); [|done]. case_decide; [|done]. by intros [= <-]. Qed.

Lemma get_red_key k d v v' r :
  get_red k d v v' = Some r →
  addr (rd_DelegatorAddress r) = Ok d ∧ addr (rd_ValidatorSrcAddress r) = Ok v ∧ addr (rd_ValidatorDstAddress r) = Ok v'.
Proof. unfold get_red. destruct (_ !! _); [|done]. case_decide; [|done]. by intros [= <-]. Qed.

Lemma addr_bech s a : addr s = Ok a → AccAddressFromBech32 s = Ok a ∧ ValAddressFromBech32 s = Ok a.
Proof. unfold addr. cbn. by case_decide. Qed.
Lemma bech_addr s a : ValAddressFromBech32 s = Ok a → addr s = Ok a.
Proof. unfold addr. cbn. by case_decide. Qed.

Lemma shares_of_nonneg v x n :
  shares_of v x = Ok n → 0 ≤ x → 0 ≤ sv_Tokens v → 0 ≤ sv_DelegatorShares v → 0 ≤ n.
Proof.
  unfold shares_of. intros E Hx Ht Hs. destruct (_ =? _).
  - injection E as <-. unfold ToDec. pose proof precision_pos. nia.
  - apply bind_Ok in E as (y & E0 & E). apply Dec_MulInt_Ok in E0. apply Dec_QuoInt_Ok in E as [Hz ->]. subst. apply Z.quot_pos; nia.
Qed.

Lemma remove_stake_frame k v x k' v' n : remove_stake k v x = Ok (k', v', n) → queue_frame k k'.
Proof. unfold remove_stake. cbv zeta. intros E. apply bind_Ok in E as (a & _ & E). destruct (_ <? _); [discriminate|]. apply bind_Ok in E as (k1 & E1%put_val_frame & E). by injection E as <- <- <-. Qed.

Hypothesis text_ok : ∀ v a, ValAddressFromBech32 (text v) = Ok a → addr (sv_OperatorAddress v) = Ok a.

Lemma staking_laws : SdkStakingLaws.
Proof.
  constructor; cbn [sv_InvalidExRate sv_GetOperator sv_TokensFromShares sv_String GetValidator GetDelegation GetUnbondingDelegation GetRedelegation
    GetUnbondingDelegationsFromValidator GetRedelegationsFromSrcValidator SetDelegation AddValidatorTokensAndShares RemoveValidatorTokensAndShares
    RemoveValidatorTokens JailValidator SetUnbondingDelegation RemoveUnbondingDelegation SetUnbondingDelegationEntry InsertUBDQueue SetRedelegation
    RemoveRedelegation SetRedelegationEntry InsertRedelegationQueue DequeueAllMatureUBDQueue DequeueAllMatureRedelegationQueue
    BeforeDelegationSharesModified BeforeDelegationCreated AfterDelegationModified BeforeValidatorModified BeforeValidatorSlashed RemoveDelegation
    RemoveValidator sk_Unbond ApplyAndReturnValidatorSetUpdates UnbondAllMatureValidators staking_of sk_state];
    try (intros; simplify_eq; done).
  - apply tokens_of_zero.
  - apply tokens_of_nonneg.
  - intros s a v Hv. by apply get_val_Some in Hv as (_ & _ & ? & ?).
  - apply text_ok.
  - intros v a Ha. by apply addr_bech in Ha as [_ ?].
  - intros s a v Hv. by apply get_val_Some in Hv as (_ & ? & _).
  - intros ctx s s' v v' a E Ha Hv Hv' x. unfold put_val in E. cbn in E. rewrite Ha in E. injection E as <-.
    apply get_val_Some in Hv' as (Hv' & _). cbn in Hv'. rewrite lookup_insert_eq in Hv'. by injection Hv' as <-.
  - intros ctx s s' v E. by apply put_val_frame in E.
  - intros s d v u [K1 K2]%get_ubd_key. split; [by apply addr_bech in K1 as [? _]|by apply addr_bech in K2 as [_ ?]].
  - intros s d v v' r (K1 & K2 & K3)%get_red_key. split_and!; [by apply addr_bech in K1 as [? _]|by apply addr_bech in K2 as [_ ?]|by apply addr_bech in K3 as [_ ?]].
  - intros s v u (e & He & Hu)%list_elem_of_omap. case_decide; [|done]. by eexists.
  - intros s v r (e & He & Hr)%list_elem_of_omap. case_decide; [|done]. by do 2 eexists.
  - intros s s' x E. inv_ok E. by subst.
  - intros s s' v x v' n E. unfold add_stake in E. cbv zeta in E. apply bind_Ok in E as (m & _ & E). destruct (_ && _); [|discriminate].
    apply bind_Ok in E as (k1 & E1%put_val_frame & E). by injection E as <- <- <-.
  - intros s s' v x v' n E. unfold add_stake in E. cbv zeta in E. apply bind_Ok in E as (m & _ & E). destruct (_ && _) eqn:Eb; [|discriminate].
    apply bind_Ok in E as (k1 & E1 & E). injection E as <- <- <-. split_and!; try done.
    intros a Ha. unfold put_val in E1. cbn in E1. rewrite Ha in E1. injection E1 as <-. unfold get_val. cbn. rewrite lookup_insert_eq.
    cbn. rewrite decide_True by done. cbn in Eb. by rewrite Eb.
  - intros s s' v x v' n E Hx Ht Hs. unfold add_stake in E. cbv zeta in E. apply bind_Ok in E as (m & Em & E). destruct (_ && _); [|discriminate].
    apply bind_Ok in E as (k1 & _ & E). injection E as <- <- <-. by eapply shares_of_nonneg.
  - intros s s' v x v' n E. by eapply remove_stake_frame.
  - intros s s' v x v' E. cbv zeta in E. destruct (_ <? _); [discriminate|]. apply bind_Ok in E as (k1 & E1%put_val_frame & E). by injection E as <- <-.
  - intros s s' u E. unfold set_ubd in E. inv_ok E. subst. exists r, r0. split_and!; [by apply addr_bech in E0 as [? _]|by apply addr_bech in E1 as [_ ?]|].
    split; [|done]. intros. by apply get_ubd_set.
  - intros s s' u E. unfold remove_ubd in E. inv_ok E. subst. exists r, r0. split_and!; [by apply addr_bech in E0 as [? _]|by apply addr_bech in E1 as [_ ?]|].
    split; [|done]. intros d' v'. cbn. unfold get_ubd. cbn. case_decide as E; [injection E as -> ->; by rewrite lookup_delete_eq|by rewrite lookup_delete_ne].
  - intros s s' d v h t x u E. cbv zeta in E. apply bind_Ok in E as (k1 & E1 & E). injection E as <- <-.
    assert (addr (ud_DelegatorAddress (default (mkUnbondingDelegation d v []) (get_ubd s d v))) = Ok d ∨ get_ubd s d v = None) as Hd.
    { destruct (get_ubd s d v) eqn:Hu; [left|by right]. by apply get_ubd_key in Hu as [? _]. }
    unfold set_ubd in E1. cbn in E1. inv_ok E1. subst.
    assert (r = d ∧ r0 = v) as [-> ->].
    { destruct (get_ubd s d v) as [u|] eqn:Hu; cbn in *; [apply get_ubd_key in Hu as [? ?]; split; congruence|].
      apply addr_Ok in E, E0. naive_solver. }
    split; [by destruct (get_ubd s d v)|]. split; [|done]. intros. by apply get_ubd_set.
  - intros s s' r E. unfold set_red in E. inv_ok E. subst. exists r0, r1, r2. split_and!; [by apply addr_bech in E0 as [? _]|by apply addr_bech in E1 as [_ ?]|by apply addr_bech in E2 as [_ ?]|].
    split; [done|]. intros. by apply get_red_set.
  - intros s s' r E. unfold remove_red in E. inv_ok E. subst. exists r0, r1, r2. split_and!; [by apply addr_bech in E0 as [? _]|by apply addr_bech in E1 as [_ ?]|by apply addr_bech in E2 as [_ ?]|].
    split; [done|]. intros d' v1 v2. cbn. unfold get_red. cbn. case_decide as E; [injection E as -> -> ->; by rewrite lookup_delete_eq|by rewrite lookup_delete_ne].
  - intros s s' d v v' h t x sa sd r E. cbv zeta in E. apply bind_Ok in E as (k1 & E1 & E). injection E as <- <-.
    unfold set_red in E1. cbn in E1. inv_ok E1. subst.
    assert (r = d ∧ r0 = v ∧ r1 = v') as (-> & -> & ->).
    { destruct (get_red s d v v') as [u|] eqn:Hu; cbn in *; [apply get_red_key in Hu as (? & ? & ?); split_and!; congruence|].
      apply addr_Ok in E, E0, E2. naive_solver. }
    split; [by destruct (get_red s d v v')|]. split; [done|]. intros. by apply get_red_set.
  - intros ctx s b d v x s' b' n E. unfold base_unbond in E. destruct (_ !! _); [|discriminate]. destruct (get_val s v); [|discriminate].
    destruct (_ <? _); [discriminate|]. cbv zeta in E. apply bind_Ok in E as ([[k1 v1] a1] & E1%remove_stake_frame & E). injection E as <- <- <-. exact E1.
Qed.
End Instance.

(** Two orders of the entries of a map. *)
Definition range_up : MapOrderU64 := {| range_u64 m := map_to_list m |}.
Definition range_down : MapOrderU64 := {| range_u64 m := reverse (map_to_list m) |}.

Lemma range_up_laws : MapOrderU64Laws range_up.
Proof. by constructor. Qed.
Lemma range_down_laws : MapOrderU64Laws range_down.
Proof. constructor. intros m. apply reverse_Permutation. Qed.
End SdkStakingRef.
