(* ===== verification/StakingTypes.v ===== *)
(** The staking extension's data ([src/x/staking/types/]): delegations of
    locked balances, their unbondings and redelegations, the message and the
    store. *)

From stdpp Require Import base gmap strings list.
From Stdlib Require Import ZArith Lia.
From S2P Require Import Prelude Sdk SdkExt Types VeTypes.

#[local] Open Scope Z_scope.

(** ** Records ([staking.pb.go]) *)

Record VeValidator := mkVeValidator {
  vv_OperatorAddress : string;
  vv_VeDelegatorShares : Dec;
}.

Record VeShares := mkVeShares {
  sh_VeId : Z;
  sh_TokensMayUnsettled : Z;
  sh_Shares : Dec;
}.

Record VeDelegation := mkVeDelegation {
  vd_DelegatorAddress : string;
  vd_ValidatorAddress : string;
  vd_VeShares : list VeShares;
}.

Record VeUnbondingBalance := mkVeUnbondingBalance {
  ub_VeId : Z;
  ub_InitialBalance : Z;
  ub_Balance : Z;
}.

(** A [VeUnbondingDelegationEntry] holds its list of balances only. *)
Record VeUnbondingEntry := mkVeUnbondingEntry { vue_VeBalances : list VeUnbondingBalance }.

Record VeUnbondingDelegation := mkVeUnbondingDelegation {
  vu_DelegatorAddress : string;
  vu_ValidatorAddress : string;
  vu_Entries : list VeUnbondingEntry;
}.

Record VeRedelegationShares := mkVeRedelegationShares {
  rs_VeId : Z;
  rs_InitialBalance : Z;
  rs_SharesDst : Dec;
}.

Record VeRedelegationEntry := mkVeRedelegationEntry { vre_VeShares : list VeRedelegationShares }.

Record VeRedelegation := mkVeRedelegation {
  vr_DelegatorAddress : string;
  vr_ValidatorSrcAddress : string;
  vr_ValidatorDstAddress : string;
  vr_Entries : list VeRedelegationEntry;
}.

Record VeTokens := mkVeTokens { vt_VeId : Z; vt_Tokens : Z }.
Abbreviation VeTokensSlice := (list VeTokens).

(** ** The store ([keys.go])

    One map per key prefix; addresses are length-prefixed in the keys. *)
Record StakingStore := mkStakingStore {
  ss_VeValidators : gmap Addr VeValidator;
  ss_VeDelegations : gmap (Addr * Addr) VeDelegation;
  ss_VeUnbondingDelegations : gmap (Addr * Addr) VeUnbondingDelegation;
  ss_VeRedelegations : gmap (Addr * Addr * Addr) VeRedelegation;
  ss_VeTokens : gmap Z Z;
}.

Definition ss_set_VeValidators m (s : StakingStore) :=
  mkStakingStore m (ss_VeDelegations s) (ss_VeUnbondingDelegations s) (ss_VeRedelegations s) (ss_VeTokens s).
Definition ss_set_VeDelegations m (s : StakingStore) :=
  mkStakingStore (ss_VeValidators s) m (ss_VeUnbondingDelegations s) (ss_VeRedelegations s) (ss_VeTokens s).
Definition ss_set_VeUnbondingDelegations m (s : StakingStore) :=
  mkStakingStore (ss_VeValidators s) (ss_VeDelegations s) m (ss_VeRedelegations s) (ss_VeTokens s).
Definition ss_set_VeRedelegations m (s : StakingStore) :=
  mkStakingStore (ss_VeValidators s) (ss_VeDelegations s) (ss_VeUnbondingDelegations s) m (ss_VeTokens s).
Definition ss_set_VeTokens m (s : StakingStore) :=
  mkStakingStore (ss_VeValidators s) (ss_VeDelegations s) (ss_VeUnbondingDelegations s) (ss_VeRedelegations s) m.

Section StakingTypes.
Context `{!Sdk, !SdkExt}.

(** ** Methods ([delegation.go]) *)

Fixpoint find_shares (l : list VeShares) (veID : Z) : option VeShares :=
  match l with
  | [] => None
  | s :: l => if sh_VeId s =? veID then Some s else find_shares l veID
  end.

(** The shares of a ve, or empty ones; the flag tells whether they exist. *)
Definition GetSharesByVeID (m : VeDelegation) (veID : Z) : VeShares * bool :=
  match find_shares (vd_VeShares m) veID with
  | Some s => (s, true)
  | None => (mkVeShares veID 0 ZeroDec, false)
  end.

Fixpoint put_shares (l : list VeShares) (s : VeShares) : list VeShares :=
  match l with
  | [] => [s]
  | s' :: l => if sh_VeId s' =? sh_VeId s then s :: l else s' :: put_shares l s
  end.

Definition vd_set_VeShares (l : list VeShares) (m : VeDelegation) : VeDelegation :=
  mkVeDelegation (vd_DelegatorAddress m) (vd_ValidatorAddress m) l.

Definition SetSharesByVeID (m : VeDelegation) (s : VeShares) : VeDelegation :=
  vd_set_VeShares (put_shares (vd_VeShares m) s) m.

(** [append(l[:i], l[i+1:]...)] *)
Definition RemoveSharesByIndex (m : VeDelegation) (i : nat) : VeDelegation :=
  vd_set_VeShares (take i (vd_VeShares m) ++ drop (S i) (vd_VeShares m)) m.

Definition VeDelegation_Shares (m : VeDelegation) : outcome Dec :=
  for_each (fun total s => Dec_Add total (sh_Shares s)) (vd_VeShares m) ZeroDec.

Definition VeShares_Tokens (s : VeShares) : Z := sh_TokensMayUnsettled s.

Definition VeDelegation_Tokens (m : VeDelegation) : outcome Z :=
  for_each (fun total s => Int_Add total (VeShares_Tokens s)) (vd_VeShares m) 0.

Definition AddTokensAndShares (s : VeShares) (tokens : Z) (shares : Dec) : outcome VeShares :=
  t ← Int_Add (sh_TokensMayUnsettled s) tokens;
  x ← Dec_Add (sh_Shares s) shares;
  Ok (mkVeShares (sh_VeId s) t x).

Definition NewVeUnbondingDelegation (delegatorAddr validatorAddr : Addr) : VeUnbondingDelegation :=
  mkVeUnbondingDelegation (AccAddress_String delegatorAddr) (ValAddress_String validatorAddr) [].

Definition vu_set_Entries (l : list VeUnbondingEntry) (u : VeUnbondingDelegation) : VeUnbondingDelegation :=
  mkVeUnbondingDelegation (vu_DelegatorAddress u) (vu_ValidatorAddress u) l.

Definition VeUnbondingDelegation_AddEntry (ubd : VeUnbondingDelegation) (veTokens : VeTokensSlice) :
    VeUnbondingDelegation :=
  vu_set_Entries
    (vu_Entries ubd ++
       [mkVeUnbondingEntry
          ((fun vt => mkVeUnbondingBalance (vt_VeId vt) (vt_Tokens vt) (vt_Tokens vt)) <$> veTokens)]) ubd.

Definition VeUnbondingEntry_Balance (e : VeUnbondingEntry) : outcome Z :=
  for_each (fun total b => Int_Add total (ub_Balance b)) (vue_VeBalances e) 0.

(** [if amt, ok := m[id]; ok { m[id] = amt.Add(x) } else { m[id] = x }] *)
Definition map_add (m : gmap Z Z) (id x : Z) : outcome (gmap Z Z) :=
  match m !! id with
  | Some amt => s ← Int_Add amt x; Ok (<[id := s]> m)
  | None => Ok (<[id := x]> m)
  end.

(** The loop of [entry.Slash] works on a copy [b] of each balance: the new
    balance is computed and dropped, the entry keeps its balances.  Returns the
    slashed amount and the map of burned amounts. *)
Definition slash_balance (totalSlashAmt totalBalance : Z) (acc : Z * gmap Z Z) (b : VeUnbondingBalance) :
    outcome (Z * gmap Z Z) :=
  let '(totalVeSlashAmt, veBurnedAmounts) := acc in
  x ← Int_Mul totalSlashAmt (ub_Balance b);
  veSlash ← Int_Quo x totalBalance;
  _ ← Int_Sub (ub_Balance b) veSlash;
  totalVeSlashAmt ← Int_Add totalVeSlashAmt veSlash;
  veBurnedAmounts ← map_add veBurnedAmounts (ub_VeId b) veSlash;
  Ok (totalVeSlashAmt, veBurnedAmounts).

Definition VeUnbondingEntry_Slash (e : VeUnbondingEntry) (totalSlashAmt totalBalance : Z)
    (veBurnedAmounts : gmap Z Z) : outcome (Z * gmap Z Z) :=
  for_each (slash_balance totalSlashAmt totalBalance) (vue_VeBalances e) (0, veBurnedAmounts).

Definition NewVeRedelegation (delAddr valSrcAddr valDstAddr : Addr) : VeRedelegation :=
  mkVeRedelegation (AccAddress_String delAddr) (ValAddress_String valSrcAddr)
    (ValAddress_String valDstAddr) [].

Definition vr_set_Entries (l : list VeRedelegationEntry) (r : VeRedelegation) : VeRedelegation :=
  mkVeRedelegation (vr_DelegatorAddress r) (vr_ValidatorSrcAddress r) (vr_ValidatorDstAddress r) l.

Definition redelegation_share (totalAmt : Z) (totalShares : Dec) (vt : VeTokens) :
    outcome VeRedelegationShares :=
  x ← Dec_MulInt totalShares (vt_Tokens vt);
  x ← Dec_QuoInt x totalAmt;
  Ok (mkVeRedelegationShares (vt_VeId vt) (vt_Tokens vt) x).

Definition VeRedelegation_AddEntry (red : VeRedelegation) (veTokens : VeTokensSlice) (totalAmt : Z)
    (totalShares : Dec) : outcome VeRedelegation :=
  veShares ← for_each (fun l vt => s ← redelegation_share totalAmt totalShares vt; Ok (l ++ [s])) veTokens [];
  Ok (vr_set_Entries (vr_Entries red ++ [mkVeRedelegationEntry veShares]) red).

Definition VeRedelegationEntry_InitialBalance (e : VeRedelegationEntry) : outcome Z :=
  for_each (fun total b => Int_Add total (rs_InitialBalance b)) (vre_VeShares e) 0.

Definition VeTokensSlice_Tokens (s : VeTokensSlice) : outcome Z :=
  for_each (fun total vt => Int_Add total (vt_Tokens vt)) s 0.

Definition VeTokensSlice_AddToMap (s : VeTokensSlice) (veAmounts : gmap Z Z) : outcome (gmap Z Z) :=
  for_each (fun m vt => map_add m (vt_VeId vt) (vt_Tokens vt)) s veAmounts.

(** [ubd.RemoveEntry(i)], [red.RemoveEntry(i)]: [append(l[:i], l[i+1:]...)]. *)
Definition VeUnbondingDelegation_RemoveEntry (u : VeUnbondingDelegation) (i : nat) : VeUnbondingDelegation :=
  vu_set_Entries (take i (vu_Entries u) ++ drop (S i) (vu_Entries u)) u.
Definition VeRedelegation_RemoveEntry (r : VeRedelegation) (i : nat) : VeRedelegation :=
  vr_set_Entries (take i (vr_Entries r) ++ drop (S i) (vr_Entries r)) r.

(** ** The message ([msgs.go]) *)

Record MsgVeDelegate := mkMsgVeDelegate {
  mvd_DelegatorAddress : string;
  mvd_ValidatorAddress : string;
  mvd_VeId : string;
  mvd_Amount : Coin;
}.

Definition ErrEmptyDelegatorAddr := ErrExt "staking/empty delegator address".
Definition ErrEmptyValidatorAddr := ErrExt "staking/empty validator address".

(** [Coin.IsValid]: a valid denomination and no negative amount. *)
Definition Coin_IsValid (c : Coin) : bool := ValidDenom (Denom c) && (0 <=? Amount c).

Definition MsgVeDelegate_ValidateBasic (m : MsgVeDelegate) : outcome unit :=
  fail_if bool_decide (mvd_DelegatorAddress m = ""%string) with ErrEmptyDelegatorAddr ;;
  fail_if bool_decide (mvd_ValidatorAddress m = ""%string) with ErrEmptyValidatorAddr ;;
  fail_if Uint64FromVeID (mvd_VeId m) =? EmptyVeID with ErrInvalidRequest ;;
  fail_if negb (Coin_IsValid (mvd_Amount m)) || negb (0 <? Amount (mvd_Amount m)) with ErrInvalidRequest ;;
  Ok tt.

Definition MsgVeDelegate_GetSigners (m : MsgVeDelegate) : outcome (list Addr) :=
  match AccAddressFromBech32 (mvd_DelegatorAddress m) with Ok a => Ok [a] | _ => Panic end.
End StakingTypes.
