(* ===== verification/Staking.v ===== *)
(** The staking extension's keeper ([src/x/staking/keeper/delegation.go]):
    delegation of locked balances, redelegation, undelegation, unbonding and
    the completion of both.

    The extension runs on a [SChain]: the world of the other modules, the SDK's
    staking keeper and the extension's own store.  Where the source panics on an
    error of a call, [must] turns the error into a panic. *)

From stdpp Require Import base gmap strings list.
From Stdlib Require Import ZArith Lia.
From S2P Require Import Prelude Sdk SdkExt Types VeTypes World VeKeeper VeMsg SdkStaking StakingTypes.

#[local] Open Scope Z_scope.

Record SChain `{!BankKeeper, !NftKeeper, !SdkStaking} := mkSChain {
  sc_w : World;
  sc_k : sk_state;
  sc_s : StakingStore;
}.

(** [if err != nil { panic(err) }] *)
Definition must {A} (m : outcome A) : outcome A :=
  match m with Ok a => Ok a | _ => Panic end.

Definition ErrDelegatorShareExRateInvalid := ErrExt "staking/cannot delegate to validators with invalid (zero) ex-rate".
Definition ErrSelfRedelegation := ErrExt "staking/cannot redelegate to the same validator".
Definition ErrBadRedelegationDst := ErrExt "staking/redelegation destination validator not found".
Definition ErrTransitiveRedelegation := ErrExt "staking/redelegation to this validator already in progress".
Definition ErrMaxRedelegationEntries := ErrExt "staking/too many redelegation entries".
Definition ErrTinyRedelegationAmount := ErrExt "staking/too few tokens to redelegate".
Definition ErrNoDelegatorForAddress := ErrExt "staking/delegator does not contain delegation".
Definition ErrMaxUnbondingDelegationEntries := ErrExt "staking/too many unbonding delegation entries".
Definition ErrNotEnoughDelegationShares := ErrExt "staking/not enough delegation shares".
Definition ErrNoValidatorFound := ErrExt "staking/validator does not exist".
Definition ErrNoUnbondingDelegation := ErrExt "staking/no unbonding delegation found".
Definition ErrNoRedelegation := ErrExt "staking/no redelegation found".

Section Staking.
Context `{!Sdk, !SdkExt, !BankKeeper, !NftKeeper, !SdkStaking}.
Implicit Types (sc : SChain) (ctx : Ctx).

Definition set_w (w : World) sc : SChain := mkSChain _ _ _ w (sc_k sc) (sc_s sc).
Definition set_k (k : sk_state) sc : SChain := mkSChain _ _ _ (sc_w sc) k (sc_s sc).
Definition set_s (s : StakingStore) sc : SChain := mkSChain _ _ _ (sc_w sc) (sc_k sc) s.

Definition on_s (f : StakingStore → StakingStore) sc : SChain := set_s (f (sc_s sc)) sc.
Definition on_w (f : World → outcome World) sc : outcome SChain := w ← f (sc_w sc); Ok (set_w w sc).
Definition on_k (f : sk_state → outcome sk_state) sc : outcome SChain := k ← f (sc_k sc); Ok (set_k k sc).
(** An operation of the SDK's keeper that also changes the bank. *)
Definition on_kb (f : sk_state → bank_state → outcome (sk_state * bank_state)) sc : outcome SChain :=
  '(k, b) ← f (sc_k sc) (w_bank (sc_w sc)); Ok (set_k k (set_w (set_bank b (sc_w sc)) sc)).
Definition on_b (f : bank_state → outcome bank_state) sc : outcome SChain :=
  on_w (on_bank f) sc.

(** ** Store access *)

Definition GetVeValidator sc (addr : Addr) : option VeValidator := ss_VeValidators (sc_s sc) !! addr.
Definition SetVeValidator sc (v : VeValidator) : outcome SChain :=
  valAddr ← must (ValAddressFromBech32 (vv_OperatorAddress v));
  Ok (on_s (fun s => ss_set_VeValidators (<[valAddr := v]> (ss_VeValidators s)) s) sc).
Definition RemoveVeValidator sc (addr : Addr) : SChain :=
  on_s (fun s => ss_set_VeValidators (delete addr (ss_VeValidators s)) s) sc.

Definition GetVeDelegation sc (delAddr valAddr : Addr) : option VeDelegation :=
  ss_VeDelegations (sc_s sc) !! (delAddr, valAddr).
Definition SetVeDelegation sc (d : VeDelegation) : outcome SChain :=
  delAddr ← must (AccAddressFromBech32 (vd_DelegatorAddress d));
  valAddr ← must (ValAddressFromBech32 (vd_ValidatorAddress d));
  Ok (on_s (fun s => ss_set_VeDelegations (<[(delAddr, valAddr) := d]> (ss_VeDelegations s)) s) sc).
Definition RemoveVeDelegation sc (d : VeDelegation) : outcome SChain :=
  delAddr ← must (AccAddressFromBech32 (vd_DelegatorAddress d));
  valAddr ← must (ValAddressFromBech32 (vd_ValidatorAddress d));
  Ok (on_s (fun s => ss_set_VeDelegations (delete (delAddr, valAddr) (ss_VeDelegations s)) s) sc).

Definition SetVeDelegatedAmount sc (veID amount : Z) : SChain :=
  on_s (fun s => ss_set_VeTokens (<[veID := amount]> (ss_VeTokens s)) s) sc.
Definition GetVeDelegatedAmount sc (veID : Z) : Z := default 0 (ss_VeTokens (sc_s sc) !! veID).
Definition RemoveVeDelegatedAmount sc (veID : Z) : SChain :=
  on_s (fun s => ss_set_VeTokens (delete veID (ss_VeTokens s)) s) sc.

(** [if amt.IsZero() { Remove } else { Set }] *)
Definition PutVeDelegatedAmount sc (veID amount : Z) : SChain :=
  if amount =? 0 then RemoveVeDelegatedAmount sc veID else SetVeDelegatedAmount sc veID amount.

Definition SubVeDelegatedAmount sc (veID subAmount : Z) : outcome SChain :=
  amt ← Int_Sub (GetVeDelegatedAmount sc veID) subAmount;
  Ok (PutVeDelegatedAmount sc veID amt).

Definition SlashVeDelegatedAmount ctx sc (veID burnAmount : Z) : outcome SChain :=
  if negb (0 <? burnAmount) then Ok sc else
  sc ← SubVeDelegatedAmount sc veID burnAmount;
  on_w (fun w => SlashLockedAmountByUser ctx w veID burnAmount) sc.

(** The loop of [SettleVeDelegation] over the shares: each gets the tokens it
    is worth now, and what it lost is slashed. *)
Fixpoint settle_shares ctx sc (validator : SValidator) (l : list VeShares) :
    outcome (list VeShares * SChain) :=
  match l with
  | [] => Ok ([], sc)
  | s :: l =>
      t ← sv_TokensFromShares validator (sh_Shares s);
      tokens ← Dec_TruncateInt t;
      burnAmount ← Int_Sub (sh_TokensMayUnsettled s) tokens;
      sc ← SlashVeDelegatedAmount ctx sc (sh_VeId s) burnAmount;
      '(l, sc) ← settle_shares ctx sc validator l;
      Ok (mkVeShares (sh_VeId s) tokens (sh_Shares s) :: l, sc)
  end.

Definition SettleVeDelegation ctx sc (delegation : VeDelegation) (validator : SValidator) :
    outcome (VeDelegation * SChain) :=
  '(l, sc) ← settle_shares ctx sc validator (vd_VeShares delegation);
  let delegation := vd_set_VeShares l delegation in
  shares ← VeDelegation_Shares delegation;
  sc ← (if shares =? 0 then RemoveVeDelegation sc delegation else SetVeDelegation sc delegation);
  Ok (delegation, sc).

Definition GetVeUnbondingDelegation sc (delAddr valAddr : Addr) : option VeUnbondingDelegation :=
  ss_VeUnbondingDelegations (sc_s sc) !! (delAddr, valAddr).
Definition SetVeUnbondingDelegation sc (u : VeUnbondingDelegation) : outcome SChain :=
  delAddr ← must (AccAddressFromBech32 (vu_DelegatorAddress u));
  valAddr ← must (ValAddressFromBech32 (vu_ValidatorAddress u));
  Ok (on_s (fun s => ss_set_VeUnbondingDelegations
    (<[(delAddr, valAddr) := u]> (ss_VeUnbondingDelegations s)) s) sc).
Definition RemoveVeUnbondingDelegation sc (u : VeUnbondingDelegation) : outcome SChain :=
  delAddr ← must (AccAddressFromBech32 (vu_DelegatorAddress u));
  valAddr ← must (ValAddressFromBech32 (vu_ValidatorAddress u));
  Ok (on_s (fun s => ss_set_VeUnbondingDelegations
    (delete (delAddr, valAddr) (ss_VeUnbondingDelegations s)) s) sc).

Definition SetVeUnbondingDelegationEntry sc (delegatorAddr validatorAddr : Addr) (veTokens : VeTokensSlice) :
    outcome (VeUnbondingDelegation * SChain) :=
  let ubd := default (NewVeUnbondingDelegation delegatorAddr validatorAddr)
               (GetVeUnbondingDelegation sc delegatorAddr validatorAddr) in
  let ubd := VeUnbondingDelegation_AddEntry ubd veTokens in
  sc ← SetVeUnbondingDelegation sc ubd;
  Ok (ubd, sc).

Definition GetVeRedelegation sc (delAddr valSrcAddr valDstAddr : Addr) : option VeRedelegation :=
  ss_VeRedelegations (sc_s sc) !! (delAddr, valSrcAddr, valDstAddr).
Definition SetVeRedelegation sc (r : VeRedelegation) : outcome SChain :=
  delAddr ← must (AccAddressFromBech32 (vr_DelegatorAddress r));
  valSrcAddr ← must (ValAddressFromBech32 (vr_ValidatorSrcAddress r));
  valDstAddr ← must (ValAddressFromBech32 (vr_ValidatorDstAddress r));
  Ok (on_s (fun s => ss_set_VeRedelegations
    (<[(delAddr, valSrcAddr, valDstAddr) := r]> (ss_VeRedelegations s)) s) sc).
Definition RemoveVeRedelegation sc (r : VeRedelegation) : outcome SChain :=
  delAddr ← must (AccAddressFromBech32 (vr_DelegatorAddress r));
  valSrcAddr ← must (ValAddressFromBech32 (vr_ValidatorSrcAddress r));
  valDstAddr ← must (ValAddressFromBech32 (vr_ValidatorDstAddress r));
  Ok (on_s (fun s => ss_set_VeRedelegations
    (delete (delAddr, valSrcAddr, valDstAddr) (ss_VeRedelegations s)) s) sc).

Definition SetVeRedelegationEntry sc (delegatorAddr valSrcAddr valDstAddr : Addr) (totalAmount : Z)
    (veTokens : VeTokensSlice) (totalShares : Dec) : outcome (VeRedelegation * SChain) :=
  let red := default (NewVeRedelegation delegatorAddr valSrcAddr valDstAddr)
               (GetVeRedelegation sc delegatorAddr valSrcAddr valDstAddr) in
  red ← VeRedelegation_AddEntry red veTokens totalAmount totalShares;
  sc ← SetVeRedelegation sc red;
  Ok (red, sc).

(** ** Delegation *)

Definition add_shares (x : Dec) (d : Delegation) : outcome Delegation :=
  s ← Dec_Add (dl_Shares d) x;
  Ok (mkDelegation (dl_DelegatorAddress d) (dl_ValidatorAddress d) s).

(** The coins of the part of a delegation that is not locked. *)
Definition delegate_coins sc (delAddr : Addr) (amt : Z) (tokenSrc : BondStatus) (validator : SValidator)
    (subtractAccount : bool) : outcome SChain :=
  if subtractAccount then
    if decide (tokenSrc = Bonded) then Panic else
    sendName ← (match sv_Status validator with
                | Bonded => Ok BondedPoolName
                | Unbonding | Unbonded => Ok NotBondedPoolName
                | Unspecified => Panic
                end);
    coin ← NewCoin (BondDenom (sc_k sc)) amt;
    coins ← NewCoins [coin];
    on_b (fun b => DelegateCoinsFromAccountToModule b delAddr sendName coins) sc
  else
    match tokenSrc, sv_IsBonded validator with
    | Bonded, true => Ok sc
    | (Unbonded | Unbonding), false => Ok sc
    | (Unbonded | Unbonding), true => on_b (fun b => NotBondedTokensToBonded (sc_k sc) b amt) sc
    | Bonded, false => on_b (fun b => BondedTokensToNotBonded (sc_k sc) b amt) sc
    | Unspecified, _ => Panic
    end.

(** The state of the loop over the locked parts: the chain, both delegations
    and the shares created so far. *)
Definition delegate_ve ctx (validator : SValidator) (acc : SChain * Delegation * VeDelegation * Dec)
    (vt : VeTokens) : outcome (SChain * Delegation * VeDelegation * Dec) :=
  let '(sc, delegation, veDelegation, totalNewShares) := acc in
  let veID := vt_VeId vt in
  let veBondAmt := vt_Tokens vt in
  if veID =? EmptyVeID then Panic else
  let locked := GetLockedAmountByUser (sc_w sc) veID in
  fail_if lb_End locked <=? now_of ctx with ErrInvalidRequest ;;
  let veShares := (GetSharesByVeID veDelegation veID).1 in
  veDelegatedAmt ← Int_Add (GetVeDelegatedAmount sc veID) veBondAmt;
  fail_if lb_Amount locked <? veDelegatedAmt with ErrInvalidRequest ;;
  let sc := SetVeDelegatedAmount sc veID veDelegatedAmt in
  '(k, _, newShares) ← AddValidatorTokensAndShares (sc_k sc) validator veBondAmt;
  let sc := set_k k sc in
  delegation ← add_shares newShares delegation;
  sc ← on_k (fun k => SetDelegation k delegation) sc;
  veShares ← AddTokensAndShares veShares veBondAmt newShares;
  let veDelegation := SetSharesByVeID veDelegation veShares in
  sc ← SetVeDelegation sc veDelegation;
  totalNewShares ← Dec_Add totalNewShares newShares;
  Ok (sc, delegation, veDelegation, totalNewShares).

(** The part that is not locked, when there is one. *)
Definition delegate_unconstrained sc (delAddr : Addr) (amt : Z) (tokenSrc : BondStatus)
    (validator : SValidator) (subtractAccount : bool) (delegation : Delegation) :
    outcome (SChain * Delegation * Dec) :=
  if 0 <? amt then
    sc ← delegate_coins sc delAddr amt tokenSrc validator subtractAccount;
    '(k, _, newShares) ← AddValidatorTokensAndShares (sc_k sc) validator amt;
    let sc := set_k k sc in
    delegation ← add_shares newShares delegation;
    sc ← on_k (fun k => SetDelegation k delegation) sc;
    total ← Dec_Add ZeroDec newShares;
    Ok (sc, delegation, total)
  else Ok (sc, delegation, ZeroDec).

(** All new shares are added to the validator's ve shares, those of the part
    that is not locked too. *)
Definition add_ve_validator sc (validator : SValidator) (valAddr : Addr) (totalNewShares : Dec) :
    outcome SChain :=
  if 0 <? totalNewShares then
    let v := default (mkVeValidator (sv_OperatorAddress validator) ZeroDec) (GetVeValidator sc valAddr) in
    x ← Dec_Add (vv_VeDelegatorShares v) totalNewShares;
    SetVeValidator sc (mkVeValidator (vv_OperatorAddress v) x)
  else Ok sc.

Definition VeDelegate ctx sc (delAddr : Addr) (bondAmt : Z) (veTokens : VeTokensSlice)
    (tokenSrc : BondStatus) (validator : SValidator) (subtractAccount : bool) : outcome (SChain * Dec) :=
  fail_if sv_InvalidExRate validator with ErrDelegatorShareExRateInvalid ;;
  valAddr ← sv_GetOperator validator;
  let found := GetDelegation (sc_k sc) delAddr valAddr in
  let delegation :=
    default (mkDelegation (AccAddress_String delAddr) (ValAddress_String valAddr) ZeroDec) found in
  '(veDelegation, sc) ←
    match GetVeDelegation sc delAddr valAddr with
    | None => Ok (mkVeDelegation (AccAddress_String delAddr) (sv_String validator) [], sc)
    | Some d => SettleVeDelegation ctx sc d validator
    end;
  sc ← on_kb (fun k b =>
         match found with
         | Some _ => BeforeDelegationSharesModified ctx k b delAddr valAddr
         | None => BeforeDelegationCreated ctx k b delAddr valAddr
         end) sc;
  veTotal ← VeTokensSlice_Tokens veTokens;
  unconstrainedAmt ← Int_Sub bondAmt veTotal;
  '(sc, delegation, total) ←
    delegate_unconstrained sc delAddr unconstrainedAmt tokenSrc validator subtractAccount delegation;
  '(sc, delegation, veDelegation, totalNewShares) ←
    for_each (delegate_ve ctx validator) veTokens (sc, delegation, veDelegation, total);
  sc ← add_ve_validator sc validator valAddr totalNewShares;
  delVal ← must (ValAddressFromBech32 (dl_ValidatorAddress delegation));
  sc ← on_kb (fun k b => AfterDelegationModified ctx k b delAddr delVal) sc;
  Ok (sc, totalNewShares).

(** ** Unbonding *)

(** One round of the loop of [Unbond] at index [i]; returns whether the entry
    was removed. *)
Definition unbond_round sc (validator : SValidator) (updateVeAmt : bool) (i : nat) (veShares : VeShares)
    (veDelegation : VeDelegation) (remainingShares : Dec) (veTokens : VeTokensSlice) :
    outcome (SChain * VeDelegation * Dec * VeTokensSlice * bool) :=
  let veID := sh_VeId veShares in
  let veDelegatedAmt := GetVeDelegatedAmount sc veID in
  let minShares := Z.min remainingShares (sh_Shares veShares) in
  shares ← Dec_Sub (sh_Shares veShares) minShares;
  remainingShares ← Dec_Sub remainingShares minShares;
  '(tokens, veTokens, veDelegatedAmt) ←
    (if 0 <? minShares then
       t ← sv_TokensFromShares validator minShares;
       amt ← Dec_TruncateInt t;
       tokens ← Int_Sub (sh_TokensMayUnsettled veShares) amt;
       if tokens <? 0 then Panic else
       veDelegatedAmt ← (if updateVeAmt then Int_Sub veDelegatedAmt amt else Ok veDelegatedAmt);
       Ok (tokens, veTokens ++ [mkVeTokens veID amt], veDelegatedAmt)
     else Ok (sh_TokensMayUnsettled veShares, veTokens, veDelegatedAmt));
  let '(veDelegation, removed) :=
    if shares =? 0 then (RemoveSharesByIndex veDelegation i, true)
    else (SetSharesByVeID veDelegation (mkVeShares veID tokens shares), false) in
  let sc := if updateVeAmt then PutVeDelegatedAmount sc veID veDelegatedAmt else sc in
  Ok (sc, veDelegation, remainingShares, veTokens, removed).

(** The loop.  A round either goes to the next index or removes the entry at
    this one, so the number of entries from the index on decreases by one: as
    many rounds as entries are the whole loop. *)
Fixpoint unbond_loop (rounds : nat) sc (validator : SValidator) (updateVeAmt : bool) (i : nat)
    (veDelegation : VeDelegation) (remainingShares : Dec) (veTokens : VeTokensSlice) :
    outcome (SChain * VeDelegation * Dec * VeTokensSlice) :=
  match rounds, vd_VeShares veDelegation !! i with
  | S rounds, Some veShares =>
      if remainingShares =? 0 then Ok (sc, veDelegation, remainingShares, veTokens) else
      '(sc, veDelegation, remainingShares, veTokens, removed) ←
        unbond_round sc validator updateVeAmt i veShares veDelegation remainingShares veTokens;
      unbond_loop rounds sc validator updateVeAmt (if (removed : bool) then i else S i)
        veDelegation remainingShares veTokens
  | _, _ => Ok (sc, veDelegation, remainingShares, veTokens)
  end.

(** Jails the validator when its own delegation falls below its minimum. *)
Definition jail_if_below ctx sc (validator : SValidator) (delegatorAddress : Addr) (shares : Dec) :
    outcome (SChain * SValidator) :=
  operator ← sv_GetOperator validator;
  below ← (if bool_decide (delegatorAddress = operator) && negb (sv_Jailed validator) then
             t ← sv_TokensFromShares validator shares;
             x ← Dec_TruncateInt t;
             Ok (x <? sv_MinSelfDelegation validator)
           else Ok false);
  if (below : bool) then
    sc ← on_k (fun k => JailValidator ctx k validator) sc;
    match GetValidator (sc_k sc) operator with
    | Some v => Ok (sc, v)
    | None => Panic
    end
  else Ok (sc, validator).

(** The shares leave the delegation and the validator. *)
Definition unbond_finish ctx sc (delegation : Delegation) (delegatorAddress : Addr)
    (validator : SValidator) (shares totalVeShares : Dec) : outcome (SChain * Z) :=
  sc ← (if dl_Shares delegation =? 0 then on_kb (fun k b => RemoveDelegation ctx k b delegation) sc
        else
          sc ← on_k (fun k => SetDelegation k delegation) sc;
          delVal ← must (ValAddressFromBech32 (dl_ValidatorAddress delegation));
          on_kb (fun k b => AfterDelegationModified ctx k b delegatorAddress delVal) sc);
  '(k, validator, amount) ← RemoveValidatorTokensAndShares (sc_k sc) validator shares;
  let sc := set_k k sc in
  operator ← sv_GetOperator validator;
  if (sv_DelegatorShares validator =? 0) && sv_IsUnbonded validator then
    sc ← on_kb (fun k b => RemoveValidator ctx k b operator) sc;
    Ok (RemoveVeValidator sc operator, amount)
  else if 0 <? totalVeShares then
    match GetVeValidator sc operator with
    | None => Panic
    | Some v =>
        x ← Dec_Sub (vv_VeDelegatorShares v) totalVeShares;
        if x <? 0 then Panic else
        sc ← SetVeValidator sc (mkVeValidator (vv_OperatorAddress v) x);
        Ok (sc, amount)
    end
  else Ok (sc, amount).

Definition Unbond ctx sc (delAddr valAddr : Addr) (shares : Dec) (updateVeAmt : bool) :
    outcome (SChain * Z * VeTokensSlice) :=
  match GetDelegation (sc_k sc) delAddr valAddr with
  | None => Err ErrNoDelegatorForAddress
  | Some delegation =>
      match GetVeDelegation sc delAddr valAddr with
      | None =>
          '(k, b, amount) ← sk_Unbond ctx (sc_k sc) (w_bank (sc_w sc)) delAddr valAddr shares;
          Ok (set_k k (set_w (set_bank b (sc_w sc)) sc), amount, [])
      | Some veDelegation =>
          sc ← on_kb (fun k b => BeforeDelegationSharesModified ctx k b delAddr valAddr) sc;
          fail_if dl_Shares delegation <? shares with ErrNotEnoughDelegationShares ;;
          match GetValidator (sc_k sc) valAddr with
          | None => Err ErrNoValidatorFound
          | Some validator =>
              '(veDelegation, sc) ← SettleVeDelegation ctx sc veDelegation validator;
              veTotal ← VeDelegation_Shares veDelegation;
              unconstrainedShares ← Dec_Sub (dl_Shares delegation) veTotal;
              left ← Dec_Sub (dl_Shares delegation) shares;
              let delegation :=
                mkDelegation (dl_DelegatorAddress delegation) (dl_ValidatorAddress delegation) left in
              delegatorAddress ← AccAddressFromBech32 (dl_DelegatorAddress delegation);
              '(sc, validator) ← jail_if_below ctx sc validator delegatorAddress left;
              over ← Dec_Sub shares unconstrainedShares;
              let totalVeShares := Z.max over ZeroDec in
              '(sc, veDelegation, remainingShares, veTokens) ←
                unbond_loop (length (vd_VeShares veDelegation)) sc validator updateVeAmt 0
                  veDelegation totalVeShares [];
              sc ← (match vd_VeShares veDelegation with
                    | [] => RemoveVeDelegation sc veDelegation
                    | _ => SetVeDelegation sc veDelegation
                    end);
              if negb (remainingShares =? 0) then Panic else
              '(sc, amount) ←
                unbond_finish ctx sc delegation delegatorAddress validator shares totalVeShares;
              Ok (sc, amount, veTokens)
          end
      end
  end.

(** ** Redelegation and undelegation *)

(** Both return the completion time. *)
Definition BeginRedelegation ctx sc (delAddr valSrcAddr valDstAddr : Addr) (sharesAmount : Dec) :
    outcome (SChain * Z) :=
  fail_if bool_decide (valSrcAddr = valDstAddr) with ErrSelfRedelegation ;;
  match GetValidator (sc_k sc) valDstAddr with
  | None => Err ErrBadRedelegationDst
  | Some dstValidator =>
  match GetValidator (sc_k sc) valSrcAddr with
  | None => Err ErrBadRedelegationDst
  | Some srcValidator =>
      fail_if HasReceivingRedelegation (sc_k sc) delAddr valSrcAddr with ErrTransitiveRedelegation ;;
      fail_if HasMaxRedelegationEntries (sc_k sc) delAddr valSrcAddr valDstAddr with ErrMaxRedelegationEntries ;;
      '(sc, returnAmount, veTokens) ← Unbond ctx sc delAddr valSrcAddr sharesAmount true;
      fail_if returnAmount =? 0 with ErrTinyRedelegationAmount ;;
      '(sc, sharesCreated) ←
        VeDelegate ctx sc delAddr returnAmount veTokens (sv_Status srcValidator) dstValidator false;
      '(completionTime, height, completeNow) ← GetBeginInfo ctx (sc_k sc) valSrcAddr;
      if (completeNow : bool) then Ok (sc, completionTime) else
      '(k, red) ← SetRedelegationEntry (sc_k sc) delAddr valSrcAddr valDstAddr height completionTime
                    returnAmount sharesAmount sharesCreated;
      let sc := set_k k sc in
      sc ← on_k (fun k => InsertRedelegationQueue k red completionTime) sc;
      '(veRed, sc) ←
        SetVeRedelegationEntry sc delAddr valSrcAddr valDstAddr returnAmount veTokens sharesCreated;
      if bool_decide (length (rd_Entries red) ≠ length (vr_Entries veRed)) then Panic else
      Ok (sc, completionTime)
  end end.

Definition Undelegate ctx sc (delAddr valAddr : Addr) (sharesAmount : Dec) : outcome (SChain * Z) :=
  match GetValidator (sc_k sc) valAddr with
  | None => Err ErrNoDelegatorForAddress
  | Some validator =>
      fail_if HasMaxUnbondingDelegationEntries (sc_k sc) delAddr valAddr with ErrMaxUnbondingDelegationEntries ;;
      '(sc, returnAmount, veTokens) ← Unbond ctx sc delAddr valAddr sharesAmount false;
      veTotal ← VeTokensSlice_Tokens veTokens;
      unconstrainedAmt ← Int_Sub returnAmount veTotal;
      sc ← (if sv_IsBonded validator && (0 <? unconstrainedAmt)
            then on_b (fun b => BondedTokensToNotBonded (sc_k sc) b unconstrainedAmt) sc else Ok sc);
      let completionTime := BlockTimeNano ctx + UnbondingTime (sc_k sc) in
      '(k, ubd) ← SetUnbondingDelegationEntry (sc_k sc) delAddr valAddr (BlockHeight ctx)
                    completionTime returnAmount;
      let sc := set_k k sc in
      sc ← on_k (fun k => InsertUBDQueue k ubd completionTime) sc;
      '(veUbd, sc) ← SetVeUnbondingDelegationEntry sc delAddr valAddr veTokens;
      if bool_decide (length (ud_Entries ubd) ≠ length (vu_Entries veUbd)) then Panic else
      Ok (sc, completionTime)
  end.

(** ** Completion *)

(** The end of a block goes on after an error of [CompleteUnbonding], with
    what was written before it; so the error is a value beside the chain.  A
    call of the bank that fails leaves the bank as it was. *)

(** A mature entry of an unbonding: the locked parts are no longer delegated,
    the rest is paid out. *)
Definition complete_entry sc (bondDenom : string) (delegatorAddress : Addr) (entry : UnbondingEntry)
    (veEntry : VeUnbondingEntry) (balances : Coins) : outcome (SChain * (Coins + error)) :=
  sc ← for_each (fun sc vb => SubVeDelegatedAmount sc (ub_VeId vb) (ub_Balance vb)) (vue_VeBalances veEntry) sc;
  veBalance ← VeUnbondingEntry_Balance veEntry;
  unconstrainedBalance ← Int_Sub (ue_Balance entry) veBalance;
  if unconstrainedBalance <? 0 then Panic else
  paid ← (if unconstrainedBalance =? 0 then Ok (inl sc) else
            amt ← NewCoin bondDenom unconstrainedBalance;
            coins ← NewCoins [amt];
            match on_b (fun b => UndelegateCoinsFromModuleToAccount b NotBondedPoolName delegatorAddress coins) sc with
            | Ok sc => Ok (inl sc)
            | Err e => Ok (inr e)
            | Panic => Panic
            end);
  match paid with
  | inr e => Ok (sc, inr e)
  | inl sc =>
      coin ← NewCoin bondDenom (ue_Balance entry);
      balances ← Coins_Add balances [coin];
      Ok (sc, inl balances)
  end.

(** The loop over the entries of both records: mature ones are completed and
    removed, the others stay. *)
Fixpoint complete_entries ctx sc (bondDenom : string) (delegatorAddress : Addr)
    (es : list UnbondingEntry) (ves : list VeUnbondingEntry) (balances : Coins) :
    outcome (SChain * (list UnbondingEntry * list VeUnbondingEntry * Coins + error)) :=
  match es, ves with
  | e :: es, ve :: ves =>
      if ue_IsMature e (BlockTimeNano ctx) then
        '(sc, r) ← complete_entry sc bondDenom delegatorAddress e ve balances;
        match r with
        | inr err => Ok (sc, inr err)
        | inl balances => complete_entries ctx sc bondDenom delegatorAddress es ves balances
        end
      else
        '(sc, r) ← complete_entries ctx sc bondDenom delegatorAddress es ves balances;
        match r with
        | inr err => Ok (sc, inr err)
        | inl (es, ves, balances) => Ok (sc, inl (e :: es, ve :: ves, balances))
        end
  | _, _ => Ok (sc, inl (es, ves, balances))
  end.

Definition CompleteUnbonding ctx sc (delAddr valAddr : Addr) : outcome (SChain * (Coins + error)) :=
  match GetUnbondingDelegation (sc_k sc) delAddr valAddr with
  | None => Ok (sc, inr ErrNoUnbondingDelegation)
  | Some ubd =>
      match GetVeUnbondingDelegation sc delAddr valAddr with
      | None => Panic
      | Some veUbd =>
          if bool_decide (length (vu_Entries veUbd) ≠ length (ud_Entries ubd)) then Panic else
          let bondDenom := BondDenom (sc_k sc) in
          match AccAddressFromBech32 (ud_DelegatorAddress ubd) with
          | Panic => Panic
          | Err e => Ok (sc, inr e)
          | Ok delegatorAddress =>
              '(sc, r) ←
                complete_entries ctx sc bondDenom delegatorAddress (ud_Entries ubd) (vu_Entries veUbd) [];
              match r with
              | inr e => Ok (sc, inr e)
              | inl (es, ves, balances) =>
                  let ubd := mkUnbondingDelegation (ud_DelegatorAddress ubd) (ud_ValidatorAddress ubd) es in
                  let veUbd := vu_set_Entries ves veUbd in
                  sc ← (match es with
                        | [] =>
                            sc ← on_k (fun k => RemoveUnbondingDelegation k ubd) sc;
                            RemoveVeUnbondingDelegation sc veUbd
                        | _ =>
                            sc ← on_k (fun k => SetUnbondingDelegation k ubd) sc;
                            SetVeUnbondingDelegation sc veUbd
                        end);
                  Ok (sc, inl balances)
              end
          end
      end
  end.

Fixpoint complete_redelegations ctx (bondDenom : string) (es : list RedelegationEntry)
    (ves : list VeRedelegationEntry) (balances : Coins) :
    outcome (list RedelegationEntry * list VeRedelegationEntry * Coins) :=
  match es, ves with
  | e :: es, ve :: ves =>
      if re_IsMature e (BlockTimeNano ctx) then
        balances ← (if re_InitialBalance e =? 0 then Ok balances else
                      coin ← NewCoin bondDenom (re_InitialBalance e); Coins_Add balances [coin]);
        complete_redelegations ctx bondDenom es ves balances
      else
        '(es, ves, balances) ← complete_redelegations ctx bondDenom es ves balances;
        Ok (e :: es, ve :: ves, balances)
  | _, _ => Ok (es, ves, balances)
  end.

Definition CompleteRedelegation ctx sc (delAddr valSrcAddr valDstAddr : Addr) : outcome (SChain * Coins) :=
  match GetRedelegation (sc_k sc) delAddr valSrcAddr valDstAddr with
  | None => Err ErrNoRedelegation
  | Some red =>
      match GetVeRedelegation sc delAddr valSrcAddr valDstAddr with
      | None => Panic
      | Some veRed =>
          if bool_decide (length (vr_Entries veRed) ≠ length (rd_Entries red)) then Panic else
          '(es, ves, balances) ←
            complete_redelegations ctx (BondDenom (sc_k sc)) (rd_Entries red) (vr_Entries veRed) [];
          let red := mkRedelegation (rd_DelegatorAddress red) (rd_ValidatorSrcAddress red)
                       (rd_ValidatorDstAddress red) es in
          let veRed := vr_set_Entries ves veRed in
          sc ← (match es with
                | [] =>
                    sc ← on_k (fun k => RemoveRedelegation k red) sc;
                    RemoveVeRedelegation sc veRed
                | _ =>
                    sc ← on_k (fun k => SetRedelegation k red) sc;
                    SetVeRedelegation sc veRed
                end);
          Ok (sc, balances)
      end
  end.
End Staking.
