(* ===== verification/StakingSlash.v ===== *)
(** Slashing in the staking extension ([src/x/staking/keeper/slash.go]), its
    messages ([msg_server.go]), the end of a block ([val_state_change.go],
    [abci.go]) and genesis ([genesis.go], [keeper.go]). *)

From stdpp Require Import base gmap strings list.
From Stdlib Require Import ZArith Lia.
From S2P Require Import Prelude Sdk SdkExt Types VeTypes World VeKeeper VeMsg SdkStaking StakingTypes Staking.

#[local] Open Scope Z_scope.

Section StakingSlash.
Context `{!Sdk, !SdkExt, !BankKeeper, !NftKeeper, !SdkStaking, !MapOrderU64}.
Implicit Types (sc : SChain) (ctx : Ctx).

(** ** Slashing *)

(** [for veID, amt := range m { if amt.IsPositive() { ... } }] *)
Definition slash_burned ctx sc (veBurnedAmounts : gmap Z Z) : outcome SChain :=
  for_each (fun sc e => if 0 <? e.2 then SlashVeDelegatedAmount ctx sc e.1 e.2 else Ok sc)
    (range_u64 veBurnedAmounts) sc.

(** The accumulators of the loop of [SlashUnbondingDelegation]: the chain, the
    record with the entries updated so far, the total, the burned amount and
    the burned amounts of the locks. *)
Record UbdSlash := mkUbdSlash {
  us_sc : SChain;
  us_ubd : UnbondingDelegation;
  us_total : Z;
  us_burned : Z;
  us_veBurned : gmap Z Z;
}.

Definition ud_set_Entries (l : list UnbondingEntry) (u : UnbondingDelegation) : UnbondingDelegation :=
  mkUnbondingDelegation (ud_DelegatorAddress u) (ud_ValidatorAddress u) l.

(** One entry at index [i].  [veEntry.Slash] changes no balance of the entry,
    so [veUbd] is stored as it was. *)
Definition slash_entry ctx (infractionHeight : Z) (slashFactor : Dec) (veUbd : VeUnbondingDelegation)
    (acc : UbdSlash) (e : nat * UnbondingEntry) : outcome UbdSlash :=
  let '(i, entry) := e in
  if ue_CreationHeight entry <? infractionHeight then Ok acc else
  if ue_IsMature entry (BlockTimeNano ctx) then Ok acc else
  slashAmountDec ← Dec_MulInt slashFactor (ue_InitialBalance entry);
  slashAmount ← Dec_TruncateInt slashAmountDec;
  total ← Int_Add (us_total acc) slashAmount;
  let unbondingSlashAmount := Z.min slashAmount (ue_Balance entry) in
  if unbondingSlashAmount =? 0 then
    Ok (mkUbdSlash (us_sc acc) (us_ubd acc) total (us_burned acc) (us_veBurned acc))
  else
  match vu_Entries veUbd !! i with
  | None => Panic
  | Some veEntry =>
      '(veSlashAmt, veBurned) ←
        VeUnbondingEntry_Slash veEntry unbondingSlashAmount (ue_Balance entry) (us_veBurned acc);
      sc ← SetVeUnbondingDelegation (us_sc acc) veUbd;
      rest ← Int_Sub unbondingSlashAmount veSlashAmt;
      burned ← Int_Add (us_burned acc) rest;
      balance ← Int_Sub (ue_Balance entry) unbondingSlashAmount;
      let entry := mkUnbondingEntry (ue_CreationHeight entry) (ue_CompletionTime entry)
                     (ue_InitialBalance entry) balance in
      let ubd := ud_set_Entries (<[i := entry]> (ud_Entries (us_ubd acc))) (us_ubd acc) in
      sc ← on_k (fun k => SetUnbondingDelegation k ubd) sc;
      Ok (mkUbdSlash sc ubd total burned veBurned)
  end.

Definition SlashUnbondingDelegation ctx sc (ubd : UnbondingDelegation) (infractionHeight : Z)
    (slashFactor : Dec) : outcome (SChain * Z) :=
  delAddr ← must (AccAddressFromBech32 (ud_DelegatorAddress ubd));
  valAddr ← must (ValAddressFromBech32 (ud_ValidatorAddress ubd));
  match GetVeUnbondingDelegation sc delAddr valAddr with
  | None => Panic
  | Some veUbd =>
      if bool_decide (length (vu_Entries veUbd) ≠ length (ud_Entries ubd)) then Panic else
      acc ← for_each (slash_entry ctx infractionHeight slashFactor veUbd)
              (imap pair (ud_Entries ubd)) (mkUbdSlash sc ubd 0 0 ∅);
      sc ← must (on_b (fun b => BurnNotBondedTokens (sc_k (us_sc acc)) b (us_burned acc)) (us_sc acc));
      sc ← slash_burned ctx sc (us_veBurned acc);
      Ok (sc, us_total acc)
  end.

(** The accumulators of the loop of [SlashRedelegation]. *)
Record RedSlash := mkRedSlash {
  rs_sc : SChain;
  rs_total : Z;
  rs_bondedBurned : Z;
  rs_notBondedBurned : Z;
  rs_veBurned : gmap Z Z;
}.

Definition slash_redelegation_entry ctx (infractionHeight : Z) (slashFactor : Dec)
    (delegatorAddress valDstAddr : Addr) (acc : RedSlash) (entry : RedelegationEntry) : outcome RedSlash :=
  if re_CreationHeight entry <? infractionHeight then Ok acc else
  if re_IsMature entry (BlockTimeNano ctx) then Ok acc else
  slashAmountDec ← Dec_MulInt slashFactor (re_InitialBalance entry);
  slashAmount ← Dec_TruncateInt slashAmountDec;
  total ← Int_Add (rs_total acc) slashAmount;
  let acc := mkRedSlash (rs_sc acc) total (rs_bondedBurned acc) (rs_notBondedBurned acc) (rs_veBurned acc) in
  sharesToUnbond ← Dec_Mul slashFactor (re_SharesDst entry);
  if sharesToUnbond =? 0 then Ok acc else
  match GetDelegation (sc_k (rs_sc acc)) delegatorAddress valDstAddr with
  | None => Ok acc
  | Some delegation =>
      let sharesToUnbond := if dl_Shares delegation <? sharesToUnbond then dl_Shares delegation else sharesToUnbond in
      '(sc, returnAmount, veTokens) ←
        must (Unbond ctx (rs_sc acc) delegatorAddress valDstAddr sharesToUnbond false);
      veTotal ← VeTokensSlice_Tokens veTokens;
      tokensToBurn ← Int_Sub returnAmount veTotal;
      veBurned ← VeTokensSlice_AddToMap veTokens (rs_veBurned acc);
      match GetValidator (sc_k sc) valDstAddr with
      | None => Panic
      | Some dstValidator =>
          match sv_Status dstValidator with
          | Bonded =>
              x ← Int_Add (rs_bondedBurned acc) tokensToBurn;
              Ok (mkRedSlash sc (rs_total acc) x (rs_notBondedBurned acc) veBurned)
          | Unbonded | Unbonding =>
              x ← Int_Add (rs_notBondedBurned acc) tokensToBurn;
              Ok (mkRedSlash sc (rs_total acc) (rs_bondedBurned acc) x veBurned)
          | Unspecified => Panic
          end
      end
  end.

Definition SlashRedelegation ctx sc (red : Redelegation) (infractionHeight : Z) (slashFactor : Dec) :
    outcome (SChain * Z) :=
  delAddr ← must (AccAddressFromBech32 (rd_DelegatorAddress red));
  valSrcAddr ← must (ValAddressFromBech32 (rd_ValidatorSrcAddress red));
  valDstAddr ← must (ValAddressFromBech32 (rd_ValidatorDstAddress red));
  match GetVeRedelegation sc delAddr valSrcAddr valDstAddr with
  | None => Panic
  | Some veRed =>
      if bool_decide (length (vr_Entries veRed) ≠ length (rd_Entries red)) then Panic else
      acc ← for_each (slash_redelegation_entry ctx infractionHeight slashFactor delAddr valDstAddr)
              (rd_Entries red) (mkRedSlash sc 0 0 0 ∅);
      sc ← must (on_b (fun b => BurnBondedTokens (sc_k (rs_sc acc)) b (rs_bondedBurned acc)) (rs_sc acc));
      sc ← must (on_b (fun b => BurnNotBondedTokens (sc_k sc) b (rs_notBondedBurned acc)) sc);
      sc ← slash_burned ctx sc (rs_veBurned acc);
      Ok (sc, rs_total acc)
  end.

(** What is left to slash after the unbondings and redelegations since the
    infraction. *)
Definition slash_past ctx sc (operatorAddress : Addr) (infractionHeight : Z) (slashFactor : Dec)
    (slashAmount : Z) : outcome (SChain * Z) :=
  if BlockHeight ctx <? infractionHeight then Panic else
  if infractionHeight =? BlockHeight ctx then Ok (sc, slashAmount) else
  '(sc, rest) ← for_each (fun acc u =>
      '(sc, x) ← SlashUnbondingDelegation ctx acc.1 u infractionHeight slashFactor;
      if x =? 0 then Ok (sc, acc.2) else r ← Int_Sub acc.2 x; Ok (sc, r))
    (GetUnbondingDelegationsFromValidator (sc_k sc) operatorAddress) (sc, slashAmount);
  for_each (fun acc r =>
      '(sc, x) ← SlashRedelegation ctx acc.1 r infractionHeight slashFactor;
      if x =? 0 then Ok (sc, acc.2) else r ← Int_Sub acc.2 x; Ok (sc, r))
    (GetRedelegationsFromSrcValidator (sc_k sc) operatorAddress) (sc, rest).

(** The part of the burned tokens that is in the pools. *)
Definition pool_burn sc (validator : SValidator) (operator : Addr) (tokensToBurn : Z) : outcome Z :=
  match GetVeValidator sc operator with
  | Some v =>
      if 0 <? sv_DelegatorShares validator then
        own ← Dec_Sub (sv_DelegatorShares validator) (vv_VeDelegatorShares v);
        x ← Dec_Mul (ToDec tokensToBurn) own;
        x ← Dec_Quo x (sv_DelegatorShares validator);
        Dec_TruncateInt x
      else Ok tokensToBurn
  | None => Ok tokensToBurn
  end.

Definition Slash ctx sc (consAddr : Addr) (infractionHeight power : Z) (slashFactor : Dec) : outcome SChain :=
  if slashFactor <? 0 then Panic else
  amount ← TokensFromConsensusPower (sc_k sc) power;
  slashAmountDec ← Dec_Mul (ToDec amount) slashFactor;
  slashAmount ← Dec_TruncateInt slashAmountDec;
  match GetValidatorByConsAddr (sc_k sc) consAddr with
  | None => Ok sc
  | Some validator =>
      if sv_IsUnbonded validator then Panic else
      operatorAddress ← sv_GetOperator validator;
      sc ← on_kb (fun k b => BeforeValidatorModified ctx k b operatorAddress) sc;
      '(sc, remainingSlashAmount) ← slash_past ctx sc operatorAddress infractionHeight slashFactor slashAmount;
      let tokensToBurn := Z.max (Z.min remainingSlashAmount (sv_Tokens validator)) 0 in
      sc ← (if 0 <? sv_Tokens validator then
              f ← Dec_QuoRoundUp (ToDec tokensToBurn) (ToDec (sv_Tokens validator));
              let f := if OneDec <? f then OneDec else f in
              on_kb (fun k b => BeforeValidatorSlashed ctx k b operatorAddress f) sc
            else Ok sc);
      '(k, validator) ← RemoveValidatorTokens (sc_k sc) validator tokensToBurn;
      let sc := set_k k sc in
      operator ← sv_GetOperator validator;
      tokensToBurn ← pool_burn sc validator operator tokensToBurn;
      match sv_Status validator with
      | Bonded => must (on_b (fun b => BurnBondedTokens (sc_k sc) b tokensToBurn) sc)
      | Unbonding | Unbonded => must (on_b (fun b => BurnNotBondedTokens (sc_k sc) b tokensToBurn) sc)
      | Unspecified => Panic
      end
  end.

(** ** Messages *)

(** The owner of the token is refused, and nobody else is. *)
Definition MsgServer_VeDelegate ctx sc (msg : MsgVeDelegate) : outcome SChain :=
  valAddr ← ValAddressFromBech32 (mvd_ValidatorAddress msg);
  match GetValidator (sc_k sc) valAddr with
  | None => Err ErrNoValidatorFound
  | Some validator =>
      delegatorAddress ← AccAddressFromBech32 (mvd_DelegatorAddress msg);
      fail_if bool_decide (Denom (mvd_Amount msg) ≠ BondDenom (sc_k sc)) with ErrInvalidRequest ;;
      let owner := nft_GetOwner (w_nft (sc_w sc)) VeNftClassId (mvd_VeId msg) in
      fail_if bool_decide (owner = delegatorAddress) with ErrInvalidRequest ;;
      let veID := Uint64FromVeID (mvd_VeId msg) in
      '(sc, _) ← VeDelegate ctx sc delegatorAddress (Amount (mvd_Amount msg))
                   [mkVeTokens veID (Amount (mvd_Amount msg))] Unbonded validator true;
      Ok sc
  end.

Record MsgBeginRedelegate := mkMsgBeginRedelegate {
  mbr_DelegatorAddress : string;
  mbr_ValidatorSrcAddress : string;
  mbr_ValidatorDstAddress : string;
  mbr_Amount : Coin;
}.

Record MsgUndelegate := mkMsgUndelegate {
  mun_DelegatorAddress : string;
  mun_ValidatorAddress : string;
  mun_Amount : Coin;
}.

Definition MsgServer_BeginRedelegate ctx sc (msg : MsgBeginRedelegate) : outcome (SChain * Z) :=
  valSrcAddr ← ValAddressFromBech32 (mbr_ValidatorSrcAddress msg);
  delegatorAddress ← AccAddressFromBech32 (mbr_DelegatorAddress msg);
  shares ← ValidateUnbondAmount (sc_k sc) delegatorAddress valSrcAddr (Amount (mbr_Amount msg));
  fail_if bool_decide (Denom (mbr_Amount msg) ≠ BondDenom (sc_k sc)) with ErrInvalidRequest ;;
  valDstAddr ← ValAddressFromBech32 (mbr_ValidatorDstAddress msg);
  BeginRedelegation ctx sc delegatorAddress valSrcAddr valDstAddr shares.

Definition MsgServer_Undelegate ctx sc (msg : MsgUndelegate) : outcome (SChain * Z) :=
  addr ← ValAddressFromBech32 (mun_ValidatorAddress msg);
  delegatorAddress ← AccAddressFromBech32 (mun_DelegatorAddress msg);
  shares ← ValidateUnbondAmount (sc_k sc) delegatorAddress addr (Amount (mun_Amount msg));
  fail_if bool_decide (Denom (mun_Amount msg) ≠ BondDenom (sc_k sc)) with ErrInvalidRequest ;;
  Undelegate ctx sc delegatorAddress addr shares.

(** ** The end of a block *)

(** [if err != nil { continue }].  [CompleteRedelegation] returns its error
    before it writes. *)
Definition complete_unbonding_of ctx sc (dv : string * string) : outcome SChain :=
  addr ← must (ValAddressFromBech32 dv.2);
  delegatorAddress ← must (AccAddressFromBech32 dv.1);
  '(sc, _) ← CompleteUnbonding ctx sc delegatorAddress addr;
  Ok sc.

Definition complete_redelegation_of ctx sc (dvv : string * string * string) : outcome SChain :=
  let '(d, src, dst) := dvv in
  valSrcAddr ← must (ValAddressFromBech32 src);
  valDstAddr ← must (ValAddressFromBech32 dst);
  delegatorAddress ← must (AccAddressFromBech32 d);
  match CompleteRedelegation ctx sc delegatorAddress valSrcAddr valDstAddr with
  | Ok (sc, _) => Ok sc
  | Err _ => Ok sc
  | Panic => Panic
  end.

Definition BlockValidatorUpdates ctx sc : outcome (SChain * list (Addr * Z)) :=
  '(k, b, validatorUpdates) ← must (ApplyAndReturnValidatorSetUpdates ctx (sc_k sc) (w_bank (sc_w sc)));
  let sc := set_k k (set_w (set_bank b (sc_w sc)) sc) in
  sc ← on_kb (fun k b => UnbondAllMatureValidators ctx k b) sc;
  '(k, matureUnbonds) ← DequeueAllMatureUBDQueue (sc_k sc) (BlockTimeNano ctx);
  sc ← for_each (complete_unbonding_of ctx) matureUnbonds (set_k k sc);
  '(k, matureRedelegations) ← DequeueAllMatureRedelegationQueue (sc_k sc) (BlockTimeNano ctx);
  sc ← for_each (complete_redelegation_of ctx) matureRedelegations (set_k k sc);
  Ok (sc, validatorUpdates).

Definition staking_EndBlocker ctx sc : outcome (SChain * list (Addr * Z)) := BlockValidatorUpdates ctx sc.

(** ** Genesis *)

Definition CheckDenom sc : outcome unit :=
  if bool_decide (LockDenom (sc_w sc) ≠ BondDenom (sc_k sc)) then Panic else Ok tt.

(** The records of the extension are not part of the genesis state. *)
Definition staking_InitGenesis ctx sc (data : sk_Genesis) : outcome (SChain * list (Addr * Z)) :=
  '(k, b, res) ← sk_InitGenesis ctx (sc_k sc) (w_bank (sc_w sc)) data;
  let sc := set_k k (set_w (set_bank b (sc_w sc)) sc) in
  _ ← CheckDenom sc;
  Ok (sc, res).
End StakingSlash.
