(* ===== verification/StakingBook.v ===== *)
(** What the staking extension books for each locked balance: the tokens of its
    shares in delegations, the balances in unbondings, and the amount recorded
    as delegated.  Lemmas on the store and on the loops over shares. *)

From stdpp Require Import base gmap strings list fin_maps.
From Stdlib Require Import ZArith Lia.
From S2P Require Import Prelude Sdk Types VeTypes SdkExt World VeKeeper VeVoting VeMsg VeInv SdkStaking StakingTypes Staking.

#[local] Open Scope Z_scope.

(** ** Amounts of one lock *)

Definition sh_amt (i : Z) (s : VeShares) : Z := if sh_VeId s =? i then sh_TokensMayUnsettled s else 0.
Definition sh_list_amt (i : Z) (l : list VeShares) : Z := list_sum (sh_amt i) l.
Definition vd_amt (i : Z) (d : VeDelegation) : Z := sh_list_amt i (vd_VeShares d).

Definition ub_amt (i : Z) (b : VeUnbondingBalance) : Z := if ub_VeId b =? i then ub_Balance b else 0.
Definition vue_amt (i : Z) (e : VeUnbondingEntry) : Z := list_sum (ub_amt i) (vue_VeBalances e).
Definition vu_amt (i : Z) (u : VeUnbondingDelegation) : Z := list_sum (vue_amt i) (vu_Entries u).

Definition vt_amt (i : Z) (l : VeTokensSlice) : Z :=
  list_sum (fun vt => if vt_VeId vt =? i then vt_Tokens vt else 0) l.

Definition shares_sum (l : list VeShares) : Dec := list_sum sh_Shares l.

Definition booked_store (s : StakingStore) (i : Z) : Z :=
  map_sum (fun _ d => vd_amt i d) (ss_VeDelegations s) + map_sum (fun _ u => vu_amt i u) (ss_VeUnbondingDelegations s).

Lemma sh_list_amt_app i l1 l2 : sh_list_amt i (l1 ++ l2) = sh_list_amt i l1 + sh_list_amt i l2.
Proof. apply list_sum_app. Qed.

Lemma vt_amt_app i l1 l2 : vt_amt i (l1 ++ l2) = vt_amt i l1 + vt_amt i l2.
Proof. apply list_sum_app. Qed.

(** Replacing the shares of a lock replaces their tokens in its amount. *)
Lemma put_shares_amt i l s :
  sh_list_amt i (put_shares l s) = sh_list_amt i l + sh_amt i s - from_option (sh_amt i) 0 (find_shares l (sh_VeId s)).
Proof.
  unfold sh_list_amt. induction l as [|s' l IH]; simpl; rewrite ?list_sum_cons; [cbn; lia|].
  destruct (sh_VeId s' =? sh_VeId s); rewrite ?list_sum_cons; simpl; lia.
Qed.

Lemma find_shares_id l i s : find_shares l i = Some s → sh_VeId s = i ∧ s ∈ l.
Proof.
  induction l as [|s' l IH]; simpl; [done|]. destruct (sh_VeId s' =? i) eqn:E; zbool.
  - intros [= ->]. split; [done|by left].
  - intros [??]%IH. split; [done|by right].
Qed.

Lemma put_shares_Forall (P : VeShares → Prop) l s : Forall P l → P s → Forall P (put_shares l s).
Proof.
  intros Hl Hs. induction Hl as [|s' l Hs' Hl IH]; simpl; [by repeat constructor|].
  destruct (sh_VeId s' =? sh_VeId s); by constructor.
Qed.

Lemma put_shares_ids l s x :
  x ∈ (sh_VeId <$> put_shares l s) ↔ x = sh_VeId s ∨ x ∈ (sh_VeId <$> l).
Proof.
  induction l as [|s' l IH]; simpl; [set_solver|].
  destruct (sh_VeId s' =? sh_VeId s) eqn:E; zbool; simpl; rewrite !elem_of_cons, ?IH, ?E; tauto.
Qed.

Lemma put_shares_NoDup l s : NoDup (sh_VeId <$> l) → NoDup (sh_VeId <$> put_shares l s).
Proof.
  induction l as [|s' l IH]; simpl; [intros _; repeat constructor; set_solver|].
  intros [Hn Hd]%NoDup_cons. destruct (sh_VeId s' =? sh_VeId s) eqn:E; zbool; simpl; apply NoDup_cons.
  - by rewrite <- E.
  - split; [|auto]. rewrite put_shares_ids. intros [?|?]; [congruence|done].
Qed.

(** Under distinct identifiers, replacing the shares at an index is replacing
    the element. *)
Lemma put_shares_at l i s s' :
  NoDup (sh_VeId <$> l) → l !! i = Some s → sh_VeId s' = sh_VeId s → put_shares l s' = <[i := s']> l.
Proof.
  revert i. induction l as [|a l IH]; intros [|i] Hd Hi Hs; simplify_eq/=.
  - by rewrite <- Hs, Z.eqb_refl.
  - apply NoDup_cons in Hd as [Hn Hd]. destruct (sh_VeId a =? sh_VeId s') eqn:E; zbool.
    + destruct Hn. apply list_elem_of_fmap. exists s. split; [congruence|]. by eapply list_elem_of_lookup_2.
    + f_equal. eauto.
Qed.

Section StakingBook.
Context `{!Sdk, !SdkExt, !BankKeeper, !NftKeeper, !SdkStaking, !SdkLaws, !BankLaws, !SdkExtLaws, !SdkStakingLaws}.
Implicit Types (sc : SChain) (ctx : Ctx).

Definition booked sc (i : Z) : Z := booked_store (sc_s sc) i.

(** What the books hold beyond the amount recorded as delegated. *)
Definition gap sc (i : Z) : Z := booked sc i - GetVeDelegatedAmount sc i.

(** ** Well-formed stores

    A record is stored under the addresses it carries; the locks of a
    delegation are distinct and their shares are not negative; the balances of
    an unbonding are not negative. *)

Definition vd_at (d : VeDelegation) (del val : Addr) : Prop :=
  (∀ a, AccAddressFromBech32 (vd_DelegatorAddress d) = Ok a → a = del) ∧
  (∀ a, ValAddressFromBech32 (vd_ValidatorAddress d) = Ok a → a = val).

Definition vd_ok (d : VeDelegation) : Prop :=
  NoDup (sh_VeId <$> vd_VeShares d) ∧ Forall (fun s => 0 ≤ sh_Shares s) (vd_VeShares d).

Definition vu_at (u : VeUnbondingDelegation) (del val : Addr) : Prop :=
  AccAddressFromBech32 (vu_DelegatorAddress u) = Ok del ∧ ValAddressFromBech32 (vu_ValidatorAddress u) = Ok val.

Definition vu_ok (u : VeUnbondingDelegation) : Prop :=
  Forall (fun e => Forall (fun b => 0 ≤ ub_Balance b) (vue_VeBalances e)) (vu_Entries u).

Definition vr_at (r : VeRedelegation) (del src dst : Addr) : Prop :=
  AccAddressFromBech32 (vr_DelegatorAddress r) = Ok del ∧
  ValAddressFromBech32 (vr_ValidatorSrcAddress r) = Ok src ∧ ValAddressFromBech32 (vr_ValidatorDstAddress r) = Ok dst.

Record store_ok (s : StakingStore) : Prop := {
  so_del d v x : ss_VeDelegations s !! (d, v) = Some x → vd_at x d v ∧ vd_ok x;
  so_ubd d v x : ss_VeUnbondingDelegations s !! (d, v) = Some x → vu_at x d v ∧ vu_ok x;
  so_red d v v' x : ss_VeRedelegations s !! (d, v, v') = Some x → vr_at x d v v';
}.

(** The record under a key is [x], or there is none and [x] has no tokens. *)
Definition stored sc (d v : Addr) (x : VeDelegation) : Prop :=
  ss_VeDelegations (sc_s sc) !! (d, v) = Some x ∨
  (ss_VeDelegations (sc_s sc) !! (d, v) = None ∧ ∀ i, vd_amt i x = 0).

Lemma stored_at_key sc d v x i :
  stored sc d v x → at_key (fun _ d => vd_amt i d) (ss_VeDelegations (sc_s sc)) (d, v) = vd_amt i x.
Proof. unfold at_key. intros [->|[-> Hz]]; [done|]. by rewrite Hz. Qed.

(** ** Writes *)

Lemma must_Ok {A} (m : outcome A) a : must m = Ok a → m = Ok a.
Proof. by destruct m. Qed.

Lemma SetVeDelegation_Ok sc x sc' d v :
  SetVeDelegation sc x = Ok sc' → vd_at x d v →
  sc' = on_s (fun s => ss_set_VeDelegations (<[(d, v) := x]> (ss_VeDelegations s)) s) sc.
Proof.
  unfold SetVeDelegation. intros E [K1 K2]. inv_ok E. apply must_Ok in E0, E1.
  by rewrite (K1 _ E0), (K2 _ E1) in E.
Qed.

Lemma RemoveVeDelegation_Ok sc x sc' d v :
  RemoveVeDelegation sc x = Ok sc' → vd_at x d v →
  sc' = on_s (fun s => ss_set_VeDelegations (delete (d, v) (ss_VeDelegations s)) s) sc.
Proof.
  unfold RemoveVeDelegation. intros E [K1 K2]. inv_ok E. apply must_Ok in E0, E1.
  by rewrite (K1 _ E0), (K2 _ E1) in E.
Qed.

Lemma delegated_put sc i x j :
  GetVeDelegatedAmount (PutVeDelegatedAmount sc i x) j = if decide (j = i) then x else GetVeDelegatedAmount sc j.
Proof.
  unfold PutVeDelegatedAmount, GetVeDelegatedAmount. destruct (x =? 0) eqn:E; zbool; simpl.
  - case_decide as Hj; [subst; by rewrite lookup_delete_eq|by rewrite lookup_delete_ne].
  - case_decide as Hj; [subst; by rewrite lookup_insert_eq|by rewrite lookup_insert_ne].
Qed.

Lemma delegated_set sc i x j :
  GetVeDelegatedAmount (SetVeDelegatedAmount sc i x) j = if decide (j = i) then x else GetVeDelegatedAmount sc j.
Proof.
  unfold SetVeDelegatedAmount, GetVeDelegatedAmount; simpl.
  case_decide as Hj; [subst; by rewrite lookup_insert_eq|by rewrite lookup_insert_ne].
Qed.

(** Only the amounts recorded as delegated differ. *)
Definition amounts_only sc sc' : Prop :=
  ss_VeValidators (sc_s sc') = ss_VeValidators (sc_s sc) ∧
  ss_VeDelegations (sc_s sc') = ss_VeDelegations (sc_s sc) ∧
  ss_VeUnbondingDelegations (sc_s sc') = ss_VeUnbondingDelegations (sc_s sc) ∧
  ss_VeRedelegations (sc_s sc') = ss_VeRedelegations (sc_s sc).

Lemma amounts_only_refl sc : amounts_only sc sc.
Proof. by split_and!. Qed.

Lemma amounts_only_trans sc1 sc2 sc3 : amounts_only sc1 sc2 → amounts_only sc2 sc3 → amounts_only sc1 sc3.
Proof. intros (?&?&?&?) (?&?&?&?). split_and!; congruence. Qed.

Lemma amounts_only_put sc i x : amounts_only sc (PutVeDelegatedAmount sc i x).
Proof. unfold PutVeDelegatedAmount. destruct (x =? 0); by split_and!. Qed.

Lemma amounts_only_booked sc sc' i : amounts_only sc sc' → booked sc' i = booked sc i.
Proof. intros (_ & E1 & E2 & _). unfold booked, booked_store. by rewrite E1, E2. Qed.

Lemma amounts_only_ok sc sc' : amounts_only sc sc' → store_ok (sc_s sc) → store_ok (sc_s sc').
Proof. intros (_ & E1 & E2 & E3) [? ? ?]. split; rewrite ?E1, ?E2, ?E3; auto. Qed.

(** ** Slashing the amount of a lock *)

Lemma SubVeDelegatedAmount_Ok sc i x sc' :
  SubVeDelegatedAmount sc i x = Ok sc' → sc' = PutVeDelegatedAmount sc i (GetVeDelegatedAmount sc i - x).
Proof. unfold SubVeDelegatedAmount. intros E. inv_ok E. sdk_inv. done. Qed.

Lemma put_frame sc i x : sc_w (PutVeDelegatedAmount sc i x) = sc_w sc ∧ sc_k (PutVeDelegatedAmount sc i x) = sc_k sc.
Proof. unfold PutVeDelegatedAmount. by destruct (x =? 0). Qed.

(** The locked amount of one lock falls by [x]. *)
Lemma SlashLockedAmountByUser_locked ctx w i x w' :
  SlashLockedAmountByUser ctx w i x = Ok w' →
  ∀ j, lb_Amount (GetLockedAmountByUser w' j) = lb_Amount (GetLockedAmountByUser w j) - (if decide (j = i) then x else 0).
Proof.
  unfold SlashLockedAmountByUser. intros E j. inv_ok E.
  apply RegulateUserCheckpoint_frame in E as [F _]. sdk_inv.
  assert (vs_LockedAmountByUser (w_ve r1) = vs_LockedAmountByUser (w_ve w)) as Hl.
  { unfold on_bank in E2. destruct (BurnCoins _ _ _); cbn in E2; [|discriminate..]. by injection E2 as <-. }
  unfold GetLockedAmountByUser. rewrite (vf_locked _ _ F). simpl. rewrite Hl.
  case_decide as Hj; [subst; rewrite lookup_insert_eq; unfold GetLockedAmountByUser; cbn; by rewrite Hl|].
  rewrite lookup_insert_ne by done. lia.
Qed.

Lemma SlashVeDelegatedAmount_Ok ctx sc i x sc' :
  SlashVeDelegatedAmount ctx sc i x = Ok sc' →
  amounts_only sc sc' ∧ sc_k sc' = sc_k sc ∧
  ∀ j, GetVeDelegatedAmount sc' j = GetVeDelegatedAmount sc j - (if decide (j = i) then Z.max x 0 else 0) ∧
       lb_Amount (GetLockedAmountByUser (sc_w sc') j) =
         lb_Amount (GetLockedAmountByUser (sc_w sc) j) - (if decide (j = i) then Z.max x 0 else 0).
Proof.
  unfold SlashVeDelegatedAmount. intros E. destruct (0 <? x) eqn:Ex; zbool; simpl in E.
  - apply bind_Ok in E as (sc1 & E1 & E). apply SubVeDelegatedAmount_Ok in E1 as ->.
    unfold on_w in E. apply bind_Ok in E as (w & Ew & E). injection E as <-.
    pose proof (put_frame sc i (GetVeDelegatedAmount sc i - x)) as [Hw Hk]. rewrite Hw in Ew.
    split_and!; [apply amounts_only_put|done|]. intros j. split.
    + etransitivity; [apply (delegated_put sc)|]. case_decide; subst; lia.
    + simpl. rewrite (SlashLockedAmountByUser_locked _ _ _ _ _ Ew). case_decide; lia.
  - injection E as <-. split_and!; [apply amounts_only_refl|done|].
    intros j. case_decide; split; lia.
Qed.
End StakingBook.

(** * What the operations of the staking extension do to the books: settling,
    delegating, unbonding, and the completion of unbondings. *)

Section StakingOps.
Context `{!Sdk, !SdkExt, !BankKeeper, !NftKeeper, !SdkStaking, !SdkLaws, !BankLaws, !SdkExtLaws, !SdkStakingLaws}.
Implicit Types (sc : SChain) (ctx : Ctx).

(** What is locked beyond the amount recorded as delegated. *)
Definition slack sc (i : Z) : Z := lb_Amount (GetLockedAmountByUser (sc_w sc) i) - GetVeDelegatedAmount sc i.

(** An operation that takes [out] out of the books: the store stays
    well-formed, the gap between books and recorded amounts does not shrink by
    more, and recorded amounts stay within the locks. *)
Record book_step (out : Z → Z) sc sc' : Prop := {
  bs_ok : store_ok (sc_s sc');
  bs_gap i : gap sc i ≤ gap sc' i + out i;
  bs_slack i : 0 ≤ slack sc i → 0 ≤ slack sc' i;
}.

Definition none_out : Z → Z := fun _ => 0.

Lemma book_step_trans o1 o2 sc1 sc2 sc3 :
  book_step o1 sc1 sc2 → book_step o2 sc2 sc3 → book_step (fun i => o1 i + o2 i) sc1 sc3.
Proof.
  intros [? G1 S1] [? G2 S2]. split; [done| |auto].
  intros i. specialize (G1 i). specialize (G2 i). lia.
Qed.

Lemma book_step_out o1 o2 sc sc' : book_step o1 sc sc' → (∀ i, o1 i ≤ o2 i) → book_step o2 sc sc'.
Proof. intros [? G ?] Ho. split; [done| |done]. intros i. specialize (G i). specialize (Ho i). lia. Qed.

Lemma book_step_then sc1 sc2 sc3 o :
  book_step none_out sc1 sc2 → book_step o sc2 sc3 → book_step o sc1 sc3.
Proof. intros K1 K2. eapply book_step_out; [by eapply book_step_trans|]. unfold none_out. intros. lia. Qed.

(** Operations that touch neither the extension's store nor the locks. *)
Definition keeps sc sc' : Prop := sc_s sc' = sc_s sc ∧ w_ve (sc_w sc') = w_ve (sc_w sc).

Lemma keeps_step sc sc' : keeps sc sc' → store_ok (sc_s sc) → book_step none_out sc sc'.
Proof.
  intros [E1 E2] Hok.
  assert (∀ i, gap sc' i = gap sc i) by (intros; unfold gap, booked, GetVeDelegatedAmount; by rewrite E1).
  assert (∀ i, slack sc' i = slack sc i).
  { intros; unfold slack, GetVeDelegatedAmount, GetLockedAmountByUser. by rewrite E1, E2. }
  split; [by rewrite E1| |]; intros i; unfold none_out; [rewrite H8; lia|by rewrite H9].
Qed.

Lemma keeps_trans sc1 sc2 sc3 : keeps sc1 sc2 → keeps sc2 sc3 → keeps sc1 sc3.
Proof. intros [] []. split; congruence. Qed.

Lemma keeps_refl sc : keeps sc sc.
Proof. done. Qed.

Lemma keeps_set_k k sc : keeps sc (set_k k sc).
Proof. done. Qed.

Lemma on_k_keeps f sc sc' : on_k f sc = Ok sc' → keeps sc sc'.
Proof. unfold on_k. intros E. inv_ok E. by subst. Qed.

Lemma on_kb_keeps f sc sc' : on_kb f sc = Ok sc' → keeps sc sc'.
Proof. unfold on_kb. intros E. inv_ok E. subst. by split. Qed.

Lemma on_b_keeps f sc sc' : on_b f sc = Ok sc' → keeps sc sc'.
Proof. unfold on_b, on_w, on_bank. intros E. inv_ok E. inv_ok E0. subst. by split. Qed.

(** ** Settling *)

(** Shares whose tokens are what they are worth. *)
Definition settled (v : SValidator) (s : VeShares) : Prop :=
  ∃ t, sv_TokensFromShares v (sh_Shares s) = Ok t ∧ Dec_TruncateInt t = Ok (sh_TokensMayUnsettled s).

Lemma settled_zero v s : settled v s → sh_Shares s = 0 → sh_TokensMayUnsettled s = 0.
Proof.
  intros (t & Ht & Hs) Hz. rewrite Hz in Ht. apply sv_TokensFromShares_zero in Ht as ->.
  by apply Dec_TruncateInt_Ok in Hs.
Qed.

(** The amounts of the settled shares against the recorded ones. *)
Lemma settle_shares_Ok ctx v l sc l' sc' :
  settle_shares ctx sc v l = Ok (l', sc') →
  amounts_only sc sc' ∧ sc_k sc' = sc_k sc ∧
  (sh_VeId <$> l') = (sh_VeId <$> l) ∧ (sh_Shares <$> l') = (sh_Shares <$> l) ∧ Forall (settled v) l' ∧
  (∀ i, sh_list_amt i l - GetVeDelegatedAmount sc i ≤ sh_list_amt i l' - GetVeDelegatedAmount sc' i) ∧
  (∀ i, slack sc' i = slack sc i).
Proof.
  revert sc l' sc'. induction l as [|s l IH]; intros sc l' sc' E; cbn [settle_shares] in E.
  - injection E as <- <-. by split_and!.
  - inv_ok E. subst.
    apply SlashVeDelegatedAmount_Ok in E3 as (A1 & K1 & D1).
    apply IH in E4 as (A2 & K2 & I2 & S2 & F2 & G2 & L2). sdk_inv.
    split_and!; [by eapply amounts_only_trans|congruence|by cbn; f_equal|by cbn; f_equal| | |].
    + constructor; [|done]. by exists r.
    + intros i. specialize (G2 i). destruct (D1 i) as [D1' _]. unfold sh_list_amt in *. rewrite !list_sum_cons.
      unfold sh_amt at 1 3. simpl. rewrite D1' in G2. destruct (sh_VeId s =? i) eqn:Es; zbool; case_decide; lia.
    + intros i. rewrite L2. unfold slack. destruct (D1 i) as [-> ->]. lia.
Qed.

Lemma for_each_add_Ok {A} (f : A → Z) l x y :
  for_each (fun total a => Dec_Add total (f a)) l x = Ok y → y = x + list_sum f l.
Proof.
  revert x. induction l as [|a l IH]; intros x E; cbn in E; [injection E as <-; cbn; lia|].
  inv_ok E. apply IH in E. sdk_inv. rewrite list_sum_cons. lia.
Qed.

Lemma for_each_int_add_Ok {A} (f : A → Z) l x y :
  for_each (fun total a => Int_Add total (f a)) l x = Ok y → y = x + list_sum f l.
Proof.
  revert x. induction l as [|a l IH]; intros x E; cbn in E; [injection E as <-; cbn; lia|].
  inv_ok E. apply IH in E. sdk_inv. rewrite list_sum_cons. lia.
Qed.

Lemma VeDelegation_Shares_Ok d x : VeDelegation_Shares d = Ok x → x = shares_sum (vd_VeShares d).
Proof. intros E%for_each_add_Ok. unfold shares_sum. unfold ZeroDec in E. lia. Qed.

(** Nonnegative shares that add up to zero are zero. *)
Lemma shares_sum_zero l :
  Forall (fun s => 0 ≤ sh_Shares s) l → shares_sum l = 0 → Forall (fun s => sh_Shares s = 0) l.
Proof.
  unfold shares_sum. induction 1 as [|s l Hs Hl IH]; [done|]. rewrite list_sum_cons. intros E.
  pose proof (list_sum_nonneg sh_Shares l Hl). constructor; [lia|]. apply IH. lia.
Qed.

Lemma amt_zero l i : Forall (fun s => sh_TokensMayUnsettled s = 0) l → sh_list_amt i l = 0.
Proof.
  unfold sh_list_amt. induction 1 as [|s l Hs Hl IH]; [done|]. rewrite list_sum_cons, IH.
  unfold sh_amt. rewrite Hs. by destruct (_ =? _).
Qed.

(** Writing a record of delegations. *)
Lemma booked_put_del s d v x i :
  booked_store (ss_set_VeDelegations (<[(d, v) := x]> (ss_VeDelegations s)) s) i =
  booked_store s i - at_key (fun _ d => vd_amt i d) (ss_VeDelegations s) (d, v) + vd_amt i x.
Proof. unfold booked_store. simpl. rewrite map_sum_insert. lia. Qed.

Lemma booked_del_del s d v i :
  booked_store (ss_set_VeDelegations (delete (d, v) (ss_VeDelegations s)) s) i =
  booked_store s i - at_key (fun _ d => vd_amt i d) (ss_VeDelegations s) (d, v).
Proof. unfold booked_store. simpl. rewrite map_sum_delete. lia. Qed.

Lemma store_ok_put_del s d v x :
  store_ok s → vd_at x d v → vd_ok x →
  store_ok (ss_set_VeDelegations (<[(d, v) := x]> (ss_VeDelegations s)) s).
Proof.
  intros [K1 K2 K3] Ha Ho. split; [|exact K2|exact K3]. simpl. intros d' v' x'.
  rewrite lookup_insert_Some. intros [[[= <- <-] <-]|[_ Hx]]; [done|auto].
Qed.

Lemma store_ok_del_del s d v :
  store_ok s → store_ok (ss_set_VeDelegations (delete (d, v) (ss_VeDelegations s)) s).
Proof.
  intros [K1 K2 K3]. split; [|exact K2|exact K3]. simpl. intros d' v' x'.
  rewrite lookup_delete_Some. intros [_ Hx]. auto.
Qed.

(** Only one record of delegations may differ. *)
Definition others_kept sc sc' (d v : Addr) : Prop :=
  ∀ d' v', (d', v') ≠ (d, v) → ss_VeDelegations (sc_s sc') !! (d', v') = ss_VeDelegations (sc_s sc) !! (d', v').

(** The record is written, or removed when it has no tokens. *)
Lemma put_record sc sc' d v x x' (b : bool) :
  (if b then RemoveVeDelegation sc x' else SetVeDelegation sc x') = Ok sc' →
  store_ok (sc_s sc) → vd_at x' d v → vd_ok x' → (b = true → ∀ i, vd_amt i x' = 0) →
  stored sc d v x →
  store_ok (sc_s sc') ∧ stored sc' d v x' ∧ sc_k sc' = sc_k sc ∧ sc_w sc' = sc_w sc ∧
  (∀ i, booked sc' i = booked sc i - vd_amt i x + vd_amt i x') ∧
  (∀ i, GetVeDelegatedAmount sc' i = GetVeDelegatedAmount sc i) ∧ others_kept sc sc' d v ∧
  ss_VeDelegations (sc_s sc') !! (d, v) = (if b then None else Some x').
Proof.
  intros E Hok Ha Ho Hz Hst. destruct b.
  - apply (RemoveVeDelegation_Ok _ _ _ _ _ E) in Ha as ->. split_and!; try done.
    + by apply store_ok_del_del.
    + right. split; [apply lookup_delete_eq|by apply Hz].
    + intros i. unfold booked, on_s. cbn [sc_s set_s]. rewrite booked_del_del, (stored_at_key _ _ _ x) by done.
      rewrite Hz by done. lia.
    + intros d' v' Hne. by apply lookup_delete_ne.
    + apply lookup_delete_eq.
  - apply (SetVeDelegation_Ok _ _ _ _ _ E) in Ha as E'; subst sc'. split_and!; try done.
    + by apply store_ok_put_del.
    + left. apply lookup_insert_eq.
    + intros i. unfold booked, on_s. cbn [sc_s set_s]. by rewrite booked_put_del, (stored_at_key _ _ _ x).
    + intros d' v' Hne. by apply lookup_insert_ne.
    + apply lookup_insert_eq.
Qed.

Lemma SettleVeDelegation_Ok ctx sc d v x val x' sc' :
  SettleVeDelegation ctx sc x val = Ok (x', sc') →
  store_ok (sc_s sc) → ss_VeDelegations (sc_s sc) !! (d, v) = Some x →
  book_step none_out sc sc' ∧ stored sc' d v x' ∧ vd_at x' d v ∧ vd_ok x' ∧ sc_k sc' = sc_k sc ∧
  Forall (settled val) (vd_VeShares x') ∧ (sh_VeId <$> vd_VeShares x') = (sh_VeId <$> vd_VeShares x) ∧
  (sh_Shares <$> vd_VeShares x') = (sh_Shares <$> vd_VeShares x) ∧ others_kept sc sc' d v.
Proof.
  unfold SettleVeDelegation. intros E Hok Hx. inv_ok E. subst.
  apply settle_shares_Ok in E0 as (A & K & I & S & F & G & L).
  apply VeDelegation_Shares_Ok in E1. cbn [vd_VeShares vd_set_VeShares] in E1.
  destruct (so_del _ Hok _ _ _ Hx) as [Hat [Hnd Hnn]].
  assert (vd_ok (vd_set_VeShares l x)) as Hvo.
  { split; cbn; [by rewrite I|]. change (Forall (Z.le 0 ∘ sh_Shares) l).
    apply Forall_fmap. rewrite S. by apply Forall_fmap. }
  assert (stored s d v x) as Hst by (left; destruct A as (_ & -> & _); done).
  eapply put_record in E2 as (O2 & T2 & K2 & W2 & B2 & D2 & X2 & _);
    [|by eapply amounts_only_ok|exact Hat|exact Hvo| |exact Hst]; cycle 1.
  { intros Hb i. apply Z.eqb_eq in Hb. rewrite Hb in E1. apply amt_zero. cbn.
    pose proof (shares_sum_zero l (proj2 Hvo) (eq_sym E1)) as Hz.
    rewrite Forall_forall in Hz, F |- *. intros s' Hs'. eapply settled_zero; eauto. }
  split_and!; try done; [split; [done| |]|by rewrite K2|]; cycle 2.
  { intros d' v' Hne. rewrite (X2 _ _ Hne). by destruct A as (_ & -> & _). }
  - intros i. unfold gap, none_out. rewrite B2, D2, (amounts_only_booked _ _ _ A). specialize (G i).
    change (vd_amt i (vd_set_VeShares l x)) with (sh_list_amt i l). unfold vd_amt. lia.
  - intros i. unfold slack. rewrite D2, W2. specialize (L i). unfold slack in L. lia.
Qed.

(** ** Delegating *)

Definition sv_ok (v : SValidator) : Prop := 0 ≤ sv_Tokens v ∧ 0 ≤ sv_DelegatorShares v.

Lemma GetSharesByVeID_amt x i j :
  from_option (sh_amt j) 0 (find_shares (vd_VeShares x) i) = sh_amt j (GetSharesByVeID x i).1.
Proof. unfold GetSharesByVeID. destruct (find_shares _ _); [done|]. unfold sh_amt. simpl. by destruct (_ =? _). Qed.

Lemma GetSharesByVeID_id x i : sh_VeId (GetSharesByVeID x i).1 = i.
Proof. unfold GetSharesByVeID. destruct (find_shares _ _) eqn:E; [|done]. by apply find_shares_id in E as [? _]. Qed.

Lemma GetSharesByVeID_nonneg x i : vd_ok x → 0 ≤ sh_Shares (GetSharesByVeID x i).1.
Proof.
  intros [_ Hn]. unfold GetSharesByVeID. destruct (find_shares _ _) as [s|] eqn:E; [|done].
  apply find_shares_id in E as [_ Hs]. by eapply Forall_forall in Hn.
Qed.

(** A record with added tokens and shares of one lock. *)
Lemma add_record x i t n s :
  AddTokensAndShares (GetSharesByVeID x i).1 t n = Ok s → vd_ok x → 0 ≤ n →
  vd_ok (SetSharesByVeID x s) ∧
  ∀ j, vd_amt j (SetSharesByVeID x s) = vd_amt j x + (if decide (j = i) then t else 0).
Proof.
  unfold AddTokensAndShares. intros E Hx Hn. inv_ok E. sdk_inv. split.
  - destruct Hx as [Hx1 Hx2]. split; cbn [vd_VeShares SetSharesByVeID vd_set_VeShares].
    + by apply put_shares_NoDup.
    + apply put_shares_Forall; [done|]. cbn [sh_Shares].
      pose proof (GetSharesByVeID_nonneg x i (conj Hx1 Hx2)). lia.
  - intros j. unfold vd_amt. cbn [vd_VeShares SetSharesByVeID vd_set_VeShares].
    rewrite put_shares_amt. cbn [sh_VeId]. rewrite GetSharesByVeID_id, GetSharesByVeID_amt.
    unfold sh_amt. cbn [sh_VeId sh_TokensMayUnsettled]. rewrite GetSharesByVeID_id.
    destruct (i =? j) eqn:Ej; zbool; case_decide; lia || congruence.
Qed.

Lemma delegate_ve_Ok ctx val vt sc dl x tot sc' dl' x' tot' d v :
  delegate_ve ctx val (sc, dl, x, tot) vt = Ok (sc', dl', x', tot') →
  store_ok (sc_s sc) → stored sc d v x → vd_at x d v → vd_ok x → 0 ≤ vt_Tokens vt → sv_ok val →
  book_step none_out sc sc' ∧ stored sc' d v x' ∧ vd_at x' d v ∧ vd_ok x'.
Proof.
  unfold delegate_ve. intros E Hok Hst Hat Hvo Ht [Hv1 Hv2]. cbv zeta in E.
  destruct (vt_VeId vt =? EmptyVeID); [discriminate|]. inv_ok E. subst.
  assert (0 ≤ z) as Hd0 by by eapply AddValidatorTokensAndShares_nonneg.
  apply add_record in E4 as [Hvo' Ha]; [|done..].
  apply on_k_keeps in E3 as [Es Ew]. cbn [sc_s sc_w set_k on_s SetVeDelegatedAmount set_s] in Es, Ew.
  assert (stored r1 d v x) as Hst1.
  { destruct Hst as [Hs|[Hs Hz]]; [left|right; split; [|done]]; rewrite Es; exact Hs. }
  assert (vd_at (SetSharesByVeID x r2) d v) as Hat' by exact Hat.
  eapply (put_record _ _ d v x _ false) in E5 as (O & T & _ & W & B & D & _); try done;
    [|rewrite Es; by destruct Hok].
  split_and!; try done. sdk_inv. split; [done| |]; intros j.
  - unfold gap, none_out. rewrite B, Ha, D.
    assert (booked r1 j = booked sc j) as -> by (unfold booked; by rewrite Es).
    assert (GetVeDelegatedAmount r1 j = GetVeDelegatedAmount sc j + (if decide (j = vt_VeId vt) then vt_Tokens vt else 0)) as ->.
    { transitivity (GetVeDelegatedAmount (SetVeDelegatedAmount sc (vt_VeId vt) (GetVeDelegatedAmount sc (vt_VeId vt) + vt_Tokens vt)) j).
      - unfold GetVeDelegatedAmount at 1. by rewrite Es.
      - rewrite delegated_set. case_decide; subst; lia. }
    lia.
  - unfold slack. rewrite D, W.
    assert (GetLockedAmountByUser (sc_w r1) j = GetLockedAmountByUser (sc_w sc) j) as ->
      by (unfold GetLockedAmountByUser; by rewrite Ew).
    assert (GetVeDelegatedAmount r1 j = if decide (j = vt_VeId vt) then GetVeDelegatedAmount sc (vt_VeId vt) + vt_Tokens vt else GetVeDelegatedAmount sc j) as ->.
    { rewrite <- delegated_set. unfold GetVeDelegatedAmount at 1. by rewrite Es. }
    zbool. case_decide; subst; lia.
Qed.

Lemma delegate_ve_all ctx val vts sc dl x tot sc' dl' x' tot' d v :
  for_each (delegate_ve ctx val) vts (sc, dl, x, tot) = Ok (sc', dl', x', tot') →
  store_ok (sc_s sc) → stored sc d v x → vd_at x d v → vd_ok x →
  Forall (fun vt => 0 ≤ vt_Tokens vt) vts → sv_ok val →
  book_step none_out sc sc'.
Proof.
  revert sc dl x tot. induction vts as [|vt vts IH]; intros sc dl x tot E Hok Hst Hat Hvo Hf Hv; cbn [for_each] in E.
  - injection E as <- <- <- <-. apply keeps_step; [apply keeps_refl|done].
  - apply bind_Ok in E as ([[[sc1 dl1] x1] tot1] & E1 & E). inversion Hf; subst.
    eapply (delegate_ve_Ok _ _ _ _ _ _ _ _ _ _ _ d v) in E1 as (B & T & A & V); [|done..].
    eapply book_step_then; [exact B|]. eapply IH; try done. by apply B.
Qed.

Lemma delegate_coins_keeps sc d amt src val sub sc' :
  delegate_coins sc d amt src val sub = Ok sc' → keeps sc sc'.
Proof.
  unfold delegate_coins. intros E. destruct sub.
  - case_decide; [discriminate|]. inv_ok E. by eapply on_b_keeps.
  - destruct src, (sv_IsBonded val); try discriminate;
      first [by injection E as <-|by eapply on_b_keeps].
Qed.

Lemma delegate_unconstrained_keeps sc d amt src val sub dl sc' dl' n :
  delegate_unconstrained sc d amt src val sub dl = Ok (sc', dl', n) → keeps sc sc'.
Proof.
  unfold delegate_unconstrained. intros E. inv_ok E; subst; [|apply keeps_refl].
  apply delegate_coins_keeps in E0. apply on_k_keeps in E3.
  eapply keeps_trans; [exact E0|]. eapply keeps_trans; [apply keeps_set_k|exact E3].
Qed.

(** The shares of a validator are not part of the books. *)
Lemma SetVeValidator_step sc x sc' :
  SetVeValidator sc x = Ok sc' → store_ok (sc_s sc) → book_step none_out sc sc'.
Proof.
  unfold SetVeValidator. intros E [K1 K2 K3]. inv_ok E. subst.
  split; [by split|intros i; unfold none_out; unfold gap, booked, booked_store, GetVeDelegatedAmount; simpl; lia|done].
Qed.

Lemma add_ve_validator_step sc val a n sc' :
  add_ve_validator sc val a n = Ok sc' → store_ok (sc_s sc) → book_step none_out sc sc'.
Proof.
  unfold add_ve_validator. intros E Hok. inv_ok E; [by eapply SetVeValidator_step|].
  subst. apply keeps_step; [apply keeps_refl|done].
Qed.

(** An address that was read from its bech32 form. *)
Definition is_addr (d : Addr) : Prop := ∃ s, AccAddressFromBech32 s = Ok d.
Definition is_val_addr (v : Addr) : Prop := ∃ s, ValAddressFromBech32 s = Ok v.

Lemma stored_keeps sc sc' d v x : keeps sc sc' → stored sc d v x → stored sc' d v x.
Proof. intros [E _]. unfold stored. by rewrite E. Qed.

Lemma VeDelegate_step ctx sc d amt vts src val sub sc' n :
  VeDelegate ctx sc d amt vts src val sub = Ok (sc', n) →
  store_ok (sc_s sc) → Forall (fun vt => 0 ≤ vt_Tokens vt) vts → sv_ok val → is_addr d →
  book_step none_out sc sc'.
Proof.
  unfold VeDelegate. intros E Hok Hf Hv [sd Hd]. inv_ok E. subst.
  assert (book_step none_out sc s ∧ stored s d r v ∧ vd_at v d r ∧ vd_ok v) as (B & T & A & V).
  { unfold GetVeDelegation in E1. destruct (ss_VeDelegations (sc_s sc) !! (d, r)) as [x0|] eqn:Hx.
    - eapply SettleVeDelegation_Ok in E1 as (? & ? & ? & ? & _); [by split_and!|done..].
    - injection E1 as <- <-. split_and!.
      + apply keeps_step; [apply keeps_refl|done].
      + right. done.
      + split; simpl; intros a Ha.
        * rewrite (AccAddress_roundtrip _ _ Hd) in Ha. congruence.
        * apply sv_String_other in Ha. congruence.
      + split; constructor. }
  apply on_kb_keeps in E2. apply delegate_unconstrained_keeps in E5.
  pose proof (keeps_trans _ _ _ E2 E5) as K.
  pose proof (keeps_step _ _ K (bs_ok _ _ _ B)) as B2.
  eapply delegate_ve_all in E6; [|apply B2|by eapply stored_keeps|done..].
  apply add_ve_validator_step in E7; [|apply E6]. apply on_kb_keeps in E9.
  eapply book_step_then; [exact B|]. eapply book_step_then; [exact B2|].
  eapply book_step_then; [exact E6|]. eapply book_step_then; [exact E7|].
  eapply keeps_step; [done|apply E7].
Qed.
End StakingOps.
