(* ===== verification/StakingUnbond.v ===== *)
(** Unbonding: the loop that takes shares from the locked parts of a
    delegation, against a reference definition, and what [Unbond] does to the
    books. *)

From stdpp Require Import base gmap strings list fin_maps.
From Stdlib Require Import ZArith Lia.
From S2P Require Import Prelude Sdk SdkExt Types VeTypes World VeKeeper VeVoting VeMsg VeInv SdkStaking StakingTypes Staking StakingBook.

#[local] Open Scope Z_scope.

(** ** The reference

    Taking [r] shares from a list of locks with their shares, in order. *)
Fixpoint take_shares (r : Dec) (l : list (Z * Dec)) : list (Z * Dec) :=
  match l with
  | [] => []
  | (i, s) :: l' =>
      if r =? 0 then l
      else if s <=? r then take_shares (r - s) l'
      else (i, s - r) :: l'
  end.

(** The locks of a record with their shares. *)
Definition holdings (l : list VeShares) : list (Z * Dec) := (fun s => (sh_VeId s, sh_Shares s)) <$> l.

Lemma take_shares_zero l : take_shares 0 l = l.
Proof. by destruct l as [|[i s] l]. Qed.

Lemma take_shares_sum r l :
  Forall (fun p => 0 ≤ p.2) l → 0 ≤ r ≤ list_sum snd l →
  list_sum snd (take_shares r l) = list_sum snd l - r.
Proof.
  revert r. induction l as [|[i s] l IH]; intros r Hl Hr; [cbn in *; lia|].
  inversion Hl; subst. rewrite list_sum_cons in Hr |- *. cbn [snd take_shares] in *.
  destruct (r =? 0) eqn:E0; zbool; [subst; rewrite list_sum_cons; simpl; lia|].
  destruct (s <=? r) eqn:E1; zbool.
  - rewrite IH; [lia|done|lia].
  - rewrite list_sum_cons. simpl. lia.
Qed.

Lemma take_shares_NoDup r l : NoDup l.*1 → NoDup (take_shares r l).*1.
Proof.
  revert r. induction l as [|[i s] l IH]; intros r Hd; simpl in *; [done|].
  apply NoDup_cons in Hd as [Hn Hd]. destruct (r =? 0); [by apply NoDup_cons|].
  destruct (s <=? r); [auto|]. by apply NoDup_cons.
Qed.

Lemma take_shares_nonneg r l : Forall (fun p => 0 ≤ p.2) l → Forall (fun p => 0 ≤ p.2) (take_shares r l).
Proof.
  revert r. induction l as [|[i s] l IH]; intros r Hl; simpl; [done|]. inversion Hl; subst.
  destruct (r =? 0); [done|]. destruct (s <=? r) eqn:E; zbool; [auto|]. constructor; [simpl; lia|done].
Qed.

Lemma holdings_ids l : (holdings l).*1 = sh_VeId <$> l.
Proof. unfold holdings. by rewrite <- list_fmap_compose. Qed.

Lemma holdings_sum l : list_sum snd (holdings l) = shares_sum l.
Proof. unfold shares_sum. induction l as [|s l IH]; [done|]. rewrite list_sum_cons, <- IH. done. Qed.

Lemma vd_ok_holdings x :
  vd_ok x ↔ NoDup (holdings (vd_VeShares x)).*1 ∧ Forall (fun p => 0 ≤ p.2) (holdings (vd_VeShares x)).
Proof. unfold vd_ok. rewrite holdings_ids. unfold holdings. by rewrite Forall_fmap. Qed.

Section StakingUnbond.
Context `{!Sdk, !SdkExt, !BankKeeper, !NftKeeper, !SdkStaking, !SdkLaws, !BankLaws, !SdkExtLaws, !SdkStakingLaws}.
Implicit Types (sc : SChain) (ctx : Ctx).

(** The amounts recorded as delegated fall by what was taken. *)
Definition recorded_less sc sc' (x : Z → Z) : Prop :=
  ∀ j, GetVeDelegatedAmount sc' j = GetVeDelegatedAmount sc j - x j.

(** ** One round *)

(** What a round takes from one lock: tokens are returned for the shares taken,
    and none are left when all shares are. *)
Lemma round_taken sc val upd s r vts tok vts' amt :
  (if 0 <? Z.min r (sh_Shares s) then
     t ← sv_TokensFromShares val (Z.min r (sh_Shares s));
     amt ← Dec_TruncateInt t;
     tokens ← Int_Sub (sh_TokensMayUnsettled s) amt;
     if tokens <? 0 then Panic else
     veDelegatedAmt ← (if (upd : bool) then Int_Sub (GetVeDelegatedAmount sc (sh_VeId s)) amt else Ok (GetVeDelegatedAmount sc (sh_VeId s)));
     Ok (tokens, vts ++ [mkVeTokens (sh_VeId s) amt], veDelegatedAmt)
   else Ok (sh_TokensMayUnsettled s, vts, GetVeDelegatedAmount sc (sh_VeId s))) = Ok (tok, vts', amt) →
  settled val s → 0 ≤ sh_Shares s → 0 < r → sv_ok val →
  ∃ new, vts' = vts ++ new ∧ Forall (fun vt => 0 ≤ vt_Tokens vt) new ∧
    (∀ j, (if sh_VeId s =? j then tok else 0) + vt_amt j new = sh_amt j s) ∧
    amt = GetVeDelegatedAmount sc (sh_VeId s) - (if upd then vt_amt (sh_VeId s) new else 0) ∧
    (∀ j, j ≠ sh_VeId s → vt_amt j new = 0) ∧ (sh_Shares s ≤ r → tok = 0).
Proof.
  intros E3 Hs Hn Hr [Hv1 Hv2]. set (mn := Z.min r (sh_Shares s)) in *. destruct (0 <? mn) eqn:Em; zbool.
  - inv_ok E3. subst. exists [mkVeTokens (sh_VeId s) r1]. sdk_inv. unfold vt_amt, sh_amt.
    pose proof (sv_TokensFromShares_nonneg _ _ _ E ltac:(lia) Hv1 Hv2) as Hp.
    pose proof (Dec_TruncateInt_bounds _ _ E0 Hp) as [Hp' _].
    cbn. rewrite Z.eqb_refl. split_and!; try done.
    + by repeat constructor.
    + intros j. destruct (sh_VeId s =? j); lia.
    + match goal with K : (if upd then _ else _) = Ok _ |- _ => destruct upd; [apply Int_Sub_Ok in K|injection K as <-]; lia end.
    + intros j Hj. destruct (sh_VeId s =? j) eqn:Ej; zbool; [congruence|lia].
    + intros Hle. destruct Hs as (t & Ht1 & Ht2). replace mn with (sh_Shares s) in E by lia.
      rewrite Ht1 in E. injection E as <-. rewrite Ht2 in E0. injection E0 as <-. lia.
  - injection E3 as <- <- <-. exists []. rewrite app_nil_r. split_and!; try done.
    + intros j. unfold sh_amt, vt_amt. cbn. lia.
    + unfold vt_amt. cbn. destruct upd; lia.
    + intros _. apply (settled_zero val); [done|lia].
Qed.

Lemma unbond_round_Ok sc val upd pre s rest x r vts sc' x' r' vts' rm :
  unbond_round sc val upd (length pre) s x r vts = Ok (sc', x', r', vts', rm) →
  vd_VeShares x = pre ++ s :: rest → NoDup (sh_VeId <$> vd_VeShares x) →
  settled val s → 0 ≤ sh_Shares s → 0 < r → sv_ok val →
  ∃ ms new,
    vd_VeShares x' = pre ++ ms ++ rest ∧ rm = bool_decide (ms = []) ∧ vts' = vts ++ new ∧
    holdings ms = (if sh_Shares s <=? r then [] else [(sh_VeId s, sh_Shares s - r)]) ∧
    r' = r - Z.min r (sh_Shares s) ∧ Forall (fun vt => 0 ≤ vt_Tokens vt) new ∧
    (∀ j, sh_list_amt j ms + vt_amt j new = sh_amt j s) ∧
    amounts_only sc sc' ∧ sc_k sc' = sc_k sc ∧ sc_w sc' = sc_w sc ∧
    recorded_less sc sc' (fun j => if upd then vt_amt j new else 0) ∧
    vd_DelegatorAddress x' = vd_DelegatorAddress x ∧ vd_ValidatorAddress x' = vd_ValidatorAddress x.
Proof.
  unfold unbond_round. intros E Hl Hd Hs Hn Hr Hv. cbv zeta in E.
  apply bind_Ok in E as (sh' & E1 & E). apply bind_Ok in E as (r1 & E2 & E). sdk_inv.
  apply bind_Ok in E as ([[tok vts1] amt1] & E3 & E).
  eapply round_taken in E3 as (new & -> & Hnew & Hamt & -> & Hother & Hz); [|done..].
  set (mn := Z.min r (sh_Shares s)) in *.
  destruct (sh_Shares s - mn =? 0) eqn:Ez; zbool; injection E as <- <- <- <- <-.
  - exists [], new. split_and!; try done.
    + cbn [vd_VeShares RemoveSharesByIndex vd_set_VeShares]. rewrite Hl, take_app_length.
      f_equal. replace (S (length pre)) with (length (pre ++ [s])) by (rewrite length_app; simpl; lia).
      rewrite (app_assoc pre [s] rest : pre ++ s :: rest = _). by rewrite drop_app_length.
    + by rewrite (proj2 (Z.leb_le _ _)) by lia.
    + intros j. rewrite <- Hamt, Hz by lia. unfold sh_list_amt. cbn. by destruct (_ =? _).
    + destruct upd; [apply amounts_only_put|apply amounts_only_refl].
    + by destruct upd; [apply put_frame|].
    + by destruct upd; [apply put_frame|].
    + intros j. destruct upd; [|lia]. rewrite delegated_put. case_decide; [subst; lia|]. rewrite Hother by done. lia.
  - exists [mkVeShares (sh_VeId s) tok (sh_Shares s - mn)], new.
    split_and!; try done.
    + cbn [vd_VeShares SetSharesByVeID vd_set_VeShares].
      rewrite (put_shares_at _ (length pre) s) by (try done; rewrite Hl, list_lookup_middle; done).
      rewrite Hl, insert_app_r_alt by lia. by rewrite Nat.sub_diag.
    + rewrite (proj2 (Z.leb_gt _ _)) by lia. unfold holdings. cbn. repeat f_equal. lia.
    + intros j. rewrite <- Hamt. unfold sh_list_amt. rewrite list_sum_cons, list_sum_nil. unfold sh_amt. simpl. lia.
    + destruct upd; [apply amounts_only_put|apply amounts_only_refl].
    + by destruct upd; [apply put_frame|].
    + by destruct upd; [apply put_frame|].
    + intros j. destruct upd; [|lia]. rewrite delegated_put. case_decide; [subst; lia|]. rewrite Hother by done. lia.
Qed.

(** ** The loop *)

Lemma recorded_less_refl sc : recorded_less sc sc (fun _ => 0).
Proof. intros j. lia. Qed.

Lemma recorded_less_trans sc1 sc2 sc3 f g h :
  recorded_less sc1 sc2 f → recorded_less sc2 sc3 g → (∀ j, h j = f j + g j) → recorded_less sc1 sc3 h.
Proof. intros F G Hh j. rewrite G, F, Hh. lia. Qed.

(** The entries after a round: the locks stay distinct, and the next index is
    after what is left of this one. *)
Lemma round_ids_NoDup (pre ms rest : list VeShares) s (r : Z) :
  NoDup (sh_VeId <$> pre ++ s :: rest) → holdings ms = (if sh_Shares s <=? r then [] else [(sh_VeId s, sh_Shares s - r)]) →
  NoDup (sh_VeId <$> pre ++ ms ++ rest) ∧ length (pre ++ ms) = (if bool_decide (ms = []) then length pre else S (length pre)).
Proof.
  intros Hd M1. rewrite !fmap_app in *. apply NoDup_app in Hd as (D & D' & D''). cbn in D', D''. apply NoDup_cons in D'' as [D3 D4].
  rewrite length_app. destruct (sh_Shares s <=? r).
  - apply fmap_nil_inv in M1 as ->. split; [|simpl; lia].
    apply NoDup_app. cbn. split_and!; [done| |done]. intros y Hy Hy'. apply (D' y Hy). by right.
  - destruct ms as [|m [|? ?]]; try discriminate. injection M1 as M1 _. split; [|simpl; lia].
    apply NoDup_app. cbn. rewrite M1. split_and!; [done|done|by apply NoDup_cons].
Qed.

Lemma unbond_loop_Ok val upd rest pre sc x r vts sc' x' r' vts' :
  unbond_loop (length rest) sc val upd (length pre) x r vts = Ok (sc', x', r', vts') →
  vd_VeShares x = pre ++ rest → NoDup (sh_VeId <$> vd_VeShares x) →
  Forall (settled val) rest → Forall (fun s => 0 ≤ sh_Shares s) rest → 0 ≤ r → sv_ok val →
  ∃ rest' new,
    vd_VeShares x' = pre ++ rest' ∧ holdings rest' = take_shares r (holdings rest) ∧
    vts' = vts ++ new ∧ Forall (fun vt => 0 ≤ vt_Tokens vt) new ∧ r' = r - Z.min r (shares_sum rest) ∧
    (∀ j, sh_list_amt j rest' + vt_amt j new = sh_list_amt j rest) ∧
    amounts_only sc sc' ∧ sc_k sc' = sc_k sc ∧ sc_w sc' = sc_w sc ∧
    recorded_less sc sc' (fun j => if upd then vt_amt j new else 0) ∧
    vd_DelegatorAddress x' = vd_DelegatorAddress x ∧ vd_ValidatorAddress x' = vd_ValidatorAddress x.
Proof.
  revert pre sc x r vts. induction rest as [|s rest IH]; intros pre sc x r vts E Hl Hd Hs Hn Hr Hv; cbn [length unbond_loop] in E.
  { injection E as <- <- <- <-. exists [], []. rewrite !app_nil_r in *. split_and!; try done.
    - unfold shares_sum. cbn. lia.
    - intros j. unfold vt_amt. cbn. destruct upd; lia. }
  rewrite Hl, list_lookup_middle in E by done. inversion Hs; inversion Hn; subst.
  destruct (r =? 0) eqn:E0; zbool.
  { injection E as <- <- <- <-. subst r. exists (s :: rest), []. rewrite take_shares_zero, app_nil_r.
    split_and!; try done.
    - pose proof (list_sum_nonneg sh_Shares (s :: rest) Hn). unfold shares_sum. lia.
    - intros j. unfold vt_amt. cbn. lia.
    - intros j. unfold vt_amt. cbn. destruct upd; lia. }
  apply bind_Ok in E as ([[[[sc1 x1] r1] vts1] rm] & E1 & E).
  eapply unbond_round_Ok in E1 as (ms & new & L1 & -> & -> & M1 & -> & N1 & A1 & O1 & K1 & W1 & D1 & P1 & Q1);
    [|done|done|done|done|lia|done].
  pose proof (list_sum_nonneg sh_Shares rest) as Hnn. change (list_sum sh_Shares rest) with (shares_sum rest) in Hnn.
  assert (shares_sum (s :: rest) = sh_Shares s + shares_sum rest) as Hsum by apply list_sum_cons.
  rewrite Hl in Hd. destruct (round_ids_NoDup _ _ _ _ _ Hd M1) as [Hd1 Hlen]. rewrite <- L1 in Hd1.
  rewrite <- Hlen in E. rewrite app_assoc in L1.
  eapply IH in E as (rest' & new' & L2 & M2 & -> & N2 & R2 & A2 & O2 & K2 & W2 & D2 & P2 & Q2);
    [|done|done|done|done|lia|done].
  exists (ms ++ rest'), (new ++ new'). rewrite <- app_assoc in L2. split_and!; try congruence.
  - unfold holdings in *. rewrite fmap_app, M1, M2. cbn [fmap list_fmap take_shares].
    rewrite (proj2 (Z.eqb_neq _ _)) by done.
    destruct (sh_Shares s <=? r) eqn:Es; zbool; cbn.
    + by rewrite Z.min_r by lia.
    + rewrite Z.min_l, Z.sub_diag by lia. by rewrite take_shares_zero.
  - by rewrite app_assoc.
  - by apply Forall_app.
  - rewrite R2, Hsum. specialize (Hnn ltac:(done)). lia.
  - intros j. rewrite sh_list_amt_app, vt_amt_app. specialize (A1 j). specialize (A2 j).
    unfold sh_list_amt at 3. rewrite list_sum_cons. change (list_sum (sh_amt j) rest) with (sh_list_amt j rest). lia.
  - by eapply amounts_only_trans.
  - eapply recorded_less_trans; [exact D1|exact D2|]. intros j. rewrite vt_amt_app. destruct upd; lia.
Qed.

(** ** [Unbond] *)

(** The validator after the check of its own delegation is worth the same. *)
Lemma jail_if_below_Ok ctx sc val d sh sc' val' v :
  jail_if_below ctx sc val d sh = Ok (sc', val') → GetValidator (sc_k sc) v = Some val →
  keeps sc sc' ∧ queue_frame (sc_k sc) (sc_k sc') ∧ sv_ok val' ∧
  ∀ x, sv_TokensFromShares val' x = sv_TokensFromShares val x.
Proof.
  unfold jail_if_below. intros E Hv. pose proof (GetValidator_operator _ _ _ Hv) as Hop.
  rewrite Hop in E. simpl in E. apply bind_Ok in E as (below & _ & E). destruct below.
  - apply bind_Ok in E as (sc1 & E1 & E). destruct (GetValidator (sc_k sc1) v) as [val1|] eqn:Hv1; [|discriminate].
    injection E as <- <-. pose proof (on_k_keeps _ _ _ E1). unfold on_k in E1. inv_ok E1. subst sc1.
    split_and!; [done|by eapply JailValidator_frame|by eapply GetValidator_nonneg|].
    intros x. by eapply JailValidator_Ok.
  - injection E as <- <-. split_and!; [apply keeps_refl|done|by eapply GetValidator_nonneg|done].
Qed.

Lemma unbond_finish_step ctx sc dl d val sh tv sc' amt :
  unbond_finish ctx sc dl d val sh tv = Ok (sc', amt) → store_ok (sc_s sc) → book_step none_out sc sc'.
Proof.
  unfold unbond_finish. intros E Hok. apply bind_Ok in E as (sc1 & E1 & E).
  assert (keeps sc sc1) as K1.
  { inv_ok E1; [by eapply on_kb_keeps|]. eapply keeps_trans; [by eapply on_k_keeps|by eapply on_kb_keeps]. }
  apply bind_Ok in E as ([[k val'] amt'] & _ & E). apply bind_Ok in E as (op & _ & E).
  assert (keeps sc (set_k k sc1)) as K2 by (eapply keeps_trans; [exact K1|apply keeps_set_k]).
  eapply book_step_then; [by eapply keeps_step|].
  assert (store_ok (sc_s (set_k k sc1))) as Hok2 by (destruct K2 as [-> _]; done).
  destruct (_ && _).
  - apply bind_Ok in E as (sc2 & E2 & E). injection E as <- <-. apply on_kb_keeps in E2.
    eapply book_step_then; [by eapply keeps_step|]. destruct E2 as [E2 _]. rewrite <- E2 in Hok2.
    destruct Hok2. split; [by split| |done]. intros i. unfold none_out, gap, booked, booked_store, GetVeDelegatedAmount. simpl. lia.
  - destruct (0 <? tv); [|injection E as <- <-; apply keeps_step; [apply keeps_refl|done]].
    destruct (GetVeValidator _ _); [|discriminate]. inv_ok E. subst. by eapply SetVeValidator_step.
Qed.

(** The shares of the locked part that an unbonding of [sh] shares takes: what
    exceeds the shares that are not locked. *)
Definition locked_part (dl : Delegation) (x : VeDelegation) (sh : Dec) : Dec :=
  Z.max (sh - (dl_Shares dl - shares_sum (vd_VeShares x))) 0.

Definition takes_out (upd : bool) (vts : VeTokensSlice) : Z → Z :=
  fun i => if upd then 0 else vt_amt i vts.

(** What an unbonding with locked parts does: the holdings of the record are
    those of the reference, other records stay, and the books lose what is
    returned. *)
Record unbonded sc sc' (d v : Addr) (dl : Delegation) (x : VeDelegation) (sh : Dec) (upd : bool)
    (vts : VeTokensSlice) : Prop := {
  un_step : book_step (takes_out upd vts) sc sc';
  un_nonneg : Forall (fun vt => 0 ≤ vt_Tokens vt) vts;
  un_enough : locked_part dl x sh ≤ shares_sum (vd_VeShares x);
  un_holdings : holdings (default [] (vd_VeShares <$> ss_VeDelegations (sc_s sc') !! (d, v))) =
                take_shares (locked_part dl x sh) (holdings (vd_VeShares x));
  un_others : others_kept sc sc' d v;
}.

Lemma unbond_finish_records ctx sc dl d val sh tv sc' amt :
  unbond_finish ctx sc dl d val sh tv = Ok (sc', amt) → ss_VeDelegations (sc_s sc') = ss_VeDelegations (sc_s sc).
Proof.
  unfold unbond_finish. intros E. apply bind_Ok in E as (sc1 & E1 & E).
  assert (keeps sc sc1) as [K1 _].
  { inv_ok E1; [by eapply on_kb_keeps|]. eapply keeps_trans; [by eapply on_k_keeps|by eapply on_kb_keeps]. }
  rewrite <- K1. apply bind_Ok in E as ([[k val'] amt'] & _ & E). apply bind_Ok in E as (op & _ & E).
  destruct (_ && _).
  - apply bind_Ok in E as (sc2 & E2 & E). injection E as <- <-. apply on_kb_keeps in E2 as [E2 _].
    simpl. by rewrite E2.
  - destruct (0 <? tv); [|by injection E as <- <-].
    destruct (GetVeValidator _ _); [|discriminate]. unfold SetVeValidator in E. inv_ok E. inv_ok E2. by subst.
Qed.

(** The locked part never exceeds the locked shares. *)
Lemma locked_part_bounds dl x sh :
  sh ≤ dl_Shares dl → 0 ≤ shares_sum (vd_VeShares x) →
  0 ≤ locked_part dl x sh ≤ shares_sum (vd_VeShares x).
Proof. unfold locked_part. lia. Qed.

Lemma holdings_same (l1 l2 : list VeShares) :
  sh_VeId <$> l1 = sh_VeId <$> l2 → sh_Shares <$> l1 = sh_Shares <$> l2 → holdings l1 = holdings l2.
Proof.
  unfold holdings. revert l2. induction l1 as [|a l1 IH]; intros [|b l2] I2 S2; try discriminate; [done|].
  cbn in *. injection I2 as -> I2. injection S2 as -> S2. f_equal. by apply IH.
Qed.

(** The loop and the write of the record: the holdings are those of the
    reference, and the books lose what is returned. *)
Lemma unbond_write val upd sc x r sc1 x1 r1 vts sc2 d v :
  unbond_loop (length (vd_VeShares x)) sc val upd 0 x r [] = Ok (sc1, x1, r1, vts) →
  (match vd_VeShares x1 with [] => RemoveVeDelegation sc1 x1 | _ => SetVeDelegation sc1 x1 end) = Ok sc2 →
  store_ok (sc_s sc) → stored sc d v x → vd_at x d v → vd_ok x → Forall (settled val) (vd_VeShares x) → sv_ok val → 0 ≤ r →
  book_step (takes_out upd vts) sc sc2 ∧ Forall (fun vt => 0 ≤ vt_Tokens vt) vts ∧ others_kept sc sc2 d v ∧
  holdings (default [] (vd_VeShares <$> ss_VeDelegations (sc_s sc2) !! (d, v))) = take_shares r (holdings (vd_VeShares x)).
Proof.
  intros E8 E9 Hok Hst Hat V2 F2 V6 Hr.
  eapply (unbond_loop_Ok _ _ (vd_VeShares x) []) in E8
    as (rest & new & L8 & M8 & -> & N8 & R8 & A8 & O8 & K8 & W8 & D8 & P8 & Q8); [|done|apply V2|done|apply V2|done|done].
  rewrite app_nil_l in L8. subst rest. change ([] ++ new) with new.
  assert (vd_ok x1) as V4.
  { apply vd_ok_holdings. rewrite M8. apply vd_ok_holdings in V2 as [V2 V2'].
    split; [by apply take_shares_NoDup|by apply take_shares_nonneg]. }
  assert (vd_at x1 d v) as At4 by (destruct Hat; split; [rewrite P8|rewrite Q8]; done).
  assert (stored sc1 d v x) as T4 by (destruct O8 as (_ & O8 & _); unfold stored; by rewrite O8).
  assert ((if bool_decide (vd_VeShares x1 = []) then RemoveVeDelegation sc1 x1 else SetVeDelegation sc1 x1) = Ok sc2) as E9'
    by (by destruct (vd_VeShares x1)).
  eapply put_record in E9' as (O9 & T9 & K9 & W9 & B9 & D9 & X9 & Y9);
    [|by eapply amounts_only_ok|exact At4|exact V4| |exact T4]; cycle 1.
  { intros He%bool_decide_eq_true i. unfold vd_amt. by rewrite He. }
  split_and!; [split; [done| |]|done| |].
  - intros i. unfold gap, takes_out. rewrite B9, D9, (amounts_only_booked _ _ _ O8), D8.
    specialize (A8 i). unfold vd_amt. destruct upd; lia.
  - intros i Hi. unfold slack in *. rewrite D9, W9, W8, D8. destruct upd; [|lia].
    enough (0 ≤ vt_amt i new) by lia. unfold vt_amt. apply list_sum_nonneg.
    eapply Forall_impl; [exact N8|]. intros vt Hvt. simpl in *. destruct (_ =? _); lia.
  - intros d' v' Hne. rewrite (X9 _ _ Hne). by destruct O8 as (_ & -> & _).
  - rewrite Y9, <- M8. destruct (vd_VeShares x1) eqn:E4'; simpl; [done|by rewrite E4'].
Qed.

Lemma Unbond_Ok ctx sc d v sh upd sc' amt vts dl x :
  Unbond ctx sc d v sh upd = Ok (sc', amt, vts) → store_ok (sc_s sc) →
  GetDelegation (sc_k sc) d v = Some dl → GetVeDelegation sc d v = Some x →
  unbonded sc sc' d v dl x sh upd vts.
Proof.
  unfold Unbond. intros E Hok Hdl Hx. rewrite Hdl, Hx in E.
  apply bind_Ok in E as (sc1 & E1 & E). apply guard_err_Ok in E as [Hle E]. zbool.
  destruct (GetValidator (sc_k sc1) v) as [val|] eqn:Hval; [|discriminate].
  apply on_kb_keeps in E1. pose proof (keeps_step _ _ E1 Hok) as B1.
  apply bind_Ok in E as ([x2 sc2] & E2 & E).
  eapply (SettleVeDelegation_Ok _ _ d v) in E2 as (B2 & T2 & A2 & V2 & K2 & F2 & I2 & S2 & X2);
    [|apply B1|destruct E1 as [-> _]; exact Hx].
  apply bind_Ok in E as (tot & E3 & E). apply VeDelegation_Shares_Ok in E3.
  apply bind_Ok in E as (free & E4 & E). apply bind_Ok in E as (lft & E5 & E).
  cbv zeta in E. apply bind_Ok in E as (da & _ & E). apply bind_Ok in E as ([sc3 val3] & E6 & E).
  eapply jail_if_below_Ok in E6 as (K6 & _ & V6 & T6); [|by rewrite K2].
  apply bind_Ok in E as (over & E7 & E). sdk_inv.
  apply bind_Ok in E as ([[[sc4 x4] r4] vts4] & E8 & E).
  pose proof (holdings_same _ _ I2 S2) as Hh.
  assert (shares_sum (vd_VeShares x2) = shares_sum (vd_VeShares x)) as Hsum by (by rewrite <- !holdings_sum, Hh).
  assert (Z.max (sh - (dl_Shares dl - shares_sum (vd_VeShares x2))) ZeroDec = locked_part dl x sh) as Hlp
    by (by rewrite Hsum).
  rewrite Hlp in E8, E.
  pose proof (list_sum_nonneg sh_Shares (vd_VeShares x2) (proj2 V2)) as Hnn.
  change (list_sum sh_Shares (vd_VeShares x2)) with (shares_sum (vd_VeShares x2)) in Hnn. rewrite Hsum in Hnn.
  pose proof (locked_part_bounds dl x sh Hle Hnn) as [Hb1 Hb2].
  apply bind_Ok in E as (sc5 & E9 & E). destruct (negb (r4 =? 0)); [discriminate|].
  apply bind_Ok in E as ([sc6 amt6] & E10 & E). injection E as -> -> <-.
  pose proof (keeps_step _ _ K6 (bs_ok _ _ _ B2)) as B6.
  eapply (unbond_write _ _ _ _ _ _ _ _ _ _ d v) in E8 as (B8 & N8 & X8 & H8);
    [|exact E9|apply B6|by eapply stored_keeps|done|done| |done|done]; cycle 1.
  { eapply Forall_impl; [exact F2|]. intros s (t & Ht & Htr). exists t. by rewrite T6. }
  pose proof (unbond_finish_step _ _ _ _ _ _ _ _ _ E10 (bs_ok _ _ _ B8)) as B10.
  pose proof (unbond_finish_records _ _ _ _ _ _ _ _ _ E10) as R10.
  split; [|done|done|by rewrite R10, H8, Hh|].
  - eapply book_step_then; [exact B1|]. eapply book_step_then; [exact B2|]. eapply book_step_then; [exact B6|].
    eapply book_step_out; [eapply (book_step_trans (takes_out upd vts4) none_out); [exact B8|exact B10]|unfold none_out; intros; lia].
  - intros d' v' Hne. rewrite R10, (X8 _ _ Hne). destruct K6 as [-> _]. rewrite (X2 _ _ Hne). by destruct E1 as [-> _].
Qed.

(** Without locked parts the SDK's own [Unbond] runs. *)
Lemma Unbond_None ctx sc d v sh upd sc' amt vts :
  Unbond ctx sc d v sh upd = Ok (sc', amt, vts) → GetVeDelegation sc d v = None →
  keeps sc sc' ∧ vts = [].
Proof.
  unfold Unbond. intros E Hx. rewrite Hx in E. destruct (GetDelegation _ _ _); [|discriminate].
  inv_ok E. subst. by split.
Qed.

Lemma Unbond_step ctx sc d v sh upd sc' amt vts :
  Unbond ctx sc d v sh upd = Ok (sc', amt, vts) → store_ok (sc_s sc) →
  book_step (takes_out upd vts) sc sc' ∧ Forall (fun vt => 0 ≤ vt_Tokens vt) vts.
Proof.
  intros E Hok. destruct (GetVeDelegation sc d v) as [x|] eqn:Hx.
  - destruct (GetDelegation (sc_k sc) d v) as [dl|] eqn:Hdl; [|unfold Unbond in E; by rewrite Hdl in E].
    pose proof (Unbond_Ok _ _ _ _ _ _ _ _ _ _ _ E Hok Hdl Hx) as []. done.
  - apply Unbond_None in E as [K ->]; [|done]. split; [|done].
    eapply book_step_out; [by eapply keeps_step|]. intros i. unfold none_out, takes_out, vt_amt. cbn. by destruct upd.
Qed.
End StakingUnbond.
