(* ===== verification/StakingInv.v ===== *)
(** Redelegation, undelegation and the completion of unbondings against the
    books. *)

From stdpp Require Import base gmap strings list fin_maps.
From Stdlib Require Import ZArith Lia.
From S2P Require Import Prelude Sdk Types VeTypes SdkExt World VeKeeper VeVoting VeMsg VeInv SdkStaking StakingTypes Staking StakingSlash StakingBook StakingUnbond.

#[local] Open Scope Z_scope.

Section StakingInv.
Context `{!Sdk, !SdkExt, !BankKeeper, !NftKeeper, !SdkStaking, !MapOrderU64, !SdkLaws, !BankLaws, !SdkExtLaws, !SdkStakingLaws}.
Context {OL : MapOrderU64Laws _}.
Implicit Types (sc : SChain) (ctx : Ctx).

(** ** Records of unbondings *)

Lemma SetVeUnbondingDelegation_Ok sc u sc' d v :
  SetVeUnbondingDelegation sc u = Ok sc' → vu_at u d v →
  sc' = on_s (fun s => ss_set_VeUnbondingDelegations (<[(d, v) := u]> (ss_VeUnbondingDelegations s)) s) sc.
Proof. unfold SetVeUnbondingDelegation. intros E [K1 K2]. rewrite K1, K2 in E. by injection E as <-. Qed.

Lemma RemoveVeUnbondingDelegation_Ok sc u sc' d v :
  RemoveVeUnbondingDelegation sc u = Ok sc' → vu_at u d v →
  sc' = on_s (fun s => ss_set_VeUnbondingDelegations (delete (d, v) (ss_VeUnbondingDelegations s)) s) sc.
Proof. unfold RemoveVeUnbondingDelegation. intros E [K1 K2]. rewrite K1, K2 in E. by injection E as <-. Qed.

(** The record under a key, or an empty one. *)
Definition ubd_amt sc (d v : Addr) (i : Z) : Z :=
  at_key (fun _ u => vu_amt i u) (ss_VeUnbondingDelegations (sc_s sc)) (d, v).

Lemma put_ubd_step sc d v u :
  store_ok (sc_s sc) → vu_at u d v → vu_ok u →
  book_step (fun i => ubd_amt sc d v i - vu_amt i u) sc
    (on_s (fun s => ss_set_VeUnbondingDelegations (<[(d, v) := u]> (ss_VeUnbondingDelegations s)) s) sc).
Proof.
  intros [K1 K2 K3] Ha Ho. split; [split; [exact K1| |exact K3]| |done]; simpl.
  - intros d' v' u'. rewrite lookup_insert_Some. intros [[[= <- <-] <-]|[_ Hu]]; [done|auto].
  - intros i. unfold gap, booked, booked_store, ubd_amt, GetVeDelegatedAmount. simpl. rewrite map_sum_insert. lia.
Qed.

Lemma del_ubd_step sc d v :
  store_ok (sc_s sc) →
  book_step (fun i => ubd_amt sc d v i) sc
    (on_s (fun s => ss_set_VeUnbondingDelegations (delete (d, v) (ss_VeUnbondingDelegations s)) s) sc).
Proof.
  intros [K1 K2 K3]. split; [split; [exact K1| |exact K3]| |done]; simpl.
  - intros d' v' u'. rewrite lookup_delete_Some. intros [_ Hu]. auto.
  - intros i. unfold gap, booked, booked_store, ubd_amt, GetVeDelegatedAmount. simpl. rewrite map_sum_delete. lia.
Qed.

Lemma AddEntry_amt u vts i : vu_amt i (VeUnbondingDelegation_AddEntry u vts) = vu_amt i u + vt_amt i vts.
Proof.
  unfold vu_amt, VeUnbondingDelegation_AddEntry. cbn [vu_Entries vu_set_Entries]. rewrite list_sum_app.
  f_equal. rewrite list_sum_cons, list_sum_nil. unfold vue_amt, vt_amt. cbn [vue_VeBalances].
  rewrite Z.add_0_r. induction vts as [|vt vts IH]; [done|].
  rewrite fmap_cons, !list_sum_cons, IH. done.
Qed.

Lemma AddEntry_ok u vts :
  vu_ok u → Forall (fun vt => 0 ≤ vt_Tokens vt) vts → vu_ok (VeUnbondingDelegation_AddEntry u vts).
Proof.
  intros Hu Hv. unfold vu_ok. cbn. apply Forall_app. split; [done|]. constructor; [|constructor].
  cbn. by apply Forall_fmap.
Qed.

Lemma SetVeUnbondingDelegationEntry_step sc d v vts u sc' :
  SetVeUnbondingDelegationEntry sc d v vts = Ok (u, sc') → store_ok (sc_s sc) →
  Forall (fun vt => 0 ≤ vt_Tokens vt) vts → is_addr d → is_val_addr v →
  book_step (fun i => - vt_amt i vts) sc sc' ∧
  sc' = on_s (fun s => ss_set_VeUnbondingDelegations (<[(d, v) := u]> (ss_VeUnbondingDelegations s)) s) sc ∧
  vu_Entries u = default [] (vu_Entries <$> GetVeUnbondingDelegation sc d v) ++ [default (mkVeUnbondingEntry []) (last (vu_Entries u))].
Proof.
  unfold SetVeUnbondingDelegationEntry. intros E Hok Hv [sd Hd] [sv Hsv]. inv_ok E. subst.
  set (u0 := default (NewVeUnbondingDelegation d v) (GetVeUnbondingDelegation sc d v)) in *.
  assert (vu_at u0 d v ∧ vu_ok u0 ∧ ∀ i, ubd_amt sc d v i = vu_amt i u0) as (Ha & Ho & Hz).
  { unfold u0, GetVeUnbondingDelegation, ubd_amt, at_key.
    destruct (ss_VeUnbondingDelegations (sc_s sc) !! (d, v)) as [u|] eqn:Hu; simpl.
    - by destruct (so_ubd _ Hok _ _ _ Hu).
    - split_and!; [|by constructor|done]. split; cbn; [by eapply AccAddress_roundtrip|by eapply ValAddress_roundtrip]. }
  eapply (SetVeUnbondingDelegation_Ok _ _ _ d v) in E0; [|exact Ha]. subst sc'. split_and!; [|done|].
  - eapply book_step_out; [apply put_ubd_step; [done|exact Ha|by apply AddEntry_ok]|].
    intros i. simpl. rewrite Hz, AddEntry_amt. lia.
  - cbn. rewrite last_snoc. simpl. f_equal. unfold u0. by destruct (GetVeUnbondingDelegation sc d v).
Qed.

Lemma Undelegate_step ctx sc d v sh sc' t :
  Undelegate ctx sc d v sh = Ok (sc', t) → store_ok (sc_s sc) → is_addr d → is_val_addr v →
  book_step none_out sc sc'.
Proof.
  unfold Undelegate. intros E Hok Hd Hv. destruct (GetValidator _ _); [|discriminate].
  apply guard_err_Ok in E as [_ E]. apply bind_Ok in E as ([[sc1 amt] vts] & E1 & E).
  apply Unbond_step in E1 as [B1 N1]; [|done].
  apply bind_Ok in E as (tot & _ & E). apply bind_Ok in E as (un & _ & E). apply bind_Ok in E as (sc2 & E2 & E).
  assert (keeps sc1 sc2) as K2 by (inv_ok E2; [by eapply on_b_keeps|subst; apply keeps_refl]).
  cbv zeta in E. apply bind_Ok in E as ([k u] & _ & E). apply bind_Ok in E as (sc3 & E3 & E). apply on_k_keeps in E3.
  assert (keeps sc1 sc3) as K3 by (eapply keeps_trans; [exact K2|]; eapply keeps_trans; [apply keeps_set_k|exact E3]).
  pose proof (keeps_step _ _ K3 (bs_ok _ _ _ B1)) as B3.
  apply bind_Ok in E as ([u' sc4] & E4 & E). destruct (bool_decide _); [discriminate|]. injection E as <- <-.
  apply SetVeUnbondingDelegationEntry_step in E4 as (B4 & _); [|apply B3|done..].
  eapply book_step_out; [eapply book_step_trans; [exact B1|]; by eapply book_step_then|].
  intros i. unfold takes_out, none_out. lia.
Qed.

(** ** Redelegations *)

Lemma set_red_step sc m :
  store_ok (sc_s sc) → (∀ d v v' x, m !! (d, v, v') = Some x → vr_at x d v v') →
  book_step none_out sc (on_s (ss_set_VeRedelegations m) sc).
Proof.
  intros [K1 K2 K3] Hm. split; [by split| |done]. intros i. unfold none_out, gap, booked, booked_store, GetVeDelegatedAmount. simpl. lia.
Qed.

Lemma SetVeRedelegation_Ok sc r sc' d v v' :
  SetVeRedelegation sc r = Ok sc' → vr_at r d v v' →
  sc' = on_s (ss_set_VeRedelegations (<[(d, v, v') := r]> (ss_VeRedelegations (sc_s sc)))) sc.
Proof. unfold SetVeRedelegation. intros E (K1 & K2 & K3). rewrite K1, K2, K3 in E. by injection E as <-. Qed.

Lemma RemoveVeRedelegation_Ok sc r sc' d v v' :
  RemoveVeRedelegation sc r = Ok sc' → vr_at r d v v' →
  sc' = on_s (ss_set_VeRedelegations (delete (d, v, v') (ss_VeRedelegations (sc_s sc)))) sc.
Proof. unfold RemoveVeRedelegation. intros E (K1 & K2 & K3). rewrite K1, K2, K3 in E. by injection E as <-. Qed.

Lemma put_red_step sc d v v' r :
  store_ok (sc_s sc) → vr_at r d v v' →
  book_step none_out sc (on_s (ss_set_VeRedelegations (<[(d, v, v') := r]> (ss_VeRedelegations (sc_s sc)))) sc).
Proof.
  intros Hok Ha. apply set_red_step; [done|]. intros d1 v1 v2 x.
  rewrite lookup_insert_Some. intros [[[= <- <- <-] <-]|[_ Hx]]; [done|]. by eapply so_red.
Qed.

Lemma del_red_step sc d v v' :
  store_ok (sc_s sc) →
  book_step none_out sc (on_s (ss_set_VeRedelegations (delete (d, v, v') (ss_VeRedelegations (sc_s sc)))) sc).
Proof.
  intros Hok. apply set_red_step; [done|]. intros d1 v1 v2 x.
  rewrite lookup_delete_Some. intros [_ Hx]. by eapply so_red.
Qed.

Lemma VeRedelegation_AddEntry_Ok r vts amt n r' :
  VeRedelegation_AddEntry r vts amt n = Ok r' →
  ∃ e, vr_Entries r' = vr_Entries r ++ [e] ∧ ∀ d v v', vr_at r d v v' → vr_at r' d v v'.
Proof. unfold VeRedelegation_AddEntry. intros E. inv_ok E. subst. by eexists. Qed.

Lemma SetVeRedelegationEntry_step sc d v v' amt vts n r sc' :
  SetVeRedelegationEntry sc d v v' amt vts n = Ok (r, sc') → store_ok (sc_s sc) →
  is_addr d → is_val_addr v → is_val_addr v' →
  book_step none_out sc sc' ∧
  sc' = on_s (ss_set_VeRedelegations (<[(d, v, v') := r]> (ss_VeRedelegations (sc_s sc)))) sc ∧
  ∃ e, vr_Entries r = default [] (vr_Entries <$> GetVeRedelegation sc d v v') ++ [e].
Proof.
  unfold SetVeRedelegationEntry. intros E Hok [sd Hd] [sv Hsv] [sv' Hsv']. inv_ok E. subst.
  apply VeRedelegation_AddEntry_Ok in E0 as (e & He & Ha).
  assert (vr_at r d v v') as Har.
  { apply Ha. unfold GetVeRedelegation. destruct (ss_VeRedelegations (sc_s sc) !! (d, v, v')) eqn:Hr; simpl.
    - by eapply so_red.
    - split_and!; cbn; [by eapply AccAddress_roundtrip|by eapply ValAddress_roundtrip..]. }
  eapply SetVeRedelegation_Ok in E1; [|exact Har]. subst sc'. split_and!; [by apply put_red_step|done|].
  exists e. rewrite He. f_equal. by destruct (GetVeRedelegation sc d v v').
Qed.

Lemma BeginRedelegation_step ctx sc d v v' sh sc' t :
  BeginRedelegation ctx sc d v v' sh = Ok (sc', t) → store_ok (sc_s sc) →
  is_addr d → is_val_addr v → is_val_addr v' → book_step none_out sc sc'.
Proof.
  unfold BeginRedelegation. intros E Hok Hd Hv Hv'. apply guard_err_Ok in E as [_ E].
  destruct (GetValidator (sc_k sc) v') as [dst|] eqn:Hdst; [|discriminate].
  destruct (GetValidator (sc_k sc) v) as [src|]; [|discriminate].
  do 2 apply guard_err_Ok in E as [_ E]. apply bind_Ok in E as ([[sc1 amt] vts] & E1 & E).
  apply Unbond_step in E1 as [B1 N1]; [|done]. apply guard_err_Ok in E as [_ E].
  apply bind_Ok in E as ([sc2 n] & E2 & E).
  apply VeDelegate_step in E2; [|apply B1|done|by eapply GetValidator_nonneg|done].
  assert (book_step none_out sc sc2) as B2 by (eapply book_step_then; [exact B1|exact E2]).
  apply bind_Ok in E as ([[ct h] now] & _ & E). destruct now; [by injection E as <- <-|].
  apply bind_Ok in E as ([k r] & _ & E). cbv zeta in E. apply bind_Ok in E as (sc3 & E3 & E).
  apply on_k_keeps in E3.
  assert (keeps sc2 sc3) as K3 by (eapply keeps_trans; [apply keeps_set_k|exact E3]).
  pose proof (keeps_step _ _ K3 (bs_ok _ _ _ B2)) as B3.
  apply bind_Ok in E as ([r' sc4] & E4 & E). destruct (bool_decide _); [discriminate|]. injection E as <- <-.
  apply SetVeRedelegationEntry_step in E4 as (B4 & _); [|apply B3|done..].
  eapply book_step_then; [exact B2|]. by eapply book_step_then.
Qed.

(** ** Completion *)

Lemma sub_all_Ok bs sc sc' :
  for_each (fun sc vb => SubVeDelegatedAmount sc (ub_VeId vb) (ub_Balance vb)) bs sc = Ok sc' →
  amounts_only sc sc' ∧ sc_k sc' = sc_k sc ∧ sc_w sc' = sc_w sc ∧ recorded_less sc sc' (fun i => list_sum (ub_amt i) bs).
Proof.
  revert sc. induction bs as [|b bs IH]; intros sc E; cbn [for_each] in E.
  - injection E as <-. split_and!; try done. intros j. cbn. lia.
  - apply bind_Ok in E as (sc1 & E1 & E). apply SubVeDelegatedAmount_Ok in E1 as ->.
    apply IH in E as (A & K & W & R). destruct (put_frame sc (ub_VeId b) (GetVeDelegatedAmount sc (ub_VeId b) - ub_Balance b)) as [Fw Fk].
    split_and!; [|congruence..|].
    + eapply amounts_only_trans; [apply amounts_only_put|exact A].
    + intros j. rewrite R, delegated_put, list_sum_cons. unfold ub_amt at 2.
      destruct (ub_VeId b =? j) eqn:Ej; zbool; case_decide; subst; lia || congruence.
Qed.

(** What completing entries does: recorded amounts fall by [x]; the books, the
    locks and the SDK's keeper stay. *)
Definition completed sc sc' (x : Z → Z) : Prop :=
  amounts_only sc sc' ∧ sc_k sc' = sc_k sc ∧ w_ve (sc_w sc') = w_ve (sc_w sc) ∧ recorded_less sc sc' x.

Lemma completed_trans sc1 sc2 sc3 f g h :
  completed sc1 sc2 f → completed sc2 sc3 g → (∀ j, h j = f j + g j) → completed sc1 sc3 h.
Proof.
  intros (A1 & K1 & W1 & R1) (A2 & K2 & W2 & R2) Hh.
  split_and!; [by eapply amounts_only_trans|congruence..|by eapply recorded_less_trans].
Qed.

Lemma complete_entry_Ok sc den d e ve bal sc' r :
  complete_entry sc den d e ve bal = Ok (sc', r) → completed sc sc' (fun i => vue_amt i ve).
Proof.
  unfold complete_entry. intros E. apply bind_Ok in E as (sc1 & E1 & E).
  apply sub_all_Ok in E1 as (A & K & W & R).
  assert (completed sc sc1 (fun i => vue_amt i ve)) as C1 by (split_and!; [done|done|by rewrite W|done]).
  apply bind_Ok in E as (vb & _ & E). apply bind_Ok in E as (un & _ & E). destruct (un <? 0); [discriminate|].
  apply bind_Ok in E as (p & E2 & E). destruct p as [sc2|err]; [|by injection E as <- <-].
  assert (completed sc sc2 (fun i => vue_amt i ve)) as C2.
  { destruct (un =? 0); [by injection E2 as <-|]. inv_ok E2. destruct (on_b _ sc1) as [sc3| |] eqn:E3; try discriminate.
    injection E2 as <-. apply on_b_keeps in E3 as K3. destruct K3 as [S3 W3].
    assert (sc_k sc3 = sc_k sc1) as K3 by (unfold on_b, on_w in E3; inv_ok E3; by subst).
    eapply (completed_trans _ _ _ _ (fun _ => 0)); [exact C1|split_and!; [unfold amounts_only; rewrite S3; by split_and!|exact K3|exact W3|]|].
    - intros j. unfold GetVeDelegatedAmount. rewrite S3. lia.
    - intros j. simpl. lia. }
  inv_ok E. by subst.
Qed.

(** The entries that stay, and what the others held. *)
Lemma complete_entries_Ok ctx den d es ves bal sc sc' r :
  complete_entries ctx sc den d es ves bal = Ok (sc', r) →
  Forall (fun e => Forall (fun b => 0 ≤ ub_Balance b) (vue_VeBalances e)) ves →
  match r with
  | inl (es', ves', _) =>
      completed sc sc' (fun i => list_sum (vue_amt i) ves - list_sum (vue_amt i) ves') ∧
      Forall (fun e => Forall (fun b => 0 ≤ ub_Balance b) (vue_VeBalances e)) ves' ∧
      (length es = length ves → length es' = length ves')
  | inr _ => ∃ x, completed sc sc' x ∧ ∀ i, 0 ≤ x i
  end.
Proof.
  revert sc sc' r ves bal. induction es as [|e es IH]; intros sc sc' r ves bal E Hn; destruct ves as [|ve ves]; cbn [complete_entries] in E;
    try (injection E as <- <-; split_and!; [split_and!; try done; intros j; lia|done|done]).
  inversion Hn as [|? ? Hve Hves]; subst.
  assert (∀ i, 0 ≤ vue_amt i ve) as Hnn.
  { intros i. unfold vue_amt. apply list_sum_nonneg. eapply Forall_impl; [exact Hve|].
    intros b Hb. simpl in Hb. unfold ub_amt. destruct (_ =? _); lia. }
  destruct (ue_IsMature e (BlockTimeNano ctx)); apply bind_Ok in E as ([sc1 r1] & E1 & E).
  - apply complete_entry_Ok in E1 as C1. destruct r1 as [bal1|err]; [|injection E as <- <-; by eexists].
    apply IH in E; [|done]. destruct r as [[[es' ves'] bal']|err].
    + destruct E as (C2 & F2 & L2). split_and!; [|done|simpl; intros [= ?]; auto].
      eapply completed_trans; [exact C1|exact C2|]. intros j. rewrite list_sum_cons. lia.
    + destruct E as (x & C2 & Hx). exists (fun i => vue_amt i ve + x i). split; [by eapply completed_trans|].
      intros i. specialize (Hnn i). specialize (Hx i). lia.
  - apply IH in E1; [|done]. destruct r1 as [[[es' ves'] bal']|err]; [|by injection E as <- <-].
    injection E as <- <-. destruct E1 as (C2 & F2 & L2). split_and!; [|by constructor|simpl; intros [= ?]; f_equal; auto].
    destruct C2 as (A & K & W & R). split_and!; try done. intros j. rewrite R, !list_sum_cons. lia.
Qed.

Lemma completed_step sc sc' x : completed sc sc' x → store_ok (sc_s sc) → (∀ i, 0 ≤ x i) →
  book_step (fun i => - x i) sc sc'.
Proof.
  intros (A & K & W & R) Hok Hx. split; [by eapply amounts_only_ok| |].
  - intros i. unfold gap. rewrite (amounts_only_booked _ _ _ A), R. lia.
  - intros i. unfold slack, GetLockedAmountByUser. rewrite W, R. specialize (Hx i). lia.
Qed.

(** The entries that stay hold no more than all of them. *)
Lemma complete_entries_less ctx den d es ves bal sc sc' es' ves' bal' i :
  complete_entries ctx sc den d es ves bal = Ok (sc', inl (es', ves', bal')) →
  Forall (fun e => Forall (fun b => 0 ≤ ub_Balance b) (vue_VeBalances e)) ves →
  list_sum (vue_amt i) ves' ≤ list_sum (vue_amt i) ves.
Proof.
  revert sc sc' es' ves' ves bal bal'. induction es as [|e es IH]; intros sc sc' es' ves' ves bal bal' E Hn; destruct ves as [|ve ves]; cbn [complete_entries] in E;
    try (injection E as <- <- <- <-; done).
  inversion Hn as [|? ? Hve Hves]; subst. rewrite list_sum_cons.
  assert (0 ≤ vue_amt i ve).
  { unfold vue_amt. apply list_sum_nonneg. eapply Forall_impl; [exact Hve|].
    intros b Hb. simpl in Hb. unfold ub_amt. destruct (_ =? _); lia. }
  destruct (ue_IsMature e (BlockTimeNano ctx)); apply bind_Ok in E as ([sc1 r1] & E1 & E); destruct r1 as [r1|err]; try discriminate.
  - apply IH in E; [lia|done].
  - destruct r1 as [[es1 ves1] bal1]. injection E as <- <- <- <-. apply IH in E1; [|done]. rewrite list_sum_cons. lia.
Qed.

Lemma CompleteUnbonding_step ctx sc d v sc' r :
  CompleteUnbonding ctx sc d v = Ok (sc', r) → store_ok (sc_s sc) → book_step none_out sc sc'.
Proof.
  unfold CompleteUnbonding. intros E Hok.
  destruct (GetUnbondingDelegation (sc_k sc) d v) as [u|]; [|injection E as <- <-; apply keeps_step; [apply keeps_refl|done]].
  destruct (GetVeUnbondingDelegation sc d v) as [vu|] eqn:Hvu; [|discriminate].
  destruct (so_ubd _ Hok _ _ _ Hvu) as [Ha Ho]. destruct (bool_decide _) eqn:Hlen; [discriminate|].
  apply bool_decide_eq_false, dec_stable in Hlen. cbv zeta in E.
  destruct (AccAddressFromBech32 _) as [da|e|]; [|injection E as <- <-; apply keeps_step; [apply keeps_refl|done]|discriminate].
  apply bind_Ok in E as ([sc1 r1] & E1 & E). pose proof E1 as E1'.
  apply complete_entries_Ok in E1; [|exact Ho]. destruct r1 as [[[es ves] bal]|err].
  2:{ injection E as <- <-. destruct E1 as (x & C & Hx).
      eapply book_step_out; [by eapply completed_step|]. intros i. specialize (Hx i). unfold none_out. lia. }
  destruct E1 as (C & F & L). specialize (L ltac:(done)).
  eapply completed_step in C; [|done|intros i; by pose proof (complete_entries_less _ _ _ _ _ _ _ _ _ _ _ i E1' Ho); lia].
  assert (∀ i, ubd_amt sc1 d v i = vu_amt i vu) as Hamt.
  { intros i. unfold ubd_amt, at_key. apply complete_entries_Ok in E1' as ((A & _) & _); [|exact Ho].
    destruct A as (_ & _ & -> & _). unfold GetVeUnbondingDelegation in Hvu. by rewrite Hvu. }
  apply bind_Ok in E as (sc2 & E2 & E). injection E as <- <-.
  assert (∃ sc1', keeps sc1 sc1' ∧ sc2 = on_s (fun s => ss_set_VeUnbondingDelegations
     ((match es with [] => delete (d, v) | _ => insert (d, v) (vu_set_Entries ves vu) end) (ss_VeUnbondingDelegations s)) s) sc1') as (sc1' & K & ->).
  { destruct es; apply bind_Ok in E2 as (sc1' & E2 & E3); exists sc1'; (split; [by eapply on_k_keeps|]);
      [eapply RemoveVeUnbondingDelegation_Ok in E3|eapply SetVeUnbondingDelegation_Ok in E3]; [exact E3|exact Ha|exact E3|exact Ha]. }
  pose proof (keeps_step _ _ K (bs_ok _ _ _ C)) as B.
  assert (∀ i, ubd_amt sc1' d v i = vu_amt i vu) as Hamt' by (intros i; rewrite <- Hamt; unfold ubd_amt; by destruct K as [-> _]).
  eapply book_step_out;
    [eapply (book_step_trans _ (fun i => vu_amt i vu - list_sum (vue_amt i) ves)); [exact C|eapply book_step_then; [exact B|]]|].
  - destruct es; eapply book_step_out; [apply del_ubd_step; apply B| |apply put_ubd_step; [apply B|exact Ha|exact F]|];
      intros i; cbn beta; rewrite Hamt'; [|done]. destruct ves; [cbn; lia|discriminate].
  - intros i. unfold none_out, vu_amt. lia.
Qed.
End StakingInv.

(** * Completed redelegations and slashing against the books. *)

Section StakingReach.
Context `{!Sdk, !SdkExt, !BankKeeper, !NftKeeper, !SdkStaking, !MapOrderU64, !SdkLaws, !BankLaws, !SdkExtLaws, !SdkStakingLaws}.
Context {OL : MapOrderU64Laws _}.
Implicit Types (sc : SChain) (ctx : Ctx).

Lemma complete_redelegations_len ctx den es ves bal es' ves' bal' :
  complete_redelegations ctx den es ves bal = Ok (es', ves', bal') → length es = length ves → length es' = length ves'.
Proof.
  revert ves bal es' ves' bal'. induction es as [|e es IH]; intros [|ve ves] bal es' ves' bal' E L; cbn in E; simplify_eq; try done.
  destruct (re_IsMature _ _); apply bind_Ok in E as (r & E1 & E); [by eapply IH|].
  destruct r as [[es1 ves1] bal1]. injection E as <- <- <-. simpl. f_equal. by eapply IH.
Qed.

Lemma CompleteRedelegation_step ctx sc d v v' sc' r :
  CompleteRedelegation ctx sc d v v' = Ok (sc', r) → store_ok (sc_s sc) → book_step none_out sc sc'.
Proof.
  unfold CompleteRedelegation. intros E Hok.
  destruct (GetRedelegation _ _ _ _); [|discriminate].
  destruct (GetVeRedelegation sc d v v') as [vr|] eqn:Hvr; [|discriminate].
  assert (vr_at vr d v v') as Ha by by eapply so_red. destruct (bool_decide _); [discriminate|].
  apply bind_Ok in E as ([[es ves] bal] & _ & E). cbv zeta in E. apply bind_Ok in E as (sc2 & E2 & E).
  injection E as <- <-. destruct es; apply bind_Ok in E2 as (sc1 & E1 & E2); apply on_k_keeps in E1;
    pose proof (keeps_step _ _ E1 Hok) as B; (eapply book_step_then; [exact B|]).
  - eapply (RemoveVeRedelegation_Ok _ _ _ d v v') in E2 as ->; [|exact Ha]. apply del_red_step, B.
  - eapply (SetVeRedelegation_Ok _ _ _ d v v') in E2 as ->; [|exact Ha]. apply put_red_step; [apply B|exact Ha].
Qed.

(** ** Slashing *)

(** The amounts burned from the locks leave the recorded amounts. *)
Lemma slash_all_Ok ctx l sc sc' :
  for_each (fun sc e => if 0 <? e.2 then SlashVeDelegatedAmount ctx sc e.1 e.2 else Ok sc) l sc = Ok sc' →
  amounts_only sc sc' ∧ sc_k sc' = sc_k sc ∧
  recorded_less sc sc' (fun i => list_sum (fun e => if e.1 =? i then Z.max e.2 0 else 0) l) ∧
  (∀ i, slack sc' i = slack sc i).
Proof.
  revert sc. induction l as [|[j x] l IH]; intros sc E; cbn [for_each] in E.
  - injection E as <-. split_and!; try done. intros i. cbn. lia.
  - apply bind_Ok in E as (sc1 & E1 & E). apply IH in E as (A & K & R & S). cbn [fst snd] in E1.
    assert (amounts_only sc sc1 ∧ sc_k sc1 = sc_k sc ∧
      (∀ i, GetVeDelegatedAmount sc1 i = GetVeDelegatedAmount sc i - (if decide (i = j) then Z.max x 0 else 0) ∧
            slack sc1 i = slack sc i)) as (A1 & K1 & D1).
    { destruct (0 <? x) eqn:Ex; zbool.
      - apply SlashVeDelegatedAmount_Ok in E1 as (A1 & K1 & D1). split_and!; [done..|]. intros i.
        destruct (D1 i) as [Da Db]. split; [done|]. unfold slack. rewrite Da, Db. lia.
      - injection E1 as <-. split_and!; [done..|]. intros i. split; [|done]. case_decide; lia. }
    split_and!; [by eapply amounts_only_trans|congruence| |].
    + intros i. rewrite R, list_sum_cons. destruct (D1 i) as [-> _]. cbn [fst snd].
      destruct (j =? i) eqn:Ej; zbool; case_decide; lia || congruence.
    + intros i. rewrite S. apply D1.
Qed.

Lemma map_at_sum (m : gmap Z Z) i :
  list_sum (fun e => if e.1 =? i then Z.max e.2 0 else 0) (map_to_list m) = Z.max (default 0 (m !! i)) 0.
Proof.
  induction m as [|k x m Hk IH] using map_ind.
  - rewrite map_to_list_empty, lookup_empty. done.
  - rewrite (list_sum_perm _ _ _ (map_to_list_insert m k x Hk)), list_sum_cons, IH. cbn [fst snd].
    destruct (k =? i) eqn:E; zbool.
    + subst. rewrite Hk, lookup_insert_eq. simpl. lia.
    + rewrite lookup_insert_ne by done. lia.
Qed.

Lemma slash_burned_step ctx sc m sc' :
  slash_burned ctx sc m = Ok sc' → store_ok (sc_s sc) →
  book_step (fun i => - Z.max (default 0 (m !! i)) 0) sc sc' ∧ amounts_only sc sc' ∧ sc_k sc' = sc_k sc.
Proof.
  unfold slash_burned. intros E Hok. apply slash_all_Ok in E as (A & K & R & S). split_and!; [|done..].
  split; [by eapply amounts_only_ok| |].
  - intros i. unfold gap. rewrite (amounts_only_booked _ _ _ A), R, (list_sum_perm _ _ _ (range_u64_perm m)), map_at_sum. lia.
  - intros i. by rewrite S.
Qed.

(** Slashing an entry writes the record of the locks back as it was. *)
Lemma SetVeUnbondingDelegation_same sc u sc' d v :
  SetVeUnbondingDelegation sc u = Ok sc' → vu_at u d v →
  ss_VeUnbondingDelegations (sc_s sc) !! (d, v) = Some u → keeps sc sc' ∧ sc_k sc' = sc_k sc.
Proof.
  intros E Ha Hu. eapply SetVeUnbondingDelegation_Ok in E as ->; [|exact Ha]. split; [|done]. split; [|done].
  unfold on_s. cbn [sc_s set_s]. rewrite insert_id by done. by destruct (sc_s sc).
Qed.

Lemma slash_entry_keeps ctx h f vu acc e acc' d v :
  slash_entry ctx h f vu acc e = Ok acc' → vu_at vu d v →
  ss_VeUnbondingDelegations (sc_s (us_sc acc)) !! (d, v) = Some vu → keeps (us_sc acc) (us_sc acc').
Proof.
  unfold slash_entry. intros E Ha Hu. destruct e as [i e].
  destruct (_ <? _); [by injection E as <-|]. destruct (ue_IsMature _ _); [by injection E as <-|].
  inv_ok E; subst; try done. destruct (vu_Entries vu !! i); [|discriminate]. inv_ok E. subst.
  eapply SetVeUnbondingDelegation_same in E4 as [K4 _]; [|done|done]. apply on_k_keeps in E8. by eapply keeps_trans.
Qed.

Lemma slash_entries_keeps ctx h f vu l acc acc' d v :
  for_each (slash_entry ctx h f vu) l acc = Ok acc' → vu_at vu d v →
  ss_VeUnbondingDelegations (sc_s (us_sc acc)) !! (d, v) = Some vu → keeps (us_sc acc) (us_sc acc').
Proof.
  revert acc. induction l as [|e l IH]; intros acc E Ha Hu; cbn [for_each] in E; [by injection E as <-|].
  apply bind_Ok in E as (acc1 & E1 & E). eapply slash_entry_keeps in E1 as K1; [|done|done].
  eapply keeps_trans; [exact K1|]. eapply IH; [done|done|]. by destruct K1 as [-> _].
Qed.

Lemma must_on_b_keeps f sc sc' : must (on_b f sc) = Ok sc' → keeps sc sc'.
Proof. intros E%must_Ok. by eapply on_b_keeps. Qed.

Lemma SlashUnbondingDelegation_step ctx sc u h f sc' x :
  SlashUnbondingDelegation ctx sc u h f = Ok (sc', x) → store_ok (sc_s sc) →
  book_step none_out sc sc' ∧ ss_VeUnbondingDelegations (sc_s sc') = ss_VeUnbondingDelegations (sc_s sc).
Proof.
  unfold SlashUnbondingDelegation. intros E Hok.
  apply bind_Ok in E as (d & Ed & E). apply bind_Ok in E as (v & Ev & E).
  destruct (GetVeUnbondingDelegation sc d v) as [vu|] eqn:Hvu; [|discriminate].
  destruct (so_ubd _ Hok _ _ _ Hvu) as [Ha _]. destruct (bool_decide _); [discriminate|].
  apply bind_Ok in E as (acc & E1 & E). eapply slash_entries_keeps in E1; [|exact Ha|exact Hvu]. cbn [us_sc] in E1.
  apply bind_Ok in E as (sc1 & E2 & E). apply must_on_b_keeps in E2.
  pose proof (keeps_trans _ _ _ E1 E2) as K. pose proof (keeps_step _ _ K Hok) as B.
  apply bind_Ok in E as (sc2 & E3 & E). injection E as <- <-.
  apply slash_burned_step in E3 as (B3 & (_ & _ & A3 & _) & _); [|apply B]. split.
  - eapply book_step_then; [exact B|]. eapply book_step_out; [exact B3|]. intros i. unfold none_out. lia.
  - rewrite A3. by destruct K as [-> _].
Qed.

Lemma map_add_Ok m j x m' :
  map_add m j x = Ok m' → ∀ i, default 0 (m' !! i) = default 0 (m !! i) + (if j =? i then x else 0).
Proof.
  unfold map_add. intros E i. destruct (m !! j) eqn:Hj; inv_ok E; sdk_inv;
    destruct (j =? i) eqn:Ej; zbool; subst;
    rewrite ?lookup_insert_eq, ?lookup_insert_ne by done; rewrite ?Hj; simpl; lia.
Qed.

Lemma AddToMap_Ok vts m m' :
  VeTokensSlice_AddToMap vts m = Ok m' → ∀ i, default 0 (m' !! i) = default 0 (m !! i) + vt_amt i vts.
Proof.
  unfold VeTokensSlice_AddToMap. revert m. induction vts as [|vt vts IH]; intros m E i; cbn [for_each] in E.
  - injection E as <-. unfold vt_amt. cbn. lia.
  - apply bind_Ok in E as (m1 & E1 & E). rewrite (IH _ E), (map_add_Ok _ _ _ _ E1). unfold vt_amt. rewrite list_sum_cons. lia.
Qed.

(** What was taken out of the books so far is in the map of burned amounts. *)
Definition red_acc sc (acc : RedSlash) : Prop :=
  book_step (fun i => default 0 (rs_veBurned acc !! i)) sc (rs_sc acc) ∧ ∀ i, 0 ≤ default 0 (rs_veBurned acc !! i).

Lemma vt_amt_nonneg i vts : Forall (fun vt => 0 ≤ vt_Tokens vt) vts → 0 ≤ vt_amt i vts.
Proof.
  intros Hn. apply list_sum_nonneg. eapply Forall_impl; [exact Hn|]. intros vt Hvt. simpl in *. destruct (_ =? _); lia.
Qed.

Lemma slash_redelegation_entry_acc ctx h f d v acc e acc' sc :
  slash_redelegation_entry ctx h f d v acc e = Ok acc' → red_acc sc acc → red_acc sc acc'.
Proof.
  unfold slash_redelegation_entry. intros E [B N].
  destruct (_ <? _); [by injection E as <-|]. destruct (re_IsMature _ _); [by injection E as <-|].
  do 3 apply bind_Ok in E as (? & _ & E). cbv zeta in E. apply bind_Ok in E as (sh & _ & E).
  destruct (sh =? 0); [by injection E as <-|]. cbn [rs_sc rs_total rs_bondedBurned rs_notBondedBurned rs_veBurned] in E.
  destruct (GetDelegation _ _ _); [|by injection E as <-].
  apply bind_Ok in E as ([[sc1 amt] vts] & E1%must_Ok & E). apply Unbond_step in E1 as [B1 N1]; [|apply B].
  do 2 apply bind_Ok in E as (? & _ & E). apply bind_Ok in E as (m & Em & E).
  assert (∀ t p q, red_acc sc (mkRedSlash sc1 t p q m)) as Hacc.
  { intros t p q. split; cbn [rs_sc rs_veBurned].
    - eapply book_step_out; [eapply book_step_trans; [exact B|exact B1]|].
      intros i. rewrite (AddToMap_Ok _ _ _ Em). unfold takes_out. lia.
    - intros i. rewrite (AddToMap_Ok _ _ _ Em). pose proof (N i). pose proof (vt_amt_nonneg i vts N1). lia. }
  destruct (GetValidator _ _) as [dst|]; [|discriminate]. destruct (sv_Status dst); [discriminate|..]; inv_ok E; subst; apply Hacc.
Qed.

Lemma SlashRedelegation_step ctx sc r h f sc' x :
  SlashRedelegation ctx sc r h f = Ok (sc', x) → store_ok (sc_s sc) → book_step none_out sc sc'.
Proof.
  unfold SlashRedelegation. intros E Hok. do 3 apply bind_Ok in E as (? & _ & E).
  destruct (GetVeRedelegation _ _ _ _); [|discriminate]. destruct (bool_decide _); [discriminate|].
  apply bind_Ok in E as (acc & E1 & E).
  assert (red_acc sc acc) as [B N].
  { assert (red_acc sc (mkRedSlash sc 0 0 0 ∅)) as H0'.
    { split; [|done]. eapply book_step_out; [apply keeps_step; [apply keeps_refl|done]|]. done. }
    revert E1 H0'. generalize (mkRedSlash sc 0 0 0 ∅). induction (rd_Entries r) as [|e l IH]; intros a E1 Ha; cbn [for_each] in E1.
    - by injection E1 as <-.
    - apply bind_Ok in E1 as (a1 & E2 & E1). eapply IH; [exact E1|]. by eapply slash_redelegation_entry_acc. }
  apply bind_Ok in E as (sc1 & E2%must_on_b_keeps & E). apply bind_Ok in E as (sc2 & E3%must_on_b_keeps & E).
  apply bind_Ok in E as (sc3 & E4 & E). injection E as <- <-.
  pose proof (keeps_step _ _ (keeps_trans _ _ _ E2 E3) (bs_ok _ _ _ B)) as B3.
  apply slash_burned_step in E4 as [B4 _]; [|apply B3].
  eapply book_step_out; [eapply book_step_trans; [exact B|]; by eapply book_step_then|].
  intros i. specialize (N i). unfold none_out. simpl. lia.
Qed.

(** A loop over records, each slashed on its own. *)
Lemma slash_loop_step {A} (f : SChain → A → outcome (SChain * Z)) l sc rest sc' rest' :
  (∀ sc a sc' x, f sc a = Ok (sc', x) → store_ok (sc_s sc) → book_step none_out sc sc') →
  for_each (fun acc a => '(sc, x) ← f acc.1 a; if x =? 0 then Ok (sc, acc.2) else r ← Int_Sub acc.2 x; Ok (sc, r)) l (sc, rest) = Ok (sc', rest') →
  store_ok (sc_s sc) → book_step none_out sc sc'.
Proof.
  intros Hf. revert sc rest. induction l as [|a l IH]; intros sc rest E Hok; cbn [for_each] in E.
  - injection E as <- <-. apply keeps_step; [apply keeps_refl|done].
  - apply bind_Ok in E as ([sc1 rest1] & E1 & E). apply bind_Ok in E1 as ([sc2 x] & E2 & E1). cbn [fst] in E2.
    apply Hf in E2; [|done]. assert (sc1 = sc2) as -> by (inv_ok E1; by subst).
    eapply book_step_then; [exact E2|]. eapply IH; [exact E|apply E2].
Qed.

Lemma slash_past_step ctx sc op h f x sc' r :
  slash_past ctx sc op h f x = Ok (sc', r) → store_ok (sc_s sc) → book_step none_out sc sc'.
Proof.
  unfold slash_past. intros E Hok. destruct (_ <? _); [discriminate|].
  destruct (_ =? _); [injection E as <- <-; apply keeps_step; [apply keeps_refl|done]|].
  apply bind_Ok in E as ([sc1 rest] & E1 & E).
  eapply (slash_loop_step (fun sc u => SlashUnbondingDelegation ctx sc u h f)) in E1;
    [|intros; by eapply SlashUnbondingDelegation_step|done].
  eapply (slash_loop_step (fun sc u => SlashRedelegation ctx sc u h f)) in E;
    [|intros; by eapply SlashRedelegation_step|apply E1].
  by eapply book_step_then.
Qed.

Lemma Slash_step ctx sc a h p f sc' :
  Slash ctx sc a h p f = Ok sc' → store_ok (sc_s sc) → book_step none_out sc sc'.
Proof.
  unfold Slash. intros E Hok. destruct (_ <? _); [discriminate|]. do 3 apply bind_Ok in E as (? & _ & E).
  destruct (GetValidatorByConsAddr _ _); [|injection E as <-; apply keeps_step; [apply keeps_refl|done]].
  destruct (sv_IsUnbonded _); [discriminate|]. apply bind_Ok in E as (op & _ & E).
  apply bind_Ok in E as (sc1 & E1%on_kb_keeps & E). pose proof (keeps_step _ _ E1 Hok) as B1.
  apply bind_Ok in E as ([sc2 rest] & E2 & E). apply slash_past_step in E2; [|apply B1]. cbv zeta in E.
  apply bind_Ok in E as (sc3 & E3 & E).
  assert (keeps sc2 sc3) as K3 by (inv_ok E3; [by eapply on_kb_keeps|subst; apply keeps_refl]).
  apply bind_Ok in E as ([k v] & _ & E). do 2 apply bind_Ok in E as (? & _ & E).
  assert (keeps sc2 sc') as K.
  { eapply keeps_trans; [exact K3|]. eapply keeps_trans; [apply (keeps_set_k k)|].
    destruct (sv_Status v); [discriminate|..]; by eapply must_on_b_keeps. }
  eapply book_step_then; [exact B1|]. eapply book_step_then; [exact E2|]. eapply keeps_step; [exact K|apply E2].
Qed.
End StakingReach.
