(* ===== verification/StakingQueues.v ===== *)
(** The records of unbondings and redelegations: the extension keeps one beside
    each of the SDK's, entry by entry. *)

From stdpp Require Import base gmap strings list fin_maps.
From Stdlib Require Import ZArith Lia.
From S2P Require Import Prelude Sdk SdkExt Types VeTypes World VeKeeper VeVoting VeMsg VeInv SdkStaking StakingTypes Staking StakingSlash StakingBook StakingUnbond StakingInv.

#[local] Open Scope Z_scope.

Section StakingQueues.
Context `{!Sdk, !SdkExt, !BankKeeper, !NftKeeper, !SdkStaking, !MapOrderU64, !SdkLaws, !BankLaws, !SdkExtLaws, !SdkStakingLaws}.
Context {OL : MapOrderU64Laws _}.
Implicit Types (sc : SChain) (ctx : Ctx).

(** Both records exist or none does, and they have as many entries. *)
Definition ubd_in_step sc (d v : Addr) : Prop :=
  (fun u => length (ud_Entries u)) <$> GetUnbondingDelegation (sc_k sc) d v =
  (fun u => length (vu_Entries u)) <$> GetVeUnbondingDelegation sc d v.
Definition red_in_step sc (d v v' : Addr) : Prop :=
  (fun r => length (rd_Entries r)) <$> GetRedelegation (sc_k sc) d v v' =
  (fun r => length (vr_Entries r)) <$> GetVeRedelegation sc d v v'.

Definition in_step sc : Prop := (∀ d v, ubd_in_step sc d v) ∧ (∀ d v v', red_in_step sc d v v').

(** ** Operations that leave all these records alone *)

Definition queues_kept sc sc' : Prop :=
  queue_frame (sc_k sc) (sc_k sc') ∧
  ss_VeUnbondingDelegations (sc_s sc') = ss_VeUnbondingDelegations (sc_s sc) ∧
  ss_VeRedelegations (sc_s sc') = ss_VeRedelegations (sc_s sc).

Lemma queue_frame_refl s : queue_frame s s.
Proof. done. Qed.

Lemma queue_frame_trans s1 s2 s3 : queue_frame s1 s2 → queue_frame s2 s3 → queue_frame s1 s3.
Proof. intros [A1 A2] [B1 B2]. split; intros; [rewrite B1|rewrite B2]; auto. Qed.

Lemma queues_kept_refl sc : queues_kept sc sc.
Proof. done. Qed.

Lemma queues_kept_trans sc1 sc2 sc3 : queues_kept sc1 sc2 → queues_kept sc2 sc3 → queues_kept sc1 sc3.
Proof. intros (A & ? & ?) (B & ? & ?). split_and!; [by eapply queue_frame_trans|congruence..]. Qed.

Lemma queues_kept_in_step sc sc' : queues_kept sc sc' → in_step sc → in_step sc'.
Proof.
  intros ([F1 F2] & E1 & E2) [I1 I2]. unfold in_step, ubd_in_step, red_in_step, GetVeUnbondingDelegation, GetVeRedelegation in *.
  rewrite E1, E2. split; intros; [rewrite F1|rewrite F2]; auto.
Qed.

Lemma queues_kept_set_k sc k : queue_frame (sc_k sc) k → queues_kept sc (set_k k sc).
Proof. done. Qed.

Lemma queues_kept_world sc w : queues_kept sc (set_w w sc).
Proof. done. Qed.

Lemma amounts_only_kept sc sc' : amounts_only sc sc' → sc_k sc' = sc_k sc → queues_kept sc sc'.
Proof. intros (_ & _ & ? & ?) E. split_and!; [by rewrite E|done..]. Qed.

Lemma on_k_kept f sc sc' :
  on_k f sc = Ok sc' → (∀ k k', f k = Ok k' → queue_frame k k') → queues_kept sc sc'.
Proof. unfold on_k. intros E Hf. inv_ok E. subst. by apply queues_kept_set_k, Hf. Qed.

Lemma on_kb_kept f sc sc' :
  on_kb f sc = Ok sc' → (∀ k b k' b', f k b = Ok (k', b') → queue_frame k k') → queues_kept sc sc'.
Proof. unfold on_kb. intros E Hf. inv_ok E. subst. split_and!; [by eapply Hf|done..]. Qed.

Lemma on_b_kept f sc sc' : on_b f sc = Ok sc' → queues_kept sc sc'.
Proof. unfold on_b, on_w. intros E. inv_ok E. by subst. Qed.

Lemma SetVeDelegation_kept sc x sc' : SetVeDelegation sc x = Ok sc' → queues_kept sc sc'.
Proof. unfold SetVeDelegation. intros E. inv_ok E. by subst. Qed.
Lemma RemoveVeDelegation_kept sc x sc' : RemoveVeDelegation sc x = Ok sc' → queues_kept sc sc'.
Proof. unfold RemoveVeDelegation. intros E. inv_ok E. by subst. Qed.
Lemma SetVeValidator_kept sc x sc' : SetVeValidator sc x = Ok sc' → queues_kept sc sc'.
Proof. unfold SetVeValidator. intros E. inv_ok E. by subst. Qed.

(** [kept] closes a goal about a chain of such operations. *)
Create HintDb kept.
#[local] Hint Resolve on_b_kept SetVeDelegation_kept RemoveVeDelegation_kept SetVeValidator_kept : kept.
#[local] Hint Resolve BeforeDelegationSharesModified_frame BeforeDelegationCreated_frame AfterDelegationModified_frame BeforeValidatorModified_frame BeforeValidatorSlashed_frame RemoveDelegation_frame RemoveValidator_frame SetDelegation_frame JailValidator_frame UnbondAllMatureValidators_frame : kept.
#[local] Hint Extern 2 (queues_kept _ _) => (eapply on_kb_kept; [eassumption|intros; cbv beta in *; eauto with kept]) : kept.
#[local] Hint Extern 2 (queues_kept _ _) => (eapply on_k_kept; [eassumption|intros; cbv beta in *; eauto with kept]) : kept.
Ltac kept := eauto with kept.

Lemma SettleVeDelegation_kept ctx sc x v x' sc' :
  SettleVeDelegation ctx sc x v = Ok (x', sc') → queues_kept sc sc'.
Proof.
  unfold SettleVeDelegation. intros E. inv_ok E; subst;
    apply settle_shares_Ok in E0 as (A & K & _); (eapply queues_kept_trans; [by apply amounts_only_kept|]); inv_ok E2; kept.
Qed.

Lemma delegate_ve_kept ctx val vts acc acc' :
  for_each (delegate_ve ctx val) vts acc = Ok acc' → queues_kept acc.1.1.1 acc'.1.1.1.
Proof.
  revert acc. induction vts as [|vt vts IH]; intros [[[sc dl] x] tot] E; cbn [for_each] in E; [by injection E as <-|].
  apply bind_Ok in E as ([[[sc1 dl1] x1] tot1] & E1 & E). eapply queues_kept_trans; [|by apply IH]. clear E IH. cbn.
  unfold delegate_ve in E1. cbv zeta in E1. destruct (vt_VeId vt =? EmptyVeID); [discriminate|]. inv_ok E1. subst.
  apply AddValidatorTokensAndShares_frame in E0.
  eapply queues_kept_trans; [|kept]. eapply queues_kept_trans; [|kept].
  by split_and!.
Qed.

Lemma delegate_coins_kept sc d amt src val sub sc' :
  delegate_coins sc d amt src val sub = Ok sc' → queues_kept sc sc'.
Proof.
  unfold delegate_coins. intros E. destruct sub; [case_decide; [discriminate|]; inv_ok E; kept|].
  destruct src, (sv_IsBonded val); try discriminate; first [by injection E as <-|kept].
Qed.

Lemma delegate_unconstrained_kept sc d amt src val sub dl sc' dl' n :
  delegate_unconstrained sc d amt src val sub dl = Ok (sc', dl', n) → queues_kept sc sc'.
Proof.
  unfold delegate_unconstrained. intros E. inv_ok E; subst; [|done].
  apply delegate_coins_kept in E0. apply AddValidatorTokensAndShares_frame in E1.
  eapply queues_kept_trans; [exact E0|]. eapply queues_kept_trans; [by apply queues_kept_set_k|kept].
Qed.

Lemma VeDelegate_kept ctx sc d amt vts src val sub sc' n :
  VeDelegate ctx sc d amt vts src val sub = Ok (sc', n) → queues_kept sc sc'.
Proof.
  unfold VeDelegate. intros E. inv_ok E. subst.
  assert (queues_kept sc s) as Q1.
  { destruct (GetVeDelegation sc d r); [by eapply SettleVeDelegation_kept|by injection E1 as <- <-]. }
  assert (queues_kept s r0) as Q2 by (destruct (GetDelegation _ _ _); kept).
  apply delegate_unconstrained_kept in E5 as Q3.
  apply delegate_ve_kept in E6 as Q4. cbn in Q4.
  assert (queues_kept s1 r3) as Q5 by (unfold add_ve_validator in E7; inv_ok E7; subst; [kept|done]).
  do 5 (eapply queues_kept_trans; [eassumption|]). kept.
Qed.

Lemma unbond_loop_kept rounds : ∀ sc val upd i x r vts sc' x' r' vts',
  unbond_loop rounds sc val upd i x r vts = Ok (sc', x', r', vts') → queues_kept sc sc'.
Proof.
  induction rounds as [|n IH]; intros sc val upd i x r vts sc' x' r' vts' E; cbn [unbond_loop] in E; [by injection E as <- <- <- <-|].
  destruct (vd_VeShares x !! i) as [s|]; [|by injection E as <- <- <- <-].
  destruct (r =? 0); [by injection E as <- <- <- <-|].
  apply bind_Ok in E as ([[[[sc1 x1] r1] vts1] rm] & E1 & E). eapply queues_kept_trans; [|by eapply IH].
  unfold unbond_round in E1. cbv zeta in E1. do 2 apply bind_Ok in E1 as (? & _ & E1).
  apply bind_Ok in E1 as ([[tok vts2] amt] & _ & E1). destruct (_ =? 0); injection E1 as <- _ _ _ _;
    (destruct upd; [|done]); apply amounts_only_kept; (apply amounts_only_put || apply put_frame).
Qed.

Lemma unbond_finish_kept ctx sc dl d val sh tv sc' amt :
  unbond_finish ctx sc dl d val sh tv = Ok (sc', amt) → queues_kept sc sc'.
Proof.
  unfold unbond_finish. intros E. apply bind_Ok in E as (sc1 & E1 & E).
  assert (queues_kept sc sc1) as Q1.
  { inv_ok E1; [kept|]. eapply queues_kept_trans; [|kept]. kept. }
  eapply queues_kept_trans; [exact Q1|].
  apply bind_Ok in E as ([[k val'] amt'] & Ek%RemoveValidatorTokensAndShares_frame & E). apply bind_Ok in E as (op & _ & E).
  eapply queues_kept_trans; [by apply queues_kept_set_k|].
  destruct (_ && _).
  - apply bind_Ok in E as (sc2 & E2 & E). injection E as <- <-. eapply (queues_kept_trans _ sc2); [kept|done].
  - destruct (0 <? tv); [|by injection E as <- <-].
    destruct (GetVeValidator _ _); [|discriminate]. inv_ok E. subst. kept.
Qed.

Lemma Unbond_kept ctx sc d v sh upd sc' amt vts :
  Unbond ctx sc d v sh upd = Ok (sc', amt, vts) → queues_kept sc sc'.
Proof.
  unfold Unbond. intros E. destruct (GetDelegation _ _ _) as [dl|]; [|discriminate].
  destruct (GetVeDelegation _ _ _) as [x|].
  2:{ apply bind_Ok in E as ([[k b] a] & Ek%sk_Unbond_frame & E). injection E as <- <- <-. by split_and!. }
  apply bind_Ok in E as (sc1 & E1 & E). apply guard_err_Ok in E as [_ E].
  destruct (GetValidator (sc_k sc1) v) as [val|] eqn:Hval; [|discriminate].
  apply bind_Ok in E as ([x2 sc2] & E2%SettleVeDelegation_kept & E).
  do 3 apply bind_Ok in E as (? & _ & E). cbv zeta in E. apply bind_Ok in E as (da & _ & E).
  apply bind_Ok in E as ([sc3 val3] & E6 & E).
  assert (queues_kept sc2 sc3) as Q3.
  { unfold jail_if_below in E6. apply bind_Ok in E6 as (op & _ & E6).
    apply bind_Ok in E6 as (below & _ & E6). destruct below; [|by injection E6 as <- <-].
    apply bind_Ok in E6 as (sc4 & E7 & E6). destruct (GetValidator (sc_k sc4) op); [|discriminate E6]. injection E6 as <- <-. kept. }
  apply bind_Ok in E as (over & _ & E). apply bind_Ok in E as ([[[sc4 x4] r4] vts4] & E8%unbond_loop_kept & E).
  apply bind_Ok in E as (sc5 & E9 & E). destruct (negb (r4 =? 0)); [discriminate|].
  apply bind_Ok in E as ([sc6 amt6] & E10%unbond_finish_kept & E). injection E as <- <- <-.
  eapply (queues_kept_trans _ sc1); [kept|]. do 3 (eapply queues_kept_trans; [eassumption|]).
  eapply queues_kept_trans; [|exact E10]. destruct (vd_VeShares x4); kept.
Qed.

(** ** Operations that change one record on both sides *)

Definition ve_ubd_updated sc sc' (d v : Addr) (o : option VeUnbondingDelegation) : Prop :=
  (∀ d' v', GetVeUnbondingDelegation sc' d' v' =
     if decide ((d', v') = (d, v)) then o else GetVeUnbondingDelegation sc d' v') ∧
  ss_VeRedelegations (sc_s sc') = ss_VeRedelegations (sc_s sc).

Definition ve_red_updated sc sc' (d v v' : Addr) (o : option VeRedelegation) : Prop :=
  ss_VeUnbondingDelegations (sc_s sc') = ss_VeUnbondingDelegations (sc_s sc) ∧
  (∀ d' v1 v2, GetVeRedelegation sc' d' v1 v2 =
     if decide ((d', v1, v2) = (d, v, v')) then o else GetVeRedelegation sc d' v1 v2).

Lemma in_step_ubd sc sc' d v o o' :
  in_step sc → ubd_updated (sc_k sc) (sc_k sc') d v o → ve_ubd_updated sc sc' d v o' →
  (fun u => length (ud_Entries u)) <$> o = (fun u => length (vu_Entries u)) <$> o' → in_step sc'.
Proof.
  intros [I1 I2] [U1 U2] [V1 V2] Ho. split.
  - intros d' v'. unfold ubd_in_step. rewrite U1, V1. case_decide; [done|apply I1].
  - intros d' v1 v2. unfold red_in_step, GetVeRedelegation. rewrite U2, V2. apply I2.
Qed.

Lemma in_step_red sc sc' d v v' o o' :
  in_step sc → red_updated (sc_k sc) (sc_k sc') d v v' o → ve_red_updated sc sc' d v v' o' →
  (fun r => length (rd_Entries r)) <$> o = (fun r => length (vr_Entries r)) <$> o' → in_step sc'.
Proof.
  intros [I1 I2] [U1 U2] [V1 V2] Ho. split.
  - intros d' w'. unfold ubd_in_step, GetVeUnbondingDelegation. rewrite U1, V1. apply I1.
  - intros d' v1 v2. unfold red_in_step. rewrite U2, V2. case_decide; [done|apply I2].
Qed.

Lemma ubd_updated_frame s s1 s2 d v o : ubd_updated s s1 d v o → queue_frame s1 s2 → ubd_updated s s2 d v o.
Proof. intros [U1 U2] [F1 F2]. split; intros; [rewrite F1|rewrite F2]; auto. Qed.

Lemma red_updated_frame s s1 s2 d v v' o : red_updated s s1 d v v' o → queue_frame s1 s2 → red_updated s s2 d v v' o.
Proof. intros [U1 U2] [F1 F2]. split; intros; [rewrite F1|rewrite F2]; auto. Qed.

Lemma put_ubd_updated sc d v u :
  ve_ubd_updated sc (on_s (fun s => ss_set_VeUnbondingDelegations (<[(d, v) := u]> (ss_VeUnbondingDelegations s)) s) sc) d v (Some u).
Proof. split; [|done]. intros d' v'. unfold GetVeUnbondingDelegation. cbn. case_decide as E; [rewrite E; apply lookup_insert_eq|by apply lookup_insert_ne]. Qed.

Lemma del_ubd_updated sc d v :
  ve_ubd_updated sc (on_s (fun s => ss_set_VeUnbondingDelegations (delete (d, v) (ss_VeUnbondingDelegations s)) s) sc) d v None.
Proof. split; [|done]. intros d' v'. unfold GetVeUnbondingDelegation. cbn. case_decide as E; [rewrite E; apply lookup_delete_eq|by apply lookup_delete_ne]. Qed.

Lemma put_red_updated sc d v v' r :
  ve_red_updated sc (on_s (ss_set_VeRedelegations (<[(d, v, v') := r]> (ss_VeRedelegations (sc_s sc)))) sc) d v v' (Some r).
Proof. split; [done|]. intros d' v1 v2. unfold GetVeRedelegation. cbn. case_decide as E; [rewrite E; apply lookup_insert_eq|by apply lookup_insert_ne]. Qed.

Lemma del_red_updated sc d v v' :
  ve_red_updated sc (on_s (ss_set_VeRedelegations (delete (d, v, v') (ss_VeRedelegations (sc_s sc)))) sc) d v v' None.
Proof. split; [done|]. intros d' v1 v2. unfold GetVeRedelegation. cbn. case_decide as E; [rewrite E; apply lookup_delete_eq|by apply lookup_delete_ne]. Qed.

Lemma Undelegate_in_step ctx sc d v sh sc' t :
  Undelegate ctx sc d v sh = Ok (sc', t) → store_ok (sc_s sc) → is_addr d → is_val_addr v →
  in_step sc → in_step sc'.
Proof.
  unfold Undelegate. intros E Hok Hd Hv I. destruct (GetValidator _ _); [|discriminate].
  apply guard_err_Ok in E as [_ E]. apply bind_Ok in E as ([[sc1 amt] vts] & E1 & E).
  pose proof (Unbond_step _ _ _ _ _ _ _ _ _ E1 Hok) as [B1 N1]. apply Unbond_kept in E1 as Q1.
  apply bind_Ok in E as (tot & _ & E). apply bind_Ok in E as (un & _ & E). apply bind_Ok in E as (sc2 & E2 & E).
  assert (queues_kept sc1 sc2 ∧ keeps sc1 sc2) as [Q2 K2] by (inv_ok E2; [split; [kept|by eapply on_b_keeps]|subst; by split; [|apply keeps_refl]]).
  cbv zeta in E. apply bind_Ok in E as ([k u] & E3 & E). apply SetUnbondingDelegationEntry_Ok in E3 as [_ U3].
  apply bind_Ok in E as (sc3 & E4 & E). pose proof (on_k_keeps _ _ _ E4) as K4. unfold on_k in E4. inv_ok E4. subst sc3.
  apply InsertUBDQueue_frame in E0. cbn in E0.
  apply bind_Ok in E as ([u' sc4] & E5 & E). destruct (bool_decide _) eqn:Hlen; [discriminate|]. injection E as <- <-.
  apply bool_decide_eq_false, dec_stable in Hlen.
  apply SetVeUnbondingDelegationEntry_step in E5 as (_ & -> & _); [|destruct K2 as [K2 _]; cbn; rewrite K2; apply B1|done..].
  eapply (in_step_ubd sc2 _ d v (Some u) (Some u')).
  - eapply queues_kept_in_step; [exact Q2|]. by eapply queues_kept_in_step.
  - cbn. by eapply ubd_updated_frame.
  - pose proof (put_ubd_updated sc2 d v u') as [P1 P2]. split; [intros d' v'; exact (P1 d' v')|exact P2].
  - cbn. by rewrite Hlen.
Qed.

Lemma BeginRedelegation_in_step ctx sc d v v' sh sc' t :
  BeginRedelegation ctx sc d v v' sh = Ok (sc', t) → store_ok (sc_s sc) →
  is_addr d → is_val_addr v → is_val_addr v' → in_step sc → in_step sc'.
Proof.
  unfold BeginRedelegation. intros E Hok Hd Hv Hv' I. apply guard_err_Ok in E as [_ E].
  destruct (GetValidator (sc_k sc) v') as [dst|] eqn:Hdst; [|discriminate].
  destruct (GetValidator (sc_k sc) v) as [src|]; [|discriminate].
  do 2 apply guard_err_Ok in E as [_ E]. apply bind_Ok in E as ([[sc1 amt] vts] & E1 & E).
  pose proof (Unbond_step _ _ _ _ _ _ _ _ _ E1 Hok) as [B1 N1]. apply Unbond_kept in E1 as Q1.
  apply guard_err_Ok in E as [_ E]. apply bind_Ok in E as ([sc2 n] & E2 & E).
  apply VeDelegate_kept in E2 as Q2.
  apply VeDelegate_step in E2; [|apply B1|done|by eapply GetValidator_nonneg|done].
  assert (in_step sc2) as I2 by (eapply queues_kept_in_step; [exact Q2|]; by eapply queues_kept_in_step).
  apply bind_Ok in E as ([[ct h] now] & _ & E). destruct now; [by injection E as <- <-|].
  apply bind_Ok in E as ([k r] & E3 & E). apply SetRedelegationEntry_Ok in E3 as [_ U3]. cbv zeta in E.
  apply bind_Ok in E as (sc3 & E4 & E). unfold on_k in E4. inv_ok E4. subst sc3. apply InsertRedelegationQueue_frame in E0. cbn in E0.
  apply bind_Ok in E as ([r' sc4] & E5 & E). destruct (bool_decide _) eqn:Hlen; [discriminate|]. injection E as <- <-.
  apply bool_decide_eq_false, dec_stable in Hlen.
  apply SetVeRedelegationEntry_step in E5 as (_ & -> & _); [|apply E2|done..].
  eapply (in_step_red sc2 _ d v v' (Some r) (Some r')); [exact I2|cbn; by eapply red_updated_frame| |cbn; by rewrite Hlen].
  pose proof (put_red_updated sc2 d v v' r') as [P1 P2]. split; [exact P1|intros d' v1 v2; exact (P2 d' v1 v2)].
Qed.

(** Completing an unbonding changes its own record on both sides, alike, and no
    other. *)
Lemma CompleteUnbonding_records ctx sc d v sc' r :
  CompleteUnbonding ctx sc d v = Ok (sc', r) → store_ok (sc_s sc) →
  queues_kept sc sc' ∨
  ∃ o o', ubd_updated (sc_k sc) (sc_k sc') d v o ∧ ve_ubd_updated sc sc' d v o' ∧
    (fun u => length (ud_Entries u)) <$> o = (fun u => length (vu_Entries u)) <$> o'.
Proof.
  unfold CompleteUnbonding. intros E Hok.
  destruct (GetUnbondingDelegation (sc_k sc) d v) as [u|] eqn:Hu; [|injection E as <- <-; by left].
  destruct (GetVeUnbondingDelegation sc d v) as [vu|] eqn:Hvu; [|discriminate].
  destruct (so_ubd _ Hok _ _ _ Hvu) as [Ha Ho]. destruct (GetUnbondingDelegation_key _ _ _ _ Hu) as [Ku1 Ku2].
  destruct (bool_decide _) eqn:Hlen; [discriminate|].
  apply bool_decide_eq_false, dec_stable in Hlen. cbv zeta in E.
  destruct (AccAddressFromBech32 (ud_DelegatorAddress u)) as [da|e|] eqn:Eda; [|injection E as <- <-; by left|discriminate].
  apply bind_Ok in E as ([sc1 r1] & E1 & E). apply complete_entries_Ok in E1; [|exact Ho].
  destruct r1 as [[[es ves] bal]|err].
  2:{ injection E as <- <-. destruct E1 as (x & (A & K & _) & _). left. by apply amounts_only_kept. }
  destruct E1 as ((A & K & _) & _ & L). specialize (L ltac:(done)). right.
  pose proof (amounts_only_kept _ _ A K) as (_ & Ku & Kr).
  apply bind_Ok in E as (sc2 & E2 & E). injection E as <- <-.
  destruct es as [|e es]; apply bind_Ok in E2 as (sc3 & E2 & E3);
    apply bind_Ok in E2 as (k' & E0 & E2); injection E2 as <-; rewrite K in E0.
  - eapply (RemoveVeUnbondingDelegation_Ok _ _ _ d v) in E3 as ->; [|exact Ha].
    apply RemoveUnbondingDelegation_Ok in E0 as (d0 & v0 & D0 & V0 & U0). cbn in D0, V0.
    assert (d0 = d ∧ v0 = v) as [-> ->] by (split; congruence).
    exists None, None. split_and!; [exact U0| |done].
    pose proof (del_ubd_updated sc1 d v) as [P1 P2]. unfold GetVeUnbondingDelegation in P1. rewrite Ku in P1. rewrite Kr in P2.
    split; [intros d' v'; exact (P1 d' v')|exact P2].
  - eapply (SetVeUnbondingDelegation_Ok _ _ _ d v) in E3 as ->; [|exact Ha].
    apply SetUnbondingDelegation_Ok in E0 as (d0 & v0 & D0 & V0 & U0). cbn in D0, V0.
    assert (d0 = d ∧ v0 = v) as [-> ->] by (split; congruence).
    eexists _, (Some (vu_set_Entries ves vu)). split_and!; [exact U0| |cbn; by rewrite <- L].
    pose proof (put_ubd_updated sc1 d v (vu_set_Entries ves vu)) as [P1 P2].
    unfold GetVeUnbondingDelegation in P1. rewrite Ku in P1. rewrite Kr in P2.
    split; [intros d' v'; exact (P1 d' v')|exact P2].
Qed.

Lemma CompleteUnbonding_in_step ctx sc d v sc' r :
  CompleteUnbonding ctx sc d v = Ok (sc', r) → store_ok (sc_s sc) → in_step sc → in_step sc'.
Proof.
  intros E Hok I. apply CompleteUnbonding_records in E as [K|(o & o' & U & V & L)]; [|by eapply in_step_ubd|done].
  by eapply queues_kept_in_step.
Qed.

Lemma CompleteUnbonding_other ctx sc d v sc' r d' v' :
  CompleteUnbonding ctx sc d v = Ok (sc', r) → store_ok (sc_s sc) → (d', v') ≠ (d, v) →
  GetUnbondingDelegation (sc_k sc') d' v' = GetUnbondingDelegation (sc_k sc) d' v' ∧
  GetVeUnbondingDelegation sc' d' v' = GetVeUnbondingDelegation sc d' v'.
Proof.
  intros E Hok Hne. apply CompleteUnbonding_records in E as [([F _] & Ku & _)|(o & o' & [U _] & [V _] & _)]; [| |done].
  - split; [apply F|]. unfold GetVeUnbondingDelegation. by rewrite Ku.
  - rewrite U, V. by rewrite !decide_False.
Qed.

Lemma CompleteRedelegation_in_step ctx sc d v v' sc' r :
  CompleteRedelegation ctx sc d v v' = Ok (sc', r) → store_ok (sc_s sc) → in_step sc → in_step sc'.
Proof.
  unfold CompleteRedelegation. intros E Hok I.
  destruct (GetRedelegation (sc_k sc) d v v') as [rd|] eqn:Hr; [|discriminate].
  destruct (GetVeRedelegation sc d v v') as [vr|] eqn:Hvr; [|discriminate].
  assert (vr_at vr d v v') as Ha by by eapply so_red. destruct (GetRedelegation_key _ _ _ _ _ Hr) as (K1 & K2 & K3).
  destruct (bool_decide _) eqn:Hlen; [discriminate|]. apply bool_decide_eq_false, dec_stable in Hlen.
  apply bind_Ok in E as ([[es ves] bal] & E1 & E). apply complete_redelegations_len in E1; [|done].
  cbv zeta in E. apply bind_Ok in E as (sc2 & E2 & E). injection E as <- <-.
  destruct es as [|e es]; apply bind_Ok in E2 as (sc3 & E2 & E3);
    apply bind_Ok in E2 as (k' & E0 & E2); injection E2 as <-.
  - eapply (RemoveVeRedelegation_Ok _ _ _ d v v') in E3 as ->; [|exact Ha].
    apply RemoveRedelegation_Ok in E0 as (d0 & v0 & w0 & D0 & V0 & W0 & U0). cbn in D0, V0, W0.
    assert (d0 = d ∧ v0 = v ∧ w0 = v') as (-> & -> & ->) by (split_and!; congruence).
    eapply (in_step_red sc _ d v v' None None); [done|exact U0| |done].
    pose proof (del_red_updated sc d v v') as [P1 P2]. split; [exact P1|intros d' v1 v2; exact (P2 d' v1 v2)].
  - eapply (SetVeRedelegation_Ok _ _ _ d v v') in E3 as ->; [|exact Ha].
    apply SetRedelegation_Ok in E0 as (d0 & v0 & w0 & D0 & V0 & W0 & U0). cbn in D0, V0, W0.
    assert (d0 = d ∧ v0 = v ∧ w0 = v') as (-> & -> & ->) by (split_and!; congruence).
    eapply (in_step_red sc _ d v v' _ (Some (vr_set_Entries ves vr))); [done|exact U0| |cbn; by rewrite <- E1].
    pose proof (put_red_updated sc d v v' (vr_set_Entries ves vr)) as [P1 P2]. split; [exact P1|intros d' v1 v2; exact (P2 d' v1 v2)].
Qed.

(** ** Slashing *)

(** While the entries of an unbonding are slashed, its record keeps their
    number. *)
Definition slashing_ubd (u : UnbondingDelegation) (vu : VeUnbondingDelegation) (d v : Addr) (acc : UbdSlash) : Prop :=
  in_step (us_sc acc) ∧ ss_VeUnbondingDelegations (sc_s (us_sc acc)) !! (d, v) = Some vu ∧
  length (ud_Entries (us_ubd acc)) = length (vu_Entries vu) ∧
  ud_DelegatorAddress (us_ubd acc) = ud_DelegatorAddress u ∧ ud_ValidatorAddress (us_ubd acc) = ud_ValidatorAddress u.

Lemma slash_entry_in_step ctx h f u vu acc e acc' d v :
  slash_entry ctx h f vu acc e = Ok acc' → vu_at vu d v →
  AccAddressFromBech32 (ud_DelegatorAddress u) = Ok d → ValAddressFromBech32 (ud_ValidatorAddress u) = Ok v →
  slashing_ubd u vu d v acc → slashing_ubd u vu d v acc'.
Proof.
  unfold slash_entry. intros E Ha Kd Kv (I & Hu & L & S1 & S2). destruct e as [i e].
  destruct (_ <? _); [by injection E as <-|]. destruct (ue_IsMature _ _); [by injection E as <-|].
  inv_ok E; subst; try done. destruct (vu_Entries vu !! i); [|discriminate]. inv_ok E. subst.
  eapply SetVeUnbondingDelegation_same in E4 as [[K4 W4] Kk4]; [|done|done].
  apply bind_Ok in E8 as (k' & E8 & E9). injection E9 as <-.
  apply SetUnbondingDelegation_Ok in E8 as (dd & vv & D0 & V0 & U0). cbn in D0, V0.
  assert (dd = d ∧ vv = v) as [-> ->] by (split; congruence).
  assert (length (<[i:=mkUnbondingEntry (ue_CreationHeight e) (ue_CompletionTime e) (ue_InitialBalance e) r5]> (ud_Entries (us_ubd acc))) = length (vu_Entries vu)) as L'
    by (by rewrite length_insert).
  unfold slashing_ubd. cbn. rewrite K4. split_and!; try done.
  eapply (in_step_ubd (us_sc acc) _ d v _ (Some vu)); [done|cbn; by rewrite <- Kk4| |cbn; by rewrite L'].
  split; [|by cbn; rewrite K4]. intros d' v'. unfold GetVeUnbondingDelegation. cbn. rewrite K4. case_decide as Hd; [|done]. by rewrite Hd.
Qed.

Lemma SlashUnbondingDelegation_in_step ctx sc u h f sc' x :
  SlashUnbondingDelegation ctx sc u h f = Ok (sc', x) → store_ok (sc_s sc) → in_step sc → in_step sc'.
Proof.
  unfold SlashUnbondingDelegation. intros E Hok I.
  apply bind_Ok in E as (d & Ed%must_Ok & E). apply bind_Ok in E as (v & Ev%must_Ok & E).
  destruct (GetVeUnbondingDelegation sc d v) as [vu|] eqn:Hvu; [|discriminate].
  destruct (so_ubd _ Hok _ _ _ Hvu) as [Ha _]. destruct (bool_decide _) eqn:Hlen; [discriminate|].
  apply bool_decide_eq_false, dec_stable in Hlen. apply bind_Ok in E as (acc & E1 & E).
  assert (slashing_ubd u vu d v (mkUbdSlash sc u 0 0 ∅)) as S0 by (split_and!; done).
  pose proof E1 as E1'. eapply slash_entries_keeps in E1' as [K1 _]; [|exact Ha|exact Hvu]. cbn in K1.
  assert (in_step (us_sc acc)) as I1.
  { revert E1 S0. generalize (mkUbdSlash sc u 0 0 ∅). clear K1. induction (imap pair (ud_Entries u)) as [|e l IH]; intros a E1 Sa; cbn [for_each] in E1.
    - injection E1 as <-. apply Sa.
    - apply bind_Ok in E1 as (a1 & E2 & E1). eapply IH; [exact E1|]. by eapply slash_entry_in_step. }
  apply bind_Ok in E as (sc1 & E2%must_Ok & E). apply bind_Ok in E as (sc2 & E3 & E). injection E as <- <-.
  pose proof (on_b_keeps _ _ _ E2) as [K2 _].
  apply slash_burned_step in E3 as (_ & A3 & Kk3); [|by rewrite K2, K1].
  eapply queues_kept_in_step; [by apply amounts_only_kept|]. eapply queues_kept_in_step; [by eapply on_b_kept|done].
Qed.

Lemma SlashRedelegation_in_step ctx sc r h f sc' x :
  SlashRedelegation ctx sc r h f = Ok (sc', x) → store_ok (sc_s sc) → in_step sc → in_step sc'.
Proof.
  unfold SlashRedelegation. intros E Hok I. do 3 apply bind_Ok in E as (? & _ & E).
  destruct (GetVeRedelegation _ _ _ _); [|discriminate]. destruct (bool_decide _); [discriminate|].
  apply bind_Ok in E as (acc & E1 & E).
  assert (queues_kept sc (rs_sc acc) ∧ red_acc sc acc) as [Q1 [B _]].
  { assert (queues_kept sc sc ∧ red_acc sc (mkRedSlash sc 0 0 0 ∅)) as S0.
    { split; [done|]. split; [|done]. eapply book_step_out; [apply keeps_step; [apply keeps_refl|done]|]. done. }
    revert E1 S0. change (queues_kept sc sc) with (queues_kept sc (rs_sc (mkRedSlash sc 0 0 0 ∅))).
    generalize (mkRedSlash sc 0 0 0 ∅). induction (rd_Entries r) as [|e l IH]; intros a E1 [Qa Ra]; cbn [for_each] in E1.
    - by injection E1 as <-.
    - apply bind_Ok in E1 as (a1 & E2 & E1). eapply IH; [exact E1|].
      split; [|by eapply slash_redelegation_entry_acc]. eapply queues_kept_trans; [exact Qa|].
      clear E1 IH E. unfold slash_redelegation_entry in E2.
      destruct (_ <? _); [by injection E2 as <-|]. destruct (re_IsMature _ _); [by injection E2 as <-|].
      do 3 apply bind_Ok in E2 as (? & _ & E2). cbv zeta in E2. apply bind_Ok in E2 as (sh & _ & E2).
      destruct (sh =? 0); [by injection E2 as <-|]. cbn [rs_sc rs_total rs_bondedBurned rs_notBondedBurned rs_veBurned] in E2.
      destruct (GetDelegation _ _ _); [|by injection E2 as <-].
      apply bind_Ok in E2 as ([[sc1 amt] vts] & E1%must_Ok%Unbond_kept & E2).
      do 3 apply bind_Ok in E2 as (? & _ & E2). destruct (GetValidator _ _) as [dst|]; [|discriminate].
      destruct (sv_Status dst); [discriminate|..]; inv_ok E2; subst; exact E1. }
  apply bind_Ok in E as (sc1 & E2%must_Ok & E). apply bind_Ok in E as (sc2 & E3%must_Ok & E).
  apply bind_Ok in E as (sc3 & E4 & E). injection E as <- <-.
  pose proof (on_b_keeps _ _ _ E2) as [K2 _]. pose proof (on_b_keeps _ _ _ E3) as [K3 _].
  apply slash_burned_step in E4 as (_ & A4 & Kk4); [|rewrite K3, K2; apply B].
  eapply queues_kept_in_step; [by apply amounts_only_kept|].
  do 2 (eapply queues_kept_in_step; [by eapply on_b_kept|]). by eapply queues_kept_in_step.
Qed.
End StakingQueues.
