(* ===== verification/StakingSteps.v ===== *)
(** The steps of the staking extension and the states it reaches. *)

From stdpp Require Import base gmap strings list fin_maps.
From Stdlib Require Import ZArith Lia.
From S2P Require Import Prelude Sdk Types VeTypes SdkExt World VeKeeper VeVoting VeMsg VeInv VeSafety SdkStaking StakingTypes Staking StakingSlash StakingBook StakingUnbond StakingInv StakingQueues.

#[local] Open Scope Z_scope.

Definition empty_StakingStore : StakingStore := mkStakingStore ∅ ∅ ∅ ∅ ∅.

Section StakingSteps.
Context `{!Sdk, !SdkExt, !BankKeeper, !NftKeeper, !SdkStaking, !MapOrderU64}.
Implicit Types (sc : SChain) (ctx : Ctx).

(** An operation of the extension: a message, a slash called by another
    module, the end of a block. *)
Inductive staking_op ctx sc sc' : Prop :=
| StVeDelegate msg :
    MsgVeDelegate_ValidateBasic msg = Ok tt → MsgServer_VeDelegate ctx sc msg = Ok sc' → staking_op ctx sc sc'
| StBeginRedelegate msg t : MsgServer_BeginRedelegate ctx sc msg = Ok (sc', t) → staking_op ctx sc sc'
| StUndelegate msg t : MsgServer_Undelegate ctx sc msg = Ok (sc', t) → staking_op ctx sc sc'
| StSlash consAddr infractionHeight power slashFactor :
    Slash ctx sc consAddr infractionHeight power slashFactor = Ok sc' → staking_op ctx sc sc'
| StEndBlock updates : staking_EndBlocker ctx sc = Ok (sc', updates) → staking_op ctx sc sc'.

(** A step: an operation, or a step of the rest of the chain, which writes
    neither the extension's store nor the SDK's records of unbondings and
    redelegations. *)
Inductive staking_step ctx sc sc' : Prop :=
| StOp : staking_op ctx sc sc' → staking_step ctx sc sc'
| StOther : sc_s sc' = sc_s sc → queue_frame (sc_k sc) (sc_k sc') → staking_step ctx sc sc'.

(** A run from a state. *)
Inductive staking_run (sc0 : SChain) : SChain → Prop :=
| staking_run_start : staking_run sc0 sc0
| staking_run_step ctx sc sc' : staking_run sc0 sc → staking_step ctx sc sc' → staking_run sc0 sc'.

(** The extension has no records at genesis ([InitGenesis] writes none); the
    SDK's keeper may have any. *)
Definition staking_reach sc : Prop := ∃ sc0, sc_s sc0 = empty_StakingStore ∧ staking_run sc0 sc.

(** A genesis state without unbondings and redelegations. *)
Definition no_queues sc : Prop :=
  (∀ d v, GetUnbondingDelegation (sc_k sc) d v = None) ∧ (∀ d v v', GetRedelegation (sc_k sc) d v v' = None).

Context `{!SdkLaws, !BankLaws, !SdkExtLaws, !SdkStakingLaws, !MapOrderU64Laws _}.

Definition staking_inv sc : Prop := store_ok (sc_s sc) ∧ in_step sc.

(** What every operation does. *)
Definition good_step sc sc' : Prop := book_step none_out sc sc' ∧ (in_step sc → in_step sc').

Lemma good_step_trans sc1 sc2 sc3 : good_step sc1 sc2 → good_step sc2 sc3 → good_step sc1 sc3.
Proof. intros [B1 I1] [B2 I2]. split; [by eapply book_step_then|auto]. Qed.

Lemma good_step_keeps sc sc' : keeps sc sc' → queues_kept sc sc' → store_ok (sc_s sc) → good_step sc sc'.
Proof. intros. split; [by apply keeps_step|by apply queues_kept_in_step]. Qed.

Lemma good_step_refl sc : store_ok (sc_s sc) → good_step sc sc.
Proof. intros. by apply good_step_keeps. Qed.

Lemma good_step_on_kb f sc sc' :
  on_kb f sc = Ok sc' → (∀ k b k' b', f k b = Ok (k', b') → queue_frame k k') → store_ok (sc_s sc) → good_step sc sc'.
Proof. intros E Hf Hok. apply good_step_keeps; [by eapply on_kb_keeps|by eapply on_kb_kept|done]. Qed.

Lemma good_step_on_b f sc sc' : on_b f sc = Ok sc' → store_ok (sc_s sc) → good_step sc sc'.
Proof. intros E Hok. apply good_step_keeps; [by eapply on_b_keeps|by eapply on_b_kept|done]. Qed.

Lemma good_step_set_k k sc : queue_frame (sc_k sc) k → store_ok (sc_s sc) → good_step sc (set_k k sc).
Proof. intros. by apply good_step_keeps. Qed.

(** Loops. *)
Lemma good_step_for_each {A} (f : SChain → A → outcome SChain) l sc sc' :
  (∀ sc a sc', f sc a = Ok sc' → store_ok (sc_s sc) → good_step sc sc') →
  for_each f l sc = Ok sc' → store_ok (sc_s sc) → good_step sc sc'.
Proof.
  intros Hf. revert sc. induction l as [|a l IH]; intros sc E Hok; cbn [for_each] in E.
  - injection E as <-. by apply good_step_refl.
  - apply bind_Ok in E as (sc1 & E1 & E). apply Hf in E1; [|done].
    eapply good_step_trans; [exact E1|]. eapply IH; [exact E|apply E1].
Qed.

Lemma good_step_slash_loop {A} (f : SChain → A → outcome (SChain * Z)) l sc rest sc' rest' :
  (∀ sc a sc' x, f sc a = Ok (sc', x) → store_ok (sc_s sc) → good_step sc sc') →
  for_each (fun acc a => '(sc, x) ← f acc.1 a; if x =? 0 then Ok (sc, acc.2) else r ← Int_Sub acc.2 x; Ok (sc, r)) l (sc, rest) = Ok (sc', rest') →
  store_ok (sc_s sc) → good_step sc sc'.
Proof.
  intros Hf. revert sc rest. induction l as [|a l IH]; intros sc rest E Hok; cbn [for_each] in E.
  - injection E as <- <-. by apply good_step_refl.
  - apply bind_Ok in E as ([sc1 rest1] & E1 & E). apply bind_Ok in E1 as ([sc2 x] & E2 & E1). cbn [fst] in E2.
    apply Hf in E2; [|done]. assert (sc1 = sc2) as -> by (inv_ok E1; by subst).
    eapply good_step_trans; [exact E2|]. eapply IH; [exact E|apply E2].
Qed.

Lemma slash_past_good ctx sc op h f x sc' r :
  slash_past ctx sc op h f x = Ok (sc', r) → store_ok (sc_s sc) → good_step sc sc'.
Proof.
  unfold slash_past. intros E Hok. destruct (_ <? _); [discriminate|].
  destruct (_ =? _); [injection E as <- <-; by apply good_step_refl|].
  apply bind_Ok in E as ([sc1 rest] & E1 & E).
  eapply (good_step_slash_loop (fun sc u => SlashUnbondingDelegation ctx sc u h f)) in E1;
    [|intros; split; [by eapply SlashUnbondingDelegation_step|by eapply SlashUnbondingDelegation_in_step]|done].
  eapply (good_step_slash_loop (fun sc u => SlashRedelegation ctx sc u h f)) in E;
    [|intros; split; [by eapply SlashRedelegation_step|by eapply SlashRedelegation_in_step]|apply E1].
  by eapply good_step_trans.
Qed.

Lemma Slash_good ctx sc a h p f sc' :
  Slash ctx sc a h p f = Ok sc' → store_ok (sc_s sc) → good_step sc sc'.
Proof.
  unfold Slash. intros E Hok. destruct (_ <? _); [discriminate|]. do 3 apply bind_Ok in E as (? & _ & E).
  destruct (GetValidatorByConsAddr _ _); [|injection E as <-; by apply good_step_refl].
  destruct (sv_IsUnbonded _); [discriminate|]. apply bind_Ok in E as (op & _ & E).
  apply bind_Ok in E as (sc1 & E1 & E).
  apply good_step_on_kb in E1; [|intros ????; apply BeforeValidatorModified_frame|done].
  apply bind_Ok in E as ([sc2 rest] & E2%slash_past_good & E); [|apply E1]. cbv zeta in E.
  apply bind_Ok in E as (sc3 & E3 & E).
  assert (good_step sc2 sc3) as G3.
  { inv_ok E3; [|subst; apply good_step_refl, E2].
    eapply good_step_on_kb; [exact E3|intros ????; apply BeforeValidatorSlashed_frame|apply E2]. }
  apply bind_Ok in E as ([k v] & Ek%RemoveValidatorTokens_frame & E). do 2 apply bind_Ok in E as (? & _ & E).
  do 3 (eapply good_step_trans; [eassumption|]).
  eapply good_step_trans; [apply good_step_set_k; [exact Ek|apply G3]|].
  destruct (sv_Status v); [discriminate|..]; apply must_Ok in E;
    (eapply good_step_on_b; [exact E|exact (bs_ok _ _ _ (proj1 G3))]).
Qed.

Lemma staking_EndBlocker_good ctx sc sc' l :
  staking_EndBlocker ctx sc = Ok (sc', l) → store_ok (sc_s sc) → good_step sc sc'.
Proof.
  unfold staking_EndBlocker, BlockValidatorUpdates. intros E Hok.
  apply bind_Ok in E as ([[k b] up] & Ek%must_Ok%ApplyAndReturnValidatorSetUpdates_frame & E). cbv zeta in E.
  assert (good_step sc (set_k k (set_w (set_bank b (sc_w sc)) sc))) as G1 by (apply good_step_keeps; [by split|by split_and!|done]).
  apply bind_Ok in E as (sc1 & E1 & E).
  apply good_step_on_kb in E1; [|intros ????; apply UnbondAllMatureValidators_frame|apply G1].
  apply bind_Ok in E as ([k2 mu] & Ek2%DequeueAllMatureUBDQueue_frame & E).
  apply good_step_set_k in Ek2; [|apply E1].
  apply bind_Ok in E as (sc3 & E3 & E).
  eapply good_step_for_each in E3; [| |apply Ek2]; cycle 1.
  { intros s a s' Es Hs. unfold complete_unbonding_of in Es. do 2 apply bind_Ok in Es as (? & _ & Es).
    apply bind_Ok in Es as ([s1 r] & Es1 & Es). injection Es as <-.
    split; [by eapply CompleteUnbonding_step|by eapply CompleteUnbonding_in_step]. }
  apply bind_Ok in E as ([k4 mr] & Ek4%DequeueAllMatureRedelegationQueue_frame & E).
  apply good_step_set_k in Ek4; [|apply E3]. apply bind_Ok in E as (sc5 & E5 & E). injection E as <- <-.
  eapply good_step_for_each in E5; [| |apply Ek4]; cycle 1.
  { intros s [[d src] dst] s' Es Hs. unfold complete_redelegation_of in Es. do 3 apply bind_Ok in Es as (? & _ & Es).
    destruct (CompleteRedelegation _ _ _ _ _) as [[s1 r]| |] eqn:Er; [| |discriminate]; injection Es as <-; [|by apply good_step_refl].
    split; [by eapply CompleteRedelegation_step|by eapply CompleteRedelegation_in_step]. }
  do 5 (eapply good_step_trans; [eassumption|]). exact E5.
Qed.

Lemma MsgServer_VeDelegate_good ctx sc msg sc' :
  MsgServer_VeDelegate ctx sc msg = Ok sc' → MsgVeDelegate_ValidateBasic msg = Ok tt → store_ok (sc_s sc) → good_step sc sc'.
Proof.
  unfold MsgServer_VeDelegate. intros E Hv Hok. apply bind_Ok in E as (v & _ & E).
  destruct (GetValidator (sc_k sc) v) as [val|] eqn:Hval; [|discriminate].
  apply bind_Ok in E as (d & Hd & E). do 2 apply guard_err_Ok in E as [_ E]. cbv zeta in E.
  apply bind_Ok in E as ([sc1 n] & E1 & E). injection E as <-.
  assert (0 < Amount (mvd_Amount msg)).
  { unfold MsgVeDelegate_ValidateBasic in Hv. inv_ok Hv. zbool. done. }
  split; [|by eapply queues_kept_in_step, VeDelegate_kept].
  eapply VeDelegate_step; [exact E1|done| |by eapply GetValidator_nonneg|by eexists].
  constructor; [cbn; lia|constructor].
Qed.

Lemma staking_op_good ctx sc sc' : staking_op ctx sc sc' → store_ok (sc_s sc) → good_step sc sc'.
Proof.
  intros [msg Hv E|msg t E|msg t E|a h p f E|l E] Hok.
  - by eapply MsgServer_VeDelegate_good.
  - unfold MsgServer_BeginRedelegate in E. apply bind_Ok in E as (v & Ev & E). apply bind_Ok in E as (d & Ed & E).
    apply bind_Ok in E as (sh & _ & E). apply guard_err_Ok in E as [_ E]. apply bind_Ok in E as (v' & Ev' & E).
    split; [eapply BeginRedelegation_step; [exact E|done|by eexists..]|].
    eapply BeginRedelegation_in_step; [exact E|done|by eexists..].
  - unfold MsgServer_Undelegate in E. apply bind_Ok in E as (v & Ev & E). apply bind_Ok in E as (d & Ed & E).
    apply bind_Ok in E as (sh & _ & E). apply guard_err_Ok in E as [_ E].
    split; [eapply Undelegate_step; [exact E|done|by eexists..]|].
    eapply Undelegate_in_step; [exact E|done|by eexists..].
  - by eapply Slash_good.
  - by eapply staking_EndBlocker_good.
Qed.

Lemma staking_step_good ctx sc sc' : staking_step ctx sc sc' → store_ok (sc_s sc) →
  store_ok (sc_s sc') ∧ (∀ i, gap sc i ≤ gap sc' i) ∧ (in_step sc → in_step sc').
Proof.
  intros [O|E F] Hok.
  - apply staking_op_good in O as [B I]; [|done]. split_and!; [apply B| |done].
    intros i. pose proof (bs_gap _ _ _ B i). unfold none_out in *. lia.
  - split_and!; [by rewrite E| |].
    + intros i. unfold gap, booked, GetVeDelegatedAmount. rewrite E. lia.
    + apply queues_kept_in_step. split_and!; [exact F|by rewrite E..].
Qed.

Lemma staking_run_good sc0 sc :
  staking_run sc0 sc → store_ok (sc_s sc0) →
  store_ok (sc_s sc) ∧ (∀ i, gap sc0 i ≤ gap sc i) ∧ (in_step sc0 → in_step sc).
Proof.
  intros R Hok. induction R as [|ctx sc sc' R (Ho & Hg & Hi) S]; [done|].
  apply staking_step_good in S as (O & G & I); [|done]. split_and!; [done| |auto].
  intros i. specialize (G i). specialize (Hg i). lia.
Qed.

Lemma empty_ok : store_ok empty_StakingStore.
Proof. by split. Qed.

Lemma staking_reach_inv sc : staking_reach sc → store_ok (sc_s sc) ∧ ∀ i, 0 ≤ gap sc i.
Proof.
  intros (sc0 & E & R). apply staking_run_good in R as (Ho & Hg & _); [|rewrite E; apply empty_ok]. split; [done|].
  intros i. etransitivity; [|apply Hg]. unfold gap, booked, booked_store, GetVeDelegatedAmount. rewrite E.
  cbn [empty_StakingStore ss_VeDelegations ss_VeUnbondingDelegations ss_VeTokens]. by rewrite !map_sum_empty, lookup_empty.
Qed.

Lemma staking_run_in_step sc0 sc : sc_s sc0 = empty_StakingStore → no_queues sc0 → staking_run sc0 sc → in_step sc.
Proof.
  intros E [Hu Hr] R. apply staking_run_good in R as (_ & _ & I); [|rewrite E; apply empty_ok]. apply I.
  split; intros; unfold ubd_in_step, red_in_step, GetVeUnbondingDelegation, GetVeRedelegation; rewrite E, ?Hu, ?Hr; done.
Qed.
End StakingSteps.

(** * The staking extension beside the other modules and under failures: the
    messages of the ve module and the delegated amounts, what happens to a slashed unbonding, which first
    delegations fail, and how much a slash burns from the pools. *)

Section StakingSafety.
Context `{!Sdk, !SdkExt, !BankKeeper, !NftKeeper, !SdkStaking, !MapOrderU64}.
Context `{!SdkLaws, !BankLaws, !NftLaws, !SdkExtLaws, !SdkStakingLaws, !MapOrderU64Laws _}.
Implicit Types (sc : SChain) (ctx : Ctx).

(** ** Messages of the ve module *)

(** The lock that a message takes away. *)
Definition lock_taken (m : ve_msg) : option Z :=
  match m with
  | VMerge m => Some (Uint64FromVeID (me_FromVeId m))
  | VWithdraw m => Some (Uint64FromVeID (wd_VeId m))
  | _ => None
  end.

Lemma lock_nonneg w i : ve_inv w → 0 ≤ lb_Amount (GetLockedAmountByUser w i) ∧ 0 ≤ lb_End (GetLockedAmountByUser w i).
Proof.
  intros I. unfold GetLockedAmountByUser. destruct (_ !! i) as [lb|] eqn:E; [|done].
  destruct (vi_locks _ I _ _ E) as (_ & (? & ? & _) & _). done.
Qed.

(** A lock that grows keeps what is delegated covered. *)
Lemma slack_set sc w' i lb :
  vs_LockedAmountByUser (w_ve w') = set_lock i lb (sc_w sc) → lb_Amount (GetLockedAmountByUser (sc_w sc) i) ≤ lb_Amount lb →
  ∀ j, 0 ≤ slack sc j → 0 ≤ slack (set_w w' sc) j.
Proof.
  intros E Hle j Hj. unfold slack, GetLockedAmountByUser in *. cbn [sc_w set_w]. rewrite E. unfold set_lock.
  change (GetVeDelegatedAmount (set_w w' sc) j) with (GetVeDelegatedAmount sc j).
  destruct (decide (j = i)) as [->|]; [rewrite lookup_insert_eq; simpl; lia|by rewrite lookup_insert_ne].
Qed.

Lemma slack_of sc w' i : slack (set_w w' sc) i = lb_Amount (GetLockedAmountByUser w' i) - GetVeDelegatedAmount sc i.
Proof. done. Qed.

(** A message leaves what is delegated of every lock covered, but for the lock
    it takes away: of that one nothing is left. *)
Lemma ve_msg_slack dlg ctx sc m w' :
  ve_inv (sc_w sc) → ve_ValidateBasic m = Ok tt → ve_handler dlg ctx (sc_w sc) m = Ok w' →
  ∀ i, 0 ≤ slack sc i →
    if decide (lock_taken m = Some i) then lb_Amount (GetLockedAmountByUser w' i) = 0 else 0 ≤ slack (set_w w' sc) i.
Proof.
  intros I Hv E i. destruct m as [m|m|m|m|m]; cbn [ve_handler ve_ValidateBasic lock_taken] in *.
  - destruct (Create ctx (sc_w sc) m) as [[[id t] w1]| |] eqn:Ec; [|discriminate..]. injection E as <-.
    apply Create_effect in Ec as (s & r & tk & _ & _ & _ & _ & _ & _ & _ & _ & L & _).
    eapply slack_set; [apply L|]. unfold MsgCreate_ValidateBasic in Hv. inv_ok Hv. zbool.
    unfold GetLockedAmountByUser. destruct (_ !! GetNextVeID _) as [lb|] eqn:El; [|simpl; lia].
    apply (vi_locks _ I) in El. lia.
  - apply Deposit_effect in E as (s & _ & _ & _ & _ & _ & L & _). eapply slack_set; [apply L|].
    unfold MsgDeposit_ValidateBasic in Hv. inv_ok Hv. zbool. simpl. lia.
  - apply ExtendTime_effect in E as (_ & _ & _ & _ & _ & L & _). eapply slack_set; [apply L|done].
  - destruct (merge_distinct _ _ _ _ _ I Hv E) as (_ & _ & Hne).
    apply Merge_effect in E as (s & tk & _ & _ & _ & _ & _ & _ & _ & _ & _ & L & _); [|by apply lock_nonneg].
    intros Hi. rewrite slack_of. unfold slack in Hi. unfold GetLockedAmountByUser at 1 2. rewrite (le_locked _ _ _ _ _ _ L).
    pose proof (lock_nonneg _ (Uint64FromVeID (me_FromVeId m)) I) as [Hf _].
    case_decide as Et; [injection Et as <-; by rewrite lookup_insert_ne, lookup_delete_eq|].
    destruct (decide (i = Uint64FromVeID (me_ToVeId m))) as [->|Ht]; [rewrite lookup_insert_eq; simpl; lia|].
    rewrite lookup_insert_ne, lookup_delete_ne by congruence. exact Hi.
  - apply Withdraw_effect in E as (s & tk & _ & _ & _ & _ & _ & _ & _ & _ & L & _).
    intros Hi. rewrite slack_of. unfold slack in Hi. unfold GetLockedAmountByUser at 1 2. rewrite (le_locked _ _ _ _ _ _ L).
    case_decide as Et; [injection Et as <-; by rewrite lookup_delete_eq|].
    rewrite lookup_delete_ne by congruence. exact Hi.
Qed.

(** ** A slashed unbonding *)

Lemma slash_burned_k ctx sc m sc' : slash_burned ctx sc m = Ok sc' → sc_k sc' = sc_k sc.
Proof. unfold slash_burned. intros E. by apply slash_all_Ok in E as (_ & K & _). Qed.

Lemma ubd_updated_self s s' d v o : ubd_updated s s' d v o → GetUnbondingDelegation s' d v = o.
Proof. intros [U _]. rewrite U. by rewrite decide_True. Qed.

(** The slash of an unbonding with one entry: the SDK's entry has lost
    something, the record of the locks is as it was. *)
Lemma SlashUnbondingDelegation_one ctx sc d v u vu e h f sc' n :
  SlashUnbondingDelegation ctx sc u h f = Ok (sc', n) → store_ok (sc_s sc) →
  GetUnbondingDelegation (sc_k sc) d v = Some u → GetVeUnbondingDelegation sc d v = Some vu → ud_Entries u = [e] →
  0 < n → 0 < ue_Balance e →
  ∃ u' e', GetUnbondingDelegation (sc_k sc') d v = Some u' ∧ GetVeUnbondingDelegation sc' d v = Some vu ∧
    ud_Entries u' = [e'] ∧ ue_Balance e' < ue_Balance e ∧ ue_CompletionTime e' = ue_CompletionTime e.
Proof.
  intros E Hok Hu Hvu He Hn Hb.
  pose proof (SlashUnbondingDelegation_step _ _ _ _ _ _ _ E Hok) as [_ Hves].
  pose proof (GetUnbondingDelegation_key _ _ _ _ Hu) as [Kd Kv].
  unfold SlashUnbondingDelegation in E. rewrite Kd, Kv in E. cbn [must mbind outcome_bind] in E. rewrite Hvu in E.
  destruct (bool_decide _); [discriminate|]. rewrite He in E. cbn [imap for_each] in E.
  apply bind_Ok in E as (acc & E1 & E). apply bind_Ok in E1 as (acc' & E1 & Ea). injection Ea as <-.
  apply bind_Ok in E as (sc1 & E2 & E). apply bind_Ok in E as (sc2 & E3 & E). injection E as <- Hx.
  apply must_Ok in E2. apply on_b_kept in E2 as [[F2 _] _].
  apply slash_burned_k in E3 as F3.
  unfold slash_entry in E1. cbv beta iota in E1.
  destruct (_ <? _); [injection E1 as <-; cbn in Hx; lia|].
  destruct (ue_IsMature _ _); [injection E1 as <-; cbn in Hx; lia|].
  apply bind_Ok in E1 as (sd & _ & E1). apply bind_Ok in E1 as (sa & _ & E1). apply bind_Ok in E1 as (tot & Et & E1).
  cbv zeta in E1. cbn [us_total] in Et. apply Int_Add_Ok in Et. subst tot.
  destruct (Z.min sa (ue_Balance e) =? 0) eqn:Ez; zbool; [injection E1 as <-; cbn in Hx; lia|].
  destruct (vu_Entries vu !! _); [|discriminate].
  apply bind_Ok in E1 as ([vs vb] & _ & E1). apply bind_Ok in E1 as (sc3 & _ & E1).
  do 2 apply bind_Ok in E1 as (? & _ & E1). apply bind_Ok in E1 as (bal & Eb & E1). apply Int_Sub_Ok in Eb. subst bal.
  apply bind_Ok in E1 as (sc4 & E4 & E1). injection E1 as <-. cbn in Hx. cbn [us_sc us_ubd us_total] in *.
  unfold on_k in E4. apply bind_Ok in E4 as (k4 & E4 & E5). injection E5 as <-.
  apply SetUnbondingDelegation_Ok in E4 as (d' & v' & Kd' & Kv' & U). cbn [ud_set_Entries ud_DelegatorAddress ud_ValidatorAddress] in *.
  rewrite Kd in Kd'. rewrite Kv in Kv'. injection Kd' as <-. injection Kv' as <-.
  eexists _, _. split_and!.
  - rewrite F3, F2. exact (ubd_updated_self _ _ _ _ _ U).
  - unfold GetVeUnbondingDelegation. rewrite Hves. exact Hvu.
  - cbn [ud_Entries]. rewrite He. reflexivity.
  - cbn [ue_Balance]. lia.
  - done.
Qed.

(** An unbonding whose entry is worth less than its locked parts is not
    completed. *)
Lemma CompleteUnbonding_one ctx sc d v u vu e ve :
  GetUnbondingDelegation (sc_k sc) d v = Some u → GetVeUnbondingDelegation sc d v = Some vu →
  ud_Entries u = [e] → vu_Entries vu = [ve] → ue_IsMature e (BlockTimeNano ctx) = true →
  ue_Balance e < list_sum ub_Balance (vue_VeBalances ve) →
  ∀ r, CompleteUnbonding ctx sc d v ≠ Ok r.
Proof.
  intros Hu Hvu He Hve Hm Hb r E. pose proof (GetUnbondingDelegation_key _ _ _ _ Hu) as [Kd _].
  unfold CompleteUnbonding in E. rewrite Hu, Hvu, He, Hve, Kd in E. cbv zeta in E.
  rewrite bool_decide_eq_false_2 in E by (simpl; lia). cbn [complete_entries] in E. rewrite Hm in E.
  apply bind_Ok in E as (r1 & E & _). apply bind_Ok in E as (r2 & E & _). unfold complete_entry in E.
  apply bind_Ok in E as (sc1 & _ & E). apply bind_Ok in E as (bal & E1 & E). apply bind_Ok in E as (rest & E2 & E).
  apply for_each_int_add_Ok in E1. sdk_inv. destruct (_ <? 0) eqn:El; [discriminate|]. zbool. lia.
Qed.

(** The unbondings that the end of a block finds mature: its steps up to the
    queue. *)
Definition mature_unbondings ctx sc : outcome (list (string * string)) :=
  '(k, b, _) ← must (ApplyAndReturnValidatorSetUpdates ctx (sc_k sc) (w_bank (sc_w sc)));
  let sc := set_k k (set_w (set_bank b (sc_w sc)) sc) in
  sc ← on_kb (fun k b => UnbondAllMatureValidators ctx k b) sc;
  '(_, l) ← DequeueAllMatureUBDQueue (sc_k sc) (BlockTimeNano ctx);
  Ok l.

(** A loop over mature unbondings does not get past one that is not
    completed. *)
Lemma complete_all_stuck ctx l sc sc' ds vs d v u vu :
  for_each (complete_unbonding_of ctx) l sc = Ok sc' → store_ok (sc_s sc) → (ds, vs) ∈ l →
  AccAddressFromBech32 ds = Ok d → ValAddressFromBech32 vs = Ok v →
  GetUnbondingDelegation (sc_k sc) d v = Some u → GetVeUnbondingDelegation sc d v = Some vu →
  (∀ sc r, GetUnbondingDelegation (sc_k sc) d v = Some u → GetVeUnbondingDelegation sc d v = Some vu →
     CompleteUnbonding ctx sc d v ≠ Ok r) →
  False.
Proof.
  intros E Hok Hin Hd Hv. revert sc E Hok. induction l as [|[ds' vs'] l IH]; intros sc E Hok Hu Hvu Hst; [by apply elem_of_nil in Hin|].
  cbn [for_each] in E. apply bind_Ok in E as (sc1 & E1 & E). unfold complete_unbonding_of in E1. cbn [fst snd] in E1.
  apply bind_Ok in E1 as (v1 & Ev & E1). apply bind_Ok in E1 as (d1 & Ed & E1). apply bind_Ok in E1 as ([sc2 r] & E2 & E1).
  injection E1 as <-. destruct (decide ((d, v) = (d1, v1))) as [[= <- <-]|Hne]; [by eapply Hst|].
  apply elem_of_cons in Hin as [[= <- <-]|Hin].
  { apply must_Ok in Ev, Ed. apply Hne. congruence. }
  destruct (CompleteUnbonding_other _ _ _ _ _ _ d v E2 Hok Hne) as [Ku Kv].
  apply (IH Hin sc2 E); [by eapply CompleteUnbonding_step|congruence..|done].
Qed.

Lemma EndBlocker_stuck ctx sc l ds vs d v u vu r :
  store_ok (sc_s sc) → mature_unbondings ctx sc = Ok l → (ds, vs) ∈ l →
  AccAddressFromBech32 ds = Ok d → ValAddressFromBech32 vs = Ok v →
  GetUnbondingDelegation (sc_k sc) d v = Some u → GetVeUnbondingDelegation sc d v = Some vu →
  (∀ sc r, GetUnbondingDelegation (sc_k sc) d v = Some u → GetVeUnbondingDelegation sc d v = Some vu →
     CompleteUnbonding ctx sc d v ≠ Ok r) →
  staking_EndBlocker ctx sc ≠ Ok r.
Proof.
  intros Hok Hl Hin Hd Hv Hu Hvu Hst E. unfold staking_EndBlocker, BlockValidatorUpdates in E. unfold mature_unbondings in Hl.
  apply bind_Ok in E as ([[k b] up] & Ek & E). rewrite Ek in Hl. cbn [mbind outcome_bind] in Hl. cbv zeta in E.
  apply bind_Ok in E as (sc1 & E1 & E). rewrite E1 in Hl. cbn [mbind outcome_bind] in Hl.
  apply bind_Ok in E as ([k2 l'] & Ek2 & E). rewrite Ek2 in Hl. cbn [mbind outcome_bind] in Hl. injection Hl as ->.
  apply bind_Ok in E as (sc3 & E3 & _).
  apply must_Ok, ApplyAndReturnValidatorSetUpdates_frame in Ek as [Fu _].
  pose proof E1 as (F1 & Ku & _)%on_kb_kept; [|intros ????; apply UnbondAllMatureValidators_frame]. destruct F1 as [Fu1 _].
  apply DequeueAllMatureUBDQueue_frame in Ek2 as [Fu2 _].
  eapply complete_all_stuck; [exact E3| |exact Hin|exact Hd|exact Hv| | |exact Hst].
  - apply on_kb_keeps in E1 as [Es _]. cbn. rewrite Es. exact Hok.
  - cbn. rewrite Fu2, Fu1. cbn. by rewrite Fu.
  - unfold GetVeUnbondingDelegation in *. cbn. rewrite Ku. exact Hvu.
Qed.

(** ** First delegations *)

(** With no record of the pair, a delegation of a locked part has to write one
    under the validator's text. *)
Lemma VeDelegate_first ctx sc d bond vts src val sub v r :
  sv_GetOperator val = Ok v → GetVeDelegation sc d v = None → vts ≠ [] →
  (∀ a, ValAddressFromBech32 (sv_String val) ≠ Ok a) →
  VeDelegate ctx sc d bond vts src val sub ≠ Ok r.
Proof.
  intros Ho Hn Hv Ht E. unfold VeDelegate in E. apply guard_err_Ok in E as [_ E]. rewrite Ho in E.
  cbn [mbind outcome_bind] in E. cbv zeta in E. rewrite Hn in E.
  apply bind_Ok in E as ([x sc1] & Ex & E). injection Ex as <- <-.
  apply bind_Ok in E as (sc2 & _ & E). do 2 apply bind_Ok in E as (? & _ & E).
  apply bind_Ok in E as ([[sc3 dl] tot] & _ & E). apply bind_Ok in E as ([[[sc4 dl4] x4] tot4] & E4 & _).
  destruct vts as [|vt vts]; [done|]. cbn [for_each] in E4. apply bind_Ok in E4 as (acc & E4 & _).
  unfold delegate_ve in E4. cbv zeta in E4. destruct (_ =? _); [discriminate|].
  apply guard_err_Ok in E4 as [_ E4]. apply bind_Ok in E4 as (am & _ & E4). apply guard_err_Ok in E4 as [_ E4].
  apply bind_Ok in E4 as ([[k1 v1] n1] & _ & E4). apply bind_Ok in E4 as (dl1 & _ & E4). apply bind_Ok in E4 as (sc5 & _ & E4).
  apply bind_Ok in E4 as (sh & _ & E4). apply bind_Ok in E4 as (sc6 & E6 & _).
  unfold SetVeDelegation in E6. apply bind_Ok in E6 as (a1 & _ & E6). apply bind_Ok in E6 as (a2 & E6%must_Ok & _).
  cbn [vd_ValidatorAddress SetSharesByVeID vd_set_VeShares] in E6. by apply Ht in E6.
Qed.

(** ** Slashes *)

(** The pools lose the part of the burned tokens that is not of locks, as long
    as the validator's ve shares are among its shares. *)
Lemma pool_burn_bounds sc val op t x v :
  pool_burn sc val op t = Ok x → 0 ≤ t → GetVeValidator sc op = Some v → 0 < sv_DelegatorShares val →
  0 ≤ vv_VeDelegatorShares v ≤ sv_DelegatorShares val →
  0 ≤ x ≤ t ∧
  Z.abs (x * sv_DelegatorShares val - t * (sv_DelegatorShares val - vv_VeDelegatorShares v)) < 2 * sv_DelegatorShares val.
Proof.
  unfold pool_burn. intros E Ht Hv Hd Hs. rewrite Hv in E. rewrite (proj2 (Z.ltb_lt _ _) Hd) in E.
  apply bind_Ok in E as (own & E1 & E). apply bind_Ok in E as (m & E2 & E). apply bind_Ok in E as (q & E3 & E).
  apply Dec_Sub_Ok in E1. apply Dec_Mul_ToDec in E2. subst own m. set (D := sv_DelegatorShares val) in *. set (S := vv_VeDelegatorShares v) in *.
  pose proof (Dec_Quo_nonneg _ _ _ E3 ltac:(nia) Hd) as Hq. apply Dec_Quo_bounds in E3; [|done].
  apply Dec_TruncateInt_bounds in E as (Hx & E4 & E5); [|done]. pose proof precision_pos as Hp.
  assert (q ≤ t * precision) by nia. split; [nia|].
  assert (x * D * precision ≤ q * D) by nia. assert (q * D < (x + 1) * D * precision) by nia.
  apply Z.abs_lt. split; nia.
Qed.
End StakingSafety.
