(* ===== verification/StakingProps.v ===== *)
(** The properties of the staking extension, with the concrete runs that
    discharge their hypotheses. *)

From stdpp Require Import base gmap strings list.
From Stdlib Require Import ZArith Lia.
From S2P Require Import Prelude Sdk SdkRef Types MakerTypes VeTypes SdkExt SdkExtRef World VeKeeper VeVoting VeMsg VeInv VeSafety VeDemo SdkStaking SdkStakingRef StakingTypes Staking StakingSlash StakingBook StakingUnbond StakingInv StakingQueues StakingSteps.

#[local] Open Scope string_scope.
#[local] Open Scope Z_scope.

(** * A concrete chain on which the theorems on the staking extension are
    applied: the reference staking keeper of [SdkStakingRef] with two bonded
    validators, and the lock [ve-1] of [VeDemo], of which an account that does
    not own it delegates a part, redelegates, undelegates and is slashed. *)

Module StakingDemo.
Export VeDemo.
Export SdkExtRef SdkStakingRef.

(** The text of a validator is its operator's address; in [no_text] it is no
    address at all. *)
#[export] Instance staking : SdkStaking := staking_of sv_OperatorAddress.
#[export] Instance staking_ok : SdkStakingLaws.
Proof. apply staking_laws. intros v a. apply bech_addr. Qed.
#[export] Instance order : MapOrderU64 := range_down.
#[export] Instance order_ok : MapOrderU64Laws order.
Proof. apply range_down_laws. Qed.

Definition val1 : SValidator := mkSValidator "val1" false Bonded (10 ^ 18) (10 ^ 18 * precision) 1.
Definition val2 : SValidator := mkSValidator "val2" false Bonded (10 ^ 18) (10 ^ 18 * precision) 1.
Definition k0 : keeper :=
  mkKeeper {["val1" := val1; "val2" := val2]} {["cons1" := "val1"]} ∅ ∅ ∅ [] [] "airon" (21 * 86400 * 10 ^ 9).

(** The pools hold the validators' tokens. *)
Definition pooled : World :=
  ok_or v1 (on_bank (fun b => MintCoins b BondedPoolName [mkCoin "airon" (2 * 10 ^ 18)]) v1).
Definition sc0 : SChain := mkSChain _ _ _ pooled k0 empty_StakingStore.

Definition delegate1 : MsgVeDelegate := mkMsgVeDelegate "bob" "val1" "ve-1" (mkCoin "airon" (4 * 10 ^ 17)).
Definition sc1 : SChain := ok_or sc0 (MsgServer_VeDelegate vctx2 sc0 delegate1).

Definition undelegate1 : MsgUndelegate := mkMsgUndelegate "bob" "val1" (mkCoin "airon" (10 ^ 17)).
Definition sc2 : SChain := (ok_or (sc1, 0) (MsgServer_Undelegate vctx2 sc1 undelegate1)).1.

Definition redelegate1 : MsgBeginRedelegate := mkMsgBeginRedelegate "bob" "val1" "val2" (mkCoin "airon" (10 ^ 17)).
Definition sc3 : SChain := (ok_or (sc2, 0) (MsgServer_BeginRedelegate vctx2 sc2 redelegate1)).1.

(** A tenth of the validator's power is slashed for an infraction before the
    undelegation. *)
Definition sctx : Ctx := vctx 1020 (t1 + 120).
Definition sc4 : SChain := ok_or sc3 (Slash sctx sc3 "cons1" 1005 (10 ^ 12) (precision / 10)).

(** The block in which the unbonding matures. *)
Definition ectx : Ctx := vctx 900000 (t1 + 22 * 86400).
Definition sc3_end : SChain := (ok_or (sc3, []) (staking_EndBlocker ectx sc3)).1.

(** ** The chain is reached *)

Lemma pooled_inv : ve_inv pooled.
Proof.
  apply (ve_reach_inv no_dlg AttoIronDenom t1). apply (vreach_step t1 v1 pooled vctx1); [exact vreach1|by vm_compute| |by vm_compute].
  apply VeOther; [by vm_compute..|]. apply Z.leb_le. by vm_compute.
Qed.

Lemma queues0 : no_queues sc0.
Proof. split; intros; by vm_compute. Qed.

Lemma srun0 : staking_run sc0 sc0.
Proof. apply staking_run_start. Qed.

Lemma is_ok_or1 {A B} (a : A) (b : B) (o : outcome (A * B)) : is_ok o = true → ∃ y, o = Ok ((ok_or (a, b) o).1, y).
Proof. destruct o as [[x y]| |]; [|discriminate..]. intros _. by exists y. Qed.

Lemma delegate1_op : staking_op vctx2 sc0 sc1.
Proof. eapply StVeDelegate; [|apply (is_ok_or sc0)]; by vm_compute. Qed.

Lemma srun1 : staking_run sc0 sc1.
Proof. eapply staking_run_step; [exact srun0|]. apply StOp, delegate1_op. Qed.

Lemma srun2 : staking_run sc0 sc2.
Proof.
  eapply staking_run_step; [exact srun1|].
  destruct (is_ok_or1 sc1 0 (MsgServer_Undelegate vctx2 sc1 undelegate1)) as [t E]; [by vm_compute|].
  by eapply StOp, StUndelegate.
Qed.

Lemma srun3 : staking_run sc0 sc3.
Proof.
  eapply staking_run_step; [exact srun2|].
  destruct (is_ok_or1 sc2 0 (MsgServer_BeginRedelegate vctx2 sc2 redelegate1)) as [t E]; [by vm_compute|].
  by eapply StOp, StBeginRedelegate.
Qed.

Lemma srun4 : staking_run sc0 sc4.
Proof.
  eapply staking_run_step; [exact srun3|]. eapply StOp, StSlash, (is_ok_or sc3). by vm_compute.
Qed.

Lemma sreach sc : staking_run sc0 sc → staking_reach sc.
Proof. intros R. by exists sc0. Qed.

(** What is found in the stores. *)
Definition some_or {A} (d : A) (o : option A) : A := default d o.
Definition is_Some_b {A} (o : option A) : bool := match o with Some _ => true | None => false end.
Lemma is_some_or {A} (d : A) (o : option A) : is_Some_b o = true → o = Some (some_or d o).
Proof. by destruct o. Qed.

Definition dl1 : Delegation := some_or (mkDelegation "" "" 0) (GetDelegation (sc_k sc1) "bob" "val1").
Definition vd1 : VeDelegation := some_or (mkVeDelegation "" "" []) (GetVeDelegation sc1 "bob" "val1").
Definition u2 : UnbondingDelegation := some_or (mkUnbondingDelegation "" "" []) (GetUnbondingDelegation (sc_k sc2) "bob" "val1").
Definition vu2 : VeUnbondingDelegation := some_or (mkVeUnbondingDelegation "" "" []) (GetVeUnbondingDelegation sc2 "bob" "val1").

Lemma found_dl1 : GetDelegation (sc_k sc1) "bob" "val1" = Some dl1.
Proof. apply is_some_or. by vm_compute. Qed.
Lemma found_vd1 : GetVeDelegation sc1 "bob" "val1" = Some vd1.
Proof. apply is_some_or. by vm_compute. Qed.
Lemma found_u2 : GetUnbondingDelegation (sc_k sc2) "bob" "val1" = Some u2.
Proof. apply is_some_or. by vm_compute. Qed.
Lemma found_vu2 : GetVeUnbondingDelegation sc2 "bob" "val1" = Some vu2.
Proof. apply is_some_or. by vm_compute. Qed.
End StakingDemo.

(** * The properties *)

Section Props.
Context `{!Sdk, !SdkExt, !BankKeeper, !NftKeeper, !SdkStaking, !MapOrderU64}.
Context `{!SdkLaws, !BankLaws, !NftLaws, !SdkExtLaws, !SdkStakingLaws, !MapOrderU64Laws _}.
Implicit Types (sc : SChain) (ctx : Ctx).

(** C19. The books cover the recorded amounts: in every state reached by
    messages, slashes and ends of blocks of the staking extension, between
    which the rest of the chain may do anything to other stores, the amount
    recorded as delegated for a lock is at most the tokens booked for it: those
    of its shares in all delegations and its balances in all unbondings.  So a
    lock of which nothing is staked any more is free. *)
Theorem staking_books_cover sc veID :
  staking_reach sc → GetVeDelegatedAmount sc veID ≤ booked sc veID.
Proof. intros R. destruct (staking_reach_inv sc R) as (_ & G). specialize (G veID). unfold gap in G. lia. Qed.

(** C20. The SDK's records and those of the extension stay in step: along every
    run of the extension from a genesis state without unbondings and
    redelegations, an unbonding (a redelegation) that the SDK has is one that
    the extension has, with the same number of entries, and the other way
    round.  With an unbonding in the genesis state, which gets no record of the
    extension, this fails from the start. *)
Theorem staking_records_in_step sc0 sc d v v' :
  sc_s sc0 = empty_StakingStore → no_queues sc0 → staking_run sc0 sc →
  match GetUnbondingDelegation (sc_k sc) d v, GetVeUnbondingDelegation sc d v with
  | Some u, Some vu => length (ud_Entries u) = length (vu_Entries vu)
  | None, None => True
  | _, _ => False
  end ∧
  match GetRedelegation (sc_k sc) d v v', GetVeRedelegation sc d v v' with
  | Some r, Some vr => length (rd_Entries r) = length (vr_Entries vr)
  | None, None => True
  | _, _ => False
  end.
Proof.
  intros E Hq R. destruct (staking_run_in_step sc0 sc E Hq R) as [U Rd]. specialize (U d v). specialize (Rd d v v').
  unfold ubd_in_step, red_in_step in *. split.
  - destruct (GetUnbondingDelegation _ _ _), (GetVeUnbondingDelegation _ _ _); by simplify_eq/=.
  - destruct (GetRedelegation _ _ _ _), (GetVeRedelegation _ _ _ _); by simplify_eq/=.
Qed.

(** C21. When delegated amounts stay within the locks.  In a reached state of
    the extension, with the invariant of the ve module, in which the amount recorded as delegated of every lock is at most the locked
    amount, an operation of the staking extension keeps it so.  A message of the
    ve module, on the keeper as the application builds it, keeps it so for a
    lock unless it withdraws the lock or merges it into another while something
    of it is delegated; then it does not, and nothing prevents such a message:
    the guard that [SetGetDelegatedAmountByUser] was to install is not there. *)
Theorem delegated_within_locks f ctx sc :
  staking_reach sc → ve_inv (sc_w sc) →
  (∀ i, GetVeDelegatedAmount sc i ≤ lb_Amount (GetLockedAmountByUser (sc_w sc) i)) →
  (∀ sc', staking_op ctx sc sc' →
     ∀ i, GetVeDelegatedAmount sc' i ≤ lb_Amount (GetLockedAmountByUser (sc_w sc') i)) ∧
  (∀ m w', ve_ValidateBasic m = Ok tt →
     ve_handler (SetGetDelegatedAmountByUser None f) ctx (sc_w sc) m = Ok w' →
     ∀ i, GetVeDelegatedAmount sc i ≤ lb_Amount (GetLockedAmountByUser w' i) ↔
          (lock_taken m = Some i → GetVeDelegatedAmount sc i ≤ 0)).
Proof.
  intros R I Hle. destruct (staking_reach_inv sc R) as (Hok & _).
  assert (∀ i, 0 ≤ slack sc i) as Hs by (intros i; specialize (Hle i); unfold slack; lia). split.
  - intros sc' O i. apply staking_op_good in O as [B _]; [|done].
    pose proof (bs_slack _ _ _ B i (Hs i)) as Hi. unfold slack in Hi. lia.
  - intros m w' Hv E i. pose proof (ve_msg_slack _ _ _ _ _ I Hv E i (Hs i)) as Hi.
    case_decide as Ht; [rewrite Hi; tauto|]. rewrite slack_of in Hi. split; [done|lia].
Qed.

(** C22. Unbonding takes the shares that are not locked first and then those
    of the locks in their order: after an unbonding of [shares] from a
    delegation with locked parts, the shares left to each lock are those of the
    reference definition [take_shares] applied to what exceeds the shares that
    are not locked; the record is gone when none are left, and no other record
    of a delegation changes. *)
Theorem unbond_takes_in_order ctx sc d v shares upd sc' amount vts dl x :
  staking_reach sc → Unbond ctx sc d v shares upd = Ok (sc', amount, vts) →
  GetDelegation (sc_k sc) d v = Some dl → GetVeDelegation sc d v = Some x →
  let over := Z.max (shares - (dl_Shares dl - shares_sum (vd_VeShares x))) 0 in
  holdings (default [] (vd_VeShares <$> GetVeDelegation sc' d v)) = take_shares over (holdings (vd_VeShares x)) ∧
  list_sum snd (take_shares over (holdings (vd_VeShares x))) = shares_sum (vd_VeShares x) - over ∧
  (∀ d' v', (d', v') ≠ (d, v) → GetVeDelegation sc' d' v' = GetVeDelegation sc d' v').
Proof.
  intros R E Hdl Hx over. destruct (staking_reach_inv sc R) as (Hok & _).
  pose proof (Unbond_Ok _ _ _ _ _ _ _ _ _ _ _ E Hok Hdl Hx) as [_ _ He Hh Ho]. split_and!; [exact Hh| |exact Ho].
  destruct (so_del _ Hok _ _ _ Hx) as [_ [_ Hnn]%vd_ok_holdings]. rewrite <- holdings_sum in *.
  apply take_shares_sum; [done|]. unfold locked_part in He. lia.
Qed.

(** C23. A slashed unbonding of locked tokens cannot be completed: when an
    unbonding has one entry, all of it locked, and a slash took something from
    it, then in every state of a run from there that has left the records of
    this unbonding alone, [CompleteUnbonding] does not return once the entry is
    mature; and when the queue yields the unbonding at the end of a block, the
    end of that block does not return either. *)
Theorem slashed_unbonding_not_completed ctx sc d v u vu e ve h f sc1 slashed ctx' sc2 :
  staking_reach sc →
  GetUnbondingDelegation (sc_k sc) d v = Some u → ud_Entries u = [e] →
  GetVeUnbondingDelegation sc d v = Some vu → vu_Entries vu = [ve] →
  ue_Balance e = list_sum ub_Balance (vue_VeBalances ve) → 0 < ue_Balance e →
  SlashUnbondingDelegation ctx sc u h f = Ok (sc1, slashed) → 0 < slashed →
  staking_run sc1 sc2 →
  GetUnbondingDelegation (sc_k sc2) d v = GetUnbondingDelegation (sc_k sc1) d v →
  GetVeUnbondingDelegation sc2 d v = GetVeUnbondingDelegation sc1 d v →
  ue_IsMature e (BlockTimeNano ctx') = true →
  (∀ r, CompleteUnbonding ctx' sc2 d v ≠ Ok r) ∧
  (∀ l ds vs, mature_unbondings ctx' sc2 = Ok l → (ds, vs) ∈ l →
     AccAddressFromBech32 ds = Ok d → ValAddressFromBech32 vs = Ok v →
     ∀ r, staking_EndBlocker ctx' sc2 ≠ Ok r).
Proof.
  intros R Hu He Hvu Hve Hb Hpos E Hs R2 Su Sv Hm. destruct (staking_reach_inv sc R) as (Hok & _).
  pose proof (SlashUnbondingDelegation_step _ _ _ _ _ _ _ E Hok) as [B _].
  apply staking_run_good in R2 as (Hok2 & _ & _); [|apply B].
  destruct (SlashUnbondingDelegation_one _ _ _ _ _ _ _ _ _ _ _ E Hok Hu Hvu He Hs Hpos)
    as (u' & e' & Hu' & Hvu' & He' & Hlt & Hct). rewrite Hu' in Su. rewrite Hvu' in Sv.
  assert (∀ s r, GetUnbondingDelegation (sc_k s) d v = Some u' → GetVeUnbondingDelegation s d v = Some vu →
    CompleteUnbonding ctx' s d v ≠ Ok r) as Hst.
  { intros s r H1' H2'. eapply CompleteUnbonding_one; [done..| |lia]. unfold ue_IsMature in *. by rewrite Hct. }
  split; [intros r; by apply Hst|]. intros l ds vs Hl Hin Hd Hv r. by eapply EndBlocker_stuck.
Qed.

(** C24. Who can delegate a lock: the owner of the token is refused (the
    check is the wrong way round), and for anybody else the first delegation to
    a validator fails when the validator's text, under which the record is to
    be stored, is not an address. *)
Theorem ve_delegation_refused ctx sc msg val v d :
  ValAddressFromBech32 (mvd_ValidatorAddress msg) = Ok v → GetValidator (sc_k sc) v = Some val →
  AccAddressFromBech32 (mvd_DelegatorAddress msg) = Ok d →
  (nft_GetOwner (w_nft (sc_w sc)) VeNftClassId (mvd_VeId msg) = d →
   MsgServer_VeDelegate ctx sc msg = Err ErrInvalidRequest) ∧
  (GetVeDelegation sc d v = None → (∀ a, ValAddressFromBech32 (sv_String val) ≠ Ok a) →
   ∀ sc', MsgServer_VeDelegate ctx sc msg ≠ Ok sc').
Proof.
  intros Hv Hval Hd. unfold MsgServer_VeDelegate. rewrite Hv. cbn [mbind outcome_bind]. rewrite Hval, Hd. cbn [mbind outcome_bind]. split.
  - intros Ho. destruct (bool_decide _); [done|]. cbn [guard_err]. by rewrite bool_decide_eq_true_2.
  - intros Hn Ht sc' E. do 2 apply guard_err_Ok in E as [_ E]. cbv zeta in E. apply bind_Ok in E as ([sc1 n] & E & _).
    revert E. by eapply VeDelegate_first; [by eapply GetValidator_operator|..].
Qed.

(** A slash takes from the pools no more than what is slashed, and
    within two base units the part of it that is not of locks, as long as the
    validator's ve shares are among its shares. *)
Theorem slash_pool_part sc val operator tokens x v :
  pool_burn sc val operator tokens = Ok x → 0 ≤ tokens → GetVeValidator sc operator = Some v →
  0 < sv_DelegatorShares val → 0 ≤ vv_VeDelegatorShares v ≤ sv_DelegatorShares val →
  0 ≤ x ≤ tokens ∧
  Z.abs (x * sv_DelegatorShares val - tokens * (sv_DelegatorShares val - vv_VeDelegatorShares v))
    < 2 * sv_DelegatorShares val.
Proof. apply pool_burn_bounds. Qed.
End Props.

Module StakingPropsWitness.
Import StakingDemo.

Lemma staking_books_cover_witness :
  GetVeDelegatedAmount sc4 1 = 38 * 10 ^ 16 ∧ GetVeDelegatedAmount sc4 1 ≤ booked sc4 1.
Proof. split; [by vm_compute|]. apply (staking_books_cover sc4 1 (sreach _ srun4)). Defined.

Lemma staking_records_in_step_witness :
  length (ud_Entries u2) = 1%nat ∧
  match GetUnbondingDelegation (sc_k sc4) "bob" "val1", GetVeUnbondingDelegation sc4 "bob" "val1" with
  | Some u, Some vu => length (ud_Entries u) = length (vu_Entries vu)
  | None, None => True
  | _, _ => False
  end.
Proof. split; [by vm_compute|]. apply (staking_records_in_step sc0 sc4 "bob" "val1" "val2" eq_refl queues0 srun4). Defined.

Lemma covered0 i : GetVeDelegatedAmount sc0 i ≤ lb_Amount (GetLockedAmountByUser (sc_w sc0) i).
Proof. transitivity 0; [by vm_compute|]. apply (lock_nonneg pooled i pooled_inv). Qed.

Lemma delegated_within_locks_witness :
  GetVeDelegatedAmount sc1 1 = 4 * 10 ^ 17 ∧
  (∀ i, GetVeDelegatedAmount sc1 i ≤ lb_Amount (GetLockedAmountByUser (sc_w sc1) i)) ∧
  ∀ i, GetVeDelegatedAmount sc0 i ≤
       lb_Amount (GetLockedAmountByUser (ok_or pooled (ve_handler no_dlg vctx2 pooled (VCreate create1))) i).
Proof.
  destruct (delegated_within_locks (fun _ _ => 1) vctx2 sc0 (sreach _ srun0) pooled_inv covered0) as [Hop Hmsg].
  split_and!; [by vm_compute|exact (Hop sc1 delegate1_op)|].
  intros i. apply (Hmsg (VCreate create1)); [by vm_compute|apply (is_ok_or pooled (ve_handler no_dlg vctx2 pooled (VCreate create1))); by vm_compute|done].
Defined.

(** Half of the delegation is unbonded, all of it locked. *)
Definition half : Dec := 2 * 10 ^ 17 * precision.
Definition unbonded1 : SChain * Z * VeTokensSlice := ok_or (sc1, 0, []) (Unbond vctx2 sc1 "bob" "val1" half true).

Lemma unbond_takes_in_order_witness :
  holdings (vd_VeShares vd1) = [(1, 4 * 10 ^ 17 * precision)] ∧
  holdings (default [] (vd_VeShares <$> GetVeDelegation unbonded1.1.1 "bob" "val1")) = [(1, half)].
Proof.
  split; [by vm_compute|].
  assert (Unbond vctx2 sc1 "bob" "val1" half true = Ok (unbonded1.1.1, unbonded1.1.2, unbonded1.2)) as E.
  { rewrite <- !surjective_pairing. apply (is_ok_or (sc1, 0, [])). by vm_compute. }
  destruct (unbond_takes_in_order vctx2 sc1 "bob" "val1" half true _ _ _ dl1 vd1 (sreach _ srun1) E found_dl1 found_vd1) as (Hh & _).
  rewrite Hh. by vm_compute.
Defined.

(** The undelegated tenth of the lock is slashed. *)
Definition slashed2 : SChain * Z := ok_or (sc2, 0) (SlashUnbondingDelegation sctx sc2 u2 1005 (precision / 10)).
Definition e2 : UnbondingEntry := hd (mkUnbondingEntry 0 0 0 0) (ud_Entries u2).
Definition ve2 : VeUnbondingEntry := hd (mkVeUnbondingEntry []) (vu_Entries vu2).

Lemma slashed_unbonding_not_completed_witness :
  slashed2.2 = 10 ^ 16 ∧ (∀ r, CompleteUnbonding ectx slashed2.1 "bob" "val1" ≠ Ok r) ∧
  ∀ r, staking_EndBlocker ectx slashed2.1 ≠ Ok r.
Proof.
  split; [by vm_compute|].
  destruct (slashed_unbonding_not_completed sctx sc2 "bob" "val1" u2 vu2 e2 ve2 1005 (precision / 10) slashed2.1 slashed2.2 ectx slashed2.1) as [Hc He].
  - exact (sreach _ srun2).
  - exact found_u2.
  - by vm_compute.
  - exact found_vu2.
  - by vm_compute.
  - by vm_compute.
  - by vm_compute.
  - rewrite <- surjective_pairing. apply (is_ok_or (sc2, 0)). by vm_compute.
  - by vm_compute.
  - apply staking_run_start.
  - done.
  - done.
  - by vm_compute.
  - split; [exact Hc|]. apply (He [("bob", "val1")] "bob" "val1"); [by vm_compute|by left|by vm_compute..].
Defined.

(** Alice owns the token. *)
Definition delegate_own : MsgVeDelegate := mkMsgVeDelegate "alice" "val1" "ve-1" (mkCoin "airon" (4 * 10 ^ 17)).
Lemma ve_delegation_refused_witness :
  MsgVeDelegate_ValidateBasic delegate_own = Ok tt ∧ MsgServer_VeDelegate vctx2 sc0 delegate_own = Err ErrInvalidRequest.
Proof.
  split; [by vm_compute|].
  apply (ve_delegation_refused vctx2 sc0 delegate_own val1 "val1" "alice"); by vm_compute.
Defined.

Lemma slash_pool_part_witness :
  let v := some_or (mkVeValidator "" 0) (GetVeValidator sc3 "val1") in
  let val := some_or val1 (GetValidator (sc_k sc3) "val1") in
  let x := ok_or 0 (pool_burn sc3 val "val1" (10 ^ 17)) in
  vv_VeDelegatorShares v = 2 * 10 ^ 17 * precision ∧ 0 ≤ x ≤ 10 ^ 17 ∧
  Z.abs (x * sv_DelegatorShares val - 10 ^ 17 * (sv_DelegatorShares val - vv_VeDelegatorShares v)) < 2 * sv_DelegatorShares val.
Proof.
  intros v val x. split; [by vm_compute|].
  apply (slash_pool_part sc3 val "val1" (10 ^ 17) x v).
  - apply (is_ok_or 0). by vm_compute.
  - by vm_compute.
  - apply is_some_or. by vm_compute.
  - by vm_compute.
  - split; by vm_compute.
Defined.

(** ** Behaviours of the source that it does not intend *)

(** After the slash the block in which the unbonding matures has no end. *)
Theorem slashed_end_block_panics :
  is_ok (staking_EndBlocker ectx sc3) = true ∧ is_panic (staking_EndBlocker ectx sc4) = true.
Proof. split; by vm_compute. Qed.

(** The owner withdraws a delegated lock: the value receiver of
    [SetGetDelegatedAmountByUser] drops the guard. *)
Theorem delegated_lock_withdrawn :
  let w := fold_left end_block [1; 2; 3; 4; 5; 6; 7; 8; 9] (sc_w sc1) in
  let dlg := SetGetDelegatedAmountByUser no_dlg (fun _ i => GetVeDelegatedAmount sc1 i) in
  let sc := set_w (ok_or w (Withdraw dlg vctx3 w withdraw1)) sc1 in
  is_ok (Withdraw dlg vctx3 w withdraw1) = true ∧
  lb_Amount (GetLockedAmountByUser (sc_w sc) 1) < GetVeDelegatedAmount sc 1.
Proof. split_and!; [by vm_compute..|]. apply Z.ltb_lt. by vm_compute. Qed.

(** A redelegation of 6 * 10^17, of which 4 * 10^17 are not locked: the
    destination gets the tokens of the last part only, since each part is added
    to the validator's record of before, and all new shares count as shares of
    locks. *)
Definition mixed_k : keeper :=
  k_set_dels (<[("bob", "val1") := mkDelegation "bob" "val1" (8 * 10 ^ 17 * precision)]> (k_dels (sc_k sc1)))
    (k_set_vals (<["val1" := mkSValidator "val1" false Bonded (18 * 10 ^ 17) (18 * 10 ^ 17 * precision) 1]> (k_vals (sc_k sc1)))
       (sc_k sc1)).
Definition redelegate_mixed : MsgBeginRedelegate :=
  mkMsgBeginRedelegate "bob" "val1" "val2" (mkCoin "airon" (6 * 10 ^ 17)).
Theorem mixed_redelegation_credits_last :
  let r := MsgServer_BeginRedelegate vctx2 (set_k mixed_k sc1) redelegate_mixed in
  let sc := (ok_or (sc1, 0) r).1 in
  is_ok r = true ∧
  sv_Tokens <$> GetValidator (sc_k sc) "val2" = Some (12 * 10 ^ 17) ∧
  dl_Shares <$> GetDelegation (sc_k sc) "bob" "val2" = Some (6 * 10 ^ 17 * precision) ∧
  vv_VeDelegatorShares <$> GetVeValidator sc "val2" = Some (6 * 10 ^ 17 * precision).
Proof. split_and!; by vm_compute. Qed.

(** An unbonding that is part of the genesis state has no record in the
    extension, so the block in which it matures has no end. *)
Definition genesis_unbonding : keeper :=
  k_set_ubdq [(0, ("bob", "val1"))]
    (k_set_ubds {[("bob", "val1") := mkUnbondingDelegation "bob" "val1" [mkUnbondingEntry 1 0 5 5]]} k0).
Theorem genesis_unbonding_panics :
  is_panic (staking_EndBlocker ectx (set_k genesis_unbonding sc0)) = true.
Proof. by vm_compute. Qed.
End StakingPropsWitness.
