(* ===== verification/SdkEvm.v ===== *)
(** What the bank extension and the erc20 module run on: the SDK's bank and
    account keepers, the EVM of ethermint, go-ethereum's addresses and ABI.

    All of it is third-party code and works on one state, the type [host] of
    the class [Host]: the EVM keeps its accounts in the account keeper and the
    balances of the gas token in the bank.  What the two modules rely on is
    stated in [HostLaws], on the view of the host by balances and supplies of
    coins and of ERC-20 tokens. *)

From stdpp Require Import base gmap strings list fin_maps.
From Stdlib Require Import ZArith Lia.
From S2P Require Import Prelude GoStrings Sdk.

#[local] Open Scope Z_scope.

(** [common.Address]: twenty bytes, held in a string. *)
Abbreviation EthAddr := string (only parsing).

(** [common.Address{}] *)
Definition zero_address : EthAddr := String.concat "" (repeat (String Ascii.zero "") 20).

(** ** Records of [banktypes] *)

Record DenomUnit := mkDenomUnit {
  du_Denom : string;
  du_Exponent : Z;
  du_Aliases : list string;
}.

Record Metadata := mkMetadata {
  md_Description : string;
  md_DenomUnits : list DenomUnit;
  md_Base : string;
  md_Display : string;
  md_Name : string;
  md_Symbol : string;
}.

(** An [Input] or [Output] of a multi-send. *)
Record InOut := mkInOut { io_Address : string; io_Coins : Coins }.

Record ModuleAccount := mkModuleAccount { ma_Address : Addr; ma_Permissions : list string }.

(** [authtypes.Staking] *)
Definition PermStaking : string := "staking".

(** ** The ABI *)

(** The two compiled contracts whose ABI is used. *)
Inductive Abi := ERC20MinterBurnerDecimals | ERC20Burnable.

Inductive AbiValue :=
| AbiAddress (a : EthAddr)
| AbiBigInt (x : Z)
| AbiUint8 (x : Z)
| AbiString (s : string).

(** [evmtypes.MsgEthereumTxResponse], with the data of type [B]. *)
Record EvmResponse (B : Type) := mkEvmResponse { er_Ret : B; er_VmError : string }.
Arguments mkEvmResponse {_} _ _.
Arguments er_Ret {_} _.
Arguments er_VmError {_} _.

Definition er_Failed {B} (r : EvmResponse B) : bool := negb (bool_decide (er_VmError r = ""%string)).

(** A message as [CallEVMWithData] builds it: amount, fee cap, tip cap and gas
    price are zero, the access list is empty and the nonce is checked. *)
Record EvmMessage (B : Type) := mkEvmMessage {
  em_From : EthAddr;
  em_To : option EthAddr;
  em_Nonce : Z;
  em_GasLimit : Z;
  em_Data : B;
}.
Arguments mkEvmMessage {_} _ _ _ _ _.
Arguments em_From {_} _.
Arguments em_To {_} _.
Arguments em_Nonce {_} _.
Arguments em_GasLimit {_} _.
Arguments em_Data {_} _.

(** [config.DefaultGasCap] of ethermint. *)
Definition DefaultGasCap : Z := 25000000.

Class Host := {
  host : Type;
  bytes : Type;
  (* go-ethereum's addresses *)
  IsHexAddress : string → bool;
  HexToAddress : string → EthAddr;
  Address_String : EthAddr → string;
  BytesToAddress : Addr → EthAddr;
  CreateAddress : EthAddr → Z → EthAddr;
  (* tmhash.Sum *)
  tmhash_Sum : string → string;
  (* strings.ToLower of a text with bytes beyond ASCII *)
  unicode_ToLower : string → string;
  (* sdk.NewIntFromBigInt *)
  NewIntFromBigInt : Z → outcome Z;
  Coin_IsEqual : Coin → Coin → outcome bool;
  (* ethermint's ValidateAddress: a non-zero hex address *)
  ValidateEthAddress : string → outcome unit;
  (* the ABI and bytes *)
  abi_Pack : Abi → string → list AbiValue → outcome bytes;
  abi_Unpack : Abi → string → bytes → outcome (list AbiValue);
  abi_UnpackString : Abi → string → bytes → outcome string;
  abi_UnpackUint8 : Abi → string → bytes → outcome Z;
  abi_EventByID : Abi → string → outcome string;
  bytes_app : bytes → bytes → bytes;
  contract_Bin : Abi → bytes;
  json_Marshal_TransactionArgs : EthAddr → option EthAddr → bytes → outcome string;
  (* accounts *)
  GetSequence : host → Addr → outcome Z;
  HasAccount : host → Addr → bool;
  SetNewAccount : host → Addr → host;
  ak_GetModuleAddress : string → option Addr;
  (* creates the account when there is none *)
  GetModuleAccount : host → string → host * option ModuleAccount;
  (* the EVM; an error or a failed execution leaves a state, too *)
  EstimateGas : host → string → Z → outcome Z;
  ApplyMessage : host → EvmMessage bytes → host * outcome (EvmResponse bytes);
  (* the SDK's bank keeper *)
  base_GetBalance : host → Addr → string → Coin;
  base_HasBalance : host → Addr → Coin → bool;
  base_GetSupply : host → string → Coin;
  base_HasSupply : host → string → bool;
  base_SpendableCoins : host → Addr → Coins;
  base_AllBalances : host → list (Addr * Coin);
  BlockedAddr : Addr → bool;
  SubUnlockedCoins : host → Addr → Coins → outcome host;
  AddCoins : host → Addr → Coins → outcome host;
  base_DelegateCoins : host → Addr → Addr → Coins → outcome host;
  base_UndelegateCoins : host → Addr → Addr → Coins → outcome host;
  base_MintCoins : host → string → Coins → outcome host;
  base_BurnCoins : host → string → Coins → outcome host;
  base_GetDenomMetaData : host → string → option Metadata;
  base_SetDenomMetaData : host → Metadata → host;
  base_Genesis : Type;
  base_Genesis_Balances : base_Genesis → list InOut;
  base_InitGenesis : host → base_Genesis → outcome host;
  ValidateInputsOutputs : list InOut → list InOut → outcome unit;
  Metadata_Validate : Metadata → outcome unit;
  (* ibctransfertypes.ValidateIBCDenom *)
  ValidateIBCDenom : string → outcome unit;
}.

(** ** The view of the host *)

Class HostView `{Host} := {
  (* the contract at an address runs the code of ERC20MinterBurnerDecimals with
     the erc20 module as its minter *)
  is_minter : host → EthAddr → Prop;
  has_code : host → EthAddr → Prop;
  token_bal : host → EthAddr → EthAddr → Z;
  token_supply : host → EthAddr → Z;
}.

Section View.
Context `{HostView}.

Definition coin_bal (h : host) (a : Addr) (d : string) : Z := Amount (base_GetBalance h a d).
Definition coin_supply (h : host) (d : string) : Z := Amount (base_GetSupply h d).

(** Coins are as they were. *)
Definition coins_same (h h' : host) : Prop :=
  ∀ d, coin_supply h' d = coin_supply h d ∧ ∀ a, coin_bal h' a d = coin_bal h a d.

(** Contracts deployed by the module are as they were but for the balances of
    [c], which are given. *)
Definition tokens_become (h h' : host) (c : EthAddr) (f : EthAddr → Z) (s : Z) : Prop :=
  (∀ c', has_code h c' → has_code h' c') ∧
  (∀ c', is_minter h c' → is_minter h' c') ∧
  (∀ c' a, is_minter h c' → c' ≠ c → token_bal h' c' a = token_bal h c' a ∧ token_supply h' c' = token_supply h c') ∧
  (∀ a, token_bal h' c a = f a) ∧ token_supply h' c = s.

Definition tokens_same (h h' : host) : Prop :=
  (∀ c, has_code h c → has_code h' c) ∧
  (∀ c, is_minter h c → is_minter h' c) ∧
  (∀ c a, is_minter h c → token_bal h' c a = token_bal h c a ∧ token_supply h' c = token_supply h c).

Definition metadata_same (h h' : host) : Prop := ∀ d, base_GetDenomMetaData h' d = base_GetDenomMetaData h d.

(** A message of the erc20 module's keeper to a contract. *)
Definition calls (m : EvmMessage bytes) (c : EthAddr) (abi : Abi) (method : string) (args : list AbiValue) : Prop :=
  em_To m = Some c ∧ abi_Pack abi method args = Ok (em_Data m).
End View.

(** What a bank operation does to the coins: those of [from] go out, those of
    [to] come in, and the supply grows by [s]. *)
Definition coins_become `{Host} (h h' : host) (f : string → Addr → Z) (s : string → Z) : Prop :=
  ∀ d, coin_supply h' d = coin_supply h d + s d ∧ ∀ a, coin_bal h' a d = coin_bal h a d + f d a.

(** Valid coins: positive amounts of different denominations. *)
Definition valid_coins (cs : Coins) : Prop := Forall (fun c => 0 < Amount c) cs ∧ NoDup (Denom <$> cs).

(** Twenty bytes, the addresses that an ERC-20 contract can tell apart. *)
Definition is_account `{Host} (a : Addr) : Prop := String.length a = 20%nat.

Class HostLaws `{HostView, !Sdk} : Prop := {
  (* addresses *)
  HexToAddress_String a : String.length a = 20%nat → HexToAddress (Address_String a) = a;
  IsHexAddress_String a : String.length a = 20%nat → IsHexAddress (Address_String a) = true;
  Address_String_slash a : Split slash (Address_String a) = [Address_String a];
  Address_String_length a : String.length a = 20%nat → String.length (Address_String a) = 42%nat;
  HexToAddress_length s : String.length (HexToAddress s) = 20%nat;
  BytesToAddress_length a : String.length (BytesToAddress a) = 20%nat;
  BytesToAddress_account a : is_account a → BytesToAddress a = a;
  CreateAddress_length a n : String.length (CreateAddress a n) = 20%nat;
  (* the accounts of modules have twenty bytes, the bank's own too *)
  bank_address : is_account (GetModuleAddress "bank");
  (* no two pairs are found with the same hash *)
  tmhash_Sum_inj s s' : tmhash_Sum s = tmhash_Sum s' → s = s';
  tmhash_Sum_nonempty s : tmhash_Sum s ≠ ""%string;
  NewIntFromBigInt_Ok x y : NewIntFromBigInt x = Ok y → y = x;
  Coin_IsEqual_Ok a b r : Coin_IsEqual a b = Ok r → Denom a = Denom b ∧ r = (Amount a =? Amount b);
  (* accounts *)
  SetNewAccount_same h a : coins_same h (SetNewAccount h a) ∧ tokens_same h (SetNewAccount h a) ∧ metadata_same h (SetNewAccount h a);
  ak_GetModuleAddress_Some m a : ak_GetModuleAddress m = Some a → a = GetModuleAddress m ∧ is_account a;
  GetModuleAccount_same h m h' o :
    GetModuleAccount h m = (h', o) →
    coins_same h h' ∧ tokens_same h h' ∧ metadata_same h h' ∧ ∀ acc, o = Some acc → ma_Address acc = GetModuleAddress m ∧ is_account (ma_Address acc);
  (* the SDK's bank *)
  SubUnlockedCoins_Ok h a cs h' :
    SubUnlockedCoins h a cs = Ok h' →
    valid_coins cs ∧ tokens_same h h' ∧ metadata_same h h' ∧
    coins_become h h' (fun d a' => - if_addr a' a (coins_amt d cs)) (fun _ => 0);
  AddCoins_Ok h a cs h' :
    AddCoins h a cs = Ok h' →
    valid_coins cs ∧ tokens_same h h' ∧ metadata_same h h' ∧
    coins_become h h' (fun d a' => if_addr a' a (coins_amt d cs)) (fun _ => 0);
  base_DelegateCoins_Ok h a m cs h' :
    base_DelegateCoins h a m cs = Ok h' →
    valid_coins cs ∧ tokens_same h h' ∧ metadata_same h h' ∧
    coins_become h h' (fun d a' => if_addr a' m (coins_amt d cs) - if_addr a' a (coins_amt d cs)) (fun _ => 0);
  base_UndelegateCoins_Ok h m a cs h' :
    base_UndelegateCoins h m a cs = Ok h' →
    valid_coins cs ∧ tokens_same h h' ∧ metadata_same h h' ∧
    coins_become h h' (fun d a' => if_addr a' a (coins_amt d cs) - if_addr a' m (coins_amt d cs)) (fun _ => 0);
  base_MintCoins_Ok h m cs h' :
    base_MintCoins h m cs = Ok h' →
    valid_coins cs ∧ tokens_same h h' ∧ metadata_same h h' ∧
    coins_become h h' (fun d a' => if_addr a' (GetModuleAddress m) (coins_amt d cs)) (fun d => coins_amt d cs);
  base_BurnCoins_Ok h m cs h' :
    base_BurnCoins h m cs = Ok h' →
    valid_coins cs ∧ tokens_same h h' ∧ metadata_same h h' ∧
    coins_become h h' (fun d a' => - if_addr a' (GetModuleAddress m) (coins_amt d cs)) (fun d => - coins_amt d cs);
  ValidateInputsOutputs_Ok ins outs :
    ValidateInputsOutputs ins outs = Ok tt →
    ∀ d, list_sum (fun i => coins_amt d (io_Coins i)) ins = list_sum (fun o => coins_amt d (io_Coins o)) outs;
  base_AllBalances_Ok h a c : (a, c) ∈ base_AllBalances h → coin_bal h a (Denom c) = Amount c;
  (* metadata is stored under its base denomination *)
  base_GetDenomMetaData_base h d md : base_GetDenomMetaData h d = Some md → md_Base md = d;
  base_SetDenomMetaData_same h md : coins_same h (base_SetDenomMetaData h md) ∧ tokens_same h (base_SetDenomMetaData h md);
  (* the EVM: a message that moves no gas token leaves the coins alone, as long
     as it runs a contract of the module or creates one *)
  ApplyMessage_coins h m h' r c :
    ApplyMessage h m = (h', r) → em_To m = Some c → is_minter h c → coins_same h h' ∧ metadata_same h h';
  (* an execution that fails is undone *)
  ApplyMessage_failed h m h' r :
    ApplyMessage h m = (h', r) → (∀ x, r = Ok x → er_Failed x = true) → coins_same h h' ∧ tokens_same h h' ∧ metadata_same h h';
  (* the methods of ERC20MinterBurnerDecimals *)
  ApplyMessage_transfer h m h' r c to x :
    ApplyMessage h m = (h', Ok r) → er_Failed r = false → is_minter h c →
    calls m c ERC20MinterBurnerDecimals "transfer" [AbiAddress to; AbiBigInt x] →
    tokens_become h h' c
      (fun a => token_bal h c a - if_addr a (em_From m) x + if_addr a to x) (token_supply h c);
  ApplyMessage_mint h m h' r c to x :
    ApplyMessage h m = (h', Ok r) → er_Failed r = false → is_minter h c →
    calls m c ERC20MinterBurnerDecimals "mint" [AbiAddress to; AbiBigInt x] →
    tokens_become h h' c (fun a => token_bal h c a + if_addr a to x) (token_supply h c + x);
  ApplyMessage_burn h m h' r c x :
    ApplyMessage h m = (h', Ok r) → er_Failed r = false → is_minter h c →
    calls m c ERC20MinterBurnerDecimals "burn" [AbiBigInt x] →
    tokens_become h h' c (fun a => token_bal h c a - if_addr a (em_From m) x) (token_supply h c - x);
  (* a view method of it returns what it names and changes nothing *)
  ApplyMessage_balanceOf h m h' r c a l :
    ApplyMessage h m = (h', Ok r) → er_Failed r = false → is_minter h c →
    calls m c ERC20Burnable "balanceOf" [AbiAddress a] → abi_Unpack ERC20Burnable "balanceOf" (er_Ret r) = Ok l →
    tokens_same h h' ∧ l = [AbiBigInt (token_bal h c a)];
  ApplyMessage_totalSupply h m h' r c l :
    ApplyMessage h m = (h', Ok r) → er_Failed r = false → is_minter h c →
    calls m c ERC20Burnable "totalSupply" [] → abi_Unpack ERC20Burnable "totalSupply" (er_Ret r) = Ok l →
    tokens_same h h' ∧ l = [AbiBigInt (token_supply h c)];
  (* a deployment by the module creates an empty token at an address without code *)
  ApplyMessage_deploy h m h' r n args ctor :
    ApplyMessage h m = (h', Ok r) → er_Failed r = false → em_To m = None →
    em_From m = BytesToAddress (GetModuleAddress "erc20") → em_Nonce m = n →
    abi_Pack ERC20MinterBurnerDecimals "" args = Ok ctor →
    em_Data m = bytes_app (contract_Bin ERC20MinterBurnerDecimals) ctor →
    let c := CreateAddress (em_From m) n in
    coins_same h h' ∧ metadata_same h h' ∧ tokens_same h h' ∧
    ¬ has_code h c ∧ has_code h' c ∧ is_minter h' c ∧ (∀ a, token_bal h' c a = 0) ∧ token_supply h' c = 0;
  is_minter_code h c : is_minter h c → has_code h c;
}.
