(* ===== verification/SdkEvmRef.v ===== *)
(** A concrete instance of [Host] that satisfies [HostLaws]: the bank of
    [SdkRef], metadata, and contracts that all run ERC20MinterBurnerDecimals,
    with call data and results as values of the ABI. *)

From stdpp Require Import base gmap strings list fin_maps pretty.
From Stdlib Require Import ZArith Lia Ascii.
From S2P Require Import Prelude GoStrings Sdk SdkRef SdkEvm.

#[local] Open Scope string_scope.
#[local] Open Scope Z_scope.

Module SdkEvmRef.
Import SdkRef.

(** ** Addresses *)

Definition hex_digit (n : nat) : Ascii.ascii :=
  nth n (String.list_ascii_of_string "0123456789abcdef") Ascii.zero.

Definition hex_value (a : Ascii.ascii) : option nat :=
  let n := Ascii.nat_of_ascii a in
  if (Nat.leb 48 n && Nat.leb n 57)%bool then Some (n - 48)%nat
  else if (Nat.leb 97 n && Nat.leb n 102)%bool then Some (n - 87)%nat
  else if (Nat.leb 65 n && Nat.leb n 70)%bool then Some (n - 55)%nat
  else None.

Fixpoint hex_encode (s : string) : string :=
  match s with
  | "" => ""
  | String a s =>
      let n := Ascii.nat_of_ascii a in String (hex_digit (Nat.div n 16)) (String (hex_digit (Nat.modulo n 16)) (hex_encode s))
  end.

Fixpoint hex_decode (s : string) : string :=
  match s with
  | String a (String b s) =>
      String (Ascii.ascii_of_nat (16 * default 0%nat (hex_value a) + default 0%nat (hex_value b))) (hex_decode s)
  | _ => ""
  end.

Fixpoint string_drop (n : nat) (s : string) : string :=
  match n, s with
  | S n, String _ s => string_drop n s
  | _, _ => s
  end.

(** Twenty bytes: the last ones, or zeros before what there is. *)
Definition crop20 (s : string) : string :=
  let n := String.length s in
  if Nat.leb n 20 then zero_bytes (20 - n) ++ s else string_drop (n - 20) s.

Definition strip_0x (s : string) : string := default s (strip_prefix "0x" s).

Fixpoint all_hex (s : string) : bool :=
  match s with "" => true | String a s => bool_decide (is_Some (hex_value a)) && all_hex s end.

Lemma zero_bytes_length n : String.length (zero_bytes n) = n.
Proof. unfold zero_bytes. generalize 0%nat. induction n as [|n IH]; intros k; simpl; [done|]. by rewrite IH. Qed.

Lemma str_length_app (s t : string) : String.length (s ++ t) = (String.length s + String.length t)%nat.
Proof. induction s as [|a s IH]; simpl; [done|]. by rewrite IH. Qed.

Lemma string_drop_length n s : String.length (string_drop n s) = (String.length s - n)%nat.
Proof. revert s. induction n as [|n IH]; intros [|a s]; simpl; rewrite ?IH; done. Qed.

Lemma crop20_length s : String.length (crop20 s) = 20%nat.
Proof.
  unfold crop20. destruct (Nat.leb_spec (String.length s) 20).
  - rewrite str_length_app, zero_bytes_length. lia.
  - rewrite string_drop_length. lia.
Qed.

Lemma crop20_id s : String.length s = 20%nat → crop20 s = s.
Proof. intros E. unfold crop20. by rewrite E. Qed.

Lemma nibble_value n : (n < 16)%nat → hex_value (hex_digit n) = Some n.
Proof. intros Hn. do 16 (destruct n as [|n]; [reflexivity|]). lia. Qed.

Lemma hex_digit_slash n : hex_digit n ≠ slash.
Proof. do 16 (destruct n as [|n]; [discriminate|]). unfold hex_digit. rewrite nth_overflow; [discriminate|simpl; lia]. Qed.

Lemma hex_encode_length s : String.length (hex_encode s) = (2 * String.length s)%nat.
Proof. induction s as [|a s IH]; simpl; [done|]. rewrite IH. lia. Qed.

Lemma hex_parts a : (Nat.div (Ascii.nat_of_ascii a) 16 < 16)%nat ∧ (Nat.modulo (Ascii.nat_of_ascii a) 16 < 16)%nat.
Proof.
  pose proof (Ascii.nat_ascii_bounded a). split; [apply Nat.Div0.div_lt_upper_bound; lia|apply Nat.mod_upper_bound; lia].
Qed.

Lemma hex_decode_encode s : hex_decode (hex_encode s) = s.
Proof.
  induction s as [|a s IH]; [done|]. cbn [hex_encode hex_decode]. destruct (hex_parts a) as [Hd Hm].
  rewrite !nibble_value by done. cbn [default]. rewrite IH. f_equal. cbn [from_option id].
  rewrite <- Nat.Div0.div_mod. apply Ascii.ascii_nat_embedding.
Qed.

Lemma hex_encode_all s : all_hex (hex_encode s) = true.
Proof.
  induction s as [|a s IH]; [done|]. cbn [hex_encode all_hex]. destruct (hex_parts a) as [Hd Hm].
  rewrite !nibble_value by done. by rewrite !bool_decide_eq_true_2.
Qed.

Lemma hex_encode_slash s : Split slash (hex_encode s) = [hex_encode s].
Proof.
  induction s as [|a s IH]; [done|]. cbn [hex_encode Split].
  rewrite !decide_False by apply hex_digit_slash. by rewrite IH.
Qed.

(** ** The state *)

Record token := mkToken { t_name : string; t_symbol : string; t_decimals : Z; t_bal : gmap string Z; t_supply : Z }.

Record rhost := mkRhost {
  rh_bank : ledger;
  rh_meta : gmap string Metadata;
  rh_tokens : gmap string token;
  rh_seq : gmap string Z;
}.

Definition set_rh_bank b h := mkRhost b (rh_meta h) (rh_tokens h) (rh_seq h).
Definition set_rh_tokens m h := mkRhost (rh_bank h) (rh_meta h) m (rh_seq h).

Definition t_get (t : token) (a : string) : Z := default 0 (t_bal t !! a).
Definition t_add (t : token) (a : string) (x s : Z) : token :=
  mkToken (t_name t) (t_symbol t) (t_decimals t) (<[a := t_get t a + x]> (t_bal t)) (t_supply t + s).

Definition module_eth : string := crop20 (module_addr "erc20").

Abbreviation data := (list (string * list AbiValue)).

Definition reverted : outcome (EvmResponse data) := Ok (mkEvmResponse [] "execution reverted").
Definition returns (l : list AbiValue) : outcome (EvmResponse data) := Ok (mkEvmResponse [("", l)] "").

(** The methods of a token. *)
Definition run_token (t : token) (from : string) (d : data) : option (token * list AbiValue) :=
  match d with
  | [("transfer", [AbiAddress to; AbiBigInt x])] =>
      if (0 <=? x) && (x <=? t_get t from) then Some (t_add (t_add t from (- x) 0) to x 0, []) else None
  | [("mint", [AbiAddress to; AbiBigInt x])] =>
      if (0 <=? x) && bool_decide (from = module_eth) then Some (t_add t to x x, []) else None
  | [("burn", [AbiBigInt x])] =>
      if (0 <=? x) && (x <=? t_get t from) then Some (t_add t from (- x) (- x), []) else None
  | [("balanceOf", [AbiAddress a])] => Some (t, [AbiBigInt (t_get t a)])
  | [("totalSupply", [])] => Some (t, [AbiBigInt (t_supply t)])
  | [("name", [])] => Some (t, [AbiString (t_name t)])
  | [("symbol", [])] => Some (t, [AbiString (t_symbol t)])
  | [("decimals", [])] => Some (t, [AbiUint8 (t_decimals t)])
  | _ => None
  end.

Definition create_address (a : string) (n : Z) : string := crop20 ("contract " ++ pretty n).

Definition run_deploy (h : rhost) (from : string) (nonce : Z) (d : data) : option rhost :=
  match d with
  | [("bin", []); ("", args)] =>
      let c := create_address from nonce in
      match rh_tokens h !! c with
      | Some _ => None
      | None =>
          let '(n, s, k) := match args with
                            | [AbiString n; AbiString s; AbiUint8 k] => (n, s, k)
                            | _ => ("", "", 0)
                            end in
          Some (mkRhost (rh_bank h) (rh_meta h) (<[c := mkToken n s k ∅ 0]> (rh_tokens h)) (<[from := nonce + 1]> (rh_seq h)))
      end
  | _ => None
  end.

Definition apply_message (h : rhost) (m : EvmMessage data) : rhost * outcome (EvmResponse data) :=
  match em_To m with
  | None =>
      match run_deploy h (em_From m) (em_Nonce m) (em_Data m) with
      | Some h => (h, returns [])
      | None => (h, reverted)
      end
  | Some c =>
      match rh_tokens h !! c with
      | None => (h, Ok (mkEvmResponse [] ""))
      | Some t =>
          match run_token t (em_From m) (em_Data m) with
          | Some (t, l) => (set_rh_tokens (<[c := t]> (rh_tokens h)) h, returns l)
          | None => (h, reverted)
          end
      end
  end.

(** ** The bank *)

Definition coins_valid (cs : Coins) : bool := forallb (fun c => 0 <? Amount c) cs && bool_decide (NoDup (Denom <$> cs)).

Definition bank_op (f : Coins → ledger → outcome ledger) (cs : Coins) (h : rhost) : outcome rhost :=
  if coins_valid cs then b ← f cs (rh_bank h); Ok (set_rh_bank b h) else Err (ErrExt "invalid coins").

Definition io_denoms (l : list InOut) : list string := l ≫= fun i => Denom <$> io_Coins i.
Definition io_total (d : string) (l : list InOut) : Z := list_sum (fun i => coins_amt d (io_Coins i)) l.

#[export] Instance host_ref : Host := {|
  host := rhost;
  bytes := data;
  IsHexAddress s := Nat.eqb (String.length (strip_0x s)) 40 && all_hex (strip_0x s);
  HexToAddress s := crop20 (hex_decode (strip_0x s));
  Address_String a := "0x" ++ hex_encode a;
  BytesToAddress := crop20;
  CreateAddress := create_address;
  tmhash_Sum s := String slash s;
  unicode_ToLower s := s;
  NewIntFromBigInt x := if Z.abs x <? 2 ^ 255 then Ok x else Panic;
  Coin_IsEqual a b := if decide (Denom a = Denom b) then Ok (Amount a =? Amount b) else Panic;
  ValidateEthAddress s :=
    if Nat.eqb (String.length (strip_0x s)) 40 && all_hex (strip_0x s) then Ok tt else Err (ErrExt "not an address");
  abi_Pack _ m args := Ok [(m, args)];
  abi_Unpack _ _ d := match d with [(_, l)] => Ok l | _ => Err (ErrExt "abi") end;
  abi_UnpackString _ _ d := match d with [(_, [AbiString s])] => Ok s | _ => Err (ErrExt "abi") end;
  abi_UnpackUint8 _ _ d := match d with [(_, [AbiUint8 x])] => Ok x | _ => Err (ErrExt "abi") end;
  abi_EventByID _ id := if decide (id = "Transfer-id") then Ok "Transfer" else Err (ErrExt "no event");
  bytes_app d d' := (d ++ d')%list;
  contract_Bin _ := [("bin", [])];
  json_Marshal_TransactionArgs _ _ _ := Ok "";
  GetSequence h a := Ok (default 0 (rh_seq h !! a));
  HasAccount _ _ := true;
  SetNewAccount h _ := h;
  ak_GetModuleAddress m := if Nat.leb (String.length m) 12 then Some (module_addr m) else None;
  GetModuleAccount h m :=
    (h, if Nat.leb (String.length m) 12 then Some (mkModuleAccount (module_addr m) ["staking"]) else None);
  EstimateGas _ _ _ := Ok 0;
  ApplyMessage := apply_message;
  base_GetBalance h a d := mkCoin d (get_bal (rh_bank h) a d);
  base_HasBalance h a c := Amount c <=? get_bal (rh_bank h) a (Denom c);
  base_GetSupply h d := mkCoin d (get_sup (rh_bank h) d);
  base_HasSupply h d := negb (get_sup (rh_bank h) d =? 0);
  base_SpendableCoins h a := [];
  base_AllBalances h := (fun kv => (kv.1.1, mkCoin kv.1.2 kv.2)) <$> map_to_list (balances (rh_bank h));
  BlockedAddr _ := false;
  SubUnlockedCoins h a cs := bank_op (for_each (sub1 a)) cs h;
  AddCoins h a cs := bank_op (for_each (add1 a)) cs h;
  base_DelegateCoins h a m cs := bank_op (fun cs l => send l a m cs) cs h;
  base_UndelegateCoins h m a cs := bank_op (fun cs l => send l m a cs) cs h;
  base_MintCoins h m cs := bank_op (for_each (mint1 (module_addr m))) cs h;
  base_BurnCoins h m cs := bank_op (for_each (burn1 (module_addr m))) cs h;
  base_GetDenomMetaData h d := match rh_meta h !! d with Some md => if decide (md_Base md = d) then Some md else None | None => None end;
  base_SetDenomMetaData h md := mkRhost (rh_bank h) (<[md_Base md := md]> (rh_meta h)) (rh_tokens h) (rh_seq h);
  base_Genesis := list InOut;
  base_Genesis_Balances g := g;
  base_InitGenesis h g := for_each (fun h i => bank_op (for_each (mint1 (io_Address i))) (io_Coins i) h) g h;
  ValidateInputsOutputs ins outs :=
    if forallb (fun d => io_total d ins =? io_total d outs) (io_denoms ins ++ io_denoms outs)%list then Ok tt
    else Err (ErrExt "sum inputs != sum outputs");
  Metadata_Validate _ := Ok tt;
  ValidateIBCDenom _ := Ok tt;
|}.

#[export] Instance view_ref : HostView := {|
  is_minter h c := is_Some (rh_tokens h !! c);
  has_code h c := is_Some (rh_tokens h !! c);
  token_bal h c a := from_option (fun t => t_get t a) 0 (rh_tokens h !! c);
  token_supply h c := from_option t_supply 0 (rh_tokens h !! c);
|}.

(** ** Laws *)

Lemma t_get_add t a x s b : t_get (t_add t a x s) b = t_get t b + if_addr b a x.
Proof.
  unfold t_get, t_add, if_addr. simpl. rewrite lookup_insert. destruct (decide (a = b)) as [->|Hne].
  - by rewrite decide_True.
  - rewrite decide_False by congruence. unfold t_get. lia.
Qed.

Lemma bank_op_Ok f cs h h' :
  bank_op f cs h = Ok h' → SdkEvm.valid_coins cs ∧ tokens_same h h' ∧ metadata_same h h' ∧ f cs (rh_bank h) = Ok (rh_bank h').
Proof.
  unfold bank_op. destruct (coins_valid cs) eqn:E; [|discriminate]. intros E'. apply bind_Ok in E' as (b & Eb & E'). injection E' as <-. split_and!; [|done..].
  unfold coins_valid in E. apply andb_true_iff in E as [E1 E2%bool_decide_eq_true]. split; [|done].
  apply Forall_forall. intros c Hc. rewrite forallb_forall in E1. apply Z.ltb_lt, E1. by apply list_elem_of_In.
Qed.

(** A token after a call. *)
Lemma set_token_become (h : rhost) c t t' :
  rh_tokens h !! c = Some t →
  tokens_become h (set_rh_tokens (<[c := t']> (rh_tokens h)) h) c (t_get t') (t_supply t').
Proof.
  intros Hc. split_and!; simpl.
  - intros c' [? Hc']. rewrite lookup_insert. by case_decide; eexists.
  - intros c' [? Hc']. rewrite lookup_insert. by case_decide; eexists.
  - intros c' a _ Hne. by rewrite lookup_insert_ne.
  - intros a. by rewrite lookup_insert_eq.
  - by rewrite lookup_insert_eq.
Qed.

Lemma tokens_become_ext (h h' : rhost) c f g s s' :
  tokens_become h h' c f s → (∀ a, f a = g a) → s = s' → tokens_become h h' c g s'.
Proof. intros (A & B & C & D & E) Hf <-. split_and!; try done. intros a. by rewrite D, Hf. Qed.

Lemma tokens_become_same (h h' : rhost) c t : rh_tokens h !! c = Some t → tokens_become h h' c (t_get t) (t_supply t) → tokens_same h h'.
Proof.
  intros Hc (A & B & C & D & E). split_and!; [done..|]. intros c' a Hm. destruct (decide (c' = c)) as [->|]; [|by apply C].
  rewrite D, E. simpl. by rewrite Hc.
Qed.

(** A call that did not fail ran a method. *)
Lemma apply_call (h h' : rhost) (m : EvmMessage data) r c (t : token) :
  apply_message h m = (h', Ok r) → er_Failed r = false → em_To m = Some c → rh_tokens h !! c = Some t →
  ∃ t' l, run_token t (em_From m) (em_Data m) = Some (t', l) ∧ h' = set_rh_tokens (<[c := t']> (rh_tokens h)) h ∧ er_Ret r = [("", l)].
Proof.
  unfold apply_message. intros E Hf Ht Hc. rewrite Ht, Hc in E. destruct (run_token _ _ _) as [[t' l]|].
  - injection E as <- <-. by exists t', l.
  - injection E as <- <-. discriminate.
Qed.

Lemma io_not_in d l : d ∉ io_denoms l → io_total d l = 0.
Proof.
  unfold io_denoms, io_total. induction l as [|i l IH]; [done|]. rewrite bind_cons, not_elem_of_app. intros [Hn Hl].
  rewrite list_sum_cons, IH by done. assert (coins_amt d (io_Coins i) = 0) as ->; [|done].
  clear IH Hl. induction (io_Coins i) as [|c cs IH]; [done|]. cbn in *. apply not_elem_of_cons in Hn as [? ?].
  rewrite decide_False by congruence. rewrite IH by done. done.
Qed.

Lemma Address_length (a : string) : String.length ("0x" ++ hex_encode a) = (2 + 2 * String.length a)%nat.
Proof. rewrite str_length_app, hex_encode_length. done. Qed.

Lemma strip_0x_app s : strip_0x ("0x" ++ s) = s.
Proof. reflexivity. Qed.

Lemma module_addr_length m : (String.length m <= 12)%nat → String.length (module_addr m) = 20%nat.
Proof.
  intros Hm. unfold module_addr. rewrite (proj2 (Nat.leb_le _ _) Hm). rewrite str_length_app. cbn [String.length].
  rewrite str_length_app, zero_bytes_length. lia.
Qed.

(** The methods, by name. *)
Lemma run_transfer t from to x t' l :
  run_token t from [("transfer", [AbiAddress to; AbiBigInt x])] = Some (t', l) → t' = t_add (t_add t from (- x) 0) to x 0.
Proof. cbn. destruct (_ && _); [|discriminate]. by intros [= <- _]. Qed.
Lemma run_mint t from to x t' l :
  run_token t from [("mint", [AbiAddress to; AbiBigInt x])] = Some (t', l) → t' = t_add t to x x.
Proof. cbn. destruct (_ && _); [|discriminate]. by intros [= <- _]. Qed.
Lemma run_burn t from x t' l :
  run_token t from [("burn", [AbiBigInt x])] = Some (t', l) → t' = t_add t from (- x) (- x).
Proof. cbn. destruct (_ && _); [|discriminate]. by intros [= <- _]. Qed.

Lemma if_addr_opp a b x : if_addr a b (- x) = - if_addr a b x.
Proof. unfold if_addr. case_decide; lia. Qed.

Lemma apply_deploy (h h' : rhost) (m : EvmMessage data) r args :
  apply_message h m = (h', Ok r) → er_Failed r = false → em_To m = None →
  em_Data m = [("bin", []); ("", args)] →
  let c := create_address (em_From m) (em_Nonce m) in
  rh_tokens h !! c = None ∧ rh_bank h' = rh_bank h ∧ rh_meta h' = rh_meta h ∧
  ∃ n s k, rh_tokens h' = <[c := mkToken n s k ∅ 0]> (rh_tokens h).
Proof.
  intros E Hf Ht Hd c. unfold apply_message in E. rewrite Ht, Hd in E. cbv beta iota delta [run_deploy] in E. fold c in E. cbv zeta in E.
  destruct (rh_tokens h !! c) eqn:Hc; [injection E as <- <-; discriminate|].
  destruct (match args with [AbiString n; AbiString s; AbiUint8 k] => (n, s, k) | _ => ("", "", 0) end) as [[n s] k].
  injection E as <- _. split_and!; [done..|]. by exists n, s, k.
Qed.

Lemma apply_bank (h h' : rhost) (m : EvmMessage data) r : apply_message h m = (h', r) → rh_bank h' = rh_bank h ∧ rh_meta h' = rh_meta h.
Proof.
  unfold apply_message, run_deploy. intros E. repeat case_match; by simplify_eq.
Qed.

Lemma apply_failed (h h' : rhost) (m : EvmMessage data) r :
  apply_message h m = (h', r) → (∀ x, r = Ok x → er_Failed x = true) → h' = h.
Proof.
  unfold apply_message. intros E Hr. repeat case_match; simplify_eq; try done; by specialize (Hr _ eq_refl).
Qed.

Lemma same_bank (h h' : rhost) : rh_bank h' = rh_bank h → coins_same h h'.
Proof. intros E d. unfold coin_supply, coin_bal. simpl. by rewrite E. Qed.
Lemma same_meta (h h' : rhost) : rh_meta h' = rh_meta h → metadata_same h h'.
Proof. intros E d. simpl. by rewrite E. Qed.

(** Operations of the bank as the laws state them. *)
Lemma bank_op_become f cs h h' g s :
  bank_op f cs h = Ok h' →
  (∀ l l', f cs l = Ok l' → ∀ d, get_sup l' d = get_sup l d + s d ∧ ∀ a, get_bal l' a d = get_bal l a d + g d a) →
  SdkEvm.valid_coins cs ∧ tokens_same h h' ∧ metadata_same h h' ∧ coins_become h h' g s.
Proof. intros (V & T & M & E)%bank_op_Ok Hf. split_and!; [done..|]. intros d. by apply Hf. Qed.

Lemma send_delta from to cs l l' : send l from to cs = Ok l' → ∀ d,
  get_sup l' d = get_sup l d + 0 ∧
  ∀ a, get_bal l' a d = get_bal l a d + (if_addr a to (coins_amt d cs) - if_addr a from (coins_amt d cs)).
Proof.
  intros E d. destruct (send_Ok _ _ _ _ _ E d) as [S B]. unfold supply, bal in *. simpl in *. split; [lia|]. intros a. rewrite B. lia.
Qed.

Lemma mint_delta to cs l l' : for_each (mint1 to) cs l = Ok l' → ∀ d,
  get_sup l' d = get_sup l d + coins_amt d cs ∧ ∀ a, get_bal l' a d = get_bal l a d + if_addr a to (coins_amt d cs).
Proof. apply (for_each_delta _ (fun a' x => if_addr a' to x) (fun x => x)); [|done|]; [intros; apply if_addr_add|ledger_step]. Qed.

Lemma burn_delta from cs l l' : for_each (burn1 from) cs l = Ok l' → ∀ d,
  get_sup l' d = get_sup l d + - coins_amt d cs ∧ ∀ a, get_bal l' a d = get_bal l a d + - if_addr a from (coins_amt d cs).
Proof.
  apply (for_each_delta _ (fun a' x => - if_addr a' from x) (fun x => - x)); [|intros; lia|]; [intros; rewrite if_addr_add; lia|ledger_step].
Qed.

#[export] Instance host_laws : HostLaws.
Proof.
  split.
  - intros a Ha. change (crop20 (hex_decode (strip_0x ("0x" ++ hex_encode a))) = a). by rewrite strip_0x_app, hex_decode_encode, crop20_id.
  - intros a Ha. change (Nat.eqb (String.length (strip_0x ("0x" ++ hex_encode a))) 40 && all_hex (strip_0x ("0x" ++ hex_encode a)) = true).
    by rewrite strip_0x_app, hex_encode_length, Ha, hex_encode_all.
  - intros a. change (Split slash (String "0"%char (String "x"%char (hex_encode a))) = ["0x" ++ hex_encode a]). cbn [Split].
    rewrite !decide_False by discriminate. by rewrite hex_encode_slash.
  - intros a Ha. change (String.length ("0x" ++ hex_encode a) = 42%nat). by rewrite Address_length, Ha.
  - intros s. apply crop20_length.
  - intros a. apply crop20_length.
  - intros a Ha. by apply crop20_id.
  - intros a n. apply crop20_length.
  - reflexivity.
  - intros s s' E. by injection E.
  - done.
  - intros x y E. cbn in E. destruct (_ <? _); [by injection E|discriminate].
  - intros a b r E. cbn in E. case_decide; [by injection E|discriminate].
  - done.
  - intros m a E. cbn in E. destruct (Nat.leb_spec (String.length m) 12); [|discriminate]. injection E as <-. split; [done|by apply module_addr_length].
  - intros h m h' o E. injection E as <- <-. split_and!; [done..|]. intros acc E.
    destruct (Nat.leb_spec (String.length m) 12); [|discriminate]. injection E as <-. split; [done|by apply module_addr_length].
  - intros h a cs h' E. eapply bank_op_become; [exact E|]. intros l l'. apply sub_delta.
  - intros h a cs h' E. eapply bank_op_become; [exact E|]. intros l l'. apply add_delta.
  - intros h a m cs h' E. eapply bank_op_become; [exact E|]. intros l l'. apply send_delta.
  - intros h m a cs h' E. eapply bank_op_become; [exact E|]. intros l l'. apply send_delta.
  - intros h m cs h' E. eapply bank_op_become; [exact E|]. intros l l'. apply mint_delta.
  - intros h m cs h' E. eapply bank_op_become; [exact E|]. intros l l'. apply burn_delta.
  - intros ins outs E d. cbn in E. destruct (forallb _ _) eqn:Ef; [|discriminate]. fold (io_total d ins) (io_total d outs).
    destruct (decide (d ∈ (io_denoms ins ++ io_denoms outs)%list)) as [Hin|Hn].
    + rewrite forallb_forall in Ef. apply Z.eqb_eq, Ef. by apply list_elem_of_In.
    + apply not_elem_of_app in Hn as [? ?]. by rewrite !io_not_in.
  - intros h a c ([[a' d] n] & [= -> ->] & Hin%elem_of_map_to_list)%list_elem_of_fmap. unfold coin_bal. cbn. unfold get_bal. by rewrite Hin.
  - intros h d md E. cbn in E. destruct (_ !! _); [|discriminate]. case_decide; [|discriminate]. by injection E as <-.
  - intros h md. by split.
  - intros h m h' r c E _ _. destruct (apply_bank _ _ _ _ E). split; [by apply same_bank|by apply same_meta].
  - intros h m h' r E Hr. rewrite (apply_failed _ _ _ _ E Hr). by split_and!.
  - intros h m h' r c to x E Hf [t Ht] [Hto [= Hd]]. destruct (apply_call _ _ _ _ _ _ E Hf Hto Ht) as (t' & l & Hrun & -> & _).
    rewrite <- Hd in Hrun. apply run_transfer in Hrun as ->. eapply tokens_become_ext; [exact (set_token_become _ _ _ _ Ht)|..].
    + intros a. rewrite !t_get_add, if_addr_opp. cbn. rewrite Ht. cbn. lia.
    + cbn. rewrite Ht. cbn. lia.
  - intros h m h' r c to x E Hf [t Ht] [Hto [= Hd]]. destruct (apply_call _ _ _ _ _ _ E Hf Hto Ht) as (t' & l & Hrun & -> & _).
    rewrite <- Hd in Hrun. apply run_mint in Hrun as ->. eapply tokens_become_ext; [exact (set_token_become _ _ _ _ Ht)|..].
    + intros a. rewrite !t_get_add. cbn. rewrite Ht. done.
    + cbn. rewrite Ht. done.
  - intros h m h' r c x E Hf [t Ht] [Hto [= Hd]]. destruct (apply_call _ _ _ _ _ _ E Hf Hto Ht) as (t' & l & Hrun & -> & _).
    rewrite <- Hd in Hrun. apply run_burn in Hrun as ->. eapply tokens_become_ext; [exact (set_token_become _ _ _ _ Ht)|..].
    + intros a. rewrite !t_get_add, if_addr_opp. cbn. rewrite Ht. cbn. lia.
    + cbn. rewrite Ht. cbn. lia.
  - intros h m h' r c a l E Hf [t Ht] [Hto [= Hd]] Hu. destruct (apply_call _ _ _ _ _ _ E Hf Hto Ht) as (t' & l' & Hrun & -> & Hret).
    rewrite <- Hd in Hrun. injection Hrun as <- <-. cbn in Hu. rewrite Hret in Hu. injection Hu as <-.
    split; [|cbn; by rewrite Ht]. eapply tokens_become_same; [exact Ht|exact (set_token_become _ _ _ t Ht)].
  - intros h m h' r c l E Hf [t Ht] [Hto [= Hd]] Hu. destruct (apply_call _ _ _ _ _ _ E Hf Hto Ht) as (t' & l' & Hrun & -> & Hret).
    rewrite <- Hd in Hrun. injection Hrun as <- <-. cbn in Hu. rewrite Hret in Hu. injection Hu as <-.
    split; [|cbn; by rewrite Ht]. eapply tokens_become_same; [exact Ht|exact (set_token_become _ _ _ t Ht)].
  - intros h m h' r n args ctor E Hf Ht _ <- [= <-] Hd c.
    destruct (apply_deploy _ _ _ _ args E Hf Ht Hd) as (Hc & Hb & Hm & nm & s & k & Htk).
    assert (∀ c', is_Some (rh_tokens h !! c') → c' ≠ c) as Hne by (intros c' [? Hs] ->; subst c; cbn in *; congruence).
    split_and!; [by apply same_bank|by apply same_meta|..].
    + split_and!.
      * intros c' Hs. cbn. rewrite Htk, lookup_insert_ne; [done|]. intros <-. by apply (Hne _ Hs).
      * intros c' Hs. cbn. rewrite Htk, lookup_insert_ne; [done|]. intros <-. by apply (Hne _ Hs).
      * intros c' a Hs. cbn. rewrite Htk, lookup_insert_ne; [done|]. intros <-. by apply (Hne _ Hs).
    + intros [? Hs]. subst c. cbn in *. congruence.
    + cbn. rewrite Htk. subst c. cbn. rewrite lookup_insert_eq. by eexists.
    + cbn. rewrite Htk. subst c. cbn. rewrite lookup_insert_eq. by eexists.
    + intros a. cbn. rewrite Htk. subst c. cbn. by rewrite lookup_insert_eq.
    + cbn. rewrite Htk. subst c. cbn. by rewrite lookup_insert_eq.
  - done.
Qed.
End SdkEvmRef.
