(* ===== verification/Erc20Types.v ===== *)
(** The erc20 module's data ([src/x/erc20/types/]): token pairs, the
    denominations of ERC-20 tokens, the store; and the state and the monad in
    which the erc20 module and the bank extension are written. *)

From stdpp Require Import base gmap strings list.
From Stdlib Require Import ZArith Lia.
From S2P Require Import Prelude GoStrings Sdk SdkEvm Types.

#[local] Open Scope string_scope.
#[local] Open Scope Z_scope.

(** ** Constants ([keys.go], [events.go]) and errors ([errors.go]) *)

Definition erc20_ModuleName : string := "erc20".
Definition DenomPrefix : string := "erc20".
Definition ERC20EventTransfer : string := "Transfer".

Definition ErrInternalTokenPair := ErrExt "erc20/internal ethereum token mapping error".
Definition ErrTokenPairNotFound := ErrExt "erc20/token pair not found".
Definition ErrTokenPairAlreadyExists := ErrExt "erc20/token pair already exists".
Definition ErrABIPack := ErrExt "erc20/contract ABI pack failed".
Definition ErrABIUnpack := ErrExt "erc20/contract ABI unpack failed".
Definition ErrEVMDenom := ErrExt "erc20/EVM denomination registration".
Definition ErrVMExecution := ErrExt "evm/evm transaction execution failed".
Definition ErrNotFound := ErrExt "grpc/not found".
Definition ErrInvalidArgument := ErrExt "grpc/invalid argument".

(** ** Token pairs ([erc20.proto], [token_pair.go]) *)

Inductive Owner := OWNER_UNSPECIFIED | OWNER_MODULE | OWNER_EXTERNAL.

#[export] Instance Owner_eq_dec : EqDecision Owner.
Proof. solve_decision. Defined.

Record TokenPair := mkTokenPair {
  tp_Erc20Address : string;
  tp_Denom : string;
  tp_ContractOwner : Owner;
}.

#[export] Instance TokenPair_eq_dec : EqDecision TokenPair.
Proof. solve_decision. Defined.

Definition IsNativeCoin (tp : TokenPair) : bool := bool_decide (tp_ContractOwner tp = OWNER_MODULE).
Definition IsNativeERC20 (tp : TokenPair) : bool := bool_decide (tp_ContractOwner tp = OWNER_EXTERNAL).

Record ERC20Data := mkERC20Data { ed_Name : string; ed_Symbol : string; ed_Decimals : Z }.

Section TokenPair.
Context `{Host}.

Definition NewTokenPair (erc20Address : EthAddr) (denom : string) (contractOwner : Owner) : TokenPair :=
  mkTokenPair (Address_String erc20Address) denom contractOwner.

Definition GetID (tp : TokenPair) : string := tmhash_Sum (tp_Erc20Address tp ++ "|" ++ tp_Denom tp).

Definition GetERC20Contract (tp : TokenPair) : EthAddr := HexToAddress (tp_Erc20Address tp).

(** [sdk.ValidateDenom] returns an error where [ValidDenom] is false. *)
Definition TokenPair_Validate `{Sdk} (tp : TokenPair) : outcome unit :=
  fail_if negb (ValidDenom (tp_Denom tp)) with ErrExt "invalid denom" ;;
  ValidateEthAddress (tp_Erc20Address tp).

(** ** Denominations ([denom.go]) *)

Definition CreateDenomDescription (address : string) : string :=
  "Gridiron coin token representation of " ++ address.

Definition CreateDenom (address : string) : string := DenomPrefix ++ "/" ++ address.

Definition ToLower (s : string) : string := if is_ascii s then ascii_ToLower s else unicode_ToLower s.

Definition SanitizeERC20Name (name : string) : string :=
  let name := ToLower name in
  let name := ReplaceAll name " token" "" in
  let name := ReplaceAll name " coin" "" in
  let name := TrimSpace name in
  ReplaceAll name " " "_".
End TokenPair.

(** The address of the module on the EVM ([types.ModuleAddress]). *)
Definition ModuleAddress `{Host, Sdk} : EthAddr := BytesToAddress (GetModuleAddress erc20_ModuleName).

(** ** The store: one map per prefix *)

Record Erc20Store := mkErc20Store {
  es_TokenPair : gmap string TokenPair;
  es_ByERC20 : gmap EthAddr string;
  es_ByDenom : gmap string string;
}.

Definition es_set_TokenPair m (s : Erc20Store) := mkErc20Store m (es_ByERC20 s) (es_ByDenom s).
Definition es_set_ByERC20 m (s : Erc20Store) := mkErc20Store (es_TokenPair s) m (es_ByDenom s).
Definition es_set_ByDenom m (s : Erc20Store) := mkErc20Store (es_TokenPair s) (es_ByERC20 s) m.

(** ** The state and the monad

    The state of both modules: the host and the token pairs.  A computation
    leaves a state whether it returns, returns an error or panics, since some
    callers go on after an error. *)
Record XBank `{Host} := mkXBank { xb_host : host; xb_store : Erc20Store }.

Definition XM `{Host} (A : Type) : Type := XBank → XBank * outcome A.

Section Monad.
Context `{Host}.

#[export] Instance XM_ret : MRet XM := fun A a x => (x, Ok a).
#[export] Instance XM_bind : MBind XM := fun A B f m x =>
  match m x with
  | (x, Ok a) => f a x
  | (x, Err e) => (x, Err e)
  | (x, Panic) => (x, Panic)
  end.

Definition x_lift {A} (o : outcome A) : XM A := fun x => (x, o).
Definition x_err {A} (e : error) : XM A := x_lift (Err e).
Definition x_panic {A} : XM A := x_lift Panic.
(** [if b { return err }] *)
Definition x_guard (b : bool) (e : error) : XM unit := x_lift (if b then Err e else Ok tt).
Definition x_host : XM host := fun x => (x, Ok (xb_host x)).
Definition x_store : XM Erc20Store := fun x => (x, Ok (xb_store x)).
(** A write of the store; an operation of the host that returns a new one. *)
Definition x_put (f : Erc20Store → Erc20Store) : XM unit := fun x => (mkXBank _ (xb_host x) (f (xb_store x)), Ok tt).
Definition x_set_host (h : host) : XM unit := fun x => (mkXBank _ h (xb_store x), Ok tt).
Definition x_on_host (f : host → outcome host) : XM unit := fun x =>
  match f (xb_host x) with
  | Ok h => (mkXBank _ h (xb_store x), Ok tt)
  | Err e => (x, Err e)
  | Panic => (x, Panic)
  end.
(** A call whose error the caller handles itself. *)
Definition x_try {A} (m : XM A) : XM (A + error) := fun x =>
  match m x with
  | (x, Ok a) => (x, Ok (inl a))
  | (x, Err e) => (x, Ok (inr e))
  | (x, Panic) => (x, Panic)
  end.

Fixpoint x_for {A} (f : A → XM unit) (l : list A) : XM unit :=
  match l with
  | [] => mret tt
  | a :: l => _ ← f a; x_for f l
  end.

Lemma x_bind_Ok {A B} (m : XM A) (f : A → XM B) x x' b :
  (m ≫= f) x = (x', Ok b) ↔ ∃ x1 a, m x = (x1, Ok a) ∧ f a x1 = (x', Ok b).
Proof.
  unfold mbind, XM_bind. destruct (m x) as [x1 [a|e|]].
  - split; [by eauto|]. by intros (? & ? & [= <- <-] & ?).
  - split; [discriminate|]. by intros (? & ? & [=] & ?).
  - split; [discriminate|]. by intros (? & ? & [=] & ?).
Qed.

Lemma x_on_host_Ok f x x' u : x_on_host f x = (x', Ok u) ↔ f (xb_host x) = Ok (xb_host x') ∧ xb_store x' = xb_store x ∧ u = tt.
Proof.
  unfold x_on_host. destruct (f (xb_host x)) as [h|e|], x' as [h' s'], u; simpl; split; try discriminate.
  - by intros [= <- <-].
  - by intros ([= ->] & -> & _).
  - by intros (? & _).
  - by intros (? & _).
Qed.
End Monad.
