(* ===== verification/Erc20Keeper.v ===== *)
(** The erc20 module's keeper ([src/x/erc20/keeper/]): token pairs, calls of
    the EVM, the ERC-20 side of bank operations, registration of pairs, the
    invariant, the query and genesis. *)

From stdpp Require Import base gmap strings list.
From Stdlib Require Import ZArith Lia.
From S2P Require Import Prelude GoStrings Sdk SdkExt SdkEvm Types Erc20Types.

#[local] Open Scope string_scope.
#[local] Open Scope Z_scope.

Section Erc20Keeper.
Context `{!Sdk, !SdkExt, !Host}.

(** ** Token pairs ([token_pairs.go]) *)

Definition GetAllTokenPairs : XM (list TokenPair) := s ← x_store; mret (kv_iter (es_TokenPair s)).*2.

Definition GetERC20Map (erc20 : EthAddr) : XM (option string) := s ← x_store; mret (es_ByERC20 s !! erc20).
Definition GetDenomMap (denom : string) : XM (option string) := s ← x_store; mret (es_ByDenom s !! denom).

(** [len(id) == 0] *)
Definition no_id (id : option string) : bool :=
  match id with None => true | Some id => bool_decide (id = "") end.

Definition GetTokenPairID (token : string) : XM (option string) :=
  if IsHexAddress token then GetERC20Map (HexToAddress token) else GetDenomMap token.

Definition GetTokenPair (id : option string) : XM (option TokenPair) :=
  match id with
  | None => mret None
  | Some id => s ← x_store; mret (es_TokenPair s !! id)
  end.

Definition SetTokenPair (tokenPair : TokenPair) : XM unit :=
  x_put (fun s => es_set_TokenPair (<[GetID tokenPair := tokenPair]> (es_TokenPair s)) s).
Definition deleteTokenPair (id : string) : XM unit :=
  x_put (fun s => es_set_TokenPair (delete id (es_TokenPair s)) s).
Definition SetERC20Map (erc20 : EthAddr) (id : string) : XM unit :=
  x_put (fun s => es_set_ByERC20 (<[erc20 := id]> (es_ByERC20 s)) s).
Definition deleteERC20Map (erc20 : EthAddr) : XM unit :=
  x_put (fun s => es_set_ByERC20 (delete erc20 (es_ByERC20 s)) s).
Definition SetDenomMap (denom id : string) : XM unit :=
  x_put (fun s => es_set_ByDenom (<[denom := id]> (es_ByDenom s)) s).
Definition deleteDenomMap (denom : string) : XM unit :=
  x_put (fun s => es_set_ByDenom (delete denom (es_ByDenom s)) s).

Definition DeleteTokenPair (tokenPair : TokenPair) : XM unit :=
  _ ← deleteTokenPair (GetID tokenPair);
  _ ← deleteERC20Map (GetERC20Contract tokenPair);
  deleteDenomMap (tp_Denom tokenPair).

Definition IsTokenPairRegistered (id : string) : XM bool := s ← x_store; mret (bool_decide (is_Some (es_TokenPair s !! id))).
Definition IsERC20Registered (erc20 : EthAddr) : XM bool := s ← x_store; mret (bool_decide (is_Some (es_ByERC20 s !! erc20))).
Definition IsDenomRegistered (denom : string) : XM bool := s ← x_store; mret (bool_decide (is_Some (es_ByDenom s !! denom))).

(** ** Calls of the EVM ([evm.go]) *)

Definition ApplyMessage_x (msg : EvmMessage bytes) : XM (EvmResponse bytes) := fun x =>
  let '(h, r) := ApplyMessage (xb_host x) msg in (mkXBank _ h (xb_store x), r).

Definition CallEVMWithData (from : EthAddr) (contract : option EthAddr) (data : bytes) : XM (EvmResponse bytes) :=
  h ← x_host;
  nonce ← x_lift (GetSequence h from);
  args ← x_lift (json_Marshal_TransactionArgs from contract data);
  gas ← x_lift (EstimateGas h args DefaultGasCap);
  res ← ApplyMessage_x (mkEvmMessage from contract nonce gas data);
  if er_Failed res then x_err ErrVMExecution else mret res.

(** An error of the packing becomes [ErrABIPack]. *)
Definition CallEVM (abi : Abi) (from contract : EthAddr) (method : string) (args : list AbiValue) :
    XM (EvmResponse bytes) :=
  match abi_Pack abi method args with
  | Ok data => CallEVMWithData from (Some contract) data
  | Err _ => x_err ErrABIPack
  | Panic => x_panic
  end.

Definition unpack_or {A} (o : outcome A) : XM A :=
  match o with Err _ => x_err ErrABIUnpack | o => x_lift o end.

Definition QueryERC20 (contract : EthAddr) : XM ERC20Data :=
  res ← CallEVM ERC20Burnable ModuleAddress contract "name" [];
  name ← unpack_or (abi_UnpackString ERC20Burnable "name" (er_Ret res));
  res ← CallEVM ERC20Burnable ModuleAddress contract "symbol" [];
  symbol ← unpack_or (abi_UnpackString ERC20Burnable "symbol" (er_Ret res));
  res ← CallEVM ERC20Burnable ModuleAddress contract "decimals" [];
  decimals ← unpack_or (abi_UnpackUint8 ERC20Burnable "decimals" (er_Ret res));
  mret (mkERC20Data name symbol decimals).

(** The first unpacked value, when it is an integer. *)
Definition first_int (l : list AbiValue) : XM Z :=
  match l with
  | AbiBigInt x :: _ => mret x
  | _ => x_err ErrABIUnpack
  end.

Definition totalSupply (contract : EthAddr) : XM Z :=
  res ← CallEVM ERC20Burnable ModuleAddress contract "totalSupply" [];
  unpacked ← unpack_or (abi_Unpack ERC20Burnable "totalSupply" (er_Ret res));
  first_int unpacked.

Definition balanceOf (contract account : EthAddr) : XM Z :=
  res ← CallEVM ERC20Burnable ModuleAddress contract "balanceOf" [AbiAddress account];
  unpacked ← unpack_or (abi_Unpack ERC20Burnable "balanceOf" (er_Ret res));
  first_int unpacked.

(** ** The ERC-20 side of the bank ([bank.go]) *)

Definition IsDenomForErc20 (denom : string) : bool :=
  match Split slash denom with
  | [p; a] => bool_decide (p = DenomPrefix) && IsHexAddress a
  | _ => false
  end.

(** A pair whose identifier is stored, but not the pair itself, is a panic. *)
Definition pair_of_id (id : option string) : XM TokenPair :=
  pair ← GetTokenPair id;
  match pair with Some tp => mret tp | None => x_panic end.

Definition getContractByDenom (denom : string) : XM (option EthAddr) :=
  let by_pair :=
    id ← GetTokenPairID denom;
    if no_id id then mret None else
    pair ← pair_of_id id;
    mret (Some (GetERC20Contract pair)) in
  match Split slash denom with
  | [p; a] => if bool_decide (p = DenomPrefix) && IsHexAddress a then mret (Some (HexToAddress a)) else by_pair
  | _ => by_pair
  end.

(** The empty coin [sdk.Coin{}], which has no amount, is [None]. *)
Definition coin_or_empty (denom : string) (r : Z + error) : XM (option Coin) :=
  match r with
  | inr _ => mret None
  | inl amt => x ← x_lift (NewIntFromBigInt amt); c ← x_lift (NewCoin denom x); mret (Some c)
  end.

Definition erc20_GetSupply (denom : string) : XM (option Coin) :=
  contract ← getContractByDenom denom;
  match contract with
  | None => mret None
  | Some contract => r ← x_try (totalSupply contract); coin_or_empty denom r
  end.

Definition erc20_GetBalance (addr : Addr) (denom : string) : XM (option Coin) :=
  contract ← getContractByDenom denom;
  match contract with
  | None => mret None
  | Some contract => r ← x_try (balanceOf contract (BytesToAddress addr)); coin_or_empty denom r
  end.

(** The native coins, and those that stand for ERC-20 tokens. *)
Definition split_coin (acc : Coins * Coins) (coin : Coin) : outcome (Coins * Coins) :=
  if IsDenomForErc20 (Denom coin) then tokens ← Coins_Add acc.2 [coin]; Ok (acc.1, tokens)
  else coins ← Coins_Add acc.1 [coin]; Ok (coins, acc.2).

Definition SplitCoinsByErc20 (amt : Coins) : outcome (Coins * Coins) := for_each split_coin amt ([], []).

(** The gas token, and whatever contains its name. *)
Definition is_gas (denom : string) : bool := Contains denom DisplayDenom.

(** The contract of a native coin and its amount; none for the gas token. *)
Definition native_call (coin : Coin) : XM (list (EthAddr * Z)) :=
  if is_gas (Denom coin) then mret [] else
  id ← GetTokenPairID (Denom coin);
  if no_id id then x_err ErrTokenPairNotFound else
  pair ← pair_of_id id;
  mret [(GetERC20Contract pair, Amount coin)].

(** The part after the slash names the contract; without one the index is out
    of range. *)
Definition token_call (coin : Coin) : XM (list (EthAddr * Z)) :=
  match Split slash (Denom coin) with
  | _ :: a :: _ => mret [(HexToAddress a, Amount coin)]
  | _ => x_panic
  end.

Fixpoint gather (f : Coin → XM (list (EthAddr * Z))) (cs : Coins) : XM (list (EthAddr * Z)) :=
  match cs with
  | [] => mret []
  | c :: cs => l ← f c; l' ← gather f cs; mret (l ++ l')%list
  end.

(** One call: a mint, a burn or a transfer. *)
Definition send_token (fromAddr toAddr : Addr) (e : EthAddr * Z) : XM unit :=
  let '(contract, amt) := e in
  let from := BytesToAddress fromAddr in
  let to := BytesToAddress toAddr in
  _ ← (if bool_decide (fromAddr = "") then
         CallEVM ERC20MinterBurnerDecimals ModuleAddress contract "mint" [AbiAddress to; AbiBigInt amt]
       else if bool_decide (toAddr = "") then
         CallEVM ERC20MinterBurnerDecimals from contract "burn" [AbiBigInt amt]
       else CallEVM ERC20MinterBurnerDecimals from contract "transfer" [AbiAddress to; AbiBigInt amt]);
  mret tt.

(** No address ([nil]) is the empty string. *)
Definition erc20_SendCoins (fromAddr toAddr : Addr) (nativeCoins nativeErc20Tokens : Coins) : XM unit :=
  natives ← gather native_call nativeCoins;
  tokens ← gather token_call nativeErc20Tokens;
  x_for (send_token fromAddr toAddr) (natives ++ tokens)%list.

(** ** Registration ([registration.go]) *)

(** [Keeper.HasSupply] of the bank extension, which [RegisterCoin] calls. *)
Definition bank_HasSupply (denom : string) : XM bool :=
  if IsDenomForErc20 denom then
    supply ← erc20_GetSupply denom;
    mret (match supply with Some c => negb (Amount c =? 0) | None => false end)
  else h ← x_host; mret (base_HasSupply h denom).

Definition bank_GetDenomMetaData (denom : string) : XM (option Metadata) := h ← x_host; mret (base_GetDenomMetaData h denom).
Definition bank_SetDenomMetaData (md : Metadata) : XM unit := x_on_host (fun h => Ok (base_SetDenomMetaData h md)).

Definition DeployERC20Contract (coinMetadata : Metadata) : XM EthAddr :=
  unit0 ← x_lift (deref (head (md_DenomUnits coinMetadata)));
  let decimals := du_Exponent unit0 mod 2 ^ 8 in
  ctorArgs ← match abi_Pack ERC20MinterBurnerDecimals ""
                     [AbiString (md_Name coinMetadata); AbiString (md_Symbol coinMetadata); AbiUint8 decimals] with
             | Err _ => x_err ErrABIPack
             | o => x_lift o
             end;
  let data := bytes_app (contract_Bin ERC20MinterBurnerDecimals) ctorArgs in
  h ← x_host;
  nonce ← x_lift (GetSequence h ModuleAddress);
  let contractAddr := CreateAddress ModuleAddress nonce in
  _ ← CallEVMWithData ModuleAddress None data;
  mret contractAddr.

Definition set_pair (pair : TokenPair) : XM unit :=
  _ ← SetTokenPair pair;
  _ ← SetDenomMap (tp_Denom pair) (GetID pair);
  SetERC20Map (HexToAddress (tp_Erc20Address pair)) (GetID pair).

Definition RegisterCoin (denom : string) : XM TokenPair :=
  _ ← x_guard (is_gas denom) ErrEVMDenom;
  md ← bank_GetDenomMetaData denom;
  match md with
  | None => x_err ErrEVMDenom
  | Some coinMetadata =>
      registered ← IsDenomRegistered (md_Base coinMetadata);
      _ ← x_guard registered ErrTokenPairAlreadyExists;
      has ← bank_HasSupply (md_Base coinMetadata);
      _ ← x_guard (negb has) ErrInvalidCoins;
      addr ← DeployERC20Contract coinMetadata;
      let pair := NewTokenPair addr (md_Base coinMetadata) OWNER_MODULE in
      _ ← set_pair pair;
      mret pair
  end.

Definition CreateCoinMetadata (contract : EthAddr) : XM Metadata :=
  let strContract := Address_String contract in
  erc20Data ← QueryERC20 contract;
  md ← bank_GetDenomMetaData (CreateDenom strContract);
  _ ← x_guard (bool_decide (is_Some md)) ErrInternalTokenPair;
  registered ← IsDenomRegistered (CreateDenom strContract);
  _ ← x_guard registered ErrInternalTokenPair;
  let base := CreateDenom strContract in
  let nameSanitized := SanitizeERC20Name (ed_Name erc20Data) in
  let metadata :=
    if 0 <? ed_Decimals erc20Data then
      mkMetadata (CreateDenomDescription strContract)
        [mkDenomUnit base 0 []; mkDenomUnit nameSanitized (ed_Decimals erc20Data) []]
        base nameSanitized (CreateDenom strContract) (ed_Symbol erc20Data)
    else
      mkMetadata (CreateDenomDescription strContract) [mkDenomUnit base 0 []]
        base base (CreateDenom strContract) (ed_Symbol erc20Data) in
  _ ← x_lift (Metadata_Validate metadata);
  _ ← bank_SetDenomMetaData metadata;
  mret metadata.

Definition RegisterERC20 (contract : EthAddr) : XM TokenPair :=
  registered ← IsERC20Registered contract;
  _ ← x_guard registered ErrTokenPairAlreadyExists;
  metadata ← CreateCoinMetadata contract;
  let pair := NewTokenPair contract (md_Name metadata) OWNER_EXTERNAL in
  _ ← set_pair pair;
  mret pair.

(** ** The invariant ([invariants.go]) *)

(** The number of unequal balances.  Comparing the empty coin panics, since its
    denomination differs. *)
Fixpoint unequal_balances (l : list (Addr * Coin)) (count : Z) : XM Z :=
  match l with
  | [] => mret count
  | (addr, balance) :: l =>
      if is_gas (Denom balance) then unequal_balances l count else
      erc20Balance ← erc20_GetBalance addr (Denom balance);
      match erc20Balance with
      | None => x_panic
      | Some c =>
          equal ← x_lift (Coin_IsEqual c balance);
          unequal_balances l (if (equal : bool) then count else count + 1)
      end
  end.

(** Whether the invariant is broken. *)
Definition ConsistentBalanceInvariant : XM bool :=
  h ← x_host;
  count ← unequal_balances (base_AllBalances h) 0;
  mret (negb (count =? 0)).

(** ** The query ([grpc_query.go]) *)

Definition Query_TokenPair (token : string) : XM TokenPair :=
  _ ← (match ValidateEthAddress token with
       | Ok _ => mret tt
       | Err _ => x_guard (negb (ValidDenom token)) ErrInvalidArgument
       | Panic => x_panic
       end);
  id ← GetTokenPairID token;
  _ ← x_guard (no_id id) ErrNotFound;
  pair ← GetTokenPair id;
  match pair with Some tp => mret tp | None => x_err ErrNotFound end.

(** ** Genesis ([genesis.go]) *)

Record Erc20GenesisState := mkErc20GenesisState { eg_TokenPairs : list TokenPair }.

Definition erc20_DefaultGenesis : Erc20GenesisState := mkErc20GenesisState [].

Definition genesis_pair (pair : TokenPair) : XM unit :=
  _ ← SetTokenPair pair;
  _ ← SetDenomMap (tp_Denom pair) (GetID pair);
  SetERC20Map (GetERC20Contract pair) (GetID pair).

(** The module has no parameters. *)
Definition erc20_InitGenesis (genState : Erc20GenesisState) : XM unit :=
  h ← x_host;
  let '(h, acc) := GetModuleAccount h erc20_ModuleName in
  _ ← x_set_host h;
  match acc with
  | None => x_panic
  | Some _ => x_for genesis_pair (eg_TokenPairs genState)
  end.

Definition erc20_ExportGenesis : XM Erc20GenesisState :=
  pairs ← GetAllTokenPairs;
  mret (mkErc20GenesisState pairs).
End Erc20Keeper.
