(* ===== verification/Bank.v ===== *)
(** The bank extension ([src/x/bank/]): the SDK's bank keeper with the balances
    of registered ERC-20 contracts kept beside those of coins, and with ERC-20
    tokens as coins of their own; and the hook of the erc20 module after an EVM
    transaction ([src/x/erc20/keeper/evm_hooks.go]), which calls it. *)

From stdpp Require Import base gmap strings list.
From Stdlib Require Import ZArith Lia.
From S2P Require Import Prelude GoStrings Sdk SdkExt SdkEvm Types MakerTypes Erc20Types Erc20Keeper.

#[local] Open Scope string_scope.
#[local] Open Scope Z_scope.

Definition bank_ModuleName : string := "bank".

Section Bank.
Context `{!Sdk, !SdkExt, !Host}.

(** ** Moving coins ([send.go], [keeper.go]) *)

(** An account is created for a recipient that has none. *)
Definition ensure_account (addr : Addr) : XM unit :=
  x_on_host (fun h => Ok (if HasAccount h addr then h else SetNewAccount h addr)).

Definition bank_SendCoins (fromAddr toAddr : Addr) (amt : Coins) : XM unit :=
  '(nativeCoins, nativeErc20Tokens) ← x_lift (SplitCoinsByErc20 amt);
  _ ← x_on_host (fun h => SubUnlockedCoins h fromAddr nativeCoins);
  _ ← x_on_host (fun h => AddCoins h toAddr nativeCoins);
  _ ← erc20_SendCoins fromAddr toAddr nativeCoins nativeErc20Tokens;
  ensure_account toAddr.

Definition input_coins (moduleAddress : Addr) (i : InOut) : XM unit :=
  inAddress ← x_lift (AccAddressFromBech32 (io_Address i));
  '(nativeCoins, nativeErc20Tokens) ← x_lift (SplitCoinsByErc20 (io_Coins i));
  _ ← x_on_host (fun h => SubUnlockedCoins h inAddress nativeCoins);
  erc20_SendCoins inAddress moduleAddress nativeCoins nativeErc20Tokens.

Definition output_coins (moduleAddress : Addr) (o : InOut) : XM unit :=
  outAddress ← x_lift (AccAddressFromBech32 (io_Address o));
  '(nativeCoins, nativeErc20Tokens) ← x_lift (SplitCoinsByErc20 (io_Coins o));
  _ ← x_on_host (fun h => AddCoins h outAddress nativeCoins);
  _ ← erc20_SendCoins moduleAddress outAddress nativeCoins nativeErc20Tokens;
  ensure_account outAddress.

(** The tokens pass through the address of the bank module. *)
Definition InputOutputCoins (inputs outputs : list InOut) : XM unit :=
  _ ← x_lift (ValidateInputsOutputs inputs outputs);
  let moduleAddress := GetModuleAddress bank_ModuleName in
  _ ← x_for (input_coins moduleAddress) inputs;
  x_for (output_coins moduleAddress) outputs.

(** [if acc == nil { panic }] *)
Definition module_address (m : string) : XM Addr := x_lift (deref (ak_GetModuleAddress m)).

Definition module_account (m : string) : XM ModuleAccount :=
  h ← x_host;
  let '(h, acc) := GetModuleAccount h m in
  _ ← x_set_host h;
  x_lift (deref acc).

Definition bank_SendCoinsFromModuleToAccount (senderModule : string) (recipientAddr : Addr) (amt : Coins) : XM unit :=
  senderAddr ← module_address senderModule;
  _ ← x_guard (BlockedAddr recipientAddr) ErrUnauthorized;
  bank_SendCoins senderAddr recipientAddr amt.

Definition bank_SendCoinsFromModuleToModule (senderModule recipientModule : string) (amt : Coins) : XM unit :=
  senderAddr ← module_address senderModule;
  recipientAcc ← module_account recipientModule;
  bank_SendCoins senderAddr (ma_Address recipientAcc) amt.

Definition bank_SendCoinsFromAccountToModule (senderAddr : Addr) (recipientModule : string) (amt : Coins) : XM unit :=
  recipientAcc ← module_account recipientModule;
  bank_SendCoins senderAddr (ma_Address recipientAcc) amt.

(** Tokens of other contracts cannot be delegated, minted or burned. *)
Definition natives_only (amt : Coins) : XM Coins :=
  '(nativeCoins, nativeErc20Tokens) ← x_lift (SplitCoinsByErc20 amt);
  match nativeErc20Tokens with
  | [] => mret nativeCoins
  | _ => x_err ErrInvalidCoins
  end.

Definition bank_DelegateCoins (delegatorAddr moduleAccAddr : Addr) (amt : Coins) : XM unit :=
  nativeCoins ← natives_only amt;
  _ ← x_on_host (fun h => base_DelegateCoins h delegatorAddr moduleAccAddr amt);
  erc20_SendCoins delegatorAddr moduleAccAddr nativeCoins [].

Definition bank_UndelegateCoins (moduleAccAddr delegatorAddr : Addr) (amt : Coins) : XM unit :=
  nativeCoins ← natives_only amt;
  _ ← x_on_host (fun h => base_UndelegateCoins h moduleAccAddr delegatorAddr amt);
  erc20_SendCoins moduleAccAddr delegatorAddr nativeCoins [].

(** [if !acc.HasPermission(authtypes.Staking) { panic }] *)
Definition staking_account (m : string) : XM ModuleAccount :=
  acc ← module_account m;
  if bool_decide (PermStaking ∈ ma_Permissions acc) then mret acc else x_panic.

Definition bank_DelegateCoinsFromAccountToModule (senderAddr : Addr) (recipientModule : string) (amt : Coins) : XM unit :=
  recipientAcc ← staking_account recipientModule;
  bank_DelegateCoins senderAddr (ma_Address recipientAcc) amt.

Definition bank_UndelegateCoinsFromModuleToAccount (senderModule : string) (recipientAddr : Addr) (amt : Coins) : XM unit :=
  acc ← staking_account senderModule;
  bank_UndelegateCoins (ma_Address acc) recipientAddr amt.

(** ** Minting and burning *)

(** A coin that is minted for the first time gets a contract. *)
Definition register_minted (coin : Coin) : XM unit :=
  registered ← IsDenomRegistered (Denom coin);
  if negb (is_gas (Denom coin)) && negb registered then _ ← RegisterCoin (Denom coin); mret tt
  else mret tt.

Definition bank_MintCoins (moduleName : string) (amounts : Coins) : XM unit :=
  nativeCoins ← natives_only amounts;
  _ ← x_on_host (fun h => base_MintCoins h moduleName amounts);
  _ ← x_for register_minted nativeCoins;
  acc ← module_account moduleName;
  erc20_SendCoins "" (ma_Address acc) nativeCoins [].

Definition bank_BurnCoins (moduleName : string) (amounts : Coins) : XM unit :=
  nativeCoins ← natives_only amounts;
  _ ← x_on_host (fun h => base_BurnCoins h moduleName amounts);
  acc ← module_account moduleName;
  erc20_SendCoins (ma_Address acc) "" nativeCoins [].

(** ** Views ([view.go], [keeper.go], [grpc_query.go]) *)

Definition bank_GetBalance (addr : Addr) (denom : string) : XM (option Coin) :=
  if IsDenomForErc20 denom then erc20_GetBalance addr denom
  else h ← x_host; mret (Some (base_GetBalance h addr denom)).

(** [!bal.Amount.IsNil() && bal.IsGTE(amt)] *)
Definition bank_HasBalance (addr : Addr) (amt : Coin) : XM bool :=
  if IsDenomForErc20 (Denom amt) then
    b ← erc20_GetBalance addr (Denom amt);
    match b with
    | None => mret false
    | Some b => less ← x_lift (Coin_IsLT b amt); mret (negb less)
    end
  else h ← x_host; mret (base_HasBalance h addr amt).

Definition bank_GetSupply (denom : string) : XM (option Coin) :=
  if IsDenomForErc20 denom then erc20_GetSupply denom
  else h ← x_host; mret (Some (base_GetSupply h denom)).

Definition bank_SpendableCoins (addr : Addr) : XM Coins := h ← x_host; mret (base_SpendableCoins h addr).

Definition Query_Balance (address denom : string) : XM (option Coin) :=
  _ ← x_guard (bool_decide (address = "")) ErrInvalidArgument;
  _ ← x_guard (bool_decide (denom = "")) ErrInvalidArgument;
  addr ← match AccAddressFromBech32 address with
         | Err _ => x_err ErrInvalidArgument
         | o => x_lift o
         end;
  bank_GetBalance addr denom.

(** The amount of the empty coin is nil, and a new coin with it panics. *)
Definition Query_SupplyOf (denom : string) : XM Coin :=
  _ ← x_guard (bool_decide (denom = "")) ErrInvalidArgument;
  supply ← bank_GetSupply denom;
  c ← x_lift (deref supply);
  x_lift (NewCoin denom (Amount c)).

Definition Query_DenomMetadata (denom : string) : XM Metadata :=
  _ ← x_guard (bool_decide (denom = "")) ErrInvalidArgument;
  md ← bank_GetDenomMetaData denom;
  match md with Some md => mret md | None => x_err ErrNotFound end.

(** ** Genesis ([genesis.go], [src/types/assets.go]) *)

Definition stable_metadata (base : string) : Metadata :=
  let display := String.substring 1 (String.length base - 1) base in
  mkMetadata "The native stable token of the Gridiron."
    [mkDenomUnit ("u" ++ display) 0 ["micro" ++ display]; mkDenomUnit ("m" ++ display) 3 ["milli" ++ display];
     mkDenomUnit display 6 []]
    base display (ascii_ToUpper display) (ascii_ToUpper display).

Definition set_stable_metadata (base : string) : XM unit :=
  md ← bank_GetDenomMetaData base;
  match md with
  | Some _ => mret tt
  | None => bank_SetDenomMetaData (stable_metadata base)
  end.

Definition SetDenomMetaDataForStableCoins : XM unit := x_for set_stable_metadata [MicroUSMDenom].

(** One coin of a balance: registered, and the balance of its contract brought
    to that of the coin; an error of the call that does it is dropped, the
    check after it is not. *)
Definition align_coin (addr : Addr) (coin : Coin) : XM unit :=
  if is_gas (Denom coin) then mret tt else
  registered ← IsDenomRegistered (Denom coin);
  _ ← (if (registered : bool) then mret tt else
         r ← x_try (RegisterCoin (Denom coin));
         match r with inl _ => mret tt | inr _ => x_panic end);
  bal ← erc20_GetBalance addr (Denom coin);
  bal ← x_lift (deref bal);
  lt ← x_lift (Coin_IsLT bal coin);
  gt ← x_lift (if (lt : bool) then Ok false else Coin_IsLT coin bal);
  _ ← (if (lt : bool) then
         d ← x_lift (Coin_Sub coin bal); cs ← x_lift (NewCoins [d]);
         r ← x_try (erc20_SendCoins "" addr cs []); mret tt
       else if (gt : bool) then
         d ← x_lift (Coin_Sub bal coin); cs ← x_lift (NewCoins [d]);
         r ← x_try (erc20_SendCoins addr "" cs []); mret tt
       else mret tt);
  bal ← erc20_GetBalance addr (Denom coin);
  bal ← x_lift (deref bal);
  equal ← x_lift (Coin_IsEqual bal coin);
  if (equal : bool) then mret tt else x_panic.

Definition align_balance (b : InOut) : XM unit :=
  addr ← match AccAddressFromBech32 (io_Address b) with
         | Ok a => mret a
         | _ => x_panic
         end;
  x_for (align_coin addr) (io_Coins b).

Definition bank_InitGenesis (genState : base_Genesis) : XM unit :=
  _ ← x_on_host (fun h => base_InitGenesis h genState);
  _ ← SetDenomMetaDataForStableCoins;
  x_for align_balance (base_Genesis_Balances genState).

(** ** The proposal ([types/proposal.go], [keeper/proposal_handler.go]) *)

Record SetDenomMetadataProposal := mkSetDenomMetadataProposal {
  sp_Title : string;
  sp_Description : string;
  sp_Metadata : Metadata;
}.

Definition validateIBC (metadata : Metadata) : outcome unit :=
  let denomSplit := Split2 slash (md_Base metadata) in
  let first := hd "" denomSplit in
  if bool_decide (first = md_Base metadata) && negb (bool_decide (TrimSpace (md_Base metadata) = "")) then Ok tt else
  fail_if negb (Nat.eqb (length denomSplit) 2) || negb (bool_decide (first = "ibc")) with ErrExt "invalid metadata" ;;
  fail_if negb (Contains (md_Name metadata) "channel-") with ErrExt "invalid metadata (Name) for ibc" ;;
  fail_if negb (HasPrefix (md_Symbol metadata) "ibc") with ErrExt "invalid metadata (Symbol) for ibc" ;;
  Ok tt.

Definition SetDenomMetadataProposal_ValidateBasic (validateAbstract : string → string → outcome unit)
    (p : SetDenomMetadataProposal) : outcome unit :=
  _ ← Metadata_Validate (sp_Metadata p);
  _ ← ValidateIBCDenom (md_Base (sp_Metadata p));
  _ ← validateIBC (sp_Metadata p);
  validateAbstract (sp_Title p) (sp_Description p).

Definition HandleSetDenomMetaDataProposal (p : SetDenomMetadataProposal) : XM unit :=
  bank_SetDenomMetaData (sp_Metadata p).

(** ** After an EVM transaction ([evm_hooks.go] of the erc20 module) *)

Record EthLog := mkEthLog { lg_Address : EthAddr; lg_Topics : list string; lg_Data : bytes }.

(** The pair of the contract that emitted a log; a contract without one is
    registered, and a failure of that skips the log. *)
Definition log_pair (contractAddr : EthAddr) : XM (option TokenPair) :=
  id ← GetERC20Map contractAddr;
  if no_id id then
    r ← x_try (RegisterERC20 contractAddr);
    match r with inl tp => mret (Some tp) | inr _ => mret None end
  else tp ← pair_of_id id; mret (Some tp).

Definition mirror_transfer (from to : EthAddr) (coins : Coins) : XM unit :=
  let zeroFrom := bool_decide (from = zero_address) in
  let zeroTo := bool_decide (to = zero_address) in
  if zeroFrom && negb zeroTo then
    _ ← bank_MintCoins erc20_ModuleName coins;
    bank_SendCoinsFromModuleToAccount erc20_ModuleName to coins
  else if negb zeroFrom && zeroTo then
    _ ← bank_SendCoinsFromAccountToModule from erc20_ModuleName coins;
    bank_BurnCoins erc20_ModuleName coins
  else if negb zeroFrom && negb zeroTo then bank_SendCoins from to coins
  else mret tt.

(** The amount of a transfer event, when the log is one with a positive
    amount. *)
Definition transfer_amount (log : EthLog) : XM (option Z) :=
  match lg_Topics log with
  | eventID :: _ :: _ :: _ =>
      match abi_EventByID ERC20MinterBurnerDecimals eventID with
      | Panic => x_panic
      | Err _ => mret None
      | Ok name =>
          if negb (bool_decide (name = ERC20EventTransfer)) then mret None else
          match abi_Unpack ERC20MinterBurnerDecimals name (lg_Data log) with
          | Panic => x_panic
          | Ok (AbiBigInt tokens :: _) => mret (if 0 <? tokens then Some tokens else None)
          | _ => mret None
          end
      end
  | _ => mret None
  end.

Definition process_log (log : EthLog) : XM unit :=
  amount ← transfer_amount log;
  match amount with
  | None => mret tt
  | Some tokens =>
      let from := BytesToAddress (nth 1 (lg_Topics log) "") in
      let to := BytesToAddress (nth 2 (lg_Topics log) "") in
      tp ← log_pair (lg_Address log);
      match tp with
      | None => mret tt
      | Some tp =>
          if bool_decide (tp_ContractOwner tp ≠ OWNER_MODULE) then mret tt else
          x ← x_lift (NewIntFromBigInt tokens);
          mirror_transfer from to [mkCoin (tp_Denom tp) x]
      end
  end.

Definition PostTxProcessing (logs : list EthLog) : XM unit := x_for process_log logs.
End Bank.
