(* ===== verification/Erc20Inv.v ===== *)
(** The ERC-20 side of the bank: what the calls of the EVM do to the token
    balances, the pairs as a one-to-one relation between denominations and
    contracts, and the transfers of a list of coins. *)

From stdpp Require Import base gmap strings list fin_maps.
From Stdlib Require Import ZArith Lia.
From S2P Require Import Prelude GoStrings Sdk Types SdkExt SdkEvm Erc20Types Erc20Keeper.

#[local] Open Scope string_scope.
#[local] Open Scope Z_scope.

(** ** Token pairs *)

Definition pair_of (s : Erc20Store) (d : string) : option TokenPair := es_ByDenom s !! d ≫= fun id => es_TokenPair s !! id.

Section Erc20Inv.
Context `{!Sdk, !SdkExt, !Host, !HostView}.
Implicit Types (x : XBank) (s : Erc20Store) (h : host).

(** Every pair is stored under its identifier and found by its denomination
    and its contract, and nothing else is. *)
Record pairs_ok s : Prop := {
  po_pair id p :
    es_TokenPair s !! id = Some p →
    id = GetID p ∧ es_ByDenom s !! tp_Denom p = Some id ∧ es_ByERC20 s !! GetERC20Contract p = Some id ∧
    ∃ c, String.length c = 20%nat ∧ tp_Erc20Address p = Address_String c;
  po_denom d id : es_ByDenom s !! d = Some id → ∃ p, es_TokenPair s !! id = Some p ∧ tp_Denom p = d;
  po_erc20 c id : es_ByERC20 s !! c = Some id → ∃ p, es_TokenPair s !! id = Some p ∧ GetERC20Contract p = c;
}.

Lemma pair_of_Some s d p :
  pair_of s d = Some p ↔ ∃ id, es_ByDenom s !! d = Some id ∧ es_TokenPair s !! id = Some p.
Proof. unfold pair_of. rewrite bind_Some. done. Qed.

Lemma pair_of_denom s d p : pairs_ok s → pair_of s d = Some p → tp_Denom p = d.
Proof.
  intros O (id & Hd & Hp)%pair_of_Some. destruct (po_denom _ O _ _ Hd) as (p' & Hp' & <-). congruence.
Qed.

(** Different denominations have different contracts. *)
Lemma pair_of_inj s d d' p p' :
  pairs_ok s → pair_of s d = Some p → pair_of s d' = Some p' → GetERC20Contract p = GetERC20Contract p' → d = d'.
Proof.
  intros O Hp Hp' E. pose proof (pair_of_denom _ _ _ O Hp) as <-. pose proof (pair_of_denom _ _ _ O Hp') as <-.
  apply pair_of_Some in Hp as (id & _ & Hp). apply pair_of_Some in Hp' as (id' & _ & Hp').
  apply (po_pair _ O) in Hp as K1. apply (po_pair _ O) in Hp' as K2. destruct K1 as (_ & _ & E1 & _), K2 as (_ & _ & E2 & _).
  congruence.
Qed.

Lemma pair_of_None s d : pairs_ok s → pair_of s d = None → es_ByDenom s !! d = None.
Proof.
  intros O. unfold pair_of. destruct (es_ByDenom s !! d) as [id|] eqn:E; [|done]. simpl.
  destruct (po_denom _ O _ _ E) as (p & -> & _). done.
Qed.

Context `{!SdkLaws, !SdkExtLaws, !HostLaws}.

Lemma GetID_inj p p' c c' :
  String.length c = 20%nat → String.length c' = 20%nat →
  tp_Erc20Address p = Address_String c → tp_Erc20Address p' = Address_String c' →
  GetID p = GetID p' → c = c' ∧ tp_Denom p = tp_Denom p'.
Proof.
  intros Hc Hc' Hp Hp' E%tmhash_Sum_inj. rewrite Hp, Hp' in E.
  apply string_app_inj_length in E as [E1 E2]; [|by rewrite !Address_String_length].
  injection E2 as E2. split; [|done]. by rewrite <- (HexToAddress_String c Hc), E1, HexToAddress_String.
Qed.

(** A new pair: its denomination and its contract are new. *)
Definition add_pair (p : TokenPair) s : Erc20Store :=
  mkErc20Store (<[GetID p := p]> (es_TokenPair s)) (<[GetERC20Contract p := GetID p]> (es_ByERC20 s))
    (<[tp_Denom p := GetID p]> (es_ByDenom s)).

Lemma add_pair_new s p c :
  pairs_ok s → String.length c = 20%nat → tp_Erc20Address p = Address_String c → es_ByDenom s !! tp_Denom p = None →
  es_TokenPair s !! GetID p = None.
Proof.
  intros O Hc Hp Hd. destruct (es_TokenPair s !! GetID p) as [p'|] eqn:E; [|done].
  destruct (po_pair _ O _ _ E) as (Hid & Hd' & _ & c' & Hc' & Hp').
  destruct (GetID_inj p p' c c' Hc Hc' Hp Hp' Hid) as [_ Hdd]. congruence.
Qed.

Lemma add_pair_ok s p c :
  pairs_ok s → String.length c = 20%nat → tp_Erc20Address p = Address_String c →
  es_ByDenom s !! tp_Denom p = None → es_ByERC20 s !! GetERC20Contract p = None → pairs_ok (add_pair p s).
Proof.
  intros O Hc Hp Hd He. pose proof (add_pair_new _ _ _ O Hc Hp Hd) as Hn. split; simpl.
  - intros id p'. rewrite lookup_insert_Some. intros [[<- <-]|[Hne Hp']].
    + rewrite !lookup_insert_eq. split_and!; [done..|]. by exists c.
    + destruct (po_pair _ O _ _ Hp') as (-> & E1 & E2 & Hx). split_and!; [done| | |done]; rewrite lookup_insert_ne; congruence.
  - intros d id. rewrite lookup_insert_Some. intros [[<- <-]|[Hne Hd']].
    + exists p. by rewrite lookup_insert_eq.
    + destruct (po_denom _ O _ _ Hd') as (p' & Hp' & <-). exists p'. rewrite lookup_insert_ne by congruence. done.
  - intros c' id. rewrite lookup_insert_Some. intros [[<- <-]|[Hne Hd']].
    + exists p. by rewrite lookup_insert_eq.
    + destruct (po_erc20 _ O _ _ Hd') as (p' & Hp' & <-). exists p'. rewrite lookup_insert_ne by congruence. done.
Qed.

Lemma add_pair_of s p c d :
  pairs_ok s → String.length c = 20%nat → tp_Erc20Address p = Address_String c → es_ByDenom s !! tp_Denom p = None →
  pair_of (add_pair p s) d = if decide (d = tp_Denom p) then Some p else pair_of s d.
Proof.
  intros O Hc Hp Hd. pose proof (add_pair_new _ _ _ O Hc Hp Hd) as Hn. unfold pair_of. simpl. case_decide as E.
  - subst. rewrite lookup_insert_eq. simpl. by rewrite lookup_insert_eq.
  - rewrite lookup_insert_ne by done. destruct (es_ByDenom s !! d) as [id|] eqn:Ed; [|done]. simpl.
    destruct (po_denom _ O _ _ Ed) as (p' & Hp' & _). rewrite lookup_insert_ne; [done|congruence].
Qed.

(** ** Calls *)

Lemma CallEVMWithData_Ok from c data x x' r :
  CallEVMWithData from c data x = (x', Ok r) →
  ∃ m, ApplyMessage (xb_host x) m = (xb_host x', Ok r) ∧ er_Failed r = false ∧ em_From m = from ∧ em_To m = c ∧
    em_Data m = data ∧ GetSequence (xb_host x) from = Ok (em_Nonce m) ∧ xb_store x' = xb_store x.
Proof.
  unfold CallEVMWithData. intros E.
  apply x_bind_Ok in E as (x1 & h & E1 & E). injection E1 as <- <-.
  apply x_bind_Ok in E as (x1 & n & E1 & E). unfold x_lift in E1. injection E1 as <- En.
  apply x_bind_Ok in E as (x1 & a & E1 & E). unfold x_lift in E1. injection E1 as <- _.
  apply x_bind_Ok in E as (x1 & g & E1 & E). unfold x_lift in E1. injection E1 as <- _.
  apply x_bind_Ok in E as (x1 & r1 & E1 & E). unfold ApplyMessage_x in E1.
  destruct (ApplyMessage (xb_host x) _) as [h' r'] eqn:Ea. injection E1 as <- ->.
  destruct (er_Failed r1) eqn:Ef; [discriminate|]. injection E as <- <-.
  eexists. split_and!; [exact Ea|done..].
Qed.

Lemma CallEVM_Ok abi from c method args x x' r :
  CallEVM abi from c method args x = (x', Ok r) →
  ∃ m, ApplyMessage (xb_host x) m = (xb_host x', Ok r) ∧ er_Failed r = false ∧ em_From m = from ∧
    calls m c abi method args ∧ xb_store x' = xb_store x.
Proof.
  unfold CallEVM. destruct (abi_Pack abi method args) as [data| |] eqn:Ep; [|discriminate..].
  intros (m & Ea & Ef & Hf & Ht & Hd & _ & Hs)%CallEVMWithData_Ok. exists m. split_and!; [done..| |done].
  split; [done|by rewrite Hd].
Qed.

(** What one send adds to the balance of [a], and to the supply. *)
Definition moved (from to : Addr) (n : Z) (a : EthAddr) : Z :=
  if bool_decide (from = "") then if_addr a (BytesToAddress to) n
  else if bool_decide (to = "") then - if_addr a (BytesToAddress from) n
  else if_addr a (BytesToAddress to) n - if_addr a (BytesToAddress from) n.

Definition moved_supply (from to : Addr) (n : Z) : Z :=
  if bool_decide (from = "") then n else if bool_decide (to = "") then - n else 0.

Lemma moved_add from to n m a : moved from to (n + m) a = moved from to n a + moved from to m a.
Proof. unfold moved, if_addr. repeat case_match; lia. Qed.
Lemma moved_zero from to a : moved from to 0 a = 0.
Proof. unfold moved, if_addr. repeat case_match; lia. Qed.
Lemma moved_supply_add from to n m : moved_supply from to (n + m) = moved_supply from to n + moved_supply from to m.
Proof. unfold moved_supply. repeat case_match; lia. Qed.
Lemma moved_supply_zero from to : moved_supply from to 0 = 0.
Proof. unfold moved_supply. repeat case_match; lia. Qed.

(** The rest of the state is as it was. *)
Definition only_tokens x x' : Prop :=
  xb_store x' = xb_store x ∧ coins_same (xb_host x) (xb_host x') ∧ metadata_same (xb_host x) (xb_host x').

Lemma coins_same_refl h : coins_same h h.
Proof. by intros d. Qed.
Lemma coins_same_trans h1 h2 h3 : coins_same h1 h2 → coins_same h2 h3 → coins_same h1 h3.
Proof. intros A B d. destruct (A d) as [A1 A2], (B d) as [B1 B2]. split; [congruence|]. intros a. by rewrite B2, A2. Qed.
Lemma metadata_same_trans h1 h2 h3 : metadata_same h1 h2 → metadata_same h2 h3 → metadata_same h1 h3.
Proof. intros A B d. by rewrite B, A. Qed.
Lemma tokens_same_refl h : tokens_same h h.
Proof. by split_and!. Qed.
Lemma only_tokens_refl x : only_tokens x x.
Proof. by split_and!. Qed.
Lemma only_tokens_trans x1 x2 x3 : only_tokens x1 x2 → only_tokens x2 x3 → only_tokens x1 x3.
Proof.
  intros (A & B & C) (A' & B' & C'). split_and!; [congruence|by eapply coins_same_trans|by eapply metadata_same_trans].
Qed.

Lemma send_token_Ok from to c n x x' u :
  send_token from to (c, n) x = (x', Ok u) → is_minter (xb_host x) c →
  only_tokens x x' ∧
  tokens_become (xb_host x) (xb_host x') c
    (fun a => token_bal (xb_host x) c a + moved from to n a) (token_supply (xb_host x) c + moved_supply from to n).
Proof.
  unfold send_token. intros E Hm. apply x_bind_Ok in E as (x1 & r & E & E'). injection E' as <- _.
  assert (∃ abi f mt args, CallEVM abi f c mt args x = (x1, Ok r)) as (abi & f & mt & args & E2).
  { revert E. repeat case_bool_decide; intros E; eauto. }
  apply CallEVM_Ok in E2 as (m & Ea & Ef & _ & [Ht _] & Hs).
  split; [split; [exact Hs|by eapply ApplyMessage_coins]|]. clear Ht Hs Ea Ef.
  unfold moved, moved_supply. revert E. repeat case_bool_decide; intros (m' & Ea & Ef & Hf & Hc & _)%CallEVM_Ok.
  - exact (ApplyMessage_mint _ _ _ _ _ _ _ Ea Ef Hm Hc).
  - pose proof (ApplyMessage_burn _ _ _ _ _ _ Ea Ef Hm Hc) as B. rewrite Hf in B. exact B.
  - pose proof (ApplyMessage_transfer _ _ _ _ _ _ _ Ea Ef Hm Hc) as (A & B & C & D & F). rewrite Hf in D. split_and!; try done.
    + intros a. rewrite D. lia.
    + rewrite F. lia.
Qed.

(** The amount sent to one contract. *)
Definition sent_to (c : EthAddr) (l : list (EthAddr * Z)) : Z := list_sum (fun e => if decide (e.1 = c) then e.2 else 0) l.

(** What a series of sends does to the contracts of the module. *)
Definition tokens_moved h h' (from to : Addr) (amt : EthAddr → Z) : Prop :=
  (∀ c, has_code h c → has_code h' c) ∧ (∀ c, is_minter h c → is_minter h' c) ∧
  ∀ c, is_minter h c →
    (∀ a, token_bal h' c a = token_bal h c a + moved from to (amt c) a) ∧
    token_supply h' c = token_supply h c + moved_supply from to (amt c).

Lemma send_tokens_Ok from to l x x' u :
  x_for (send_token from to) l x = (x', Ok u) → Forall (fun e => is_minter (xb_host x) e.1) l →
  only_tokens x x' ∧ tokens_moved (xb_host x) (xb_host x') from to (fun c => sent_to c l).
Proof.
  revert x. induction l as [|[c n] l IH]; intros x E Hl; cbn [x_for] in E.
  - injection E as <- _. split; [apply only_tokens_refl|]. split_and!; [done..|].
    intros c _. unfold sent_to. cbn. rewrite moved_supply_zero. split; [intros a; rewrite moved_zero|]; lia.
  - inversion Hl as [|? ? Hc Hl']; subst. apply x_bind_Ok in E as (x1 & u1 & E1 & E).
    apply send_token_Ok in E1 as (O1 & C1 & M1 & B1 & T1 & S1); [|exact Hc].
    apply IH in E as (O2 & C2 & M2 & T2); [|eapply Forall_impl; [exact Hl'|]; intros e He; by apply M1].
    split; [by eapply only_tokens_trans|]. split_and!; [auto..|].
    intros c' Hc'. destruct (T2 c' (M1 _ Hc')) as [T2a T2s]. unfold sent_to in *. rewrite list_sum_cons. cbn [fst snd].
    rewrite moved_supply_add, T2s. destruct (decide (c = c')) as [<-|Hne].
    + split; [intros a; rewrite T2a, T1, moved_add; lia|]. rewrite S1. lia.
    + destruct (B1 c' zero_address Hc' ltac:(congruence)) as [_ Hsup]. rewrite moved_supply_zero, Hsup. split; [|lia].
      intros a. rewrite T2a, moved_add, moved_zero. destruct (B1 c' a Hc' ltac:(congruence)) as [-> _]. lia.
Qed.

(** ** The contracts of a list of coins *)

(** Coins whose denomination is neither that of an ERC-20 token nor the
    hexadecimal form of an address. *)
Definition native (d : string) : Prop := IsDenomForErc20 d = false ∧ IsHexAddress d = false.
Definition native_coins (cs : Coins) : Prop := Forall (fun c => native (Denom c)) cs.

Lemma native_call_Ok c x x' l :
  native_call c x = (x', Ok l) → native (Denom c) → pairs_ok (xb_store x) →
  x' = x ∧ (if is_gas (Denom c) then l = []
            else ∃ p, pair_of (xb_store x) (Denom c) = Some p ∧ l = [(GetERC20Contract p, Amount c)]).
Proof.
  unfold native_call. intros E [_ Hh] O. destruct (is_gas (Denom c)); [by injection E as <- <-|].
  apply x_bind_Ok in E as (x1 & id & E1 & E). unfold GetTokenPairID in E1. rewrite Hh in E1.
  injection E1 as <- <-. destruct (es_ByDenom (xb_store x) !! Denom c) as [id|] eqn:Hd; [|discriminate].
  cbn [no_id] in E. destruct (bool_decide (id = "")); [discriminate|].
  apply x_bind_Ok in E as (x1 & p & E1 & E). unfold pair_of_id, GetTokenPair in E1.
  apply x_bind_Ok in E1 as (x2 & op & E2 & E1). injection E2 as <- <-.
  destruct (es_TokenPair (xb_store x) !! id) as [p'|] eqn:Hp; [|discriminate]. injection E1 as <- <-. injection E as <- <-.
  split; [done|]. exists p'. split; [|done]. apply pair_of_Some. by exists id.
Qed.

Lemma gather_native_Ok cs x x' l :
  gather native_call cs x = (x', Ok l) → native_coins cs → pairs_ok (xb_store x) →
  x' = x ∧
  (∀ e, e ∈ l → ∃ d p, pair_of (xb_store x) d = Some p ∧ native d ∧ e.1 = GetERC20Contract p) ∧
  (∀ d p, pair_of (xb_store x) d = Some p → sent_to (GetERC20Contract p) l = if is_gas d then 0 else coins_amt d cs) ∧
  (∀ d, is_gas d = false → d ∈ (Denom <$> cs) → is_Some (pair_of (xb_store x) d)).
Proof.
  revert x x' l. induction cs as [|c cs IH]; intros x x' l E Hn O; cbn [gather] in E.
  - injection E as <- <-. split_and!; [done|by intros e ?%elem_of_nil|intros; cbn; by destruct (is_gas d)|by intros d _ ?%elem_of_nil].
  - inversion Hn as [|? ? Hc Hn']; subst. apply x_bind_Ok in E as (x1 & l1 & E1 & E).
    apply native_call_Ok in E1 as [-> K1]; [|done..].
    apply x_bind_Ok in E as (x2 & l2 & E2 & E). apply IH in E2 as (-> & I2 & A2 & P2); [|done..]. injection E as <- <-.
    split_and!; [done|..].
    + intros e [He|He]%elem_of_app; [|by apply I2]. destruct (is_gas (Denom c)); [subst; by apply elem_of_nil in He|].
      destruct K1 as (p & Hp & ->). apply list_elem_of_singleton in He as ->. by exists (Denom c), p.
    + intros d p Hp. unfold sent_to in *. rewrite list_sum_app, (A2 d p Hp). cbn [coins_amt].
      destruct (is_gas (Denom c)) eqn:Hg.
      * subst l1. cbn. destruct (is_gas d) eqn:Hd; [done|]. rewrite decide_False by congruence. lia.
      * destruct K1 as (p' & Hp' & ->). rewrite list_sum_cons, list_sum_nil. cbn [fst snd].
        destruct (decide (GetERC20Contract p' = GetERC20Contract p)) as [Ec|Ec].
        -- pose proof (pair_of_inj _ _ _ _ _ O Hp' Hp Ec) as <-. rewrite Hg, decide_True by done. lia.
        -- rewrite (decide_False (P := Denom c = d)) by (intros <-; congruence). destruct (is_gas d); lia.
    + intros d Hd [->|Hin]%elem_of_cons; [|by apply P2]. rewrite Hd in K1. destruct K1 as (p & -> & _). done.
Qed.

(** Sending native coins moves the tokens of their contracts. *)
Lemma erc20_SendCoins_Ok from to cs x x' u :
  erc20_SendCoins from to cs [] x = (x', Ok u) → native_coins cs → pairs_ok (xb_store x) →
  (∀ d p, pair_of (xb_store x) d = Some p → native d → is_minter (xb_host x) (GetERC20Contract p)) →
  only_tokens x x' ∧
  ∃ amt, tokens_moved (xb_host x) (xb_host x') from to amt ∧
    (∀ d p, pair_of (xb_store x) d = Some p → amt (GetERC20Contract p) = if is_gas d then 0 else coins_amt d cs) ∧
    (∀ d, is_gas d = false → d ∈ (Denom <$> cs) → is_Some (pair_of (xb_store x) d)).
Proof.
  unfold erc20_SendCoins. intros E Hn O Hm. apply x_bind_Ok in E as (x1 & l & E1 & E).
  apply gather_native_Ok in E1 as (-> & I1 & A1 & P1); [|done..].
  apply x_bind_Ok in E as (x2 & l2 & E2 & E). injection E2 as <- <-. rewrite app_nil_r in E.
  apply send_tokens_Ok in E as [O2 T2]; [|apply Forall_forall; intros e He; destruct (I1 e He) as (d & p & Hp & Hd & ->); by eapply Hm].
  split; [done|]. by exists (fun c => sent_to c l).
Qed.
End Erc20Inv.

(** * The round trip of the erc20 module's genesis state, and the lookups of a
    pair by denomination and by contract. *)

Section Erc20Genesis.
Context `{!Sdk, !SdkExt, !Host, !HostView, !SdkLaws, !SdkExtLaws, !HostLaws}.
Implicit Types (x : XBank) (s : Erc20Store).

(** One store is part of another. *)
Definition store_sub s s' : Prop :=
  es_TokenPair s ⊆ es_TokenPair s' ∧ es_ByERC20 s ⊆ es_ByERC20 s' ∧ es_ByDenom s ⊆ es_ByDenom s'.

#[local] Instance store_sub_refl : Reflexive store_sub.
Proof. intros s. by split_and!. Qed.
#[local] Instance store_sub_trans : Transitive store_sub.
Proof. intros s1 s2 s3 (A & B & C) (A' & B' & C'). split_and!; by etrans. Qed.

Lemma store_sub_antisymm s s' : store_sub s s' → store_sub s' s → s = s'.
Proof. intros (A & B & C) (A' & B' & C'). destruct s, s'; simpl in *. f_equal; by apply (anti_symm (⊆)). Qed.

(** The three entries of a pair. *)
Definition has_pair s (p : TokenPair) : Prop :=
  es_TokenPair s !! GetID p = Some p ∧ es_ByERC20 s !! GetERC20Contract p = Some (GetID p) ∧ es_ByDenom s !! tp_Denom p = Some (GetID p).

Lemma has_pair_sub s s' p : has_pair s p → store_sub s s' → has_pair s' p.
Proof. intros (A & B & C) (A' & B' & C'). split_and!; by eapply lookup_weaken. Qed.

Lemma pairs_ok_has s id p : pairs_ok s → es_TokenPair s !! id = Some p → has_pair s p ∧ id = GetID p.
Proof. intros O Hp. destruct (po_pair _ O _ _ Hp) as (-> & ? & ? & _). done. Qed.

(** Writing a pair of a store into a part of it. *)
Lemma insert_part {K V} `{Countable K} (m m' : gmap K V) k v : m ⊆ m' → m' !! k = Some v → <[k := v]> m ⊆ m'.
Proof. intros Hm Hk. by apply insert_subseteq_l. Qed.

Lemma genesis_pair_sub S p x :
  store_sub (xb_store x) S → has_pair S p →
  ∃ x', genesis_pair p x = (x', Ok tt) ∧ xb_host x' = xb_host x ∧ store_sub (xb_store x) (xb_store x') ∧
    store_sub (xb_store x') S ∧ has_pair (xb_store x') p.
Proof.
  intros (A & B & C) (P1 & P2 & P3). eexists. split; [reflexivity|]. split; [reflexivity|].
  assert (∀ K V (EK : EqDecision K) (CK : Countable K) (m m' : gmap K V) k v, m ⊆ m' → m' !! k = Some v → m ⊆ <[k := v]> m) as Hins.
  { intros K V EK CK m m' k v Hm Hk. apply map_subseteq_spec. intros k' v' Hk'. destruct (decide (k' = k)) as [->|].
    - rewrite lookup_insert_eq. pose proof (lookup_weaken _ _ _ _ Hk' Hm). congruence.
    - by rewrite lookup_insert_ne. }
  unfold store_sub, has_pair. simpl. split_and!; try by eapply Hins.
  1-3: by apply insert_part.
  all: apply lookup_insert_eq.
Qed.

Lemma genesis_pairs S l x :
  store_sub (xb_store x) S → (∀ p, p ∈ l → has_pair S p) →
  ∃ x', x_for genesis_pair l x = (x', Ok tt) ∧ xb_host x' = xb_host x ∧ store_sub (xb_store x) (xb_store x') ∧
    store_sub (xb_store x') S ∧ ∀ p, p ∈ l → has_pair (xb_store x') p.
Proof.
  revert x. induction l as [|p l IH]; intros x Hx Hl; cbn [x_for].
  - exists x. split_and!; [done..|]. by intros p ?%elem_of_nil.
  - destruct (genesis_pair_sub S p x Hx ltac:(apply Hl; by left)) as (x1 & E1 & Hh1 & S1 & S1' & P1).
    destruct (IH x1 S1' ltac:(intros; apply Hl; by right)) as (x2 & E2 & Hh2 & S2 & S2' & P2).
    exists x2. split_and!; [by apply x_bind_Ok; eauto|congruence|by etrans|done|].
    intros q [->|Hq]%elem_of_cons; [by eapply has_pair_sub|by apply P2].
Qed.

(** All pairs of a store, written into an empty one, are the store. *)
Lemma genesis_all s x :
  pairs_ok s → xb_store x = mkErc20Store ∅ ∅ ∅ →
  ∃ x', x_for genesis_pair (kv_iter (es_TokenPair s)).*2 x = (x', Ok tt) ∧ xb_host x' = xb_host x ∧ xb_store x' = s.
Proof.
  intros O Hx.
  assert (∀ id p, es_TokenPair s !! id = Some p → p ∈ (kv_iter (es_TokenPair s)).*2) as Hin.
  { intros id p Hp. apply list_elem_of_fmap. exists (id, p). split; [done|]. rewrite kv_iter_perm. by apply elem_of_map_to_list. }
  destruct (genesis_pairs s (kv_iter (es_TokenPair s)).*2 x) as (x' & E & Hh & _ & S2 & P2).
  - rewrite Hx. split_and!; apply map_empty_subseteq.
  - intros p ([id p'] & -> & Hp)%list_elem_of_fmap. rewrite kv_iter_perm, elem_of_map_to_list in Hp. by apply pairs_ok_has in Hp as [? _].
  - exists x'. split_and!; [done..|]. apply store_sub_antisymm; [done|]. split_and!; apply map_subseteq_spec.
    + intros id p Hp. pose proof (P2 p (Hin _ _ Hp)) as (Hp' & _). destruct (pairs_ok_has _ _ _ O Hp) as [_ ->]. done.
    + intros c id Hc. destruct (po_erc20 _ O _ _ Hc) as (p & Hp & <-). pose proof (P2 p (Hin _ _ Hp)) as (_ & Hp' & _).
      destruct (pairs_ok_has _ _ _ O Hp) as [_ ->]. done.
    + intros d id Hc. destruct (po_denom _ O _ _ Hc) as (p & Hp & <-). pose proof (P2 p (Hin _ _ Hp)) as (_ & _ & Hp').
      destruct (pairs_ok_has _ _ _ O Hp) as [_ ->]. done.
Qed.

(** The query finds a pair by its denomination and by its contract. *)
Lemma Query_TokenPair_finds s p id tok h :
  pairs_ok s → es_TokenPair s !! id = Some p →
  (tok = tp_Denom p ∧ IsHexAddress tok = false ∧ ValidDenom tok = true ∧ is_panic (ValidateEthAddress tok) = false ∨
   tok = tp_Erc20Address p ∧ ValidateEthAddress tok = Ok tt) →
  Query_TokenPair tok (mkXBank _ h s) = (mkXBank _ h s, Ok p).
Proof.
  intros O Hp Ht. destruct (pairs_ok_has _ _ _ O Hp) as [(P1 & P2 & P3) ->].
  destruct (po_pair _ O _ _ Hp) as (_ & _ & _ & c & Hc & Hpc).
  assert (bool_decide (GetID p = "") = false) as Hne by (apply bool_decide_eq_false_2, tmhash_Sum_nonempty).
  unfold Query_TokenPair, GetTokenPairID, GetERC20Map, GetDenomMap, GetTokenPair, mbind, XM_bind.
  destruct Ht as [(-> & Hh & Hv & Hnp)|(-> & Hv)].
  - rewrite Hh, Hv. destruct (ValidateEthAddress _); [| |discriminate]; cbn; rewrite P3; cbn; rewrite Hne; cbn; by rewrite P1.
  - rewrite Hv. rewrite Hpc, IsHexAddress_String by done. cbn. unfold GetERC20Contract in P2. rewrite Hpc in P2.
    rewrite P2. cbn. rewrite Hne. cbn. by rewrite P1.
Qed.
End Erc20Genesis.
