(* ===== verification/BankInv.v ===== *)
(** Coins and their ERC-20 contracts: the balances of a coin are those of its
    contract, but for what an operation still has to move, and the operations
    of the bank extension keep it so. *)

From stdpp Require Import base gmap strings list.
From Stdlib Require Import ZArith Lia.
From S2P Require Import Prelude GoStrings Sdk Types SdkExt SdkEvm Erc20Types Erc20Keeper Bank Erc20Inv.

#[local] Open Scope string_scope.
#[local] Open Scope Z_scope.

Section BankInv.
Context `{!Sdk, !SdkExt, !Host, !HostView, !SdkLaws, !SdkExtLaws, !HostLaws}.
Implicit Types (x : XBank) (s : Erc20Store) (h : host) (d : string) (a : Addr).

(** The balance of a denomination's contract, zero when it has none. *)
Definition tok x d a : Z :=
  from_option (fun p => token_bal (xb_host x) (GetERC20Contract p) a) 0 (pair_of (xb_store x) d).
Definition tok_supply x d : Z :=
  from_option (fun p => token_supply (xb_host x) (GetERC20Contract p)) 0 (pair_of (xb_store x) d).

(** The coins that are mirrored. *)
Definition mirrored d : Prop := native d ∧ is_gas d = false.

(** The ledger that both sides show: balances and supplies. *)
Record Ledger := mkLedger { lg_bal : string → Addr → Z; lg_supply : string → Z }.

Definition lg_add (L : Ledger) (f : string → Addr → Z) (t : string → Z) : Ledger :=
  mkLedger (fun d a => lg_bal L d a + f d a) (fun d => lg_supply L d + t d).

(** Coins show the ledger, and the contracts show it up to [off] (and [soff]
    for the supply): what they still have to get. *)
Record books x (L : Ledger) (off : string → Addr → Z) (soff : string → Z) : Prop := {
  bk_pairs : pairs_ok (xb_store x);
  bk_gas d p : pair_of (xb_store x) d = Some p → is_gas d = false;
  bk_code d p : pair_of (xb_store x) d = Some p → has_code (xb_host x) (GetERC20Contract p);
  bk_native d p : pair_of (xb_store x) d = Some p → native d → tp_ContractOwner p = OWNER_MODULE;
  bk_minter d p :
    pair_of (xb_store x) d = Some p → native d → is_minter (xb_host x) (GetERC20Contract p);
  bk_bal d a :
    mirrored d → is_account a → coin_bal (xb_host x) a d = lg_bal L d a ∧ tok x d a + off d a = lg_bal L d a;
  bk_supply d :
    mirrored d → coin_supply (xb_host x) d = lg_supply L d ∧ tok_supply x d + soff d = lg_supply L d;
}.

(** Both sides show the ledger. *)
Definition bank_shows x (L : Ledger) : Prop := books x L (fun _ _ => 0) (fun _ => 0).

Definition ledger_eq (L L' : Ledger) : Prop :=
  (∀ d a, mirrored d → is_account a → lg_bal L' d a = lg_bal L d a) ∧ (∀ d, mirrored d → lg_supply L' d = lg_supply L d).

Lemma ledger_eq_refl L : ledger_eq L L.
Proof. done. Qed.

Lemma books_ext x L L' off soff off' soff' :
  books x L off soff → ledger_eq L L' →
  (∀ d a, mirrored d → is_account a → off' d a = off d a) → (∀ d, mirrored d → soff' d = soff d) →
  books x L' off' soff'.
Proof.
  intros [] [Lb Ls] Ho Hs. split; try done; intros; [rewrite Ho, Lb by done|rewrite Hs, Ls by done]; auto.
Qed.

(** ** Steps *)

(** Coins move. *)
Lemma books_coins x h' L off soff f t :
  books x L off soff → coins_become (xb_host x) h' f t → tokens_same (xb_host x) h' →
  books (mkXBank _ h' (xb_store x)) (lg_add L f t) (fun d a => off d a + f d a) (fun d => soff d + t d).
Proof.
  intros [P G C N M B S] Hc (T1 & T2 & T3). split; simpl; try done; eauto.
  - intros d a [Hn Hg] Ha. destruct (Hc d) as [_ ->]. destruct (B d a) as [-> <-]; [done..|]. split; [done|]. unfold tok. simpl.
    destruct (pair_of (xb_store x) d) as [p|] eqn:Hp; simpl; [|lia]. destruct (T3 (GetERC20Contract p) a) as [-> _]; [by eapply M|]. lia.
  - intros d [Hn Hg]. destruct (Hc d) as [-> _]. destruct (S d) as [-> <-]; [done|]. split; [done|]. unfold tok_supply. simpl.
    destruct (pair_of (xb_store x) d) as [p|] eqn:Hp; simpl; [|lia]. destruct (T3 (GetERC20Contract p) "") as [_ ->]; [by eapply M|]. lia.
Qed.

Lemma books_coins_same x h' L off soff :
  books x L off soff → coins_same (xb_host x) h' → tokens_same (xb_host x) h' →
  books (mkXBank _ h' (xb_store x)) L off soff.
Proof.
  intros Bk Hc Ht. eapply books_ext; [eapply (books_coins x h' L off soff (fun _ _ => 0) (fun _ => 0)); [done| |done]|..];
    [|split; intros; simpl; lia|intros; cbv beta; lia..].
  intros d. destruct (Hc d) as [-> Hb]. split; [lia|]. intros a. rewrite Hb. lia.
Qed.

(** Tokens move: [m] of every coin that has a contract. *)
Lemma books_tokens from to m x x' amt L off soff :
  only_tokens x x' → tokens_moved (xb_host x) (xb_host x') from to amt →
  (∀ d, mirrored d → from_option (fun p => amt (GetERC20Contract p)) 0 (pair_of (xb_store x) d) = m d) → books x L off soff →
  books x' L (fun d a => off d a - moved from to (m d) a) (fun d => soff d - moved_supply from to (m d)).
Proof.
  intros (Hs & Hc & _) (T1 & T2 & T3) Hm [P G C N M B S]. split; rewrite ?Hs; try done; eauto.
  - intros d a Hd Ha. destruct (Hc d) as [_ ->]. destruct (B d a) as [-> <-]; [done..|]. split; [done|].
    rewrite <- (Hm d Hd). unfold tok. rewrite Hs. destruct (pair_of (xb_store x) d) as [p|] eqn:Hp; simpl; [|rewrite moved_zero; lia].
    destruct (T3 (GetERC20Contract p)) as [-> _]; [by eapply M; [|apply Hd]|lia].
  - intros d Hd. destruct (Hc d) as [-> _]. destruct (S d) as [-> <-]; [done|]. split; [done|].
    rewrite <- (Hm d Hd). unfold tok_supply. rewrite Hs. destruct (pair_of (xb_store x) d) as [p|] eqn:Hp; simpl; [|rewrite moved_supply_zero; lia].
    destruct (T3 (GetERC20Contract p)) as [_ ->]; [by eapply M; [|apply Hd]|lia].
Qed.

Lemma coins_amt_absent d cs : d ∉ Denom <$> cs → coins_amt d cs = 0.
Proof.
  induction cs as [|c cs IH]; [done|]. cbn. intros [? ?]%not_elem_of_cons. rewrite decide_False by congruence. rewrite IH by done. lia.
Qed.

Lemma books_send from to cs x x' u L off soff :
  erc20_SendCoins from to cs [] x = (x', Ok u) → native_coins cs → books x L off soff →
  books x' L (fun d a => off d a - moved from to (coins_amt d cs) a) (fun d => soff d - moved_supply from to (coins_amt d cs)) ∧
  metadata_same (xb_host x) (xb_host x').
Proof.
  intros E Hn Bk. apply erc20_SendCoins_Ok in E as (O & amt & T & A & R); [|done|apply Bk|intros; by eapply bk_minter]. split; [|apply O].
  eapply (books_tokens from to (fun d => coins_amt d cs)); [done..| |done]. intros d [Hd Hg].
  destruct (pair_of (xb_store x) d) as [p|] eqn:Hp; simpl; [by rewrite (A _ _ Hp), Hg|].
  rewrite coins_amt_absent; [done|]. intros Hin. destruct (R d Hg Hin) as [p Hp']. congruence.
Qed.

(** ** Splitting *)

Lemma split_native cs acc r :
  for_each split_coin cs acc = Ok r → native_coins cs →
  r.2 = acc.2 ∧ (∀ d, coins_amt d r.1 = coins_amt d acc.1 + coins_amt d cs) ∧
  (∀ c, c ∈ r.1 → ∃ c', c' ∈ (acc.1 ++ cs)%list ∧ Denom c' = Denom c).
Proof.
  revert acc. induction cs as [|c cs IH]; intros acc E Hn; cbn [for_each] in E.
  - injection E as <-. split_and!; [done|intros; cbn; lia|]. intros c Hc. exists c. by rewrite app_nil_r.
  - inversion Hn as [|? ? [Hc _] Hn']; subst. apply bind_Ok in E as (acc' & E1 & E).
    unfold split_coin in E1. rewrite Hc in E1. apply bind_Ok in E1 as (cs' & E1 & E2). injection E2 as <-.
    apply IH in E as (-> & A & D); [|done]. cbn [fst snd] in *. split_and!; [done|..].
    + intros d. rewrite A, (Coins_Add_Ok _ _ _ E1). cbn. lia.
    + intros c' Hc'. destruct (D c' Hc') as (c2 & [Hin|Hin]%elem_of_app & Hd).
      * destruct (Coins_Add_denom _ _ _ _ E1 Hin) as (y & Hy & Hy'). exists y. split; [|congruence].
        apply elem_of_app in Hy as [?|?%list_elem_of_singleton]; [by apply elem_of_app; left|]. subst. apply elem_of_app. right. by left.
      * exists c2. split; [|done]. apply elem_of_app. right. by right.
Qed.

Lemma SplitCoinsByErc20_native cs n t :
  SplitCoinsByErc20 cs = Ok (n, t) → native_coins cs →
  t = [] ∧ native_coins n ∧ ∀ d, coins_amt d n = coins_amt d cs.
Proof.
  intros E Hn. apply split_native in E as (Ht & A & D); [|done]. cbn [fst snd app] in *. split_and!; [done| |intros d; rewrite A; done].
  apply Forall_forall. intros c Hc. destruct (D c Hc) as (c' & Hc' & Hd).
  unfold native_coins in Hn. rewrite Forall_forall in Hn. rewrite <- Hd. by apply Hn.
Qed.

(** ** Operations *)

Lemma x_lift_Ok {A} (o : outcome A) x x' v : x_lift o x = (x', Ok v) ↔ o = Ok v ∧ x' = x.
Proof. unfold x_lift. split; [by intros [= -> ->]|by intros [-> ->]]. Qed.

(** A bank operation of the host. *)
Lemma books_on_host f x x' u L off soff g t :
  x_on_host f x = (x', Ok u) → books x L off soff →
  (∀ h', f (xb_host x) = Ok h' → tokens_same (xb_host x) h' ∧ metadata_same (xb_host x) h' ∧ coins_become (xb_host x) h' g t) →
  books x' (lg_add L g t) (fun d a => off d a + g d a) (fun d => soff d + t d) ∧ metadata_same (xb_host x) (xb_host x').
Proof.
  intros (E & Hs & _)%x_on_host_Ok Bk Hf. destruct (Hf _ E) as (Ht & Hmd & Hc). split; [|done].
  pose proof (books_coins _ _ _ _ _ _ _ Bk Hc Ht) as B. destruct x' as [h' s']; simpl in *. by subst.
Qed.

Lemma ensure_account_books a x x' u L off soff :
  ensure_account a x = (x', Ok u) → books x L off soff → books x' L off soff.
Proof.
  unfold ensure_account. intros (E & Hs & _)%x_on_host_Ok Bk. injection E as E. destruct x' as [h' s']; simpl in *. subst.
  destruct (HasAccount _ _); [by destruct x|]. destruct (SetNewAccount_same (xb_host x) a) as (? & ? & _). by apply books_coins_same.
Qed.

Lemma module_account_books m x x' acc L off soff :
  module_account m x = (x', Ok acc) → books x L off soff → books x' L off soff ∧ ma_Address acc = GetModuleAddress m ∧ is_account (GetModuleAddress m).
Proof.
  unfold module_account. intros E Bk. apply x_bind_Ok in E as (x1 & h & E1 & E). injection E1 as <- <-.
  destruct (GetModuleAccount (xb_host x) m) as [h' o] eqn:Eg. apply x_bind_Ok in E as (x1 & u & E1 & E). injection E1 as <- _.
  apply x_lift_Ok in E as [Ho%deref_Ok ->]. destruct (GetModuleAccount_same _ _ _ _ Eg) as (? & ? & _ & Ha).
  destruct (Ha _ Ho) as [Hma Hac]. rewrite Hma in Hac. split; [by apply books_coins_same|done].
Qed.

Lemma account_nonempty a : is_account a → a ≠ "".
Proof. intros Ha ->. discriminate. Qed.

(** What a transfer between accounts moves. *)
Lemma moved_transfer from to n a :
  is_account from → is_account to → moved from to n a = if_addr a to n - if_addr a from n ∧ moved_supply from to n = 0.
Proof.
  intros Hf Ht. unfold moved, moved_supply. rewrite !bool_decide_eq_false_2 by by apply account_nonempty.
  by rewrite !BytesToAddress_account.
Qed.

(** The ledger after a transfer, a mint and a burn. *)
Definition lg_transfer (from to : Addr) (cs : Coins) (L : Ledger) : Ledger :=
  lg_add L (fun d a => if_addr a to (coins_amt d cs) - if_addr a from (coins_amt d cs)) (fun _ => 0).
Definition lg_mint (to : Addr) (cs : Coins) (L : Ledger) : Ledger :=
  lg_add L (fun d a => if_addr a to (coins_amt d cs)) (fun d => coins_amt d cs).
Definition lg_burn (from : Addr) (cs : Coins) (L : Ledger) : Ledger :=
  lg_add L (fun d a => - if_addr a from (coins_amt d cs)) (fun d => - coins_amt d cs).

Lemma bank_SendCoins_books from to cs x x' u L off soff :
  bank_SendCoins from to cs x = (x', Ok u) → native_coins cs → is_account from → is_account to →
  books x L off soff → books x' (lg_transfer from to cs L) off soff.
Proof.
  unfold bank_SendCoins. intros E Hn Hf Ht Bk.
  apply x_bind_Ok in E as (x0 & [n t] & E0 & E). apply x_lift_Ok in E0 as [E0 ->].
  apply SplitCoinsByErc20_native in E0 as (-> & Hnn & Ha); [|done].
  apply x_bind_Ok in E as (x1 & u1 & E1 & E). eapply books_on_host in E1 as [B1 _]; [|exact Bk|intros h' Eh; apply SubUnlockedCoins_Ok in Eh as (_ & ? & ? & ?); done].
  apply x_bind_Ok in E as (x2 & u2 & E2 & E). eapply books_on_host in E2 as [B2 _]; [|exact B1|intros h' Eh; apply AddCoins_Ok in Eh as (_ & ? & ? & ?); done].
  apply x_bind_Ok in E as (x3 & u3 & E3 & E). eapply books_send in E3 as [B3 _]; [|done|exact B2].
  eapply ensure_account_books in E; [|exact B3]. eapply books_ext; [exact E|..].
  - split; intros; simpl; rewrite ?Ha; lia.
  - intros d a _ _. cbv beta. destruct (moved_transfer from to (coins_amt d n) a Hf Ht) as [-> _]. lia.
  - intros d _. cbv beta. destruct (moved_transfer from to (coins_amt d n) "" Hf Ht) as [_ ->]. lia.
Qed.

Lemma natives_only_Ok cs x x' n :
  natives_only cs x = (x', Ok n) → native_coins cs → x' = x ∧ native_coins n ∧ ∀ d, coins_amt d n = coins_amt d cs.
Proof.
  unfold natives_only. intros E Hn. apply x_bind_Ok in E as (x0 & [n' t] & E0 & E). apply x_lift_Ok in E0 as [E0 ->].
  apply SplitCoinsByErc20_native in E0 as (-> & Hnn & Ha); [|done]. by injection E as <- <-.
Qed.

Lemma bank_DelegateCoins_books from to cs x x' u L off soff :
  bank_DelegateCoins from to cs x = (x', Ok u) → native_coins cs → is_account from → is_account to →
  books x L off soff → books x' (lg_transfer from to cs L) off soff.
Proof.
  unfold bank_DelegateCoins. intros E Hn Hf Ht Bk.
  apply x_bind_Ok in E as (x0 & n & E0 & E). apply natives_only_Ok in E0 as (-> & Hnn & Ha); [|done].
  apply x_bind_Ok in E as (x1 & u1 & E1 & E). eapply books_on_host in E1 as [B1 _]; [|exact Bk|intros h' Eh; apply base_DelegateCoins_Ok in Eh as (_ & ? & ? & ?); done].
  eapply books_send in E as [B2 _]; [|done|exact B1]. eapply books_ext; [exact B2|..].
  - split; intros; simpl; lia.
  - intros d a _ _. cbv beta. rewrite Ha. destruct (moved_transfer from to (coins_amt d cs) a Hf Ht) as [-> _]. lia.
  - intros d _. cbv beta. rewrite Ha. destruct (moved_transfer from to (coins_amt d cs) "" Hf Ht) as [_ ->]. lia.
Qed.

Lemma bank_UndelegateCoins_books from to cs x x' u L off soff :
  bank_UndelegateCoins from to cs x = (x', Ok u) → native_coins cs → is_account from → is_account to →
  books x L off soff → books x' (lg_transfer from to cs L) off soff.
Proof.
  unfold bank_UndelegateCoins. intros E Hn Hf Ht Bk.
  apply x_bind_Ok in E as (x0 & n & E0 & E). apply natives_only_Ok in E0 as (-> & Hnn & Ha); [|done].
  apply x_bind_Ok in E as (x1 & u1 & E1 & E). eapply books_on_host in E1 as [B1 _]; [|exact Bk|intros h' Eh; apply base_UndelegateCoins_Ok in Eh as (_ & ? & ? & ?); done].
  eapply books_send in E as [B2 _]; [|done|exact B1]. eapply books_ext; [exact B2|..].
  - split; intros; simpl; lia.
  - intros d a _ _. cbv beta. rewrite Ha. destruct (moved_transfer from to (coins_amt d cs) a Hf Ht) as [-> _]. lia.
  - intros d _. cbv beta. rewrite Ha. destruct (moved_transfer from to (coins_amt d cs) "" Hf Ht) as [_ ->]. lia.
Qed.

Lemma bank_BurnCoins_books m cs x x' u L off soff :
  bank_BurnCoins m cs x = (x', Ok u) → native_coins cs → books x L off soff →
  books x' (lg_burn (GetModuleAddress m) cs L) off soff.
Proof.
  unfold bank_BurnCoins. intros E Hn Bk.
  apply x_bind_Ok in E as (x0 & n & E0 & E). apply natives_only_Ok in E0 as (-> & Hnn & Ha); [|done].
  apply x_bind_Ok in E as (x1 & u1 & E1 & E). eapply books_on_host in E1 as [B1 _]; [|exact Bk|intros h' Eh; apply base_BurnCoins_Ok in Eh as (_ & ? & ? & ?); done].
  apply x_bind_Ok in E as (x2 & acc & E2 & E). eapply module_account_books in E2 as (B2 & Hacc & Hm); [|exact B1].
  eapply books_send in E as [B3 _]; [|done|exact B2].
  unfold moved, moved_supply in B3.
  rewrite Hacc in B3. eapply books_ext; [exact B3|..].
  - split; intros; simpl; lia.
  - intros d a _ _. cbv beta. rewrite Ha, bool_decide_eq_false_2, bool_decide_eq_true_2, BytesToAddress_account by (done || by apply account_nonempty). lia.
  - intros d _. cbv beta. rewrite Ha, bool_decide_eq_false_2, bool_decide_eq_true_2 by (done || by apply account_nonempty). lia.
Qed.
End BankInv.

(** * Registration and minting, transfers between modules and multi-sends: the
    rest of the operations that keep coins and contracts in step; and the state
    machine of the bank extension. *)

Section BankOps.
Context `{!Sdk, !SdkExt, !Host, !HostView, !SdkLaws, !SdkExtLaws, !HostLaws}.
Implicit Types (x : XBank) (s : Erc20Store) (h : host) (d : string) (a : Addr).

(** ** Registration *)

Lemma x_guard_Ok b e x x' u : x_guard b e x = (x', Ok u) ↔ b = false ∧ x' = x.
Proof. unfold x_guard. rewrite x_lift_Ok. destruct b, u; split; try discriminate; by intros []. Qed.

(** A deployment: an empty token of the module at an address without code. *)
Lemma DeployERC20Contract_Ok md x x' c :
  DeployERC20Contract md x = (x', Ok c) →
  let h := xb_host x in let h' := xb_host x' in
  xb_store x' = xb_store x ∧ String.length c = 20%nat ∧ coins_same h h' ∧ metadata_same h h' ∧ tokens_same h h' ∧
  ¬ has_code h c ∧ has_code h' c ∧ is_minter h' c ∧ (∀ a, token_bal h' c a = 0) ∧ token_supply h' c = 0.
Proof.
  unfold DeployERC20Contract. intros E. apply x_bind_Ok in E as (x1 & u0 & E1 & E). apply x_lift_Ok in E1 as [_ ->].
  cbv zeta in E. apply x_bind_Ok in E as (x1 & ctor & E1 & E).
  assert (x1 = x ∧ abi_Pack ERC20MinterBurnerDecimals "" [AbiString (md_Name md); AbiString (md_Symbol md); AbiUint8 (du_Exponent u0 mod 2 ^ 8)] = Ok ctor) as [-> Hctor].
  { destruct (abi_Pack _ _ _); [by injection E1 as -> ->|discriminate..]. }
  apply x_bind_Ok in E as (x1 & h & E2 & E). injection E2 as <- <-.
  apply x_bind_Ok in E as (x1 & n & E2 & E). apply x_lift_Ok in E2 as [Hn ->].
  apply x_bind_Ok in E as (x1 & r & E2 & E). injection E as <- <-.
  apply CallEVMWithData_Ok in E2 as (m & Ea & Ef & Hf & Ht & Hd & Hnn & Hs). rewrite Hn in Hnn. injection Hnn as Hnn.
  pose proof (ApplyMessage_deploy _ _ _ _ n _ ctor Ea Ef Ht Hf (eq_sym Hnn) Hctor Hd) as D. rewrite Hf in D. cbv zeta in D.
  split_and!; [done|apply CreateAddress_length|by apply D..].
Qed.

Lemma set_pair_store p x x' u : set_pair p x = (x', Ok u) → x' = mkXBank _ (xb_host x) (add_pair p (xb_store x)).
Proof. unfold set_pair. intros E. by injection E as <- _. Qed.

Lemma RegisterCoin_books d x x' p L off soff :
  RegisterCoin d x = (x', Ok p) → native d → books x L off soff →
  books x' L off soff ∧ xb_store x' = add_pair p (xb_store x) ∧ tp_Denom p = d ∧ tp_ContractOwner p = OWNER_MODULE ∧
  es_ByDenom (xb_store x) !! d = None ∧ (∀ d', pair_of (xb_store x') d' = if decide (d' = d) then Some p else pair_of (xb_store x) d').
Proof.
  unfold RegisterCoin. intros E Hn Bk. apply x_bind_Ok in E as (x0 & u0 & E0 & E). apply x_guard_Ok in E0 as [Hg ->].
  apply x_bind_Ok in E as (x0 & omd & E0 & E). injection E0 as <- Hmd. destruct omd as [md|]; [|discriminate].
  pose proof (base_GetDenomMetaData_base _ _ _ Hmd) as Hb. rewrite Hb in E.
  apply x_bind_Ok in E as (x0 & reg & E0 & E). injection E0 as <- Hreg. apply x_bind_Ok in E as (x0 & u1 & E0 & E).
  apply x_guard_Ok in E0 as [Hr ->]. rewrite Hr in Hreg. apply bool_decide_eq_false, eq_None_not_Some in Hreg.
  apply x_bind_Ok in E as (x0 & has & E0 & E). unfold bank_HasSupply in E0. rewrite (proj1 Hn) in E0. injection E0 as <- _.
  apply x_bind_Ok in E as (x0 & u2 & E0 & E). apply x_guard_Ok in E0 as [_ ->].
  apply x_bind_Ok in E as (x1 & c & E1 & E). cbv zeta in E. apply x_bind_Ok in E as (x2 & u3 & E2 & E). injection E as <- <-.
  apply DeployERC20Contract_Ok in E1 as (Hs & Hlen & Hcs & _ & (T1 & T2 & T3) & Hnc & Hc & Hm & Hz & Hzs).
  apply set_pair_store in E2 as ->. rewrite Hs. set (p := NewTokenPair c d OWNER_MODULE).
  assert (GetERC20Contract p = c) as Hpc by (unfold GetERC20Contract; simpl; by apply HexToAddress_String).
  assert (tp_Denom p = d ∧ tp_Erc20Address p = Address_String c ∧ tp_ContractOwner p = OWNER_MODULE) as (Hp1 & Hp2 & Hp3) by done.
  clearbody p.
  pose proof Bk as [P G C N M B S].
  assert (es_ByERC20 (xb_store x) !! c = None) as He.
  { destruct (_ !! c) as [id|] eqn:Ei; [|done]. destruct (po_erc20 _ P _ _ Ei) as (p' & Hp' & <-). destruct Hnc.
    apply (C (tp_Denom p')), pair_of_Some. destruct (po_pair _ P _ _ Hp') as (_ & ? & _). by eexists. }
  assert (∀ d', pair_of (add_pair p (xb_store x)) d' = if decide (d' = d) then Some p else pair_of (xb_store x) d') as Hpo
    by (intros d'; rewrite <- Hp1; by apply (add_pair_of _ p c); [..|rewrite Hp1]).
  assert (pair_of (xb_store x) d = None) as Hpd by (unfold pair_of; by rewrite Hreg).
  split_and!; [|done..]. split; simpl.
  - by apply (add_pair_ok _ p c); [..|rewrite Hp1|rewrite Hpc].
  - intros d' p'. rewrite Hpo. case_decide; [by intros _; subst d'|apply G].
  - intros d' p'. rewrite Hpo. case_decide; [intros [= <-]; by rewrite Hpc|]. intros Hp'. eapply T1, C, Hp'.
  - intros d' p'. rewrite Hpo. case_decide; [by intros [= <-]|apply N].
  - intros d' p'. rewrite Hpo. case_decide; [intros [= <-] _; by rewrite Hpc|]. intros Hp' Hd'. eapply T2, M; [exact Hp'|exact Hd'].
  - intros d' a Hd' Ha. destruct (Hcs d') as [_ ->]. destruct (B d' a) as [-> <-]; [done..|]. split; [done|]. f_equal. unfold tok. simpl. rewrite Hpo.
    case_decide; [subst d'; rewrite Hpd; simpl; by rewrite Hpc|].
    destruct (pair_of (xb_store x) d') as [p'|] eqn:Hp'; [|done]. simpl. apply T3. eapply M; [exact Hp'|apply Hd'].
  - intros d' Hd'. destruct (Hcs d') as [-> _]. destruct (S d') as [-> <-]; [done|]. split; [done|]. f_equal. unfold tok_supply. simpl. rewrite Hpo.
    case_decide; [subst d'; rewrite Hpd; simpl; by rewrite Hpc|].
    destruct (pair_of (xb_store x) d') as [p'|] eqn:Hp'; [|done]. simpl. apply (T3 _ ""). eapply M; [exact Hp'|apply Hd'].
Qed.

(** ** Minting *)

Lemma register_minted_books cs x x' u L off soff :
  x_for register_minted cs x = (x', Ok u) → native_coins cs → books x L off soff → books x' L off soff.
Proof.
  revert x. induction cs as [|c cs IH]; intros x E Hn Bk; cbn [x_for] in E; [by injection E as <- _|].
  inversion Hn; subst. apply x_bind_Ok in E as (x1 & u1 & E1 & E). eapply IH; [exact E|done|].
  unfold register_minted in E1. apply x_bind_Ok in E1 as (x2 & r & E2 & E1). injection E2 as <- _.
  destruct (_ && _); [|by injection E1 as <- _]. apply x_bind_Ok in E1 as (x2 & p & E2 & E1). injection E1 as <- _.
  by eapply RegisterCoin_books.
Qed.

Lemma bank_MintCoins_books m cs x x' u L off soff :
  bank_MintCoins m cs x = (x', Ok u) → native_coins cs → books x L off soff →
  books x' (lg_mint (GetModuleAddress m) cs L) off soff.
Proof.
  unfold bank_MintCoins. intros E Hn Bk.
  apply x_bind_Ok in E as (x0 & n & E0 & E). apply natives_only_Ok in E0 as (-> & Hnn & Ha); [|done].
  apply x_bind_Ok in E as (x1 & u1 & E1 & E).
  eapply books_on_host in E1 as [B1 _]; [|exact Bk|intros h' Eh; apply base_MintCoins_Ok in Eh as (_ & ? & ? & ?); done].
  apply x_bind_Ok in E as (x2 & u2 & E2 & E). eapply register_minted_books in E2; [|done|exact B1].
  apply x_bind_Ok in E as (x3 & acc & E3 & E). eapply module_account_books in E3 as (B3 & Hacc & Hm); [|exact E2].
  eapply books_send in E as [B4 _]; [|done|exact B3]. unfold moved, moved_supply in B4. rewrite Hacc in B4.
  eapply books_ext; [exact B4|..].
  - apply ledger_eq_refl.
  - intros d a _ _. cbv beta. rewrite Ha, bool_decide_eq_true_2, BytesToAddress_account by done. lia.
  - intros d _. cbv beta. rewrite Ha, bool_decide_eq_true_2 by done. lia.
Qed.

(** ** Multi-sends *)

(** The addresses of inputs and outputs are accounts, their coins native. *)
Definition io_ok (i : InOut) : Prop :=
  native_coins (io_Coins i) ∧ ∀ a, AccAddressFromBech32 (io_Address i) = Ok a → is_account a.

Definition io_sum d (l : list InOut) : Z := list_sum (fun i => coins_amt d (io_Coins i)) l.

(** What an input ([z] is -1) or an output ([z] is 1) does to the ledger. *)
Definition io_amt (i : InOut) d a : Z :=
  match AccAddressFromBech32 (io_Address i) with Ok a' => if_addr a a' (coins_amt d (io_Coins i)) | _ => 0 end.
Definition lg_io (z : Z) (i : InOut) (L : Ledger) : Ledger := lg_add L (fun d a => z * io_amt i d a) (fun _ => 0).

(** An input leaves its tokens at the module's address. *)
Lemma input_coins_books m i x x' u L off soff :
  input_coins m i x = (x', Ok u) → io_ok i → is_account m → books x L off soff →
  books x' (lg_io (-1) i L) (fun d a => off d a - if_addr a m (coins_amt d (io_Coins i))) soff.
Proof.
  unfold input_coins. intros E [Hn Hacc] Hm Bk. apply x_bind_Ok in E as (x0 & a0 & E0 & E). apply x_lift_Ok in E0 as [Ha0 ->].
  pose proof (Hacc _ Ha0) as Ha0'.
  apply x_bind_Ok in E as (x0 & [n t] & E0 & E). apply x_lift_Ok in E0 as [E0 ->].
  apply SplitCoinsByErc20_native in E0 as (-> & Hnn & Ha); [|done].
  apply x_bind_Ok in E as (x1 & u1 & E1 & E).
  eapply books_on_host in E1 as [B1 _]; [|exact Bk|intros h' Eh; apply SubUnlockedCoins_Ok in Eh as (_ & ? & ? & ?); done].
  eapply books_send in E as [B2 _]; [|done|exact B1]. eapply books_ext; [exact B2|..].
  - split; intros; simpl; unfold io_amt; rewrite ?Ha0, ?Ha; lia.
  - intros d a _ _. cbv beta. destruct (moved_transfer a0 m (coins_amt d n) a Ha0' Hm) as [-> _]. rewrite Ha. lia.
  - intros d _. cbv beta. destruct (moved_transfer a0 m (coins_amt d n) "" Ha0' Hm) as [_ ->]. lia.
Qed.

Lemma output_coins_books m o x x' u L off soff :
  output_coins m o x = (x', Ok u) → io_ok o → is_account m → books x L off soff →
  books x' (lg_io 1 o L) (fun d a => off d a + if_addr a m (coins_amt d (io_Coins o))) soff.
Proof.
  unfold output_coins. intros E [Hn Hacc] Hm Bk. apply x_bind_Ok in E as (x0 & a0 & E0 & E). apply x_lift_Ok in E0 as [Ha0 ->].
  pose proof (Hacc _ Ha0) as Ha0'.
  apply x_bind_Ok in E as (x0 & [n t] & E0 & E). apply x_lift_Ok in E0 as [E0 ->].
  apply SplitCoinsByErc20_native in E0 as (-> & Hnn & Ha); [|done].
  apply x_bind_Ok in E as (x1 & u1 & E1 & E).
  eapply books_on_host in E1 as [B1 _]; [|exact Bk|intros h' Eh; apply AddCoins_Ok in Eh as (_ & ? & ? & ?); done].
  apply x_bind_Ok in E as (x2 & u2 & E2 & E). eapply books_send in E2 as [B2 _]; [|done|exact B1].
  eapply ensure_account_books in E; [|exact B2]. eapply books_ext; [exact E|..].
  - split; intros; simpl; unfold io_amt; rewrite ?Ha0, ?Ha; lia.
  - intros d a _ _. cbv beta. destruct (moved_transfer m a0 (coins_amt d n) a Hm Ha0') as [-> _]. rewrite Ha. lia.
  - intros d _. cbv beta. destruct (moved_transfer m a0 (coins_amt d n) "" Hm Ha0') as [_ ->]. lia.
Qed.

Lemma if_addr_plus a m n k : if_addr a m (n + k) = if_addr a m n + if_addr a m k.
Proof. unfold if_addr. case_decide; lia. Qed.

(** A loop over inputs or outputs adds what each of them adds. *)
Lemma x_for_books z (f : InOut → XM unit) m l x x' u L off soff :
  (∀ i x x' u L off, f i x = (x', Ok u) → io_ok i → books x L off soff →
     books x' (lg_io z i L) (fun d a => off d a + z * if_addr a m (coins_amt d (io_Coins i))) soff) →
  x_for f l x = (x', Ok u) → Forall io_ok l → books x L off soff →
  books x' (foldl (fun L i => lg_io z i L) L l) (fun d a => off d a + z * if_addr a m (io_sum d l)) soff.
Proof.
  intros Hf. revert x L off. induction l as [|i l IH]; intros x L off E Hl Bk; cbn [x_for foldl] in *.
  - injection E as <- _. eapply books_ext; [exact Bk|apply ledger_eq_refl|..]; [|done].
    intros d a _ _. unfold io_sum. cbn. unfold if_addr. case_decide; lia.
  - inversion Hl; subst. apply x_bind_Ok in E as (x1 & u1 & E1 & E). apply Hf with (L := L) (off := off) in E1; [|done..].
    eapply IH in E; [|done|exact E1]. eapply books_ext; [exact E|apply ledger_eq_refl|..]; [|done].
    intros d a _ _. cbv beta. unfold io_sum. rewrite list_sum_cons, if_addr_plus. lia.
Qed.

Definition lg_multi (ins outs : list InOut) (L : Ledger) : Ledger :=
  foldl (fun L o => lg_io 1 o L) (foldl (fun L i => lg_io (-1) i L) L ins) outs.

Lemma InputOutputCoins_books ins outs x x' u L off soff :
  InputOutputCoins ins outs x = (x', Ok u) → Forall io_ok ins → Forall io_ok outs → books x L off soff →
  books x' (lg_multi ins outs L) off soff.
Proof.
  unfold InputOutputCoins. intros E Hi Ho Bk. apply x_bind_Ok in E as (x0 & [] & E0 & E). apply x_lift_Ok in E0 as [Hv ->].
  cbv zeta in E. pose proof bank_address as Hm.
  change "bank" with bank_ModuleName in Hm. set (m := GetModuleAddress bank_ModuleName) in *. apply x_bind_Ok in E as (x1 & u1 & E1 & E).
  eapply (x_for_books (-1) _ m _ _ _ _ L off soff) in E1; [|intros i y y' v L' o Ey Hio By|done|done].
  - eapply (x_for_books 1 _ m) in E; [|intros o y y' v L' o' Ey Hio By|done|exact E1].
    + eapply books_ext; [exact E|apply ledger_eq_refl|..]; [|done].
      intros d a _ _. cbv beta. unfold io_sum. rewrite (ValidateInputsOutputs_Ok _ _ Hv d). lia.
    + eapply books_ext; [eapply output_coins_books; [exact Ey|done|exact Hm|exact By]|apply ledger_eq_refl|..]; [|done]. intros; cbv beta; lia.
  - eapply books_ext; [eapply input_coins_books; [exact Ey|done|exact Hm|exact By]|apply ledger_eq_refl|..]; [|done]. intros; cbv beta; lia.
Qed.

(** ** The extension as a machine *)

Inductive bank_cmd :=
| CSend (from to : Addr) (cs : Coins)
| CModuleToAccount (m : string) (to : Addr) (cs : Coins)
| CModuleToModule (m m' : string) (cs : Coins)
| CAccountToModule (from : Addr) (m : string) (cs : Coins)
| CDelegate (from : Addr) (m : string) (cs : Coins)
| CUndelegate (m : string) (to : Addr) (cs : Coins)
| CMint (m : string) (cs : Coins)
| CBurn (m : string) (cs : Coins)
| CMulti (ins outs : list InOut).

Definition bank_exec (c : bank_cmd) : XM unit :=
  match c with
  | CSend from to cs => bank_SendCoins from to cs
  | CModuleToAccount m to cs => bank_SendCoinsFromModuleToAccount m to cs
  | CModuleToModule m m' cs => bank_SendCoinsFromModuleToModule m m' cs
  | CAccountToModule from m cs => bank_SendCoinsFromAccountToModule from m cs
  | CDelegate from m cs => bank_DelegateCoinsFromAccountToModule from m cs
  | CUndelegate m to cs => bank_UndelegateCoinsFromModuleToAccount m to cs
  | CMint m cs => bank_MintCoins m cs
  | CBurn m cs => bank_BurnCoins m cs
  | CMulti ins outs => InputOutputCoins ins outs
  end.

(** The specification on the ledger. *)
Definition bank_spec (c : bank_cmd) (L : Ledger) : Ledger :=
  match c with
  | CSend from to cs => lg_transfer from to cs L
  | CModuleToAccount m to cs => lg_transfer (GetModuleAddress m) to cs L
  | CModuleToModule m m' cs => lg_transfer (GetModuleAddress m) (GetModuleAddress m') cs L
  | CAccountToModule from m cs => lg_transfer from (GetModuleAddress m) cs L
  | CDelegate from m cs => lg_transfer from (GetModuleAddress m) cs L
  | CUndelegate m to cs => lg_transfer (GetModuleAddress m) to cs L
  | CMint m cs => lg_mint (GetModuleAddress m) cs L
  | CBurn m cs => lg_burn (GetModuleAddress m) cs L
  | CMulti ins outs => lg_multi ins outs L
  end.

(** Coins are native, and addresses have twenty bytes. *)
Definition cmd_ok (c : bank_cmd) : Prop :=
  match c with
  | CSend from to cs => native_coins cs ∧ is_account from ∧ is_account to
  | CModuleToAccount _ a cs | CAccountToModule a _ cs | CDelegate a _ cs | CUndelegate _ a cs => native_coins cs ∧ is_account a
  | CModuleToModule _ _ cs | CMint _ cs | CBurn _ cs => native_coins cs
  | CMulti ins outs => Forall io_ok ins ∧ Forall io_ok outs
  end.

Lemma module_address_Ok m x x' a : module_address m x = (x', Ok a) → x' = x ∧ a = GetModuleAddress m ∧ is_account a.
Proof. unfold module_address. intros [Ha%deref_Ok ->]%x_lift_Ok. split; [done|]. by apply ak_GetModuleAddress_Some. Qed.

Lemma staking_account_books m x x' acc L off soff :
  staking_account m x = (x', Ok acc) → books x L off soff → books x' L off soff ∧ ma_Address acc = GetModuleAddress m ∧ is_account (GetModuleAddress m).
Proof.
  unfold staking_account. intros E Bk. apply x_bind_Ok in E as (x1 & acc' & E1 & E).
  eapply module_account_books in E1 as (B1 & Ha & Hm); [|exact Bk]. case_bool_decide; [|discriminate]. by injection E as <- <-.
Qed.

Lemma bank_exec_books c x x' u L off soff :
  bank_exec c x = (x', Ok u) → cmd_ok c → books x L off soff → books x' (bank_spec c L) off soff.
Proof.
  destruct c; cbn [bank_exec cmd_ok bank_spec]; intros E Hok Bk.
  - destruct Hok as (? & ? & ?). by eapply bank_SendCoins_books.
  - destruct Hok as (? & ?). unfold bank_SendCoinsFromModuleToAccount in E. apply x_bind_Ok in E as (x1 & a & E1 & E).
    apply module_address_Ok in E1 as (-> & -> & Hma). apply x_bind_Ok in E as (x1 & u1 & E1 & E). apply x_guard_Ok in E1 as [_ ->].
    by eapply bank_SendCoins_books.
  - unfold bank_SendCoinsFromModuleToModule in E. apply x_bind_Ok in E as (x1 & a & E1 & E). apply module_address_Ok in E1 as (-> & -> & Hma).
    apply x_bind_Ok in E as (x1 & acc & E1 & E). eapply module_account_books in E1 as (B1 & Ha & Hm); [|exact Bk]. rewrite Ha in E.
    by eapply bank_SendCoins_books.
  - destruct Hok as (? & ?). unfold bank_SendCoinsFromAccountToModule in E. apply x_bind_Ok in E as (x1 & acc & E1 & E).
    eapply module_account_books in E1 as (B1 & Ha & Hm); [|exact Bk]. rewrite Ha in E. by eapply bank_SendCoins_books.
  - destruct Hok as (? & ?). unfold bank_DelegateCoinsFromAccountToModule in E. apply x_bind_Ok in E as (x1 & acc & E1 & E).
    eapply staking_account_books in E1 as (B1 & Ha & Hm); [|exact Bk]. rewrite Ha in E. by eapply bank_DelegateCoins_books.
  - destruct Hok as (? & ?). unfold bank_UndelegateCoinsFromModuleToAccount in E. apply x_bind_Ok in E as (x1 & acc & E1 & E).
    eapply staking_account_books in E1 as (B1 & Ha & Hm); [|exact Bk]. rewrite Ha in E. by eapply bank_UndelegateCoins_books.
  - by eapply bank_MintCoins_books.
  - by eapply bank_BurnCoins_books.
  - destruct Hok as (? & ?). by eapply InputOutputCoins_books.
Qed.
End BankOps.
