(* ===== verification/BankSafety.v ===== *)
(** More of the bank extension and the erc20 module: the module's own check of
    its balances, the round trip of its genesis state, and two ways in which
    coins and contracts come apart, the hook after an EVM transaction and the
    second name of a registered contract. *)

From stdpp Require Import base gmap strings list fin_maps.
From Stdlib Require Import ZArith Lia.
From S2P Require Import Prelude GoStrings Sdk SdkExt SdkEvm Types Erc20Types Erc20Keeper Bank Erc20Inv BankInv.

#[local] Open Scope string_scope.
#[local] Open Scope Z_scope.

Section BankSafety.
Context `{!Sdk, !SdkExt, !Host, !HostView, !SdkLaws, !SdkExtLaws, !HostLaws}.
Implicit Types (x : XBank) (s : Erc20Store) (h : host) (d : string) (a : Addr) (L : Ledger).

(** ** Reading balances *)

Lemma getContractByDenom_native d x x' o :
  getContractByDenom d x = (x', Ok o) → native d → pairs_ok (xb_store x) →
  x' = x ∧ o = GetERC20Contract <$> pair_of (xb_store x) d.
Proof.
  intros E [Hd Hh] O.
  assert ((id ← GetTokenPairID d; if no_id id then mret None else tp ← pair_of_id id; mret (Some (GetERC20Contract tp))) x = (x', Ok o)) as E'.
  { unfold getContractByDenom, IsDenomForErc20 in *. destruct (Split slash d) as [|q [|b [|? ?]]]; try exact E. by rewrite Hd in E. }
  clear E. apply x_bind_Ok in E' as (x1 & id & E1 & E). unfold GetTokenPairID in E1. rewrite Hh in E1. injection E1 as <- <-.
  unfold pair_of. destruct (es_ByDenom (xb_store x) !! d) as [id|] eqn:Ed; simpl in *; [|by injection E as <- <-].
  case_bool_decide as Hid.
  { destruct (po_denom _ O _ _ Ed) as (p & Hp & _). destruct (po_pair _ O _ _ Hp) as (-> & _). by apply tmhash_Sum_nonempty in Hid. }
  apply x_bind_Ok in E as (x1 & p & E1 & E). injection E as <- <-. unfold pair_of_id, GetTokenPair in E1.
  apply x_bind_Ok in E1 as (x2 & op & E2 & E1). injection E2 as <- <-.
  destruct (es_TokenPair (xb_store x) !! id) as [p'|]; [|discriminate]. by injection E1 as <- <-.
Qed.

Lemma balanceOf_Ok c a x x' n :
  balanceOf c a x = (x', Ok n) → is_minter (xb_host x) c →
  n = token_bal (xb_host x) c a ∧ xb_store x' = xb_store x ∧ coins_same (xb_host x) (xb_host x') ∧ tokens_same (xb_host x) (xb_host x').
Proof.
  unfold balanceOf. intros E Hm. apply x_bind_Ok in E as (x1 & r & E1 & E).
  apply CallEVM_Ok in E1 as (m & Ea & Ef & _ & Hc & Hs). apply x_bind_Ok in E as (x2 & l & E2 & E).
  destruct (abi_Unpack _ _ _) as [l'| |] eqn:El; [|discriminate..]. injection E2 as <- <-.
  destruct (ApplyMessage_balanceOf _ _ _ _ _ _ _ Ea Ef Hm Hc El) as [Ht ->]. injection E as <- <-.
  split_and!; [done..| |done]. by eapply ApplyMessage_coins; [exact Ea|apply Hc|].
Qed.

(** The balance of a native coin's contract, as the keeper reads it. *)
Lemma erc20_GetBalance_Ok a d x x' c L off soff :
  erc20_GetBalance a d x = (x', Ok (Some c)) → native d → is_account a → books x L off soff →
  Denom c = d ∧ Amount c = tok x d a ∧ books x' L off soff ∧ xb_store x' = xb_store x ∧
  ∀ a' d', coin_bal (xb_host x') a' d' = coin_bal (xb_host x) a' d'.
Proof.
  unfold erc20_GetBalance. intros E Hd Ha Bk. apply x_bind_Ok in E as (x1 & o & E1 & E).
  apply getContractByDenom_native in E1 as [-> ->]; [|done|apply Bk].
  destruct (pair_of (xb_store x) d) as [p|] eqn:Hp; [|discriminate]. simpl in E.
  apply x_bind_Ok in E as (x1 & r & E1 & E). unfold x_try in E1. rewrite BytesToAddress_account in E1 by done.
  destruct (balanceOf (GetERC20Contract p) a x) as [x2 [n|e|]] eqn:Eb; [injection E1 as <- <-|injection E1 as <- <-; discriminate|discriminate].
  apply balanceOf_Ok in Eb as (-> & Hs & Hc & Ht); [|by eapply bk_minter].
  cbn [coin_or_empty] in E. apply x_bind_Ok in E as (x3 & y & E3 & E). apply x_lift_Ok in E3 as [->%NewIntFromBigInt_Ok ->].
  apply x_bind_Ok in E as (x3 & c' & E3 & E). apply x_lift_Ok in E3 as [E3 ->]. injection E as <- <-.
  apply NewCoin_Ok in E3 as [-> _]. cbn [Denom Amount]. unfold tok. rewrite Hp. split_and!; [done|done| |done|].
  - pose proof (books_coins_same _ (xb_host x2) _ _ _ Bk Hc Ht) as B. destruct x2 as [h2 s2]; simpl in *. by subst.
  - intros a' d'. by apply (Hc d').
Qed.

(** ** The module's check *)

Lemma unequal_balances_none l n x x' k L :
  unequal_balances l n x = (x', Ok k) → bank_shows x L →
  (∀ a c, (a, c) ∈ l → is_account a ∧ native (Denom c) ∧ coin_bal (xb_host x) a (Denom c) = Amount c) → k = n.
Proof.
  revert n x. induction l as [|[a b] l IH]; intros n x E Bk Hl; cbn [unequal_balances] in E; [by injection E|].
  assert (∀ a c, (a, c) ∈ l → is_account a ∧ native (Denom c) ∧ coin_bal (xb_host x) a (Denom c) = Amount c) as Hl'
    by (intros; apply Hl; by right).
  destruct (is_gas (Denom b)) eqn:Hg; [by eapply IH|].
  destruct (Hl a b ltac:(by left)) as (Ha & Hd & Hb).
  apply x_bind_Ok in E as (x1 & o & E1 & E). destruct o as [c|]; [|discriminate].
  eapply erc20_GetBalance_Ok in E1 as (Hcd & Hca & B1 & Hs & Hsame); [|done|done|exact Bk].
  apply x_bind_Ok in E as (x2 & eq & E2 & E). apply x_lift_Ok in E2 as [[_ ->]%Coin_IsEqual_Ok ->].
  assert (Amount c = Amount b) as Hcb.
  { destruct (bk_bal _ _ _ _ Bk (Denom b) a) as [K1 K2]; [done..|]. rewrite Hca. rewrite Hb in K1. lia. }
  rewrite Hcb, Z.eqb_refl in E. eapply IH; [exact E|exact B1|]. intros a' c' Hin. rewrite Hsame. by apply Hl'.
Qed.

(** ** The hook *)

(** What a log of a transfer of a registered coin's contract makes the hook
    do. *)
Lemma process_log_transfer log d p n x x' u :
  process_log log x = (x', Ok u) → pairs_ok (xb_store x) → pair_of (xb_store x) d = Some p → tp_ContractOwner p = OWNER_MODULE →
  lg_Address log = GetERC20Contract p → transfer_amount log x = (x, Ok (Some n)) →
  let from := BytesToAddress (nth 1 (lg_Topics log) "") in
  let to := BytesToAddress (nth 2 (lg_Topics log) "") in
  from ≠ zero_address → to ≠ zero_address → bank_SendCoins from to [mkCoin d n] x = (x', Ok u).
Proof.
  intros E O Hp Ho Hlog Hamt from to Hf Ht. pose proof (pair_of_denom _ _ _ O Hp) as Hd.
  apply pair_of_Some in Hp as (id & Hid & Hp). destruct (po_pair _ O _ _ Hp) as (Hgid & _ & He & _).
  unfold process_log in E. apply x_bind_Ok in E as (x1 & o & E1 & E). rewrite Hamt in E1. injection E1 as <- <-. cbv zeta in E.
  apply x_bind_Ok in E as (x1 & otp & E1 & E).
  assert (x1 = x ∧ otp = Some p) as [-> ->].
  { unfold log_pair in E1. apply x_bind_Ok in E1 as (x2 & oid & E2 & E1). injection E2 as <- <-. rewrite Hlog, He in E1.
    cbn [no_id] in E1. rewrite bool_decide_eq_false_2 in E1 by (rewrite Hgid; apply tmhash_Sum_nonempty).
    unfold pair_of_id, GetTokenPair in E1. apply x_bind_Ok in E1 as (x2 & tp & E2 & E1). injection E1 as <- <-.
    apply x_bind_Ok in E2 as (x3 & o & E3 & E2). injection E3 as <- <-. rewrite Hp in E2. by injection E2 as <- <-. }
  rewrite bool_decide_eq_false_2 in E by (intros K; by apply K). apply x_bind_Ok in E as (x2 & y & E2 & E).
  apply x_lift_Ok in E2 as [->%NewIntFromBigInt_Ok ->]. unfold mirror_transfer in E. cbv zeta in E. fold from to in E.
  rewrite !bool_decide_eq_false_2 in E by done. cbn [andb negb] in E. by rewrite Hd in E.
Qed.

(** ** The second name of a contract *)

Lemma IsDenomForErc20_alias c : String.length c = 20%nat → Split slash (CreateDenom (Address_String c)) = ["erc20"; Address_String c].
Proof.
  intros Hc. unfold CreateDenom. change (DenomPrefix ++ "/" ++ Address_String c) with ("erc20" ++ String slash (Address_String c)).
  rewrite Split_app by reflexivity. by rewrite Address_String_slash.
Qed.

Lemma gather_tokens_Ok cs x x' l dn b :
  gather token_call cs x = (x', Ok l) → (∀ c, c ∈ cs → Denom c = dn) → Split slash dn = ["erc20"; b] →
  x' = x ∧ (∀ e, e ∈ l → e.1 = HexToAddress b) ∧ sent_to (HexToAddress b) l = coins_amt dn cs.
Proof.
  intros E Hd Hs. revert x x' l E. induction cs as [|c cs IH]; intros x x' l E; cbn [gather] in E.
  - injection E as <- <-. split_and!; [done|by intros e ?%elem_of_nil|done].
  - apply x_bind_Ok in E as (x1 & l1 & E1 & E). unfold token_call in E1. rewrite (Hd c ltac:(by left)), Hs in E1. injection E1 as <- <-.
    apply x_bind_Ok in E as (x2 & l2 & E2 & E). apply IH in E2 as (-> & I2 & A2); [|intros; apply Hd; by right]. injection E as <- <-.
    split_and!; [done|by intros e [->|?]%elem_of_cons; [|apply I2]|].
    unfold sent_to in *. cbn [app]. rewrite list_sum_cons, A2. cbn. rewrite !decide_True by (done || apply Hd; by left). lia.
Qed.

Lemma zero_coins h h' f g : coins_become h h' f g → (∀ d a, f d a = 0) → (∀ d, g d = 0) → coins_same h h'.
Proof. intros C Hf Hg d. destruct (C d) as [-> Hb]. split; [rewrite Hg; lia|]. intros a. rewrite Hb, Hf. lia. Qed.

(** An operation of the host that moves nothing. *)
Lemma on_host_nothing f x x' u L off soff g t :
  x_on_host f x = (x', Ok u) → books x L off soff →
  (∀ h', f (xb_host x) = Ok h' → tokens_same (xb_host x) h' ∧ metadata_same (xb_host x) h' ∧ coins_become (xb_host x) h' g t) →
  (∀ d a, g d a = 0) → (∀ d, t d = 0) → books x' L off soff ∧ xb_store x' = xb_store x.
Proof.
  intros E Bk Hf Hg Ht. pose proof E as (E1 & Hs & _)%x_on_host_Ok. split; [|done]. destruct (Hf _ E1) as (T & _ & C).
  pose proof (books_coins_same _ _ _ _ _ Bk (zero_coins _ _ _ _ C Hg Ht) T) as B. destruct x'; simpl in *. by subst.
Qed.

(** The coins of a transfer of one token: no native ones, and the amount of
    the token. *)
Lemma SplitCoinsByErc20_token dn n ns ts :
  SplitCoinsByErc20 [mkCoin dn n] = Ok (ns, ts) → IsDenomForErc20 dn = true →
  ns = [] ∧ (∀ k, k ∈ ts → Denom k = dn) ∧ coins_amt dn ts = n.
Proof.
  unfold SplitCoinsByErc20. cbn [for_each]. unfold split_coin. cbn [Denom fst snd]. intros E Hfor. rewrite Hfor in E.
  apply bind_Ok in E as (acc & E0 & E1). injection E1 as ->. apply bind_Ok in E0 as (tks & E0 & E1). injection E1 as <- <-.
  split_and!; [done| |rewrite (Coins_Add_Ok _ _ _ E0); cbn; rewrite decide_True by done; lia].
  intros k Hk. destruct (Coins_Add_denom _ _ _ _ E0 Hk) as (y & Hy & <-). by apply list_elem_of_singleton in Hy as ->.
Qed.

(** The tokens of one contract move. *)
Lemma books_one_token d p n from to l x x' u L off soff :
  x_for (send_token from to) l x = (x', Ok u) → pair_of (xb_store x) d = Some p → native d →
  (∀ e, e ∈ l → e.1 = GetERC20Contract p) → sent_to (GetERC20Contract p) l = n → is_account from → is_account to →
  books x L off soff → books x' L (fun d' a => off d' a - if decide (d' = d) then moved from to n a else 0) soff.
Proof.
  intros E Hp Hd Hl Hn Hf Ht Bk. apply send_tokens_Ok in E as [O T]; cycle 1.
  { apply Forall_forall. intros e He. rewrite (Hl e He). by eapply bk_minter. }
  eapply books_ext.
  - eapply (books_tokens from to (fun d' => if decide (d' = d) then n else 0)); [exact O|exact T| |exact Bk].
    intros d' _. destruct (pair_of (xb_store x) d') as [p'|] eqn:Hp'; simpl; [|case_decide; [congruence|done]]. case_decide as Edd.
    + subst d'. rewrite Hp in Hp'. by injection Hp' as <-.
    + assert (GetERC20Contract p' ≠ GetERC20Contract p) as Hne by (intros Ec; eapply Edd, pair_of_inj; [apply Bk|done..]).
      clear -Hl Hne. unfold sent_to. induction l as [|e l IH]; [done|]. rewrite list_sum_cons, IH by (intros; apply Hl; by right).
      rewrite (Hl e) by by left. by rewrite decide_False.
  - apply ledger_eq_refl.
  - intros d' a _ _. cbv beta. case_decide; [done|]. by rewrite moved_zero.
  - intros d' _. cbv beta. destruct (moved_transfer from to (if decide (d' = d) then n else 0) "" Hf Ht) as [_ ->]. lia.
Qed.

Lemma alias_send d p n from to x x' u L off soff :
  pair_of (xb_store x) d = Some p → native d →
  bank_SendCoins from to [mkCoin (CreateDenom (tp_Erc20Address p)) n] x = (x', Ok u) → is_account from → is_account to →
  books x L off soff → books x' L (fun d' a => off d' a - if decide (d' = d) then moved from to n a else 0) soff.
Proof.
  intros Hp Hd E Hf Ht Bk. pose proof (bk_pairs _ _ _ _ Bk) as O.
  pose proof Hp as (id & _ & Hp')%pair_of_Some. destruct (po_pair _ O _ _ Hp') as (_ & _ & _ & c & Hc & Hpc).
  pose proof (IsDenomForErc20_alias c Hc) as Hsp. rewrite <- Hpc in Hsp. set (dn := CreateDenom (tp_Erc20Address p)) in *.
  assert (IsDenomForErc20 dn = true) as Hfor.
  { unfold IsDenomForErc20. rewrite Hsp, bool_decide_eq_true_2 by done. rewrite Hpc, IsHexAddress_String; done. }
  unfold bank_SendCoins in E. apply x_bind_Ok in E as (x0 & [ns ts] & E0 & E). apply x_lift_Ok in E0 as [E0 ->].
  apply SplitCoinsByErc20_token in E0 as (-> & Hden & Hamt); [|exact Hfor].
  apply x_bind_Ok in E as (x1 & u1 & E1 & E).
  eapply on_host_nothing in E1 as [B1 S1]; [|exact Bk|intros h' Eh; apply SubUnlockedCoins_Ok in Eh as (_ & ? & ? & ?); done|intros; cbn; unfold if_addr; by case_decide|done].
  apply x_bind_Ok in E as (x2 & u2 & E2 & E).
  eapply on_host_nothing in E2 as [B2 S2]; [|exact B1|intros h' Eh; apply AddCoins_Ok in Eh as (_ & ? & ? & ?); done|intros; cbn; unfold if_addr; by case_decide|done].
  apply x_bind_Ok in E as (x3 & u3 & E3 & E). eapply ensure_account_books; [exact E|].
  unfold erc20_SendCoins in E3. apply x_bind_Ok in E3 as (x4 & l1 & E4 & E3). injection E4 as <- <-.
  apply x_bind_Ok in E3 as (x4 & l & E4 & E3). eapply gather_tokens_Ok in E4 as (-> & I4 & A4); [|exact Hden|exact Hsp].
  eapply books_one_token; [exact E3|by rewrite S2, S1|exact Hd|exact I4| |done..]. etrans; [exact A4|exact Hamt].
Qed.
End BankSafety.
