(* ===== verification/BankProps.v ===== *)
(** The properties of the bank extension and of the erc20 module, with the
    concrete runs that discharge their hypotheses. *)

From stdpp Require Import base gmap strings list.
From Stdlib Require Import ZArith Lia.
From S2P Require Import Prelude GoStrings Sdk SdkRef Types MakerTypes SdkExt SdkExtRef SdkEvm SdkEvmRef Erc20Types Erc20Keeper Bank Erc20Inv BankInv BankSafety.

#[local] Open Scope string_scope.
#[local] Open Scope Z_scope.

(** * A concrete bank on which the theorems on the bank extension are applied:
    the reference host of [SdkEvmRef] with the metadata of the stable coin.  The
    coin is minted, which deploys its contract, paid out and sent on; then
    tokens are moved on the EVM alone. *)

Module BankDemo.
Export SdkRef SdkExtRef SdkEvmRef.

(** Accounts of twenty bytes. *)
Definition alice20 : Addr := "alice---------------".
Definition bob20 : Addr := "bob-----------------".

Definition h0 : rhost := mkRhost (mkLedger ∅ ∅) {["uusm" := stable_metadata "uusm"]} ∅ ∅.
Definition xb0 : XBank := mkXBank _ h0 (mkErc20Store ∅ ∅ ∅).
Definition usm (n : Z) : Coins := [mkCoin "uusm" n].

Definition mint1k : bank_cmd := CMint "maker" (usm 1000).
Definition pay600 : bank_cmd := CModuleToAccount "maker" alice20 (usm 600).
Definition send200 : bank_cmd := CSend alice20 bob20 (usm 200).
Definition x1 : XBank := (bank_exec mint1k xb0).1.
Definition x2 : XBank := (bank_exec pay600 x1).1.
Definition x3 : XBank := (bank_exec send200 x2).1.

Definition lg0 : Ledger := BankInv.mkLedger (fun _ _ => 0) (fun _ => 0).
Definition lg2 : Ledger := bank_spec pay600 (bank_spec mint1k lg0).
Definition lg3 : Ledger := bank_spec send200 lg2.

(** The pair that the mint has registered. *)
Definition contract : EthAddr := create_address module_eth 0.
Definition usm_pair : TokenPair := NewTokenPair contract "uusm" OWNER_MODULE.

Lemma ran (m : XM unit) x : is_ok (m x).2 = true → m x = ((m x).1, Ok tt).
Proof. by destruct (m x) as [x' [[]| |]]. Qed.

Lemma usm_mirrored : mirrored "uusm".
Proof. by vm_compute. Qed.

Lemma usm_native n : native_coins (usm n).
Proof. repeat constructor; by vm_compute. Qed.

Lemma shows0 : bank_shows xb0 lg0.
Proof.
  split; simpl.
  - split; intros ? ?; simpl; by rewrite lookup_empty.
  - intros d p. unfold pair_of. simpl. by rewrite lookup_empty.
  - intros d p. unfold pair_of. simpl. by rewrite lookup_empty.
  - intros d p. unfold pair_of. simpl. by rewrite lookup_empty.
  - intros d p. unfold pair_of. simpl. by rewrite lookup_empty.
  - intros d a _ _. unfold tok, pair_of, coin_bal. simpl. by rewrite lookup_empty.
  - intros d _. unfold tok_supply, pair_of, coin_supply. simpl. by rewrite lookup_empty.
Qed.

Lemma mint1k_runs : bank_exec mint1k xb0 = (x1, Ok tt).
Proof. apply ran. by vm_compute. Qed.
Lemma pay600_runs : bank_exec pay600 x1 = (x2, Ok tt).
Proof. apply ran. by vm_compute. Qed.
Lemma send200_runs : bank_exec send200 x2 = (x3, Ok tt).
Proof. apply ran. by vm_compute. Qed.

Lemma pay600_ok : cmd_ok pay600.
Proof. split; [apply usm_native|done]. Qed.
Lemma send200_ok : cmd_ok send200.
Proof. split_and!; [apply usm_native|done..]. Qed.

Lemma shows2 : bank_shows x2 lg2.
Proof.
  eapply bank_exec_books; [exact pay600_runs|exact pay600_ok|].
  eapply bank_exec_books; [exact mint1k_runs|apply usm_native|exact shows0].
Qed.

Lemma shows3 : bank_shows x3 lg3.
Proof. eapply bank_exec_books; [exact send200_runs|exact send200_ok|exact shows2]. Qed.

Lemma usm_pair3 : pair_of (xb_store x3) "uusm" = Some usm_pair.
Proof. by vm_compute. Qed.

(** ** Tokens moved on the EVM *)

(** A call of [transfer] by the holder of the tokens, and its log. *)
Definition xe : XBank := (send_token alice20 bob20 (contract, 50) x3).1.
Definition transfer_log : EthLog := mkEthLog contract ["Transfer-id"; alice20; bob20] [("", [AbiBigInt 50])].

Lemma log_from : BytesToAddress (nth 1 (lg_Topics transfer_log) "") = alice20.
Proof. by vm_compute. Qed.
Lemma log_to : BytesToAddress (nth 2 (lg_Topics transfer_log) "") = bob20.
Proof. by vm_compute. Qed.
Lemma log_amount x : transfer_amount transfer_log x = (x, Ok (Some 50)).
Proof. reflexivity. Qed.
Lemma usm_pair_xe : pair_of (xb_store xe) "uusm" = Some usm_pair.
Proof. by vm_compute. Qed.

Lemma books_xe :
  books xe lg3
    (fun d a => if decide (d = "uusm") then if_addr a (BytesToAddress (nth 1 (lg_Topics transfer_log) "")) 50 -
                                            if_addr a (BytesToAddress (nth 2 (lg_Topics transfer_log) "")) 50 else 0)
    (fun _ => 0).
Proof.
  rewrite log_from, log_to.
  assert (x_for (send_token alice20 bob20) [(contract, 50)] x3 = (xe, Ok tt)) as E.
  { change ((_ ← send_token alice20 bob20 (contract, 50); mret tt) x3 = (xe, Ok tt)).
    apply x_bind_Ok. exists xe, tt. split; [apply ran; by vm_compute|done]. }
  eapply books_ext.
  - eapply (books_one_token "uusm" usm_pair 50 alice20 bob20); [exact E|exact usm_pair3|apply usm_mirrored| |by vm_compute|done..|exact shows3].
    intros e ->%list_elem_of_singleton. by vm_compute.
  - apply ledger_eq_refl.
  - intros d a _ _. cbv beta. case_decide; [|done]. destruct (moved_transfer alice20 bob20 50 a eq_refl eq_refl) as [-> _]. lia.
  - done.
Qed.

Definition xh : XBank := (PostTxProcessing [transfer_log] xe).1.
Lemma hook_runs : PostTxProcessing [transfer_log] xe = (xh, Ok tt).
Proof. apply ran. by vm_compute. Qed.

(** The contract by its other name. *)
Definition alias_coin : Coin := mkCoin (CreateDenom (tp_Erc20Address usm_pair)) 50.
Definition xa : XBank := (bank_SendCoins alice20 bob20 [alias_coin] x3).1.
Lemma alias_runs : bank_SendCoins alice20 bob20 [alias_coin] x3 = (xa, Ok tt).
Proof. apply ran. by vm_compute. Qed.
End BankDemo.

(** * The properties *)

Section Props.
Context `{!Sdk, !SdkExt, !Host, !HostView, !SdkLaws, !SdkExtLaws, !HostLaws}.
Implicit Types (x : XBank) (L : Ledger).

(** A run of operations on native coins, between which the rest of the chain
    leaves coins and tokens alone. *)
Inductive bank_run L : XBank → Ledger → Prop :=
| bank_run_start x : bank_shows x L → bank_run L x L
| bank_run_op x c x' L' :
    bank_run L x L' → cmd_ok c → bank_exec c x = (x', Ok tt) → bank_run L x' (bank_spec c L')
| bank_run_other x h L' :
    bank_run L x L' → coins_same (xb_host x) h → tokens_same (xb_host x) h → bank_run L (mkXBank _ h (xb_store x)) L'.

Lemma bank_run_shows L x L' : bank_run L x L' → bank_shows x L'.
Proof.
  induction 1 as [x Hx|x c x' L' R IH Hc E|x h L' R IH Hc Ht]; [done|by eapply bank_exec_books|by apply books_coins_same].
Qed.

(** C25. The bank extension refines a ledger: when the balances and supplies of
    the native coins and those of their ERC-20 contracts both are those of a
    ledger, then after any operation that returns (a transfer between accounts
    and modules, a delegation, a mint, a burn, a multi-send) both are those of
    the ledger after the operation, whose balances move by the amounts of the
    coins; a coin that is minted for the first time has got a contract. *)
Theorem bank_refines_ledger c x x' L :
  bank_shows x L → cmd_ok c → bank_exec c x = (x', Ok tt) →
  bank_shows x' (bank_spec c L) ∧
  ∀ d a, mirrored d → is_account a →
    coin_bal (xb_host x') a d = lg_bal (bank_spec c L) d a ∧ tok x' d a = lg_bal (bank_spec c L) d a.
Proof.
  intros Hs Hc E. pose proof (bank_exec_books _ _ _ _ _ _ _ E Hc Hs) as B. split; [exact B|].
  intros d a Hd Ha. destruct (bk_bal _ _ _ _ B d a Hd Ha) as [K1 K2]. split; [done|lia].
Qed.

(** C26. The erc20 module's invariant holds: along any run of bank operations on
    native coins from a state in which coins and contracts agree,
    [ConsistentBalanceInvariant] finds no account with different balances, when
    the accounts have twenty bytes and the coins are native. *)
Theorem balances_stay_consistent x x' L L' broken :
  bank_run L x L' →
  (∀ a c, (a, c) ∈ base_AllBalances (xb_host x) → is_account a ∧ native (Denom c)) →
  ConsistentBalanceInvariant x = (x', Ok broken) → broken = false.
Proof.
  intros R%bank_run_shows Hall E. unfold ConsistentBalanceInvariant in E.
  apply x_bind_Ok in E as (x1 & h & E1 & E). injection E1 as <- <-. apply x_bind_Ok in E as (x2 & n & E2 & E). injection E as _ <-.
  rewrite (unequal_balances_none _ _ _ _ _ _ E2 R); [done|].
  intros a c Hin. destruct (Hall a c Hin). split_and!; [done..|]. by apply base_AllBalances_Ok.
Qed.

(** C27. Token pairs are well formed: in every state of such a run a pair is
    stored under its identifier and found by its denomination and by its
    contract, two denominations never share a contract, the contract of a
    native coin is the module's and has code, and the gas token has none. *)
Theorem token_pairs_well_formed x L L' :
  bank_run L x L' →
  (∀ d p, pair_of (xb_store x) d = Some p →
     tp_Denom p = d ∧ es_TokenPair (xb_store x) !! GetID p = Some p ∧
     es_ByERC20 (xb_store x) !! GetERC20Contract p = Some (GetID p) ∧ is_gas d = false ∧
     (native d → IsNativeCoin p = true ∧ is_minter (xb_host x) (GetERC20Contract p))) ∧
  (∀ d d' p p', pair_of (xb_store x) d = Some p → pair_of (xb_store x) d' = Some p' →
     GetERC20Contract p = GetERC20Contract p' → d = d').
Proof.
  intros R%bank_run_shows. pose proof (bk_pairs _ _ _ _ R) as O. split.
  - intros d p Hp. pose proof Hp as (id & _ & Hp')%pair_of_Some. destruct (pairs_ok_has _ _ _ O Hp') as [(P1 & P2 & _) _].
    split_and!; [by eapply pair_of_denom|done|done|by eapply bk_gas|].
    intros Hn. split; [|by eapply bk_minter]. apply bool_decide_eq_true_2. by eapply bk_native.
  - intros. by eapply pair_of_inj.
Qed.

(** C28. The genesis state of the erc20 module is read back: exporting the
    pairs of such a state and initialising an empty store with them gives the
    same three maps, and changes nothing but the module's account. *)
Theorem erc20_genesis_round_trip x x0 L L' acc h0 :
  bank_run L x L' → xb_store x0 = mkErc20Store ∅ ∅ ∅ →
  GetModuleAccount (xb_host x0) erc20_ModuleName = (h0, Some acc) →
  ∃ g, erc20_ExportGenesis x = (x, Ok g) ∧ erc20_InitGenesis g x0 = (mkXBank _ h0 (xb_store x), Ok tt).
Proof.
  intros R%bank_run_shows Hx0 Hacc. eexists. split; [reflexivity|].
  unfold erc20_InitGenesis, mbind, XM_bind, x_host. cbn [eg_TokenPairs]. rewrite Hacc. cbn [x_set_host].
  destruct (genesis_all (xb_store x) (mkXBank _ h0 (xb_store x0)) (bk_pairs _ _ _ _ R) Hx0) as ([h s] & E & Hh & Hs).
  simpl in *. subst. unfold x_set_host. exact E.
Qed.

(** The hook after an EVM transaction moves the tokens a second time: when
    a transaction has moved [n] tokens of a native coin's contract from one
    account to another and the hook processes its log, the coins are moved by
    [n], as they should, but the tokens by [n] again, so that the balances of
    coin and contract differ for both accounts. *)
Theorem hook_moves_tokens_twice log d p n x x' L :
  let from := BytesToAddress (nth 1 (lg_Topics log) "") in
  let to := BytesToAddress (nth 2 (lg_Topics log) "") in
  books x L (fun d' a => if decide (d' = d) then if_addr a from n - if_addr a to n else 0) (fun _ => 0) →
  mirrored d → pair_of (xb_store x) d = Some p → lg_Address log = GetERC20Contract p →
  transfer_amount log x = (x, Ok (Some n)) → 0 < n → from ≠ to → from ≠ zero_address → to ≠ zero_address →
  PostTxProcessing [log] x = (x', Ok tt) →
  (∀ a, is_account a →
     coin_bal (xb_host x') a d = lg_bal L d a + if_addr a to n - if_addr a from n ∧
     tok x' d a = lg_bal L d a + 2 * if_addr a to n - 2 * if_addr a from n) ∧
  tok x' d to ≠ coin_bal (xb_host x') to d.
Proof.
  intros from to Bk Hd Hp Hlog Hamt Hn Hne Hf Ht E. unfold PostTxProcessing in E. cbn [x_for] in E.
  apply x_bind_Ok in E as (x1 & [] & E & E'). injection E' as <-.
  assert (is_account from ∧ is_account to) as [Haf Hat] by (split; apply BytesToAddress_length).
  eapply process_log_transfer in E; [|apply Bk|exact Hp|by eapply bk_native; [exact Bk|..|apply Hd]|done..].
  eapply bank_SendCoins_books in E; [|repeat constructor; apply Hd|exact Haf|exact Hat|exact Bk].
  assert (∀ a, is_account a →
     coin_bal (xb_host x1) a d = lg_bal L d a + if_addr a to n - if_addr a from n ∧
     tok x1 d a = lg_bal L d a + 2 * if_addr a to n - 2 * if_addr a from n) as Hall.
  { intros a Ha. destruct (bk_bal _ _ _ _ E d a Hd Ha) as [K1 K2]. cbn in K1, K2.
    rewrite !decide_True in K1, K2 by done. repeat (case_decide; [|done]). rewrite Z.add_0_r in K1, K2. fold from to in K1, K2. lia. }
  split; [exact Hall|]. destruct (Hall to Hat) as [-> ->]. unfold if_addr. rewrite decide_True, decide_False by congruence. lia.
Qed.

(** A registered contract has a second name under which its tokens move
    alone: the denomination [erc20/<address>] of the contract of a native coin
    is taken for that of a foreign token, so a transfer of it moves the tokens
    and not the coins. *)
Theorem alias_moves_tokens_only d p n from to x x' L :
  bank_shows x L → mirrored d → pair_of (xb_store x) d = Some p → is_account from → is_account to → from ≠ to → 0 < n →
  bank_SendCoins from to [mkCoin (CreateDenom (tp_Erc20Address p)) n] x = (x', Ok tt) →
  (∀ a, is_account a →
     coin_bal (xb_host x') a d = lg_bal L d a ∧ tok x' d a = lg_bal L d a + if_addr a to n - if_addr a from n) ∧
  tok x' d to ≠ coin_bal (xb_host x') to d.
Proof.
  intros Bk Hd Hp Hf Ht Hne Hn E. eapply alias_send in E; [|exact Hp|apply Hd|done|done|exact Bk].
  assert (∀ a, is_account a →
     coin_bal (xb_host x') a d = lg_bal L d a ∧ tok x' d a = lg_bal L d a + if_addr a to n - if_addr a from n) as Hall.
  { intros a Ha. destruct (bk_bal _ _ _ _ E d a Hd Ha) as [K1 K2]. rewrite decide_True in K2 by done.
    destruct (moved_transfer from to n a Hf Ht) as [Em _]. rewrite Em in K2. lia. }
  split; [exact Hall|]. destruct (Hall to Ht) as [-> ->]. unfold if_addr. rewrite decide_True, decide_False by congruence. lia.
Qed.
End Props.

Module BankPropsWitness.
Import BankDemo.

Lemma bank_refines_ledger_witness : bank_shows x3 lg3 ∧ coin_bal (xb_host x3) bob20 "uusm" = 200 ∧ tok x3 "uusm" bob20 = 200.
Proof.
  destruct (bank_refines_ledger send200 x2 x3 lg2 shows2 send200_ok send200_runs) as [B K]. split; [exact B|].
  exact (K "uusm" bob20 usm_mirrored eq_refl).
Defined.

(** The run of the demonstration. *)
Lemma run3 : bank_run lg0 x3 lg3.
Proof.
  eapply bank_run_op; [|exact send200_ok|exact send200_runs]. eapply bank_run_op; [|exact pay600_ok|exact pay600_runs].
  eapply bank_run_op; [|apply (usm_native 1000)|exact mint1k_runs]. apply bank_run_start, shows0.
Qed.

Definition usm_holder (e : Addr * Coin) : bool := Nat.eqb (String.length e.1) 20 && bool_decide (Denom e.2 = "uusm").

Lemma holders3 a c : (a, c) ∈ base_AllBalances (xb_host x3) → is_account a ∧ native (Denom c).
Proof.
  intros Hin. assert (forallb usm_holder (base_AllBalances (xb_host x3)) = true) as F by by vm_compute.
  rewrite forallb_forall in F. specialize (F (a, c) (proj1 (list_elem_of_In _ _) Hin)).
  apply andb_true_iff in F as [Ha%Nat.eqb_eq Hd%bool_decide_eq_true]. cbn in Hd. split; [exact Ha|]. rewrite Hd. by vm_compute.
Qed.

Lemma balances_stay_consistent_witness : ∃ x, ConsistentBalanceInvariant x3 = (x, Ok false).
Proof.
  destruct (ConsistentBalanceInvariant x3) as [x [b| |]] eqn:E.
  - exists x. by rewrite (balances_stay_consistent x3 x lg0 lg3 b run3 holders3 E).
  - exfalso. assert (is_ok (ConsistentBalanceInvariant x3).2 = true) as F by by vm_compute. by rewrite E in F.
  - exfalso. assert (is_ok (ConsistentBalanceInvariant x3).2 = true) as F by by vm_compute. by rewrite E in F.
Defined.

Lemma token_pairs_well_formed_witness :
  pair_of (xb_store x3) "uusm" = Some usm_pair ∧ es_ByERC20 (xb_store x3) !! contract = Some (GetID usm_pair) ∧ IsNativeCoin usm_pair = true.
Proof.
  destruct (token_pairs_well_formed x3 lg0 lg3 run3) as [K _]. split; [exact usm_pair3|].
  destruct (K "uusm" usm_pair usm_pair3) as (_ & _ & K2 & _ & K3). split; [exact K2|]. apply K3, usm_mirrored.
Defined.

Lemma erc20_genesis_round_trip_witness :
  ∃ g, erc20_ExportGenesis x3 = (x3, Ok g) ∧ eg_TokenPairs g = [usm_pair] ∧
       ∃ x, erc20_InitGenesis g xb0 = (x, Ok tt) ∧ xb_store x = xb_store x3.
Proof.
  destruct (erc20_genesis_round_trip x3 xb0 lg0 lg3 _ _ run3 eq_refl eq_refl) as (g & E & E'). exists g. split; [exact E|].
  split; [|eexists; split; [exact E'|reflexivity]].
  transitivity (match (erc20_ExportGenesis x3).2 with Ok g => eg_TokenPairs g | _ => [] end); [rewrite E; reflexivity|by vm_compute].
Defined.

Lemma hook_moves_tokens_twice_witness : coin_bal (xb_host xh) bob20 "uusm" = 250 ∧ tok xh "uusm" bob20 = 300.
Proof.
  destruct (hook_moves_tokens_twice transfer_log "uusm" usm_pair 50 xe xh lg3 books_xe usm_mirrored) as [K _];
    [exact usm_pair_xe|by vm_compute|apply log_amount|lia|rewrite log_from, log_to; discriminate| | |exact hook_runs|];
    [rewrite log_from; by vm_compute|rewrite log_to; by vm_compute|].
  exact (K bob20 eq_refl).
Defined.

Lemma alias_moves_tokens_only_witness : coin_bal (xb_host xa) bob20 "uusm" = 200 ∧ tok xa "uusm" bob20 = 250.
Proof.
  destruct (alias_moves_tokens_only "uusm" usm_pair 50 alice20 bob20 x3 xa lg3 shows3 usm_mirrored usm_pair3 eq_refl eq_refl) as [K _];
    [by vm_compute|lia|exact alias_runs|]. exact (K bob20 eq_refl).
Defined.
End BankPropsWitness.
