(* ===== verification/Vesting.v ===== *)
(** The vesting module ([src/x/vesting/keeper/allocation.go], [msg_server.go],
    [grpc_query.go], [params.go], [src/x/vesting/genesis.go], [abci.go]): the
    allocation of the initial supply, vesting accounts, and airdrops.

    Accounts, which decide what of a balance is spendable at a time, and the
    community pool are the account and distribution keepers' ([AccountKeeper],
    [CommunityPool]); the operations run on a [VChain]. *)

From stdpp Require Import base gmap strings list.
From Stdlib Require Import ZArith Lia.
From S2P Require Import Prelude Sdk SdkExt Types MakerTypes VeTypes OracleTypes VestingTypes World VeEmission.

#[local] Open Scope string_scope.
#[local] Open Scope Z_scope.

Definition ErrAirdropNotFound : error := ErrExt "grpc/not found".

(** The account keeper with its vesting accounts, and what the bank lets an
    address spend in a block. *)
Class AccountKeeper `{BankKeeper} := {
  acct_state : Type;
  (* NewContinuousVestingAccount on a new account, and SetAccount *)
  SetContinuousVestingAccount : acct_state → Addr → Coins → Z → Z → outcome acct_state;
  SpendableAt : Ctx → acct_state → bank_state → Addr → Coins;
}.

Class CommunityPool `{BankKeeper} := {
  pool_state : Type;
  FundCommunityPool : bank_state → pool_state → Coins → Addr → outcome (bank_state * pool_state);
}.

Record VChain `{BankKeeper, NftKeeper, !AccountKeeper, !CommunityPool} := mkVChain {
  vc_world : World; vc_accounts : acct_state; vc_pool : pool_state }.

(** The fee collector of the chain, set in [app.go]. *)
Definition feeCollectorName : string := "fee_collector".

Section Vesting.
Context `{Sdk, SdkExt, CoinParser, BankKeeper, NftKeeper, !AccountKeeper, !CommunityPool}.
Implicit Types (ctx : Ctx) (w : World) (c : VChain).

Definition vc_set_world w c : VChain := mkVChain _ _ _ _ w (vc_accounts c) (vc_pool c).
Definition on_world (f : World → outcome World) c : outcome VChain :=
  w ← f (vc_world c); Ok (vc_set_world w c).

(** ** Store *)

Definition on_vesting (f : VestingStore → VestingStore) w : World := set_vesting (f (w_vesting w)) w.

Definition vesting_GetParams w : AllocationAmounts := vst_Params (w_vesting w).
Definition vesting_SetParams w (p : AllocationAmounts) : World :=
  on_vesting (fun s => mkVestingStore p (vst_Addresses s) (vst_AirdropTotal s) (vst_Airdrops s) (vst_Completed s)) w.

Definition SetAllocationAddresses w (a : AllocationAddresses) : World :=
  on_vesting (fun s =>
    mkVestingStore (vst_Params s) (Some a) (vst_AirdropTotal s) (vst_Airdrops s) (vst_Completed s)) w.
Definition GetAllocationAddresses w : AllocationAddresses :=
  default (mkAddresses "" "") (vst_Addresses (w_vesting w)).

Definition SetAirdropTotalAmount w (total : Z) : World :=
  on_vesting (fun s =>
    mkVestingStore (vst_Params s) (vst_Addresses s) (Some total) (vst_Airdrops s) (vst_Completed s)) w.
Definition GetAirdropTotalAmount w : Z := default 0 (vst_AirdropTotal (w_vesting w)).

Definition with_airdrops (f : gmap string Airdrop → gmap string Airdrop) w : World :=
  on_vesting (fun s =>
    mkVestingStore (vst_Params s) (vst_Addresses s) (vst_AirdropTotal s) (f (vst_Airdrops s)) (vst_Completed s)) w.

(** What is read when nothing is stored; the amount is the zero coin. *)
Definition EmptyAirdrop : Airdrop := mkAirdrop "" (mkCoin "" 0).

Definition SetAirdrop w (acc : Addr) (a : Airdrop) : World := with_airdrops <[acc := a]> w.
Definition GetAirdrop w (acc : Addr) : Airdrop := default EmptyAirdrop (vst_Airdrops (w_vesting w) !! acc).
Definition DeleteAirdrop w (acc : Addr) : World := with_airdrops (delete acc) w.

(** [IterateAirdrops] visits the entries there are when the iterator is made. *)
Definition IterateAirdrops w : list Airdrop := (kv_iter (vst_Airdrops (w_vesting w))).*2.

Definition SetAirdropCompleted w (acc : Addr) (a : Airdrop) : World :=
  on_vesting (fun s =>
    mkVestingStore (vst_Params s) (vst_Addresses s) (vst_AirdropTotal s) (vst_Airdrops s)
      (<[acc := a]> (vst_Completed s))) w.
Definition GetAirdropCompleted w (acc : Addr) : Airdrop :=
  default EmptyAirdrop (vst_Completed (w_vesting w) !! acc).
Definition IterateAirdropsCompleted w : list Airdrop := (kv_iter (vst_Completed (w_vesting w))).*2.

(** ** Allocation at genesis *)

Definition getVestingAddress (vestingName : string) : Addr := GetModuleAddress vestingName.

Definition createContinuousVestingAccount c (vestingName : string) (amount startTime duration : Z) :
    outcome VChain :=
  amt ← NewCoin BaseDenom amount;
  coins ← NewCoins [amt];
  acc ← SetContinuousVestingAccount (vc_accounts c) (getVestingAddress vestingName) coins
          startTime (i64 (startTime + duration));
  w ← must_bank (fun b => MintCoins b vesting_ModuleName coins) (vc_world c);
  w ← must_bank (fun b =>
        SendCoinsFromModuleToAccount b vesting_ModuleName (getVestingAddress vestingName) coins) w;
  Ok (mkVChain _ _ _ _ w acc (vc_pool c)).

Definition AllocateAtGenesis ctx c (gs : VestingGenesisState) : outcome VChain :=
  let startTime := BlockTime ctx in
  let alloc := vg_Params gs in
  c ← createContinuousVestingAccount c StakingRewardVestingName (al_StakingRewardAmount alloc)
        startTime StakingRewardVestingTime;
  c ← createContinuousVestingAccount c CommunityPoolVestingName (al_CommunityPoolAmount alloc)
        startTime CommunityPoolVestingTime;
  c ← createContinuousVestingAccount c TeamVestingName (al_TeamVestingAmount alloc)
        startTime TeamVestingTime;
  w ← AddTotalEmission (vc_world c) (al_VeVestingAmount alloc);
  srAmount ← NewCoin BaseDenom (al_StrategicReserveAmount alloc);
  coins ← NewCoins [srAmount];
  w ← must_bank (fun b => MintCoins b vesting_ModuleName coins) w;
  custodian ← GetStrategicReserveCustodianAddr (vg_AllocationAddresses gs);
  w ← must_bank (fun b => SendCoinsFromModuleToAccount b vesting_ModuleName custodian coins) w;
  Ok (vc_set_world w c).

(** ** Claims of vested coins at the end of a block *)

Definition IsAllPositive (cs : Coins) : bool :=
  negb (Nat.eqb (length cs) 0) && forallb (fun x => 0 <? Amount x) cs.

(** One line of the table in [ClaimVested]. *)
Definition claim_vested ctx c (e : string * string * Addr) : outcome VChain :=
  let '(vestingName, destinationName, destinationAddr) := e in
  let vestingAddr := getVestingAddress vestingName in
  let w := vc_world c in
  let spendable := SpendableAt ctx (vc_accounts c) (w_bank w) vestingAddr in
  if negb (IsAllPositive spendable) then Ok c
  else if negb (String.length destinationName =? 0)%nat then
    on_world (must_bank (fun b => SendCoinsFromAccountToModule b vestingAddr destinationName spendable)) c
  else if negb (String.length destinationAddr =? 0)%nat then
    on_world (must_bank (fun b => SendCoins b vestingAddr destinationAddr spendable)) c
  else
    match FundCommunityPool (w_bank w) (vc_pool c) spendable vestingAddr with
    | Ok (b, p) => Ok (mkVChain _ _ _ _ (set_bank b w) (vc_accounts c) p)
    | _ => Panic
    end.

Definition ClaimVested ctx c : outcome VChain :=
  team ← GetTeamVestingAddr (GetAllocationAddresses (vc_world c));
  for_each (claim_vested ctx)
    [(StakingRewardVestingName, feeCollectorName, "");
     (CommunityPoolVestingName, "", "");
     (TeamVestingName, "", team)] c.

Definition vesting_EndBlocker ctx c : outcome VChain :=
  last ← IsPeriodLastBlock ctx ClaimVestedPeriod;
  if last : bool then ClaimVested ctx c else Ok c.

(** ** Messages *)

Definition add_airdrop (st : World * Z) (a : Airdrop) : outcome (World * Z) :=
  let '(w, total) := st in
  targetAddr ← AccAddressFromBech32 (ad_TargetAddr a);
  amount ← ParseCoinNormalized (ad_Amount a);
  let w := SetAirdrop w targetAddr (mkAirdrop (ad_TargetAddr a) amount) in
  total ← Int_Add total (Amount amount);
  Ok (w, total).

(** The sender of both airdrop messages is the team. *)
Definition team_only w (s : string) : outcome unit :=
  sender ← AccAddressFromBech32 s;
  teamAddr ← GetTeamVestingAddr (GetAllocationAddresses w);
  fail_if bool_decide (sender ≠ teamAddr) with ErrUnauthorized ;; Ok tt.

Definition AddAirdrops w (m : MsgAddAirdrops) : outcome World :=
  _ ← team_only w (ma_Sender m);
  '(w, total) ← for_each add_airdrop (ma_Airdrops m) (w, GetAirdropTotalAmount w);
  fail_if al_AirdropAmount (vesting_GetParams w) <? total with ErrInvalidRequest ;;
  Ok (SetAirdropTotalAmount w total).

Definition execute_airdrop w (a : Airdrop) : outcome World :=
  coins ← NewCoins [ad_Amount a];
  w ← on_bank (fun b => MintCoins b vesting_ModuleName coins) w;
  target ← GetTargetAddr a;
  w ← on_bank (fun b => SendCoinsFromModuleToAccount b vesting_ModuleName target coins) w;
  Ok (SetAirdropCompleted (DeleteAirdrop w target) target a).

(** The iteration stops once [count] reaches the maximum. *)
Fixpoint execute_airdrops (l : list Airdrop) (count maxCount : Z) w : outcome World :=
  match l with
  | [] => Ok w
  | a :: l =>
      w ← execute_airdrop w a;
      let count := u64 (count + 1) in
      if maxCount <=? count then Ok w else execute_airdrops l count maxCount w
  end.

Definition ExecuteAirdrops w (m : MsgExecuteAirdrops) : outcome World :=
  _ ← team_only w (me_Sender m);
  execute_airdrops (IterateAirdrops w) 0 (me_MaxCount m) w.

Definition SetAllocationAddress w (m : MsgSetAllocationAddress) : outcome World :=
  sender ← AccAddressFromBech32 (ms_Sender m);
  let custodian := negb (String.length (ms_StrategicReserveCustodianAddr m) =? 0)%nat in
  let team := negb (String.length (ms_TeamVestingAddr m) =? 0)%nat in
  fail_if Bool.eqb custodian team with ErrInvalidRequest ;;
  let addr := GetAllocationAddresses w in
  addr ← (if custodian then
            new ← AccAddressFromBech32 (ms_StrategicReserveCustodianAddr m);
            old ← GetStrategicReserveCustodianAddr addr;
            fail_if bool_decide (sender ≠ old) with ErrUnauthorized ;;
            Ok (mkAddresses (aa_TeamVestingAddr addr) (AccAddress_String new))
          else Ok addr);
  addr ← (if team then
            new ← AccAddressFromBech32 (ms_TeamVestingAddr m);
            old ← GetTeamVestingAddr addr;
            fail_if bool_decide (sender ≠ old) with ErrUnauthorized ;;
            Ok (mkAddresses (AccAddress_String new) (aa_StrategicReserveCustodianAddr addr))
          else Ok addr);
  Ok (SetAllocationAddresses w addr).

(** ** Genesis and queries *)

(** An address of the genesis state, or the one there is. *)
Definition genesis_addr (s old : string) : outcome string :=
  if (String.length s =? 0)%nat then Ok old
  else match AccAddressFromBech32 s with Ok a => Ok (AccAddress_String a) | _ => Panic end.

Definition vesting_InitGenesis ctx c (gs : VestingGenesisState) : outcome VChain :=
  let w := vesting_SetParams (vc_world c) (vg_Params gs) in
  let old := GetAllocationAddresses w in
  custodian ← genesis_addr (aa_StrategicReserveCustodianAddr (vg_AllocationAddresses gs))
                (aa_StrategicReserveCustodianAddr old);
  team ← genesis_addr (aa_TeamVestingAddr (vg_AllocationAddresses gs)) (aa_TeamVestingAddr old);
  let c := vc_set_world (SetAllocationAddresses w (mkAddresses team custodian)) c in
  if BlockHeight ctx <=? 1 then AllocateAtGenesis ctx c gs else Ok c.

Definition vesting_ExportGenesis w : VestingGenesisState :=
  mkVestingGenesis (vesting_GetParams w) (GetAllocationAddresses w).

Definition query_Airdrop w (target : string) (completed : bool) : outcome Airdrop :=
  match AccAddressFromBech32 target with
  | Ok targetAddr =>
      let a := if completed then GetAirdropCompleted w targetAddr else GetAirdrop w targetAddr in
      fail_if Airdrop_Empty a with ErrAirdropNotFound ;; Ok a
  | _ => Err InvalidArgument
  end.

Definition query_vesting_Params w : AllocationAmounts := vesting_GetParams w.
End Vesting.
