(* ===== verification/VestingProps.v ===== *)
(** The properties of the vesting module, with the concrete runs that
    discharge their hypotheses. *)

From stdpp Require Import base gmap strings list.
From Stdlib Require Import ZArith Lia.
From S2P Require Import Prelude Sdk SdkRef Types MakerTypes VeTypes SdkExt SdkExtRef OracleTypes VestingTypes World MakerDemo VeEmission Vesting.

#[local] Open Scope string_scope.
#[local] Open Scope Z_scope.

(** * Airdrops and their cap: along any sequence of messages of the vesting
    module, what was minted for airdrops and what is still pending stay within
    the recorded total, which stays within the allocation. *)

Inductive vesting_msg :=
| VAddAirdrops (m : MsgAddAirdrops)
| VExecuteAirdrops (m : MsgExecuteAirdrops)
| VSetAllocationAddress (m : MsgSetAllocationAddress).

Definition airdrop_amount (_ : string) (a : Airdrop) : Z := Amount (ad_Amount a).
Definition airdrop_coins (d : string) (a : Airdrop) : Z := coins_amt d [ad_Amount a].

Section Cap.
Context `{SdkLaws, !CoinParser, !CoinParserLaws, BankKeeper, !BankLaws, NftKeeper}.
Implicit Types (w : World).

Definition do_vesting_msg w (m : vesting_msg) : outcome World :=
  match m with
  | VAddAirdrops m => AddAirdrops w m
  | VExecuteAirdrops m => ExecuteAirdrops w m
  | VSetAllocationAddress m => SetAllocationAddress w m
  end.

(** The airdrops a message executes, in order. *)
Definition executed_by w (m : vesting_msg) : list Airdrop :=
  match m with
  | VExecuteAirdrops m => take (Z.to_nat (Z.max 1 (me_MaxCount m))) (IterateAirdrops w)
  | _ => []
  end.

Definition pending w : Z := map_sum airdrop_amount (vst_Airdrops (w_vesting w)).

(** Every pending airdrop is stored under the address it is for, with an
    amount that is not negative. *)
Record airdrops_ok w : Prop := mk_airdrops_ok {
  ao_target acc x : vst_Airdrops (w_vesting w) !! acc = Some x → AccAddressFromBech32 (ad_TargetAddr x) = Ok acc;
  ao_nonneg acc x : vst_Airdrops (w_vesting w) !! acc = Some x → 0 ≤ Amount (ad_Amount x);
}.

(** ** Adding *)

Lemma add_airdrop_effect w total x w' total' :
  airdrops_ok w → add_airdrop (w, total) x = Ok (w', total') →
  airdrops_ok w' ∧ pending w' - total' ≤ pending w - total ∧ total ≤ total' ∧
  w_bank w' = w_bank w ∧ vst_Params (w_vesting w') = vst_Params (w_vesting w).
Proof.
  intros [At An] Hok. unfold add_airdrop in Hok. inv_ok_step Hok. inv_ok_step Hok. cbv zeta in Hok.
  inv_ok_step Hok. injection Hok as <- <-. sdk_inv. apply ParseCoinNormalized_nonneg in E0.
  split; [split|split_and!; try done; [|lia]].
  - intros acc y. cbn. intros [[<- <-]|[_ Hy]]%lookup_insert_Some; [done|by apply At].
  - intros acc y. cbn. intros [[<- <-]|[_ Hy]]%lookup_insert_Some; [done|by eapply An].
  - unfold pending. cbn. rewrite map_sum_insert. unfold airdrop_amount at 3. simpl.
    enough (0 ≤ at_key airdrop_amount (vst_Airdrops (w_vesting w)) r) by lia.
    unfold at_key. destruct (vst_Airdrops (w_vesting w) !! r) eqn:Hr; simpl; [by eapply An|lia].
Qed.

Lemma add_airdrops_effect l : ∀ w total w' total',
  airdrops_ok w → for_each add_airdrop l (w, total) = Ok (w', total') →
  airdrops_ok w' ∧ pending w' - total' ≤ pending w - total ∧ total ≤ total' ∧
  w_bank w' = w_bank w ∧ vst_Params (w_vesting w') = vst_Params (w_vesting w).
Proof.
  induction l as [|x l IH]; intros w total w' total' Ha Hok; cbn [for_each] in Hok.
  { injection Hok as <- <-. split_and!; [done|lia..|done|done]. }
  inv_ok_step Hok. destruct r as [w1 t1].
  destruct (add_airdrop_effect _ _ _ _ _ Ha E) as (A1 & A2 & A3 & A4 & A5).
  destruct (IH _ _ _ _ A1 Hok) as (B1 & B2 & B3 & B4 & B5). split_and!; [done|lia|lia|congruence..].
Qed.

(** ** Executing *)

Lemma target_addr x acc : AccAddressFromBech32 (ad_TargetAddr x) = Ok acc → GetTargetAddr x = Ok acc.
Proof.
  intros E. unfold GetTargetAddr, addr_or_empty.
  destruct (Nat.eqb_spec (String.length (ad_TargetAddr x)) 0) as [Hl|]; [|by rewrite E].
  destruct (ad_TargetAddr x) eqn:Ht; [|done]. pose proof AccAddressFromBech32_empty as Hn.
  by rewrite E in Hn.
Qed.

Lemma mint_and_send b b1 b2 m a cs :
  MintCoins b m cs = Ok b1 → SendCoinsFromModuleToAccount b1 m a cs = Ok b2 →
  ∀ d, supply b2 d = supply b d + coins_amt d cs.
Proof.
  intros Hm%MintCoins_Ok Hs%SendCoinsFromModuleToAccount_Ok d.
  destruct (Hm d) as [M _], (Hs d) as [S _]. lia.
Qed.

(** What an executed airdrop leaves. *)
Record airdrop_done (acc : Addr) (x : Airdrop) w w' : Prop := mk_airdrop_done {
  dn_supply d : supply (w_bank w') d = supply (w_bank w) d + airdrop_coins d x;
  dn_airdrops : vst_Airdrops (w_vesting w') = delete acc (vst_Airdrops (w_vesting w));
  dn_completed : vst_Completed (w_vesting w') = <[acc := x]> (vst_Completed (w_vesting w));
  dn_total : vst_AirdropTotal (w_vesting w') = vst_AirdropTotal (w_vesting w);
  dn_params : vst_Params (w_vesting w') = vst_Params (w_vesting w);
}.

Lemma execute_airdrop_effect w x acc w' :
  airdrops_ok w → vst_Airdrops (w_vesting w) !! acc = Some x →
  execute_airdrop w x = Ok w' → airdrop_done acc x w w'.
Proof.
  intros [At _] Hx Hok. unfold execute_airdrop in Hok. inv_ok_step Hok. inv_ok_step Hok.
  rewrite (target_addr _ _ (At _ _ Hx)) in Hok. cbn [mbind outcome_bind] in Hok. inv_ok_step Hok.
  injection Hok as <-. unfold on_bank in E0, E1. inv_ok_step E0. injection E0 as <-.
  inv_ok_step E1. injection E1 as <-. split; try done.
  intros d. cbn. rewrite (mint_and_send _ _ _ _ _ _ E2 E0 d). unfold airdrop_coins.
  apply NewCoins_Ok in E as [Hc _]. by rewrite Hc.
Qed.

(** The entries of the list are pending, each once. *)
Definition listed w (kvs : list (string * Airdrop)) : Prop :=
  NoDup kvs.*1 ∧ ∀ acc x, (acc, x) ∈ kvs → vst_Airdrops (w_vesting w) !! acc = Some x.

Lemma execute_airdrops_effect kvs : ∀ count maxCount w w',
  airdrops_ok w → listed w kvs → 0 ≤ count → maxCount < 2 ^ 64 → (count < maxCount ∨ count = 0) →
  execute_airdrops kvs.*2 count maxCount w = Ok w' →
  let done := take (Z.to_nat (Z.max 1 (maxCount - count))) kvs.*2 in
  airdrops_ok w' ∧ pending w' = pending w - list_sum (airdrop_amount "") done ∧
  (∀ d, supply (w_bank w') d = supply (w_bank w) d + list_sum (airdrop_coins d) done) ∧
  vst_AirdropTotal (w_vesting w') = vst_AirdropTotal (w_vesting w) ∧
  vst_Params (w_vesting w') = vst_Params (w_vesting w).
Proof.
  induction kvs as [|[acc x] kvs IH]; intros count maxCount w w' Ha [Hnd Hl] Hc Hm Hcm Hok;
    cbn [fmap list_fmap snd execute_airdrops] in Hok.
  { injection Hok as <-. cbn [fmap list_fmap]. rewrite take_nil, list_sum_nil. split_and!; try done; [lia|].
    intros d. rewrite list_sum_nil. lia. }
  apply NoDup_cons in Hnd as [Hnot Hnd]. inv_ok_step Hok. rename r into w1.
  pose proof (Hl acc x ltac:(apply elem_of_cons; by left)) as Hx.
  destruct (execute_airdrop_effect _ _ _ _ Ha Hx E) as [Ds Da _ Dt Dp].
  assert (airdrops_ok w1) as Ha1.
  { destruct Ha as [At An]. split; intros acc' y; rewrite Da; intros [_ Hy]%lookup_delete_Some; eauto. }
  assert (pending w1 = pending w - airdrop_amount "" x) as Hp1.
  { unfold pending. rewrite Da, map_sum_delete. unfold at_key. by rewrite Hx. }
  cbv zeta in Hok. rewrite u64_small in Hok by lia.
  change (((acc, x) :: kvs).*2) with (x :: kvs.*2).
  destruct (Z.leb_spec maxCount (count + 1)) as [Hstop|Hgo].
  - injection Hok as <-. replace (Z.max 1 (maxCount - count)) with 1 by lia.
    change (take (Z.to_nat 1) (x :: kvs.*2)) with [x]. split_and!; try done.
    + rewrite Hp1, list_sum_cons, list_sum_nil. lia.
    + intros d. rewrite Ds, list_sum_cons, list_sum_nil. lia.
  - destruct (IH (count + 1) maxCount w1 w') as (B1 & B2 & B3 & B4 & B5); [done| |lia|lia|lia|done|].
    { split; [done|]. intros acc' y Hy. rewrite Da, lookup_delete_ne.
      - apply Hl. apply elem_of_cons. by right.
      - intros <-. apply Hnot. apply list_elem_of_fmap. by exists (acc, y). }
    replace (Z.to_nat (Z.max 1 (maxCount - count))) with (S (Z.to_nat (Z.max 1 (maxCount - (count + 1))))) by lia.
    cbn [take]. split_and!; try congruence.
    + rewrite B2, Hp1, list_sum_cons. lia.
    + intros d. rewrite B3, Ds, list_sum_cons. lia.
Qed.

Lemma iterate_listed w : listed w (kv_iter (vst_Airdrops (w_vesting w))).
Proof.
  split; [rewrite kv_iter_perm; apply NoDup_fst_map_to_list|].
  intros acc x Hin. rewrite kv_iter_perm in Hin. by apply elem_of_map_to_list in Hin.
Qed.

(** ** Runs *)

(** Messages of the module, with the airdrops executed so far; between them
    other modules change everything but the module's store, and what they mint
    is recorded per denomination. *)
Inductive vesting_run (w0 : World) : World → list Airdrop → (string → Z) → Prop :=
| vrun_start : vesting_run w0 w0 [] (fun _ => 0)
| vrun_msg w l o m w' :
    vesting_run w0 w l o → do_vesting_msg w m = Ok w' →
    (∀ x, m = VExecuteAirdrops x → 0 ≤ me_MaxCount x < 2 ^ 64) →
    vesting_run w0 w' (l ++ executed_by w m) o
| vrun_other w l o w' :
    vesting_run w0 w l o → w_vesting w' = w_vesting w →
    vesting_run w0 w' l (fun d => o d + (supply (w_bank w') d - supply (w_bank w) d)).

Record capped (w0 : World) w (l : list Airdrop) (o : string → Z) : Prop := mk_capped {
  cp_ok : airdrops_ok w;
  cp_params : vst_Params (w_vesting w) = vst_Params (w_vesting w0);
  cp_total : list_sum (airdrop_amount "") l + pending w ≤ GetAirdropTotalAmount w;
  cp_cap : GetAirdropTotalAmount w ≤ al_AirdropAmount (vesting_GetParams w0);
  cp_supply d : supply (w_bank w) d = supply (w_bank w0) d + list_sum (airdrop_coins d) l + o d;
}.

Lemma capped_add w0 w l o m w' :
  capped w0 w l o → AddAirdrops w m = Ok w' → capped w0 w' l o.
Proof.
  intros [Ca Cp Ct Cc Cs] Hok. unfold AddAirdrops in Hok. inv_ok_step Hok. inv_ok_step Hok.
  destruct r0 as [w1 t1]. inv_ok_step Hok. injection Hok as <-.
  destruct (add_airdrops_effect _ _ _ _ _ Ca E0) as (A1 & A2 & A3 & A4 & A5).
  apply Z.ltb_ge in G. unfold vesting_GetParams in *. rewrite A5, Cp in G.
  split.
  - destruct A1 as [At An]. by split.
  - cbn. by rewrite A5.
  - change (pending (SetAirdropTotalAmount w1 t1)) with (pending w1).
    change (GetAirdropTotalAmount (SetAirdropTotalAmount w1 t1)) with t1. lia.
  - done.
  - intros d. cbn. by rewrite A4.
Qed.

Lemma capped_execute w0 w l o m w' :
  capped w0 w l o → 0 ≤ me_MaxCount m < 2 ^ 64 → ExecuteAirdrops w m = Ok w' →
  capped w0 w' (l ++ executed_by w (VExecuteAirdrops m)) o.
Proof.
  intros [Ca Cp Ct Cc Cs] Hm Hok. unfold ExecuteAirdrops in Hok. inv_ok_step Hok.
  unfold IterateAirdrops in Hok.
  destruct (execute_airdrops_effect _ 0 (me_MaxCount m) w w' Ca (iterate_listed w))
    as (B1 & B2 & B3 & B4 & B5); [lia..|done|].
  rewrite Z.sub_0_r in B2, B3. split; [done|by rewrite B5| | |].
  - rewrite list_sum_app, B2. unfold GetAirdropTotalAmount in *. rewrite B4. simpl. unfold IterateAirdrops. lia.
  - unfold GetAirdropTotalAmount in *. by rewrite B4.
  - intros d. rewrite list_sum_app, B3, Cs. simpl. unfold IterateAirdrops. lia.
Qed.

Lemma capped_address w0 w l o m w' :
  capped w0 w l o → SetAllocationAddress w m = Ok w' → capped w0 w' l o.
Proof.
  intros [Ca Cp Ct Cc Cs] Hok. unfold SetAllocationAddress in Hok. cbv zeta in Hok.
  inv_ok_step Hok. inv_ok_step Hok. inv_ok_step Hok. inv_ok_step Hok. injection Hok as <-.
  split; try done. destruct Ca as [At An]. by split.
Qed.

Lemma run_capped w0 w l o :
  vst_Airdrops (w_vesting w0) = ∅ → GetAirdropTotalAmount w0 = 0 →
  0 ≤ al_AirdropAmount (vesting_GetParams w0) → vesting_run w0 w l o → capped w0 w l o.
Proof.
  intros He Ht Hcap. induction 1 as [|w l o m w' Hrun IH Hok Hm|w l o w' Hrun IH Hv].
  - split; try done.
    + split; intros acc x; by rewrite He.
    + unfold pending. rewrite He, Ht. done.
    + lia.
    + intros d. rewrite list_sum_nil. lia.
  - destruct m; simpl in Hok |- *; rewrite ?app_nil_r.
    + by eapply capped_add.
    + eapply capped_execute; [done|by apply Hm|done].
    + by eapply capped_address.
  - destruct IH as [[At An] Cp Ct Cc Cs].
    split; unfold pending, GetAirdropTotalAmount in *; rewrite ?Hv; try done.
    + split; rewrite Hv; eauto.
    + intros d. rewrite Cs. lia.
Qed.
End Cap.

(** * The properties *)

Section Cap.
Context `{SdkLaws, !CoinParser, !CoinParserLaws, BankKeeper, !BankLaws, NftKeeper}.
Implicit Types (w : World).

(** C37. Airdrops stay within their allocation: along any sequence of messages
    of the module, starting without airdrops, the coins minted for executed
    airdrops and the coins still pending are together at most the recorded
    total, which is at most the allocation; the supply of every denomination
    has grown by exactly what the executed airdrops carry of it, apart from
    what other modules did. *)
Theorem airdrops_capped w0 w executed others :
  vst_Airdrops (w_vesting w0) = ∅ → GetAirdropTotalAmount w0 = 0 →
  0 ≤ al_AirdropAmount (vesting_GetParams w0) → vesting_run w0 w executed others →
  list_sum (airdrop_amount "") executed + pending w ≤ GetAirdropTotalAmount w ∧
  GetAirdropTotalAmount w ≤ al_AirdropAmount (vesting_GetParams w) ∧
  ∀ d, supply (w_bank w) d = supply (w_bank w0) d + list_sum (airdrop_coins d) executed + others d.
Proof.
  intros He Ht Hcap Hrun. destruct (run_capped w0 w executed others He Ht Hcap Hrun) as [_ Cp Ct Cc Cs].
  split_and!; [done| |done]. unfold vesting_GetParams in *. by rewrite Cp.
Qed.
End Cap.

Section Genesis.
Context `{SdkLaws, !SdkExt, !CoinParser, BankKeeper, !BankLaws, NftKeeper, !AccountKeeper, !CommunityPool}.
Implicit Types (ctx : Ctx) (w : World) (c : VChain).

(** The supply after a step that mints [x] of the base coin. *)
Definition minted_base (x : Z) w w' : Prop :=
  ∀ d, supply (w_bank w') d = supply (w_bank w) d + (if decide (d = BaseDenom) then x else 0).

Lemma must_bank_Ok f w w' : must_bank f w = Ok w' → ∃ b, f (w_bank w) = Ok b ∧ w' = set_bank b w.
Proof.
  unfold must_bank, on_bank. destruct (f (w_bank w)) as [b| |]; simpl; [|done..].
  intros [= <-]. by exists b.
Qed.

Lemma base_coins x amt coins d :
  NewCoin BaseDenom x = Ok amt → NewCoins [amt] = Ok coins →
  coins_amt d coins = if decide (d = BaseDenom) then x else 0.
Proof.
  intros [-> _]%NewCoin_Ok [Hc _]%NewCoins_Ok. rewrite Hc. cbn [coins_amt Denom Amount].
  destruct (decide (BaseDenom = d)) as [<-|Hne]; [rewrite decide_True by done; lia|].
  rewrite decide_False by congruence. done.
Qed.

Lemma create_vesting_account c name x st dur c' :
  createContinuousVestingAccount c name x st dur = Ok c' →
  minted_base x (vc_world c) (vc_world c') ∧ w_vesting (vc_world c') = w_vesting (vc_world c) ∧
  w_ve (vc_world c') = w_ve (vc_world c).
Proof.
  unfold createContinuousVestingAccount. intros Hok. inv_ok_step Hok. inv_ok_step Hok. inv_ok_step Hok.
  inv_ok_step Hok. inv_ok_step Hok. injection Hok as <-.
  apply must_bank_Ok in E2 as (b1 & Hm & ->). apply must_bank_Ok in E3 as (b2 & Hs & ->).
  split; [|done]. intros d. cbn. rewrite (mint_and_send _ _ _ _ _ _ Hm Hs d).
  by rewrite (base_coins _ _ _ d E E0).
Qed.

Lemma AddTotalEmission_effect w x w' :
  AddTotalEmission w x = Ok w' →
  GetTotalEmission w' = GetTotalEmission w + x ∧ w_bank w' = w_bank w ∧ w_vesting w' = w_vesting w.
Proof.
  unfold AddTotalEmission. intros Hok. inv_ok_step Hok; [done|]. inv_ok_step Hok. cbv zeta in Hok.
  do 7 inv_ok_step Hok. injection Hok as <-. by apply Int_Add_Ok in E as ->.
Qed.

Lemma validated_allocation gs :
  vesting_GenesisState_Validate gs = Ok tt →
  let v := vg_Params gs in
  al_TotalAmount v = al_AirdropAmount v + al_VeVestingAmount v + al_StakingRewardAmount v +
    al_CommunityPoolAmount v + al_StrategicReserveAmount v + al_TeamVestingAmount v.
Proof.
  unfold vesting_GenesisState_Validate, validateAllocationAmounts, allocated. intros Hv.
  apply bind_Ok in Hv as (sum & E & Hv). inv_ok_step Hv. apply negb_false_iff, Z.eqb_eq in G.
  do 4 inv_ok_step E. sdk_inv. simpl. lia.
Qed.

(** The allocation at genesis: from a genesis state that passes its
    validation, starting the chain mints of the base coin exactly the total
    less the airdrops and the emission, mints nothing else, and adds the
    emission's part to the recorded total of emissions, so that the airdrops
    and emissions still to come stay within the total. *)
Theorem genesis_allocation ctx c gs c' :
  vesting_GenesisState_Validate gs = Ok tt → BlockHeight ctx ≤ 1 →
  vesting_InitGenesis ctx c gs = Ok c' →
  let alloc := vg_Params gs in
  let w := vc_world c in
  let w' := vc_world c' in
  minted_base (al_TotalAmount alloc - al_AirdropAmount alloc - al_VeVestingAmount alloc) w w' ∧
  GetTotalEmission w' = GetTotalEmission w + al_VeVestingAmount alloc ∧
  vesting_GetParams w' = alloc.
Proof.
  intros Hval Hh Hok alloc w w'. unfold vesting_InitGenesis in Hok. cbv zeta in Hok.
  inv_ok_step Hok. inv_ok_step Hok. rewrite (proj2 (Z.leb_le _ _) Hh) in Hok.
  unfold AllocateAtGenesis in Hok. cbv zeta in Hok. fold alloc in Hok.
  apply bind_Ok in Hok as (c1 & E1 & Hok). apply bind_Ok in Hok as (c2 & E2 & Hok).
  apply bind_Ok in Hok as (c3 & E3 & Hok). apply bind_Ok in Hok as (w4 & E4 & Hok).
  apply create_vesting_account in E1 as (M1 & V1 & U1). apply create_vesting_account in E2 as (M2 & V2 & U2).
  apply create_vesting_account in E3 as (M3 & V3 & U3). apply AddTotalEmission_effect in E4 as (T4 & B4 & V4).
  apply bind_Ok in Hok as (amt & Ea & Hok). apply bind_Ok in Hok as (coins & Ec & Hok).
  apply bind_Ok in Hok as (w5 & E5 & Hok). apply bind_Ok in Hok as (cust & _ & Hok).
  apply bind_Ok in Hok as (w6 & E6 & Hok). injection Hok as <-.
  apply must_bank_Ok in E5 as (b1 & Hm & ->). apply must_bank_Ok in E6 as (b2 & Hs & ->).
  pose proof (validated_allocation gs Hval) as Hsum. cbv zeta in Hsum. fold alloc in Hsum. split_and!.
  - intros d. specialize (M1 d). specialize (M2 d). specialize (M3 d).
    subst w' w. cbn. rewrite (mint_and_send _ _ _ _ _ _ Hm Hs d), (base_coins _ _ _ d Ea Ec), B4.
    cbn in M1. rewrite M3, M2, M1. case_decide; lia.
  - change (GetTotalEmission w4 = GetTotalEmission w + al_VeVestingAmount alloc). rewrite T4.
    unfold GetTotalEmission. by rewrite U3, U2, U1.
  - unfold vesting_GetParams. subst w'. cbn. by rewrite V4, V3, V2, V1.
Qed.
End Genesis.

Module VestingPropsWitness.
Import MakerDemo SdkExtRef.

(** A parser that keeps coins as they are, vesting accounts that release
    linearly, and a community pool that is an address. *)
#[export] Instance coin_parser : CoinParser := {|
  ParseCoinNormalized c := if 0 <=? Amount c then Ok c else Err ErrInvalidRequest;
  Coin_Validate c := if 0 <=? Amount c then Ok tt else Err ErrInvalidRequest |}.

#[export] Instance coin_parser_laws : CoinParserLaws.
Proof. constructor. simpl. intros c c'. destruct (Z.leb_spec 0 (Amount c)); [|done]. by intros [= <-]. Qed.

Record VestingAccount := mkVestingAccount { va_coins : Coins; va_start : Z; va_end : Z }.

Definition released (ctx : Ctx) (a : VestingAccount) (x : Z) : Z :=
  x * Z.max 0 (Z.min (BlockTime ctx) (va_end a) - va_start a) / (va_end a - va_start a).

#[export] Instance accounts : @AccountKeeper bank := {|
  acct_state := gmap string VestingAccount;
  SetContinuousVestingAccount s acc coins st en := Ok (<[acc := mkVestingAccount coins st en]> s);
  SpendableAt ctx s b acc :=
    let x := bal b acc BaseDenom in
    let free := match s !! acc with
                | Some a => x - (coins_amt BaseDenom (va_coins a) - released ctx a (coins_amt BaseDenom (va_coins a)))
                | None => x
                end in
    if 0 <? free then [mkCoin BaseDenom free] else [] |}.

#[export] Instance community : @CommunityPool bank := {|
  pool_state := unit;
  FundCommunityPool b p coins acc := b' ← SendCoins b acc (GetModuleAddress "distribution") coins; Ok (b', p) |}.

(** A thousand base coins in all, two hundred of them for airdrops. *)
Definition alloc1 : AllocationAmounts := mkAllocation 1000 200 300 100 100 100 200.
Definition genesis1 : VestingGenesisState := mkVestingGenesis alloc1 (mkAddresses "carol" "dave").
Definition vc0 : VChain := mkVChain _ _ _ _ pre0 ∅ tt.
Definition vctx0 : Ctx := mkCtx 0 (1650000000 * 10 ^ 9).
Definition vc1 : VChain := ok_or vc0 (vesting_InitGenesis vctx0 vc0 genesis1).

Lemma genesis_allocation_witness :
  minted_base 500 (vc_world vc0) (vc_world vc1) ∧ GetTotalEmission (vc_world vc1) = 300.
Proof.
  destruct (genesis_allocation vctx0 vc0 genesis1 vc1) as (M & T & _);
    [by vm_compute|by vm_compute| |split; [exact M|exact T]].
  apply (is_ok_or vc0). by vm_compute.
Defined.

(** The team adds two airdrops and executes one of them. *)
Definition add1 : MsgAddAirdrops :=
  mkMsgAddAirdrops "carol" [mkAirdrop "alice" (mkCoin "airon" 50); mkAirdrop "bob" (mkCoin "airon" 70)].
Definition execute1 : MsgExecuteAirdrops := mkMsgExecuteAirdrops "carol" 1.
Definition a0 : World := vc_world vc1.
Definition a1 : World := ok_or a0 (AddAirdrops a0 add1).
Definition a2 : World := ok_or a1 (ExecuteAirdrops a1 execute1).

Lemma airdrops_capped_witness :
  pending a2 = 70 ∧ GetAirdropTotalAmount a2 ≤ 200 ∧
  supply (w_bank a2) "airon" = supply (w_bank a0) "airon" + 50.
Proof.
  assert (vesting_run a0 a2 [mkAirdrop "alice" (mkCoin "airon" 50)] (fun _ => 0)) as Hrun.
  { change [mkAirdrop "alice" (mkCoin "airon" 50)]
      with (([] ++ []) ++ [mkAirdrop "alice" (mkCoin "airon" 50)])%list.
    assert (executed_by a1 (VExecuteAirdrops execute1) = [mkAirdrop "alice" (mkCoin "airon" 50)]) as <-
      by (by vm_compute).
    apply vrun_msg with (m := VExecuteAirdrops execute1) (w := a1).
    - apply (vrun_msg a0 a0 [] _ (VAddAirdrops add1)); [constructor| |done].
      apply (is_ok_or a0 (AddAirdrops a0 add1)). by vm_compute.
    - apply (is_ok_or a1 (ExecuteAirdrops a1 execute1)). by vm_compute.
    - intros x [= <-]. simpl. lia. }
  destruct (airdrops_capped a0 a2 _ _ eq_refl eq_refl ltac:(by vm_compute) Hrun) as (_ & Hc & Hs).
  split; [by vm_compute|]. split; [exact Hc|].
  rewrite (Hs "airon"). by vm_compute.
Defined.

(** ** Behaviours of the source that its comments do not intend *)

(** Any coin can be airdropped: the team mints the stable coin. *)
Definition add_grid : MsgAddAirdrops :=
  mkMsgAddAirdrops "carol" [mkAirdrop "carol" (mkCoin "uusm" 200)].
Theorem airdrop_of_grid :
  let w := ok_or a0 (AddAirdrops a0 add_grid) in
  let w' := ok_or w (ExecuteAirdrops w (mkMsgExecuteAirdrops "carol" 1)) in
  MsgAddAirdrops_ValidateBasic add_grid = Ok tt ∧
  supply (w_bank w') "uusm" = supply (w_bank a0) "uusm" + 200.
Proof. split; by vm_compute. Qed.

(** An airdrop that replaces a pending one of the same target counts twice:
    of the cap of 200, two times 100 for one target leave nothing for others. *)
Definition add_same : MsgAddAirdrops :=
  mkMsgAddAirdrops "carol" [mkAirdrop "alice" (mkCoin "airon" 100); mkAirdrop "alice" (mkCoin "airon" 100)].
Theorem replaced_airdrop_counts_twice :
  let w := ok_or a0 (AddAirdrops a0 add_same) in
  pending w = 100 ∧ GetAirdropTotalAmount w = 200 ∧
  is_ok (AddAirdrops w (mkMsgAddAirdrops "carol" [mkAirdrop "bob" (mkCoin "airon" 1)])) = false.
Proof. split_and!; by vm_compute. Qed.

(** An exported genesis state has neither the airdrops nor their total: after a
    restart at a later height the cap starts anew. *)
Theorem export_forgets_airdrops :
  let c := vc_set_world a1 vc1 in
  let fresh := mkVChain _ _ _ _ pre0 ∅ tt in
  let c' := ok_or fresh (vesting_InitGenesis (mkCtx 5 0) fresh (vesting_ExportGenesis (vc_world c))) in
  pending (vc_world c) = 120 ∧ pending (vc_world c') = 0 ∧ GetAirdropTotalAmount (vc_world c') = 0 ∧
  vesting_GetParams (vc_world c') = vesting_GetParams (vc_world c).
Proof. split_and!; by vm_compute. Qed.
End VestingPropsWitness.
