(* ===== verification/VeProps.v ===== *)
(** The main theorems on the ve module: the coins behind the locks, the tokens
    that stand for them, what each message does, the checkpoint history, the
    voting powers, and the distribution; each with a witness on the chain of
    [VeDemo]. *)

From stdpp Require Import base gmap strings list.
From Stdlib Require Import ZArith Lia.
From S2P Require Import Prelude Sdk SdkRef Types MakerTypes VeTypes World VeKeeper VeVoting VeMsg VeEmission VeInv VeSafety VeHistory VeCheckpoint VeDemo.

#[local] Open Scope Z_scope.

Section Props.
Context `{!Sdk, !BankKeeper, !NftKeeper, !SdkLaws, !BankLaws, !NftLaws}.
Context (dlg : option (World → Z → Z)).
Implicit Types (w : World) (ctx : Ctx).


(** C14. Locks and tokens correspond: in every reachable state a ve token
    exists exactly for the printed form of each identifier that has a lock;
    identifiers are positive and below the next one, and every lock ends at the
    start of a week. *)
Theorem ve_locks_are_tokens denom t w s :
  ve_reach dlg denom t w →
  (nft_HasNFT (w_nft w) VeNftClassId s = true ↔
   ∃ veID lb, s = VeIDFromUint64 veID ∧ vs_LockedAmountByUser (w_ve w) !! veID = Some lb) ∧
  ∀ veID lb, vs_LockedAmountByUser (w_ve w) !! veID = Some lb →
    0 < veID < GetNextVeID w ∧ RegulatedUnixTime (lb_End lb) = lb_End lb.
Proof.
  intros I%ve_reach_inv. split; [split|].
  - intros Hs. destruct (vi_tokens _ I s Hs) as (i & -> & [lb Hl]). eauto.
  - intros (i & lb & -> & Hl). apply (vi_locks _ I _ _ Hl).
  - intros i lb Hl. destruct (vi_locks _ I _ _ Hl) as (Hi & (_ & _ & Hr) & _). done.
Qed.

(** The amount a message counts twice: the lock a merge moves. *)
Definition merged_amount w (m : ve_msg) : Z :=
  match m with
  | VMerge m => lb_Amount (GetLockedAmountByUser w (Uint64FromVeID (me_FromVeId m)))
  | _ => 0
  end.

(** C15. The recorded total follows the locks: every valid message changes the
    total by exactly the change of the sum of all locks, except that a merge
    adds the moved amount to the total a second time. *)
Theorem ve_total_follows_locks ctx w m w' :
  ve_inv w → ve_ValidateBasic m = Ok tt → ve_handler dlg ctx w m = Ok w' →
  GetTotalLockedAmount w' - locked_sum w' =
  GetTotalLockedAmount w - locked_sum w + merged_amount w m.
Proof.
  intros I V E. destruct m; simpl in V, E |- *.
  - destruct (Create ctx w m) as [[[id u] w1]| |] eqn:Ec; simplify_eq/=. by eapply Create_total.
  - by eapply Deposit_total.
  - by eapply ExtendTime_total.
  - by eapply Merge_total.
  - by eapply Withdraw_total.
Qed.

(** A create that returns locks the coins of the sender under the next
    identifier until a week start after now and at most the maximal lock time
    away, mints the token of that identifier to the receiver, and touches no
    other lock. *)
Theorem ve_create_locks ctx w m id unlock w' :
  ve_inv w → MsgCreate_ValidateBasic m = Ok tt → Create ctx w m = Ok (id, unlock, w') →
  ∃ sender receiver,
    getSenderReceiver (cr_Sender m) (cr_To m) = Ok (sender, receiver) ∧
    id = VeIDFromUint64 (GetNextVeID w) ∧ GetNextVeID w' = GetNextVeID w + 1 ∧
    nft_HasNFT (w_nft w) VeNftClassId id = false ∧ nft_GetOwner (w_nft w') VeNftClassId id = receiver ∧
    vs_LockedAmountByUser (w_ve w') =
      <[GetNextVeID w := mkLockedBalance (Amount (cr_Amount m)) unlock]> (vs_LockedAmountByUser (w_ve w)) ∧
    paid w w' sender ve_addr (Amount (cr_Amount m)) ∧
    now_of ctx < unlock ≤ u64 (now_of ctx + MaxLockTime) ∧ RegulatedUnixTime unlock = unlock.
Proof.
  intros I V E. unfold MsgCreate_ValidateBasic in V. inv_ok V. zbool.
  apply Create_effect in E as (sender & receiver & tokens & Es & Ed & -> & -> & Ht & Hz & Hm & M & L & P).
  rewrite max0 in P by lia. apply nft_Mint_Ok in M as (Hno & _ & Ho & _).
  destruct L as [L1 _ L3 _ L5 _ _]. pose proof (vi_next _ I). unfold MaxVeID in Hm.
  rewrite u64_small in L3 by lia.
  exists sender, receiver. rewrite L5. split_and!; try done; try lia. apply regulated_from_now.
Qed.

(** C16. A withdrawal that returns, on the keeper as the application builds it
    and in a state with the invariant of the module's reachable states, was made by the owner of the token, after the end of the lock, with the
    token neither attached nor used for a vote; it pays the owner exactly the
    locked amount from the module account, and removes the lock and the token.
    Whether the lock is delegated is not asked: the keeper's function for that
    starts as nil, and setting it with [SetGetDelegatedAmountByUser] does not
    last. *)
Theorem ve_withdraw_pays_owner f ctx w m w' :
  ve_inv w → Withdraw (SetGetDelegatedAmountByUser None f) ctx w m = Ok w' →
  let veID := Uint64FromVeID (wd_VeId m) in
  ∃ owner lb,
    AccAddressFromBech32 (wd_Sender m) = Ok owner ∧
    nft_GetOwner (w_nft w) VeNftClassId (wd_VeId m) = owner ∧
    vs_LockedAmountByUser (w_ve w) !! veID = Some lb ∧ lb_End lb ≤ now_of ctx ∧
    GetVeAttached w veID = 0 ∧ GetVeVoted w veID = false ∧
    paid w w' ve_addr owner (lb_Amount lb) ∧
    vs_LockedAmountByUser (w_ve w') = delete veID (vs_LockedAmountByUser (w_ve w)) ∧
    nft_HasNFT (w_nft w') VeNftClassId (wd_VeId m) = false.
Proof.
  intros I E veID.
  apply Withdraw_effect in E as (sender & tokens & Es & Ho & A & V & _ & He & Ha & B & L & P).
  pose proof (owner_has_token _ _ _ _ Es Ho) as Hk.
  destruct (token_lock _ _ I Hk) as (_ & _ & Hl & _). apply nft_Burn_Ok in B as (_ & Hgone & _).
  eexists sender, _. rewrite (le_nft _ _ _ _ _ _ L). split_and!; try done. apply L.
Qed.

(** A merge that returns was made by the owner of both tokens; it moves
    the first lock into the second, which keeps the later end of the two, burns
    the first token, and moves no coins. *)
Theorem ve_merge_moves_lock ctx w m w' :
  ve_inv w → MsgMerge_ValidateBasic m = Ok tt → Merge dlg ctx w m = Ok w' →
  let from := Uint64FromVeID (me_FromVeId m) in
  let to := Uint64FromVeID (me_ToVeId m) in
  ∃ owner lf lt,
    AccAddressFromBech32 (me_Sender m) = Ok owner ∧
    nft_GetOwner (w_nft w) VeNftClassId (me_FromVeId m) = owner ∧
    nft_GetOwner (w_nft w) VeNftClassId (me_ToVeId m) = owner ∧
    from ≠ to ∧ vs_LockedAmountByUser (w_ve w) !! from = Some lf ∧
    vs_LockedAmountByUser (w_ve w) !! to = Some lt ∧
    vs_LockedAmountByUser (w_ve w') =
      <[to := mkLockedBalance (lb_Amount lt + lb_Amount lf) (Z.max (lb_End lf) (lb_End lt))]>
        (delete from (vs_LockedAmountByUser (w_ve w))) ∧
    locked_sum w' = locked_sum w ∧ nft_HasNFT (w_nft w') VeNftClassId (me_FromVeId m) = false ∧
    ∀ a, lbal w' a = lbal w a.
Proof.
  intros I V E from to. destruct (merge_distinct _ _ _ _ _ I V E) as (Hf & Ht & Hne).
  destruct (token_lock _ _ I Hf) as (_ & _ & Hlf & _), (token_lock _ _ I Ht) as (_ & _ & Hlt & (_ & Het & _)).
  pose proof (Merge_sum _ _ _ _ _ I V E) as Hsum.
  apply Merge_effect in E as (sender & tokens & Es & Of & Ot & _ & _ & _ & B & _ & _ & L & P); [|done].
  apply nft_Burn_Ok in B as (_ & Hgone & _).
  eexists sender, _, _. rewrite (le_nft _ _ _ _ _ _ L). split_and!; try done; [apply L|].
  intros a. rewrite P. unfold if_addr. repeat case_decide; lia.
Qed.

(** A token that is attached to a gauge or used for a vote is frozen: it
    can be sent, merged away or withdrawn by nobody. *)
Theorem ve_attached_frozen w id :
  GetVeAttached w (Uint64FromVeID id) ≠ 0 ∨ GetVeVoted w (Uint64FromVeID id) = true →
  (∀ sender receiver, nft_keeper_Send w VeNftClassId id sender receiver = Err ErrVeAttached) ∧
  (∀ ctx sender, is_ok (Withdraw dlg ctx w (mkMsgWithdraw sender id)) = false) ∧
  (∀ ctx sender to, is_ok (Merge dlg ctx w (mkMsgMerge sender id to)) = false).
Proof.
  intros Hat.
  assert (CheckVeAttached w (Uint64FromVeID id) = Err ErrVeAttached) as Hc.
  { unfold CheckVeAttached. by destruct (GetVeAttached w (Uint64FromVeID id) =? 0) eqn:E, Hat as [? | ->]; zbool. }
  split_and!; intros.
  - unfold nft_keeper_Send. by rewrite decide_True, Hc by done.
  - destruct (Withdraw _ _ _ _) as [w'| |] eqn:E; try done. unfold Withdraw in E. inv_ok E.
    simpl in *. congruence.
  - destruct (Merge _ _ _ _) as [w'| |] eqn:E; try done. unfold Merge in E. inv_ok E.
    simpl in *. congruence.
Qed.

(** C17. Voting power of a lock: after the checkpoint that records a lock of
    [amount] until [e], the power at any later time [t] is the slope
    [amount / MaxLockTime] times the time left, never more than the amount, and
    zero from the end of the lock on. *)
Theorem ve_voting_power_decays ctx w veID old new w' ctx' t :
  RegulateUserCheckpoint ctx w veID old new = Ok w' →
  0 ≤ lb_Amount new ≤ 2 ^ 180 → now_of ctx < lb_End new < 2 ^ 62 →
  lb_End new ≤ now_of ctx + MaxLockTime → now_of ctx < t < 2 ^ 62 →
  ∃ p, GetVotingPower ctx' w' veID t 0 = Ok p ∧
    p = Z.max 0 (lb_Amount new / MaxLockTime * (lb_End new - t)) ∧
    0 ≤ p ≤ lb_Amount new ∧ (lb_End new ≤ t → p = 0).
Proof.
  intros E Ha He Hm Ht.
  destruct (lock_power_bounds (lb_Amount new) (lb_End new) (now_of ctx) t) as [Hb Hz]; [lia|lia|lia|].
  eexists. split; [by eapply GetVotingPower_after|]. done.
Qed.

(** C18. When the end of a block takes a checkpoint, after a first one was
    taken and while times and heights are below 2^62 and do not go back, fewer
    than 2^62 checkpoints were taken and amounts are at most 2^180.  In the
    period from the last checkpoint on it changes nothing.  After that, up to
    two periods after the start of the week of the last checkpoint, it takes
    one: the last checkpoint is then of this block's time and height, preceded
    by one for the end of the week unless the block is at that time.  Later it
    panics, although the source expects that two rounds are always enough. *)
Theorem ve_end_blocker_deadline ctx w :
  checkpoint_sane ctx w →
  let T := cp_Timestamp (last_point w) in
  let week := RegulatedUnixTime T + RegulatedPeriod in
  (now_of ctx < T + RegulatedPeriod → ve_EndBlocker ctx w = Ok w) ∧
  (T + RegulatedPeriod ≤ now_of ctx ≤ week + RegulatedPeriod →
   ∃ w', ve_EndBlocker ctx w = Ok w' ∧
     cp_Timestamp (last_point w') = now_of ctx ∧ cp_Block (last_point w') = BlockHeight ctx ∧
     GetEpoch w' = GetEpoch w + (if now_of ctx =? week then 1 else 2) ∧
     (now_of ctx ≠ week → cp_Timestamp (GetCheckpoint w' (GetEpoch w + 1)) = week)) ∧
  (week + RegulatedPeriod < now_of ctx → ve_EndBlocker ctx w = Panic).
Proof.
  intros Hs T week. pose proof (ve_EndBlocker_iff ctx w Hs) as R. cbv zeta in R. fold T in R.
  replace (RegulatedUnixTime T + 2 * RegulatedPeriod) with (week + RegulatedPeriod) in R by (unfold week; lia).
  split_and!.
  - intros Hlt. by apply ve_EndBlocker_early.
  - intros [Hdue Hle]. rewrite (proj2 (Z.leb_le _ _) Hle) in R. destruct R as [w' E]. exists w'. split; [done|].
    by apply ve_EndBlocker_takes.
  - intros Hgt. by rewrite (proj2 (Z.leb_gt _ _) Hgt) in R.
Qed.

(** In every reachable state the binary search over the system history,
    and over the history of any user, ends within its rounds at the last
    checkpoint that is not after the time, or at the first one. *)
Theorem ve_find_time_epoch denom t w veID target :
  ve_reach dlg denom t w →
  let epochs := if veID =? EmptyVeID then GetEpoch w else GetUserEpoch w veID in
  let e := findTimeEpoch w veID target epochs in
  0 ≤ e ≤ epochs ∧
  (e = 0 ∨ cp_Timestamp (history_point w veID e) ≤ target) ∧
  ∀ e', e < e' → e' ≤ epochs → target < cp_Timestamp (history_point w veID e').
Proof.
  intros (_ & I & Hlim)%ve_reach_hist. cbv zeta. destruct I as [I1 I2 _ I4 I5 _].
  unfold findTimeEpoch. apply search_epoch_last; unfold history_point; change (Z.of_nat 65) with 65.
  - destruct (veID =? EmptyVeID); [lia|]. specialize (I4 veID). lia.
  - destruct (veID =? EmptyVeID); [lia|]. specialize (I4 veID). lia.
  - destruct (veID =? EmptyVeID); [lia|]. specialize (I4 veID). lia.
  - destruct (veID =? EmptyVeID); [apply I2|apply I5].
Qed.

(** The printed form of a non-zero identifier parses back to it, and what
    is parsed is always a 64-bit number, whatever the string. *)
Theorem ve_id_round_trip n s :
  (0 < n < 2 ^ 64 → Uint64FromVeID (VeIDFromUint64 n) = n) ∧ 0 ≤ Uint64FromVeID s < 2 ^ 64.
Proof. split; [apply Uint64FromVeID_print|apply Uint64FromVeID_range]. Qed.

(** A distribution within one week assigns the new coins of the pool to
    that week; over a week boundary it assigns a share to the first week and
    all of them to the second, so more than there are. *)
Theorem ve_distribution_weeks ctx w :
  let L := GetDistributionAccruedLastTimestamp w in
  let now := now_of ctx in
  let week := RegulatedUnixTime L in
  let amount := distributable w in
  0 ≤ L ≤ now → now < 2 ^ 62 → small amount → (∀ t, small (GetDistributionPerPeriod w t)) →
  (now ≤ week + RegulatedPeriod →
   ∃ w', DistributePerPeriod ctx w = Ok w' ∧
     GetDistributionPerPeriod w' week = GetDistributionPerPeriod w week + amount) ∧
  (week + RegulatedPeriod < now ≤ week + 2 * RegulatedPeriod →
   ∃ w', DistributePerPeriod ctx w = Ok w' ∧
     GetDistributionPerPeriod w' week =
       GetDistributionPerPeriod w week + Z.quot (amount * (week + RegulatedPeriod - L)) (now - L) ∧
     GetDistributionPerPeriod w' (week + RegulatedPeriod) =
       GetDistributionPerPeriod w (week + RegulatedPeriod) + amount).
Proof.
  intros L now week amount HL Hnow Ha Hx.
  destruct (DistributePerPeriod_start ctx w Ha HL) as (n & -> & _). fold L now week amount.
  assert (RegulatedPeriod = 604800) as HP by done.
  pose proof (RegulatedUnixTime_le L) as HT. pose proof (RegulatedUnixTime_idemp L) as Hid. fold week in HT, Hid.
  assert (0 ≤ week) as Hw by (unfold week, RegulatedUnixTime; pose proof (Z.div_pos L RegulatedPeriod); nia).
  split; intros Hb.
  - rewrite distribute_last; [|done || lia..|apply Hx]. eexists. split; [reflexivity|].
    by rewrite GetDistribution_set, decide_True.
  - rewrite distribute_next; [|done || lia..|apply Hx].
    rewrite distribute_last; [|try done; try lia..].
    + eexists. split; [reflexivity|]. rewrite !GetDistribution_set.
      rewrite (decide_False (P := week + _ = week)), !decide_True, decide_False by lia. done.
    + rewrite <- (Z.mul_1_l RegulatedPeriod), RegulatedUnixTime_add. lia.
    + rewrite GetDistribution_set, decide_False by lia. apply Hx.
Qed.
End Props.

(** ** The theorems on the concrete chain of [VeDemo] *)

Module VePropsWitness.
Import VeDemo.

Lemma vinv2 : ve_inv v2.
Proof. exact (ve_reach_inv _ _ _ _ vreach2). Qed.

Lemma vinv2_later : ve_inv v2_later.
Proof. exact (ve_reach_inv _ _ _ _ vreach2_later). Qed.


Lemma ve_locks_are_tokens_witness :
  nft_HasNFT (w_nft v2) VeNftClassId "ve-2" = true ↔
  ∃ veID lb, "ve-2"%string = VeIDFromUint64 veID ∧ vs_LockedAmountByUser (w_ve v2) !! veID = Some lb.
Proof. exact (proj1 (ve_locks_are_tokens no_dlg _ _ _ "ve-2" vreach2)). Defined.

Lemma ve_total_follows_locks_witness :
  GetTotalLockedAmount v3 - locked_sum v3 = GetTotalLockedAmount v2 - locked_sum v2 + 10 ^ 12.
Proof.
  etrans; [apply (ve_total_follows_locks no_dlg vctx2 v2 (VMerge merge1) v3 vinv2)|].
  - by vm_compute.
  - apply is_ok_or. by vm_compute.
  - f_equal.
Defined.

Lemma ve_create_locks_witness :
  let '(id, unlock, w') := create1_result in
  nft_GetOwner (w_nft w') VeNftClassId id = "alice"%string ∧ GetNextVeID w' = 2.
Proof.
  destruct create1_result as [[id unlock] w'] eqn:E.
  destruct (ve_create_locks vctx1 v0 create1 id unlock w') as (s & r & Hs & -> & Hn & _ & Ho & _).
  - exact (ve_reach_inv _ _ _ _ vreach0).
  - by vm_compute.
  - rewrite <- E. apply is_ok_or. by vm_compute.
  - split; [|rewrite Hn; by vm_compute]. rewrite Ho. vm_compute in Hs. congruence.
Defined.

Lemma ve_withdraw_pays_owner_witness : paid v2_later v4 ve_addr "alice" (10 ^ 18).
Proof.
  destruct (ve_withdraw_pays_owner (fun _ _ => 1) vctx3 v2_later withdraw1 v4 vinv2_later)
    as (owner & lb & Hs & _ & Hl & _ & _ & _ & P & _).
  - apply (is_ok_or v2_later (Withdraw no_dlg vctx3 v2_later withdraw1)). by vm_compute.
  - assert (owner = "alice"%string) as -> by (vm_compute in Hs; congruence).
    assert (lb_Amount lb = 10 ^ 18) as <-; [|exact P].
    vm_compute in Hl. injection Hl as <-. reflexivity.
Defined.

Lemma ve_merge_moves_lock_witness : locked_sum v3 = locked_sum v2.
Proof.
  destruct (ve_merge_moves_lock no_dlg vctx2 v2 merge1 v3 vinv2)
    as (owner & lf & lt & _ & _ & _ & _ & _ & _ & _ & S & _); [by vm_compute| |exact S].
  apply (is_ok_or v2 (Merge no_dlg vctx2 v2 merge1)). by vm_compute.
Defined.

Lemma ve_attached_frozen_witness :
  nft_keeper_Send (IncVeAttached v2 1) VeNftClassId "ve-1" "alice" "bob" = Err ErrVeAttached.
Proof.
  apply (ve_attached_frozen no_dlg (IncVeAttached v2 1) "ve-1"). left. by vm_compute.
Defined.

Lemma ve_voting_power_decays_witness :
  ∃ w', RegulateUserCheckpoint vctx1 v0 1 NewLockedBalance (mkLockedBalance (10 ^ 18) (2730 * 604800)) = Ok w' ∧
  ∃ p, GetVotingPower vctx2 w' 1 (t1 + 60) 0 = Ok p ∧ 0 ≤ p ≤ 10 ^ 18.
Proof.
  exists (ok_or v0 (RegulateUserCheckpoint vctx1 v0 1 NewLockedBalance (mkLockedBalance (10 ^ 18) (2730 * 604800)))).
  assert (RegulateUserCheckpoint vctx1 v0 1 NewLockedBalance (mkLockedBalance (10 ^ 18) (2730 * 604800)) =
    Ok (ok_or v0 (RegulateUserCheckpoint vctx1 v0 1 NewLockedBalance (mkLockedBalance (10 ^ 18) (2730 * 604800))))) as E
    by (apply is_ok_or; by vm_compute).
  split; [exact E|].
  destruct (ve_voting_power_decays vctx1 v0 1 _ _ _ vctx2 (t1 + 60) E) as (p & Hp & _ & Hb & _);
    [split; by vm_compute|split; by vm_compute|by vm_compute|split; by vm_compute|].
  exists p. split; [exact Hp|exact Hb].
Defined.

(** A chain whose last checkpoint is one second before the end of the first
    week. *)
Definition late : World :=
  SetCheckpoint (SetEpoch v0 1) 1 (mkCheckpoint 0 0 604799 100).

Lemma late_sane h t :
  100 ≤ h < 2 ^ 62 → 604799 ≤ t < 2 ^ 62 → checkpoint_sane (vctx h t) late.
Proof.
  intros Hh Ht. assert (BlockTime (vctx h t) = t) as Et by (unfold BlockTime; simpl; by rewrite Z.div_mul).
  assert (last_point late = mkCheckpoint 0 0 604799 100) as El by (by vm_compute).
  constructor; rewrite ?Et, ?El; simpl; try lia; try done.
Qed.

(** The block just before a period has passed leaves the checkpoint alone, and
    the next block, six seconds later, panics. *)
Lemma ve_end_blocker_deadline_witness :
  ve_EndBlocker (vctx 200000 1209596) late = Ok late ∧
  ve_EndBlocker (vctx 200001 1209602) late = Panic ∧
  ∃ w', ve_EndBlocker (vctx 200001 1209599) late = Ok w' ∧ GetEpoch w' = 3.
Proof.
  assert (checkpoint_sane (vctx 200000 1209596) late) as S1 by (apply late_sane; lia).
  assert (checkpoint_sane (vctx 200001 1209602) late) as S2 by (apply late_sane; lia).
  assert (checkpoint_sane (vctx 200001 1209599) late) as S3 by (apply late_sane; lia).
  split_and!; [apply (ve_end_blocker_deadline _ _ S1); by vm_compute|apply (ve_end_blocker_deadline _ _ S2); by vm_compute|].
  destruct (ve_end_blocker_deadline _ _ S3) as (_ & Hd & _). cbv zeta in Hd.
  destruct Hd as (w' & E & _ & _ & Hg & _); [split; apply Z.leb_le; by vm_compute|].
  exists w'. split; [exact E|]. rewrite Hg. by vm_compute.
Defined.

Lemma ve_find_time_epoch_witness :
  let e := findTimeEpoch v2_later EmptyVeID (t1 + 5 * 604800) (GetEpoch v2_later) in
  0 ≤ e ≤ GetEpoch v2_later.
Proof.
  pose proof (ve_find_time_epoch no_dlg _ _ _ EmptyVeID (t1 + 5 * 604800) vreach2_later) as Hf.
  cbv zeta in Hf |- *. rewrite (Z.eqb_refl EmptyVeID) in Hf. exact (proj1 Hf).
Defined.

Lemma ve_id_round_trip_witness : Uint64FromVeID (VeIDFromUint64 1234567890) = 1234567890.
Proof. apply (proj1 (ve_id_round_trip 1234567890 "")). lia. Defined.

(** Seven hundred new coins, the last distribution at the start of a week and
    this one at the end of the next. *)
Definition pool : World :=
  SetDistributionTotalAmount
    (set_bank (add_bal bank0 (GetModuleAddress DistributionPoolName) "airon" 700) v0) 0.

Lemma ve_distribution_weeks_witness :
  ∃ w', DistributePerPeriod (vctx 1 (2 * 604800)) pool = Ok w' ∧
    GetDistributionPerPeriod w' 0 = 350 ∧ GetDistributionPerPeriod w' 604800 = 700.
Proof.
  destruct (ve_distribution_weeks (vctx 1 (2 * 604800)) pool) as [_ Hd];
    [split; by vm_compute|by vm_compute|by vm_compute|intros t; by vm_compute|].
  destruct Hd as (w' & E & H1 & H2); [split; by vm_compute|].
  exists w'. split; [exact E|]. split; [etrans; [exact H1|by vm_compute]|etrans; [exact H2|by vm_compute]].
Defined.
End VePropsWitness.
