(* ===== verification/VeNft.v ===== *)
(** Tokens of the ve module as they are shown: the URI of a token with its image
    and data ([src/x/ve/types/nft.go], [VeNftUri]) and the queries for one token
    and for a page of them ([src/x/ve/keeper/grpc_query.go]). *)

From stdpp Require Import base gmap strings list pretty.
From Stdlib Require Import ZArith Lia.
From S2P Require Import Prelude GoStrings Sdk SdkRef Types VeTypes World VeKeeper VeVoting.

#[local] Open Scope string_scope.
#[local] Open Scope Z_scope.

(** * Encodings of the standard library *)

(** ** [base64.URLEncoding] *)

Definition url_alphabet : string := "ABCDEFGHIJKLMNOPQRSTUVWXYZabcdefghijklmnopqrstuvwxyz0123456789-_".

Definition b64_char (x : Z) : Ascii.ascii := nth (Z.to_nat x) (String.list_ascii_of_string url_alphabet) Ascii.zero.

Definition byte_of (a : Ascii.ascii) : Z := Z.of_nat (Ascii.nat_of_ascii a).

Definition pad : Ascii.ascii := Ascii.ascii_of_nat 61.

(** Three bytes are four characters of six bits each; at the end one or two
    bytes are padded. *)
Fixpoint EncodeToString (s : string) : string :=
  match s with
  | "" => ""
  | String a "" => let a := byte_of a in String (b64_char (a / 4)) (String (b64_char (a mod 4 * 16)) (String pad (String pad "")))
  | String a (String b "") =>
      let a := byte_of a in let b := byte_of b in
      String (b64_char (a / 4)) (String (b64_char (a mod 4 * 16 + b / 16)) (String (b64_char (b mod 16 * 4)) (String pad "")))
  | String a (String b (String c s)) =>
      let a := byte_of a in let b := byte_of b in let c := byte_of c in
      String (b64_char (a / 4)) (String (b64_char (a mod 4 * 16 + b / 16))
        (String (b64_char (b mod 16 * 4 + c / 64)) (String (b64_char (c mod 64)) (EncodeToString s))))
  end.

(** A reader of that encoding. *)
Definition b64_value (a : Ascii.ascii) : option Z :=
  (fix go (l : list Ascii.ascii) (i : Z) :=
     match l with [] => None | b :: l => if decide (a = b) then Some i else go l (i + 1) end)
    (String.list_ascii_of_string url_alphabet) 0.

Definition chr (x : Z) : Ascii.ascii := Ascii.ascii_of_nat (Z.to_nat x).

Fixpoint b64_decode (s : string) : option string :=
  match s with
  | "" => Some ""
  | String p (String q (String r (String t s))) =>
      p ← b64_value p; q ← b64_value q;
      match b64_value r, b64_value t with
      | Some r, Some t =>
          s ← b64_decode s;
          Some (String (chr (p * 4 + q / 16)) (String (chr (q mod 16 * 16 + r / 4)) (String (chr (r mod 4 * 64 + t)) s)))
      | Some r, None => Some (String (chr (p * 4 + q / 16)) (String (chr (q mod 16 * 16 + r / 4)) ""))
      | None, _ => Some (String (chr (p * 4 + q / 16)) "")
      end
  | _ => None
  end.

(** ** [json.Marshal] of a struct of strings *)

(** A double quote, and text in which it is written as a single one. *)
Definition dquote : Ascii.ascii := Ascii.ascii_of_nat 34.
Definition squote : Ascii.ascii := Ascii.ascii_of_nat 39.
Fixpoint quoted (s : string) : string :=
  match s with "" => "" | String a s => String (if decide (a = squote) then dquote else a) (quoted s) end.

Definition hex_nibble (n : Z) : Ascii.ascii := nth (Z.to_nat n) (String.list_ascii_of_string "0123456789abcdef") Ascii.zero.

(** One ASCII character of a JSON string; the characters of HTML are escaped. *)
Definition json_char (a : Ascii.ascii) : string :=
  let n := byte_of a in
  let u := ("\u00" ++ String (hex_nibble (n / 16)) (String (hex_nibble (n mod 16)) ""))%string in
  if n =? 34 then String (chr 92) (String dquote "")
  else if n =? 92 then "\\"
  else if n =? 10 then "\n" else if n =? 13 then "\r" else if n =? 9 then "\t"
  else if (n <? 32) || (n =? 60) || (n =? 62) || (n =? 38) then u
  else String a "".

Fixpoint json_ascii (s : string) : string :=
  match s with "" => "" | String a s => json_char a ++ json_ascii s end.

(** * The URI *)

Section VeNftUri.
(** The characters of a JSON string that is not ASCII. *)
Variable json_unicode : string → string.

Definition json_string (s : string) : string :=
  String dquote ((if is_ascii s then json_ascii s else json_unicode s) ++ String dquote "").

Definition VeNftClassDescription : string :=
  "Gridiron locks, can be used to boost gauge yields, vote on token emission, and receive bribes".

(** [sdk.Int], which has at most 78 digits. *)
Definition print_int (x : Z) : string := if x <? 0 then "-" ++ print_digits 78 (- x) "" else print_digits 78 x "".

Definition VeNftImage (nftID : string) (balance lockedEnd value : Z) : string :=
  quoted "<svg xmlns='http://www.w3.org/2000/svg' preserveAspectRatio='xMinYMin meet' viewBox='0 0 350 350'><style>.base { fill: white; font-family: serif; font-size: 14px; }</style><rect width='100%' height='100%' fill='black' /><text x='10' y='20' class='base'>token " ++
  nftID ++ quoted "</text><text x='10' y='40' class='base'>balanceOf " ++
  print_int balance ++ quoted "</text><text x='10' y='60' class='base'>locked_end " ++
  print_uint64 lockedEnd ++ quoted "</text><text x='10' y='80' class='base'>value " ++ print_int value ++ "</text></svg>".

Definition uri_json (description nftID : string) (balance lockedEnd value : Z) : string :=
  quoted "{'name':" ++ json_string ("lock #" ++ nftID) ++ quoted ",'description':" ++ json_string description ++
  quoted ",'image':" ++ json_string ("data:image/svg+xml;base64," ++ EncodeToString (VeNftImage nftID balance lockedEnd value)) ++ "}".

Definition uri_prefix : string := "data:application/json;base64,".

Definition VeNftUri (nftID : string) (balance lockedEnd value : Z) : string :=
  uri_prefix ++ EncodeToString (uri_json VeNftClassDescription nftID balance lockedEnd value).

(** * The queries *)

(** [nft.NFT] and the queries of the nft keeper, which is not part of the
    repository: one token, and a page of the tokens of an owner. *)
Record NFT := mkNFT { nf_ClassId : string; nf_Id : string; nf_Uri : string; nf_UriHash : string }.

Context `{!Sdk, !BankKeeper, !NftKeeper}.
Context {Page PageResponse : Type}.
Variable nft_NFT : nft_state → string → string → outcome NFT.
Variable nft_NFTs : nft_state → string → string → Page → outcome (list NFT * PageResponse).

Definition with_uri (ctx : Ctx) (w : World) (n : NFT) : outcome NFT :=
  let veID := Uint64FromVeID (nf_Id n) in
  power ← GetVotingPower ctx w veID 0 (BlockHeight ctx);
  let locked := GetLockedAmountByUser w veID in
  Ok (mkNFT (nf_ClassId n) (nf_Id n) (VeNftUri (nf_Id n) power (lb_End locked) (lb_Amount locked)) (nf_UriHash n)).

Definition query_VeNft (ctx : Ctx) (w : World) (id : string) : outcome NFT :=
  n ← nft_NFT (w_nft w) VeNftClassId id;
  with_uri ctx w n.

Definition query_VeNfts (ctx : Ctx) (w : World) (owner : string) (page : Page) : outcome (list NFT * PageResponse) :=
  '(nfts, p) ← nft_NFTs (w_nft w) VeNftClassId owner page;
  nfts ← for_each (fun acc n => n ← with_uri ctx w n; Ok (acc ++ [n])%list) nfts [];
  Ok (nfts, p).
End VeNftUri.

(** * What is read back *)

Lemma string_ind3 (P : string → Prop) :
  P "" → (∀ a, P (String a "")) → (∀ a b, P (String a (String b ""))) →
  (∀ a b c s, P s → P (String a (String b (String c s)))) → ∀ s, P s.
Proof.
  intros H0 H1 H2 H3. fix IH 1. intros [|a [|b [|c s]]]; [exact H0|apply H1|apply H2|apply H3, IH].
Qed.

Lemma byte_of_range a : 0 ≤ byte_of a < 256.
Proof. unfold byte_of. pose proof (Ascii.nat_ascii_bounded a). lia. Qed.

Lemma chr_byte a x : x = byte_of a → chr x = a.
Proof. intros ->. unfold chr, byte_of. rewrite Nat2Z.id. apply Ascii.ascii_nat_embedding. Qed.

Lemma b64_value_char x : 0 ≤ x < 64 → b64_value (b64_char x) = Some x.
Proof.
  intros Hx. assert (forallb (fun n => bool_decide (b64_value (b64_char (Z.of_nat n)) = Some (Z.of_nat n))) (seq 0 64) = true) as F by by vm_compute.
  rewrite forallb_forall in F. assert (In (Z.to_nat x) (seq 0 64)) as Hin by (apply in_seq; lia).
  specialize (F _ Hin). apply bool_decide_eq_true in F. by rewrite Z2Nat.id in F by lia.
Qed.

Lemma b64_value_pad : b64_value pad = None.
Proof. by vm_compute. Qed.

(** Whatever is encoded is read back. *)
Theorem b64_round_trip s : b64_decode (EncodeToString s) = Some s.
Proof.
  induction s as [|a|a b|a b c s IH] using string_ind3.
  - done.
  - pose proof (byte_of_range a). cbn [EncodeToString b64_decode]. rewrite !b64_value_char, b64_value_pad by (Z.to_euclidean_division_equations; lia).
    cbn. repeat f_equal. apply chr_byte. Z.to_euclidean_division_equations; lia.
  - pose proof (byte_of_range a). pose proof (byte_of_range b). cbn [EncodeToString b64_decode]. rewrite !b64_value_char, b64_value_pad by (Z.to_euclidean_division_equations; lia).
    cbn. f_equal. f_equal; [|f_equal]; apply chr_byte; Z.to_euclidean_division_equations; lia.
  - pose proof (byte_of_range a). pose proof (byte_of_range b). pose proof (byte_of_range c).
    cbn [EncodeToString b64_decode]. rewrite !b64_value_char by (Z.to_euclidean_division_equations; lia).
    cbn. rewrite IH. cbn. f_equal. f_equal; [|f_equal; [|f_equal]]; apply chr_byte; Z.to_euclidean_division_equations; lia.
Qed.

(** The URI of a token carries its data: the text after the prefix decodes to
    the JSON object, in which the image decodes to the picture. *)
Theorem uri_reads_back ju id balance lockedEnd value :
  ∃ text, VeNftUri ju id balance lockedEnd value = uri_prefix ++ text ∧
    b64_decode text = Some (uri_json ju VeNftClassDescription id balance lockedEnd value).
Proof. eexists. split; [reflexivity|]. apply b64_round_trip. Qed.

(** ** The expectation of the unit test *)

(** [TestVeNftUri] expects another name of the chain in the description. *)
Definition expected_uri : string :=
  "data:application/json;base64,eyJuYW1lIjoibG9jayAjMTAwMDAiLCJkZXNjcmlwdGlvbiI6Ik1lcmxpb24gbG9ja3MsIGNhbiBiZSB1c2VkIHRvIGJvb3N0IGdhdWdlIHlpZWxkcywgdm90ZSBvbiB0b2tlbiBlbWlzc2lvbiwgYW5kIHJlY2VpdmUgYnJpYmVzIiwiaW1hZ2UiOiJkYXRhOmltYWdlL3N2Zyt4bWw7YmFzZTY0LFBITjJaeUI0Yld4dWN6MGlhSFIwY0RvdkwzZDNkeTUzTXk1dmNtY3ZNakF3TUM5emRtY2lJSEJ5WlhObGNuWmxRWE53WldOMFVtRjBhVzg5SW5oTmFXNVpUV2x1SUcxbFpYUWlJSFpwWlhkQ2IzZzlJakFnTUNBek5UQWdNelV3SWo0OGMzUjViR1UtTG1KaGMyVWdleUJtYVd4c09pQjNhR2wwWlRzZ1ptOXVkQzFtWVcxcGJIazZJSE5sY21sbU95Qm1iMjUwTFhOcGVtVTZJREUwY0hnN0lIMDhMM04wZVd4bFBqeHlaV04wSUhkcFpIUm9QU0l4TURBbElpQm9aV2xuYUhROUlqRXdNQ1VpSUdacGJHdzlJbUpzWVdOcklpQXZQangwWlhoMElIZzlJakV3SWlCNVBTSXlNQ0lnWTJ4aGMzTTlJbUpoYzJVaVBuUnZhMlZ1SURFd01EQXdQQzkwWlhoMFBqeDBaWGgwSUhnOUlqRXdJaUI1UFNJME1DSWdZMnhoYzNNOUltSmhjMlVpUG1KaGJHRnVZMlZQWmlBeE1EQXdNRHd2ZEdWNGRENDhkR1Y0ZENCNFBTSXhNQ0lnZVQwaU5qQWlJR05zWVhOelBTSmlZWE5sSWo1c2IyTnJaV1JmWlc1a0lERXdNREF3UEM5MFpYaDBQangwWlhoMElIZzlJakV3SWlCNVBTSTRNQ0lnWTJ4aGMzTTlJbUpoYzJVaVBuWmhiSFZsSURFd01EQXdQQzkwWlhoMFBqd3ZjM1puUGc9PSJ9".

Theorem uri_test_differs :
  VeNftUri id "10000" 10000 10000 10000 ≠ expected_uri ∧
  uri_prefix ++ EncodeToString (uri_json id "Merlion locks, can be used to boost gauge yields, vote on token emission, and receive bribes" "10000" 10000 10000 10000) =
    expected_uri.
Proof. split; by vm_compute. Qed.
