(* ===== verification/App.v ===== *)
(** Two parts of [src/app/] with logic of their own: the gas for verifying
    signatures ([sigverify.go]) and the counter of transactions per second
    ([tps_counter.go]). *)

From stdpp Require Import base list strings.
From Stdlib Require Import ZArith Lia.
From S2P Require Import Prelude Types.

#[local] Open Scope Z_scope.

(** * Gas for signatures *)

Module SigVerify.

(** Public keys by the cases of the type switch; a multisig key has keys of any
    kind.  The data of a signature is single, or a bit per key and the
    signatures of the keys whose bit is set ([signing.SignatureData]). *)
Inductive PubKey := PkEthSecp256k1 | PkEd25519 | PkMultisig (keys : list PubKey) | PkOther.

Inductive SigData := SdSingle | SdMulti (bits : list bool) (sigs : list SigData).

Definition secp256k1VerifyCost : Z := 21000.

Definition ErrInvalidPubKey := ErrExt "sdk/invalid pubkey".
Definition ErrSignatureData := ErrExt "expected *signing.MultiSignatureData".

Section Gas.
Context {Meter : Type}.
(** [sdk.GasMeter.ConsumeGas]: the meter afterwards, and whether it panics. *)
Variable ConsumeGas : Meter → Z → Meter * outcome unit.
(** [authtypes.Params] *)
Variable SigVerifyCostED25519 : Z.

(** The meter is shared with the caller, so it is returned beside every
    outcome.  When the keys are exhausted the first bit that is set indexes
    them out of range. *)
Fixpoint SigVerificationGasConsumer (meter : Meter) (pubkey : PubKey) (data : SigData) {struct pubkey} : Meter * outcome unit :=
  match pubkey with
  | PkEthSecp256k1 => ConsumeGas meter secp256k1VerifyCost
  | PkEd25519 =>
      match ConsumeGas meter SigVerifyCostED25519 with
      | (meter, Ok _) => (meter, Err ErrInvalidPubKey)
      | r => r
      end
  | PkMultisig keys =>
      match data with
      | SdSingle => (meter, Err ErrSignatureData)
      | SdMulti bits sigs =>
          (fix consume_multi (keys : list PubKey) (bits : list bool) (sigs : list SigData) (meter : Meter) {struct keys} :=
             match keys with
             | [] => (meter, if existsb id bits then Panic else Ok tt)
             | k :: keys =>
                 match bits with
                 | [] => (meter, Ok tt)
                 | false :: bits => consume_multi keys bits sigs meter
                 | true :: bits =>
                     match sigs with
                     | [] => (meter, Panic)
                     | s :: sigs =>
                         match SigVerificationGasConsumer meter k s with
                         | (meter, Ok _) => consume_multi keys bits sigs meter
                         | r => r
                         end
                     end
                 end
             end) keys bits sigs meter
      end
  | PkOther => (meter, Err ErrInvalidPubKey)
  end.

(** [ConsumeMultisignatureVerificationGas] as a function of its own. *)
Fixpoint ConsumeMultisignatureVerificationGas (meter : Meter) (keys : list PubKey) (bits : list bool) (sigs : list SigData) :
    Meter * outcome unit :=
  match keys with
  | [] => (meter, if existsb id bits then Panic else Ok tt)
  | k :: keys =>
      match bits with
      | [] => (meter, Ok tt)
      | false :: bits => ConsumeMultisignatureVerificationGas meter keys bits sigs
      | true :: bits =>
          match sigs with
          | [] => (meter, Panic)
          | s :: sigs =>
              match SigVerificationGasConsumer meter k s with
              | (meter, Ok _) => ConsumeMultisignatureVerificationGas meter keys bits sigs
              | r => r
              end
          end
      end
  end.

Lemma consume_multisig meter keys bits sigs :
  SigVerificationGasConsumer meter (PkMultisig keys) (SdMulti bits sigs) = ConsumeMultisignatureVerificationGas meter keys bits sigs.
Proof.
  cbn. revert bits sigs meter. induction keys as [|k keys IH]; intros bits sigs meter; [done|].
  destruct bits as [|[] bits]; [done| |by apply IH]. destruct sigs as [|s sigs]; [done|].
  cbn. destruct (SigVerificationGasConsumer meter k s) as [m [u| |]]; [apply IH|done..].
Qed.
End Gas.

(** ** The specification: one charge for each Ethereum key that signed *)

(** The signatures of a key and its data, when every key that signed is an
    Ethereum key or a multisig key of such, and the data has the key's shape. *)
Fixpoint signatures (pubkey : PubKey) (data : SigData) {struct pubkey} : option nat :=
  match pubkey, data with
  | PkEthSecp256k1, _ => Some 1%nat
  | PkMultisig keys, SdMulti bits sigs =>
      (fix go (keys : list PubKey) (bits : list bool) (sigs : list SigData) :=
         match keys, bits with
         | [], _ => if existsb id bits then None else Some 0%nat
         | _, [] => Some 0%nat
         | _ :: keys, false :: bits => go keys bits sigs
         | k :: keys, true :: bits =>
             match sigs with
             | [] => None
             | s :: sigs => n ← signatures k s; m ← go keys bits sigs; Some (n + m)%nat
             end
         end) keys bits sigs
  | _, _ => None
  end.

(** A meter that counts: the gas used so far and a limit; using more panics
    with the gas used. *)
Definition count_gas (limit used x : Z) : Z * outcome unit :=
  (used + x, if limit <? used + x then Panic else Ok tt).

Section PubKeyInd.
Variable P : PubKey → Prop.
Hypothesis P_eth : P PkEthSecp256k1.
Hypothesis P_ed : P PkEd25519.
Hypothesis P_multi : ∀ keys, Forall P keys → P (PkMultisig keys).
Hypothesis P_other : P PkOther.

(** Induction over keys, with the hypothesis for the keys of a multisig. *)
Fixpoint PubKey_ind' (k : PubKey) : P k :=
  match k with
  | PkEthSecp256k1 => P_eth
  | PkEd25519 => P_ed
  | PkMultisig keys =>
      P_multi keys ((fix go l : Forall P l := match l with [] => List.Forall_nil P | k :: l => List.Forall_cons P k l (PubKey_ind' k) (go l) end) keys)
  | PkOther => P_other
  end.
End PubKeyInd.

(** The consumer accepts exactly the well-formed signatures of Ethereum keys
    that the limit allows, and then it has used 21000 for each. *)
Theorem sig_gas_exact limit ed k d used :
  used ≤ limit → 
  match signatures k d with
  | Some n =>
      let total := used + secp256k1VerifyCost * Z.of_nat n in
      if total <=? limit then SigVerificationGasConsumer (count_gas limit) ed used k d = (total, Ok tt)
      else (SigVerificationGasConsumer (count_gas limit) ed used k d).2 = Panic
  | None => (SigVerificationGasConsumer (count_gas limit) ed used k d).2 ≠ Ok tt
  end.
Proof.
  revert d used. induction k as [| |keys IH|] using PubKey_ind'; intros d used Hu.
  - cbn [signatures SigVerificationGasConsumer]. cbv zeta. unfold count_gas.
    replace (used + secp256k1VerifyCost * Z.of_nat 1) with (used + secp256k1VerifyCost) by lia. destruct (Z.leb_spec (used + secp256k1VerifyCost) limit).
    + by rewrite (proj2 (Z.ltb_ge _ _)) by lia.
    + by rewrite (proj2 (Z.ltb_lt _ _)) by lia.
  - cbn. unfold count_gas. by destruct (_ <? _).
  - destruct d as [|bits sigs]; [done|]. rewrite consume_multisig. cbn [signatures].
    revert bits sigs used Hu. induction IH as [|k keys Hk _ IH]; intros bits sigs used Hu.
    + cbn. destruct (existsb id bits); [done|]. cbv zeta. rewrite (proj2 (Z.leb_le _ _)) by lia. f_equal. lia.
    + destruct bits as [|[] bits]; cbn [ConsumeMultisignatureVerificationGas].
      * cbv zeta. rewrite (proj2 (Z.leb_le _ _)) by lia. f_equal. lia.
      * destruct sigs as [|s sigs]; [done|]. specialize (Hk s used Hu). destruct (signatures k s) as [n|]; cbn [mbind option_bind].
        { cbv zeta in Hk. destruct (Z.leb_spec (used + secp256k1VerifyCost * Z.of_nat n) limit) as [Hle|Hgt].
          - rewrite Hk. specialize (IH bits sigs _ Hle). destruct (_ keys bits sigs) as [m|]; cbn; [|done].
            cbv zeta in *. replace (used + secp256k1VerifyCost * Z.of_nat (n + m))
              with (used + secp256k1VerifyCost * Z.of_nat n + secp256k1VerifyCost * Z.of_nat m) by lia. exact IH.
          - assert (ConsumeMultisignatureVerificationGas (count_gas limit) ed used (k :: keys) (true :: bits) (s :: sigs) =
                    SigVerificationGasConsumer (count_gas limit) ed used k s) as E.
            { cbn. destruct (SigVerificationGasConsumer _ _ _ _ _) as [m' [u| |]]; [discriminate|done..]. }
            cbn in E. rewrite E. destruct (_ keys bits sigs) as [m|]; cbn; [|by rewrite Hk]. cbv zeta.
            rewrite (proj2 (Z.leb_gt _ _)); [done|]. unfold secp256k1VerifyCost in *. lia. }
        destruct (SigVerificationGasConsumer _ _ _ k s) as [m' [[]| |]]; done.
      * by apply IH.
  - done.
Qed.
End SigVerify.

(** * The counter of transactions per second *)

Module TpsCounter.

(** The shared counters, the values of the last report that the reporting loop
    keeps, and what it has recorded for each status.  The loop loads the two
    counters one after the other while other goroutines increment them:
    [tc_pending] is the first load of a report under way. *)
Record tpsCounter := mkTps {
  tc_nSuccessful : Z;
  tc_NFailed : Z;
  tc_lastNSuccessful : Z;
  tc_lastNFailed : Z;
  tc_pending : option Z;
  tc_recordedOK : list Z;
  tc_recordedERR : list Z;
}.

Definition newTPSCounter : tpsCounter := mkTps 0 0 0 0 None [] [].

Definition incrementSuccess (t : tpsCounter) : tpsCounter :=
  mkTps (u64 (tc_nSuccessful t + 1)) (tc_NFailed t) (tc_lastNSuccessful t) (tc_lastNFailed t) (tc_pending t) (tc_recordedOK t) (tc_recordedERR t).
Definition incrementFailure (t : tpsCounter) : tpsCounter :=
  mkTps (tc_nSuccessful t) (u64 (tc_NFailed t + 1)) (tc_lastNSuccessful t) (tc_lastNFailed t) (tc_pending t) (tc_recordedOK t) (tc_recordedERR t).

(** [None] where nothing is recorded; the tag, which has a valid key and value,
    is always made. *)
Definition recordValue (latest previous : Z) : option Z :=
  if latest <? previous then None else
  let n := i64 (u64 (latest - previous)) in
  if n <? 0 then None else Some n.

Definition record (r : option Z) (l : list Z) : list Z := match r with Some n => l ++ [n] | None => l end.

(** A tick of the loop, up to the load of the second counter and from there. *)
Definition tick_load (t : tpsCounter) : tpsCounter :=
  mkTps (tc_nSuccessful t) (tc_NFailed t) (tc_lastNSuccessful t) (tc_lastNFailed t) (Some (tc_nSuccessful t)) (tc_recordedOK t) (tc_recordedERR t).
Definition tick_report (t : tpsCounter) : tpsCounter :=
  match tc_pending t with
  | None => t
  | Some latestNSuccessful =>
      let latestNFailed := tc_NFailed t in
      mkTps (tc_nSuccessful t) (tc_NFailed t) latestNSuccessful latestNFailed None
        (record (recordValue latestNSuccessful (tc_lastNSuccessful t)) (tc_recordedOK t))
        (record (recordValue latestNFailed (tc_lastNFailed t)) (tc_recordedERR t))
  end.

(** ** Any interleaving *)

Inductive tps_event := EvSuccess | EvFailure | EvLoad | EvReport.

Definition tps_step (e : tps_event) (t : tpsCounter) : tpsCounter :=
  match e with
  | EvSuccess => incrementSuccess t
  | EvFailure => incrementFailure t
  | EvLoad => tick_load t
  | EvReport => tick_report t
  end.

Definition tps_run (l : list tps_event) : tpsCounter := fold_left (fun t e => tps_step e t) l newTPSCounter.

Definition total (l : list Z) : Z := list_sum id l.

(** The loop's values are what has been recorded so far, and never ahead of the
    counters. *)
Record tps_inv (t : tpsCounter) (s f : Z) : Prop := {
  ti_success : tc_nSuccessful t = s;
  ti_failed : tc_NFailed t = f;
  ti_ok : total (tc_recordedOK t) = tc_lastNSuccessful t;
  ti_err : total (tc_recordedERR t) = tc_lastNFailed t;
  ti_last : 0 ≤ tc_lastNSuccessful t ≤ s ∧ 0 ≤ tc_lastNFailed t ≤ f;
  ti_pending : ∀ p, tc_pending t = Some p → tc_lastNSuccessful t ≤ p ≤ s;
}.

Lemma recordValue_exact a b : 0 ≤ b ≤ a → a < 2 ^ 63 → recordValue a b = Some (a - b).
Proof.
  intros H1 H2. unfold recordValue. rewrite (proj2 (Z.ltb_ge _ _)) by lia.
  rewrite u64_small by lia. rewrite i64_small by lia. by rewrite (proj2 (Z.ltb_ge _ _)) by lia.
Qed.

Lemma total_snoc l x : total (l ++ [x]) = total l + x.
Proof. unfold total. rewrite list_sum_app, list_sum_cons, list_sum_nil. unfold id. lia. Qed.

Definition is_success (e : tps_event) : bool := match e with EvSuccess => true | _ => false end.
Definition is_failure (e : tps_event) : bool := match e with EvFailure => true | _ => false end.
Definition count (p : tps_event → bool) (l : list tps_event) : Z := Z.of_nat (length (List.filter p l)).

Lemma count_snoc p l e : count p (l ++ [e]) = count p l + (if p e then 1 else 0).
Proof. unfold count. rewrite List.filter_app, length_app. simpl. destruct (p e); simpl; lia. Qed.

Lemma count_le p l : 0 ≤ count p l ≤ Z.of_nat (length l).
Proof. unfold count. pose proof (List.filter_length_le p l). lia. Qed.

Lemma tps_run_snoc l e : tps_run (l ++ [e]) = tps_step e (tps_run l).
Proof. unfold tps_run. by rewrite fold_left_app. Qed.

Lemma tps_step_inv e t s f :
  tps_inv t s f → s < 2 ^ 63 - 1 → f < 2 ^ 63 - 1 →
  tps_inv (tps_step e t) (s + if is_success e then 1 else 0) (f + if is_failure e then 1 else 0).
Proof.
  intros [S F O E [L1 L2] P] Hs Hf. destruct e; cbn [tps_step is_success is_failure].
  - split; simpl; try lia; [rewrite S, u64_small; lia|]. intros p Hp. specialize (P p Hp). lia.
  - split; simpl; try lia; [rewrite F, u64_small; lia|]. intros p Hp. specialize (P p Hp). lia.
  - split; simpl; try lia. intros p [= <-]. lia.
  - unfold tick_report. destruct (tc_pending t) as [p|] eqn:Hp.
    + specialize (P p eq_refl). split; simpl; try lia; [| |discriminate].
      * rewrite recordValue_exact by lia. cbn [record]. rewrite total_snoc. lia.
      * rewrite recordValue_exact by lia. cbn [record]. rewrite total_snoc. lia.
    + split; try lia. rewrite Hp. discriminate.
Qed.

Lemma tps_run_inv l : Z.of_nat (length l) < 2 ^ 63 → tps_inv (tps_run l) (count is_success l) (count is_failure l).
Proof.
  induction l as [|e l IH] using rev_ind; intros Hl; [by split|]. rewrite length_app in Hl. simpl in Hl.
  rewrite tps_run_snoc, !count_snoc. pose proof (count_le is_success l). pose proof (count_le is_failure l).
  apply tps_step_inv; [apply IH; lia|lia..].
Qed.

(** Reports lose nothing and count nothing twice: however increments and the two
    loads of a report interleave, the records never exceed what happened, and
    after a report without increments in between they are exactly it. *)
Theorem tps_reports_exact l :
  Z.of_nat (length l) < 2 ^ 63 - 2 →
  (total (tc_recordedOK (tps_run l)) ≤ count is_success l ∧ total (tc_recordedERR (tps_run l)) ≤ count is_failure l) ∧
  let t := tps_run (l ++ [EvLoad; EvReport]) in
  total (tc_recordedOK t) = count is_success l ∧ total (tc_recordedERR t) = count is_failure l.
Proof.
  intros Hl. destruct (tps_run_inv l) as [S F O E L P]; [lia|]. split; [lia|]. cbv zeta.
  change [EvLoad; EvReport] with ([EvLoad] ++ [EvReport]). rewrite app_assoc, !tps_run_snoc.
  pose proof (count_le is_success l). pose proof (count_le is_failure l).
  cbn [tps_step]. unfold tick_report. cbn. rewrite !recordValue_exact by lia. cbn [record]. rewrite !total_snoc. lia.
Qed.
End TpsCounter.
