(* ===== verification/Payments.v ===== *)
(** What an operation of a module can touch: which stores it writes and whose
    coins it takes.

    [effect S P w w'] says that from [w] to [w'] only the stores in [S] changed
    and no account outside [P] lost a coin of any denomination.  [walk] carries
    such an effect through a handler, step by step, with the lemmas of the hint
    database [effects] for the bank calls; every message, end blocker and
    proposal of the modules is given its effect here. *)

From stdpp Require Import base gmap strings list.
From Stdlib Require Import ZArith Lia.
From S2P Require Import Prelude Sdk SdkExt Types MakerTypes VeTypes OracleTypes GaugeTypes VestingTypes World OracleKeeper OracleBallot OracleEnd MakerKeeper MakerCalc MakerMsg MakerGov MakerInv MakerEffects MakerSafety VeKeeper VeVoting VeMsg VeEmission VeInv VeSafety Voter Vesting.

#[local] Open Scope string_scope.
#[local] Open Scope Z_scope.

Inductive store := SMaker | SOracle | SVe | SGauge | SVoter | SVesting | SNft.

#[export] Instance store_eq_dec : EqDecision store.
Proof. solve_decision. Defined.

Create HintDb effects.

Section Effect.
Context `{!Sdk, !BankKeeper, !NftKeeper}.
Implicit Types (w : World) (P Q : Addr → Prop) (S T : list store).

(** The store is the same in both worlds. *)
Definition same_store w w' (s : store) : Prop :=
  match s with
  | SMaker => w_maker w' = w_maker w
  | SOracle => w_oracle w' = w_oracle w
  | SVe => w_ve w' = w_ve w
  | SGauge => w_gauge w' = w_gauge w
  | SVoter => w_voter w' = w_voter w
  | SVesting => w_vesting w' = w_vesting w
  | SNft => w_nft w' = w_nft w
  end.

(** Only accounts in [P] lose coins. *)
Definition only_pay P (b b' : bank_state) : Prop := ∀ a d, ¬ P a → bal b a d ≤ bal b' a d.

#[export] Instance only_pay_preorder P : PreOrder (only_pay P).
Proof.
  split; [by intros b a d _|]. intros b1 b2 b3 K1 K2 a d Ha.
  specialize (K1 a d Ha). specialize (K2 a d Ha). lia.
Qed.

Record effect S P w w' : Prop := {
  ef_store s : s ∉ S → same_store w w' s;
  ef_pay : only_pay P (w_bank w) (w_bank w');
}.

#[export] Instance effect_preorder S P : PreOrder (effect S P).
Proof.
  split.
  - intros w. split; [by intros []|reflexivity].
  - intros w1 w2 w3 [S1 P1] [S2 P2]. split; [|by etransitivity].
    intros s Hs. specialize (S1 s Hs). specialize (S2 s Hs). destruct s; simpl in *; congruence.
Qed.

Lemma effect_mono S P T Q w w' :
  effect S P w w' → (∀ s, s ∈ S → s ∈ T) → (∀ a, P a → Q a) → effect T Q w w'.
Proof.
  intros [K1 K2] Hs Hp. split; [intros s Hn; apply K1; auto|].
  intros a d Ha. apply K2. auto.
Qed.

(** A write to a store in [S]. *)
Lemma effect_write S P w w' :
  (∀ s, s ∉ S → same_store w w' s) → w_bank w' = w_bank w → effect S P w w'.
Proof. intros Hs Hb. split; [done|]. rewrite Hb. reflexivity. Qed.

(** ** Walking through a handler *)

(** Whatever [m] returns, its world satisfies [R]. *)
Definition keeps {A} (R : World → Prop) (get : A → World) (m : outcome A) : Prop :=
  ∀ x, m = Ok x → R (get x).

Lemma keeps_ret {A} R (get : A → World) x : R (get x) → keeps R get (Ok x).
Proof. intros K y [= <-]. done. Qed.
Lemma keeps_err {A} R (get : A → World) e : keeps R get (Err e).
Proof. by intros y. Qed.
Lemma keeps_panic {A} R (get : A → World) : keeps R get Panic.
Proof. by intros y. Qed.
Lemma keeps_bind {A B} R (get : B → World) (m : outcome A) (k : A → outcome B) :
  (∀ x, m = Ok x → keeps R get (k x)) → keeps R get (m ≫= k).
Proof. intros K y E. apply bind_Ok in E as (x & E1 & E). by eapply K. Qed.
Lemma keeps_guard {A} R (get : A → World) b e (k : outcome A) :
  keeps R get k → keeps R get (guard_err b e k).
Proof. intros K y E. apply guard_err_Ok in E as [_ E]. by apply K. Qed.
Lemma keeps_fmap {A B} R (get : B → World) (f : A → B) (m : outcome A) :
  keeps R (get ∘ f) m → keeps R get (f <$> m).
Proof. intros K y E. destruct m; simpl in E; [injection E as <-|discriminate..]. by apply (K a). Qed.

Lemma keeps_use S P w (m : outcome World) w' :
  keeps (effect S P w) id m → m = Ok w' → effect S P w w'.
Proof. intros K E. by apply (K w'). Qed.

(** A loop keeps an effect its body keeps. *)
Lemma for_each_effect {A} S P (f : World → A → outcome World) l w w' :
  (∀ x v v', f v x = Ok v' → effect S P v v') → for_each f l w = Ok w' → effect S P w w'.
Proof.
  intros Hf. revert w. induction l as [|x l IH]; intros w E; simpl in E.
  - by injection E as <-.
  - apply bind_Ok in E as (v & E1 & E). transitivity v; eauto.
Qed.
End Effect.

#[export] Hint Extern 1 (_ ∈ _ :: _) => set_solver : effects.

(** One step of a handler. *)
Ltac walk1 :=
  lazymatch goal with
  | |- keeps _ _ (_ ≫= _) => apply keeps_bind; intros ? ?
  | |- keeps _ _ (guard_err _ _ _) => apply keeps_guard
  | |- keeps _ _ (_ <$> _) => apply keeps_fmap
  | |- keeps _ _ (Ok _) => apply keeps_ret
  | |- keeps _ _ (Err _) => apply keeps_err
  | |- keeps _ _ Panic => apply keeps_panic
  | |- keeps _ _ (if ?b then _ else _) => destruct b
  | |- keeps _ _ (match ?p with _ => _ end) => destruct p
  | |- keeps _ _ (let _ := _ in _) => cbv zeta
  end; cbv beta in *.

Section BankEffects.
Context `{!Sdk, !BankKeeper, !NftKeeper, !SdkLaws, !BankLaws}.
Implicit Types (w : World) (P : Addr → Prop) (S : list store).

Lemma coins_amt_nonneg cs d : Forall (fun c => 0 ≤ Amount c) cs → 0 ≤ coins_amt d cs.
Proof. induction 1; simpl; [done|]. case_decide; lia. Qed.

(** Coins that [NewCoins] accepted are not negative. *)
Lemma NewCoins_nonneg l cs : NewCoins l = Ok cs → ∀ d, 0 ≤ coins_amt d cs.
Proof. intros [E F]%NewCoins_Ok d. rewrite E. by apply coins_amt_nonneg. Qed.

Lemma transferred_pays P b b' from to cs :
  transferred b b' from to cs → (∀ d, 0 ≤ coins_amt d cs) → P from → only_pay P b b'.
Proof.
  intros Ht Hc Hp a d Ha. destruct (Ht d) as [_ ->]. specialize (Hc d). unfold if_addr.
  rewrite decide_False by (by intros ->). case_decide; lia.
Qed.

Lemma minted_pays P b b' to cs : minted b b' to cs → (∀ d, 0 ≤ coins_amt d cs) → only_pay P b b'.
Proof. intros Ht Hc a d Ha. destruct (Ht d) as [_ ->]. specialize (Hc d). unfold if_addr. case_decide; lia. Qed.

Lemma burned_pays P b b' from cs : burned b b' from cs → P from → only_pay P b b'.
Proof. intros Ht Hp a d Ha. destruct (Ht d) as [_ ->]. unfold if_addr. rewrite decide_False by (by intros ->). lia. Qed.

Lemma on_bank_effect S P f w w' :
  on_bank f w = Ok w' → (∀ b', f (w_bank w) = Ok b' → only_pay P (w_bank w) b') → effect S P w w'.
Proof. unfold on_bank. intros E Hf. inv_ok E. subst w'. split; [by intros []|]. by apply Hf. Qed.

Lemma pay_must_bank_Ok f w w' : must_bank f w = Ok w' → on_bank f w = Ok w'.
Proof. unfold must_bank. destruct (on_bank f w); [done|discriminate..]. Qed.

Lemma on_nft_effect S P f w w' : on_nft f w = Ok w' → SNft ∈ S → effect S P w w'.
Proof.
  unfold on_nft. intros E Hs. inv_ok E. subst w'. apply effect_write; [|done].
  intros [] ?; done.
Qed.

(** The bank calls the modules make. *)
Lemma account_to_module_effect S P a m cs w w' :
  on_bank (fun b => SendCoinsFromAccountToModule b a m cs) w = Ok w' →
  (∀ d, 0 ≤ coins_amt d cs) → P a → effect S P w w'.
Proof. intros E ??. eapply on_bank_effect; [exact E|]. intros b' Hb%SendCoinsFromAccountToModule_Ok. by eapply transferred_pays. Qed.

Lemma module_to_account_effect S P a m cs w w' :
  on_bank (fun b => SendCoinsFromModuleToAccount b m a cs) w = Ok w' →
  (∀ d, 0 ≤ coins_amt d cs) → P (GetModuleAddress m) → effect S P w w'.
Proof. intros E ??. eapply on_bank_effect; [exact E|]. intros b' Hb%SendCoinsFromModuleToAccount_Ok. by eapply transferred_pays. Qed.

Lemma module_to_module_effect S P m m' cs w w' :
  on_bank (fun b => SendCoinsFromModuleToModule b m m' cs) w = Ok w' →
  (∀ d, 0 ≤ coins_amt d cs) → P (GetModuleAddress m) → effect S P w w'.
Proof. intros E ??. eapply on_bank_effect; [exact E|]. intros b' Hb%SendCoinsFromModuleToModule_Ok. by eapply transferred_pays. Qed.

Lemma send_effect S P a a' cs w w' :
  on_bank (fun b => SendCoins b a a' cs) w = Ok w' → (∀ d, 0 ≤ coins_amt d cs) → P a → effect S P w w'.
Proof. intros E ??. eapply on_bank_effect; [exact E|]. intros b' Hb%SendCoins_Ok. by eapply transferred_pays. Qed.

Lemma mint_effect S P m cs w w' :
  on_bank (fun b => MintCoins b m cs) w = Ok w' → (∀ d, 0 ≤ coins_amt d cs) → effect S P w w'.
Proof. intros E ?. eapply on_bank_effect; [exact E|]. intros b' Hb%MintCoins_Ok. by eapply minted_pays. Qed.

Lemma pay_burn_effect S P m cs w w' :
  on_bank (fun b => BurnCoins b m cs) w = Ok w' → P (GetModuleAddress m) → effect S P w w'.
Proof. intros E ?. eapply on_bank_effect; [exact E|]. intros b' Hb%BurnCoins_Ok. by eapply burned_pays. Qed.
End BankEffects.

#[export] Hint Resolve NewCoins_nonneg : effects.
#[export] Hint Resolve account_to_module_effect module_to_account_effect module_to_module_effect
  send_effect mint_effect pay_burn_effect on_nft_effect : effects.

(** The stores outside a list are the same, by computation. *)
Ltac stores := intros [] ?; first [reflexivity | set_solver].

(** The world a step of a handler starts from. *)
Ltac step_world m :=
  lazymatch m with
  | from_user _ _ ?w => w
  | to_user _ _ ?w => w
  | to_oracle _ ?w => w
  | mint_coins _ ?w => w
  | burn_coins _ ?w => w
  | on_bank _ ?w => w
  | on_nft _ ?w => w
  | DepositFor _ ?w _ _ _ _ _ _ => w
  | RegulateUserCheckpoint _ ?w _ _ _ => w
  | (if _ then _ else Ok ?w) => w
  | match _ with Some _ => Ok ?w | None => _ end => w
  end.

(** The world a write to a store starts from. *)
Ltac written_world t :=
  lazymatch t with
  | SetPoolBacking ?w _ => w
  | SetPoolCollateral ?w _ => w
  | SetCheckpoint ?w _ _ => w
  | SetEpoch ?w _ => w
  | SetSlopeChange ?w _ _ => w
  | SetUserEpoch ?w _ _ => w
  | SetUserCheckpoint ?w _ _ _ => w
  | SetTotalLockedAmount ?w _ => w
  | SetLockedAmountByUser ?w _ _ => w
  | DeleteLockedAmountByUser ?w _ => w
  | SetNextVeID ?w _ => w
  | SetAirdropCompleted ?w _ _ => w
  | DeleteAirdrop ?w _ => w
  | SetAirdrop ?w _ _ => w
  | SetAirdropTotalAmount ?w _ => w
  | SetAllocationAddresses ?w _ => w
  end.

(** Proves an effect by going back through the steps that led to the world. *)
Ltac chain :=
  unfold id;
  lazymatch goal with
  | |- keeps _ _ _ => let w' := fresh in let K := fresh in intros w' K; chain
  | |- effect _ _ ?w ?w => reflexivity
  | K : ?m = Ok ?w' |- effect _ _ _ ?w' =>
      let w := step_world m in
      transitivity w; [chain|];
      lazymatch m with
      | (if _ then _ else _) => revert K; apply keeps_use; repeat walk1; chain
      | match _ with Some _ => _ | None => _ end => revert K; apply keeps_use; repeat walk1; chain
      | _ => eauto with effects
      end
  | |- effect _ _ _ ?t =>
      first [ let w := written_world t in transitivity w; [chain|]
            | idtac ]; apply effect_write; [stores|reflexivity]
  end.

Section ModuleEffects.
Context `{!Sdk, !BankKeeper, !NftKeeper, !SdkLaws, !BankLaws}.
Implicit Types (w : World) (P : Addr → Prop) (S : list store) (ctx : Ctx).

(** ** The maker module *)

(** The accounts a maker message may charge: the module's and the sender's. *)
Definition charged (own : Addr) (sender : string) (a : Addr) : Prop :=
  a = own ∨ AccAddressFromBech32 sender = Ok a.

Lemma sender_charged own s t a b : getSenderReceiver s t = Ok (a, b) → charged own s a.
Proof. unfold getSenderReceiver. intros E. right. inv_ok E; congruence. Qed.

Lemma bech32_charged own s a : AccAddressFromBech32 s = Ok a → charged own s a.
Proof. by right. Qed.

Lemma own_charged own s : charged own s own.
Proof. by left. Qed.

Lemma from_user_effect S P a cs w w' :
  from_user a cs w = Ok w' → (∀ d, 0 ≤ coins_amt d cs) → P a → effect S P w w'.
Proof. apply account_to_module_effect. Qed.
Lemma to_user_effect S P a cs w w' :
  to_user a cs w = Ok w' → (∀ d, 0 ≤ coins_amt d cs) → P maker_addr → effect S P w w'.
Proof. apply module_to_account_effect. Qed.
Lemma to_oracle_effect S P cs w w' :
  to_oracle cs w = Ok w' → (∀ d, 0 ≤ coins_amt d cs) → P maker_addr → effect S P w w'.
Proof. apply module_to_module_effect. Qed.
Lemma mint_coins_effect S P cs w w' :
  mint_coins cs w = Ok w' → (∀ d, 0 ≤ coins_amt d cs) → effect S P w w'.
Proof. apply mint_effect. Qed.
Lemma burn_coins_effect S P cs w w' : burn_coins cs w = Ok w' → P maker_addr → effect S P w w'.
Proof. apply pay_burn_effect. Qed.
#[local] Hint Resolve from_user_effect to_user_effect to_oracle_effect mint_coins_effect
  burn_coins_effect sender_charged bech32_charged own_charged : effects.

Definition maker_sender (m : maker_msg) : string :=
  match m with
  | MMintBySwap m => mbs_Sender m
  | MBurnBySwap m => bbs_Sender m
  | MBuyBacking m => bb_Sender m
  | MSellBacking m => sb_Sender m
  | MMintByCollateral m => mbc_Sender m
  | MBurnByCollateral m => bbc_Sender m
  | MDepositCollateral m => dc_Sender m
  | MRedeemCollateral m => rc_Sender m
  | MLiquidateCollateral m => lc_Sender m
  end.

(** A maker message writes the maker's store and charges the module and the
    sender only. *)
Lemma maker_handler_effect ctx w m w' :
  maker_NewHandler ctx w m = Ok w' →
  effect [SMaker] (charged maker_addr (maker_sender m)) w w'.
Proof.
  apply keeps_use. destruct m; simpl; apply keeps_fmap;
    unfold MintBySwap, BurnBySwap, BuyBacking, SellBacking, MintByCollateral, BurnByCollateral,
      DepositCollateral, RedeemCollateral, LiquidateCollateral;
    repeat walk1; simpl; chain.
Qed.

(** A proposal and the end of a block charge nobody. *)
Definition nobody (_ : Addr) : Prop := False.

Lemma maker_proposal_effect w p w' :
  maker_NewProposalHandler w p = Ok w' → effect [SMaker] nobody w w'.
Proof.
  assert (∀ q v v', setBackingRiskParamsProposal v q = Ok v' → effect [SMaker] nobody v v') as Kb.
  { intros q v v'. apply keeps_use. unfold setBackingRiskParamsProposal. repeat walk1; chain. }
  assert (∀ q v v', setCollateralRiskParamsProposal v q = Ok v' → effect [SMaker] nobody v v') as Kc.
  { intros q v v'. apply keeps_use. unfold setCollateralRiskParamsProposal. repeat walk1; chain. }
  destruct p; simpl; [| |apply Kb|apply Kc|apply for_each_effect, Kb|apply for_each_effect, Kc];
    apply keeps_use; unfold HandleRegisterBackingProposal, HandleRegisterCollateralProposal;
    repeat walk1; chain.
Qed.

Lemma maker_end_effect ctx w w' : maker_EndBlocker ctx w = Ok w' → effect [SMaker] nobody w w'.
Proof.
  apply keeps_use. unfold maker_EndBlocker, AdjustBackingRatio, SetBackingRatioLastBlock.
  repeat walk1; chain.
Qed.

(** ** The ve module *)

Lemma regulate_rounds_effect S P n ctx w initial bs ti tl e p w' e' p' :
  SVe ∈ S → regulate_rounds n ctx w initial bs ti tl e p = Ok (w', e', p') → effect S P w w'.
Proof.
  intros Hs. revert w ti tl e p. induction n as [|n IH]; intros w ti tl e p E;
    unfold regulate_rounds in E; fold regulate_rounds in E; [discriminate|].
  inv_ok E; simplify_eq; try reflexivity;
    (etransitivity; [|eapply IH; exact E]; apply effect_write; [stores|reflexivity]).
Qed.

Lemma regulateCheckpoint_effect S P ctx w us ub w' :
  SVe ∈ S → regulateCheckpoint ctx w us ub = Ok w' → effect S P w w'.
Proof.
  intros Hs. unfold regulateCheckpoint. intros E. inv_ok E. subst w'.
  eapply regulate_rounds_effect in E1; [|exact Hs]. etransitivity; [exact E1|].
  apply effect_write; [stores|reflexivity].
Qed.

Lemma ve_end_effect S P ctx w w' : SVe ∈ S → ve_EndBlocker ctx w = Ok w' → effect S P w w'.
Proof.
  intros Hs. unfold ve_EndBlocker, RegulateCheckpoint. intros E. inv_ok E;
    [by eapply regulateCheckpoint_effect|by subst].
Qed.

Lemma user_checkpoint_effect S P ctx w i o n w' :
  SVe ∈ S → RegulateUserCheckpoint ctx w i o n = Ok w' → effect S P w w'.
Proof.
  intros Hs. unfold RegulateUserCheckpoint. intros E. inv_ok E.
  eapply regulateCheckpoint_effect in E6; [|exact Hs]. subst w'.
  assert (∀ v v', v' = v ∨ (∃ t c, SetSlopeChange v t c = v') → effect S P v v') as Kc.
  { intros v v' [->|(t & c & <-)]; [reflexivity|]. apply effect_write; [stores|reflexivity]. }
  assert (effect S P r3 r4) by (apply Kc; inv_ok E7; subst; eauto).
  assert (effect S P r4 r5) by (apply Kc; inv_ok E8; subst; eauto).
  do 3 (etransitivity; [eassumption|]). apply effect_write; [stores|reflexivity].
Qed.

Lemma pay_DepositFor_effect S P ctx w sender veID amount unlock locked send w' :
  SVe ∈ S → P sender → DepositFor ctx w sender veID amount unlock locked send = Ok w' →
  effect S P w w'.
Proof.
  intros Hs Hp E. unfold DepositFor in E. apply bind_Ok in E as (v & E1 & E).
  apply bind_Ok in E as (x & _ & E). eapply user_checkpoint_effect in E; [|exact Hs].
  assert (effect S P w v) as Kv; [|etransitivity; [exact Kv|etransitivity; [|exact E]]; chain].
  clear E. revert E1. apply keeps_use. repeat walk1; chain.
Qed.

#[local] Hint Resolve pay_DepositFor_effect user_checkpoint_effect : effects.

(** A ve message writes the store of the ve module and the tokens, and charges
    the module and the sender only. *)
Lemma ve_handler_effect dlg ctx w m w' :
  ve_handler dlg ctx w m = Ok w' →
  effect [SVe; SNft] (charged ve_addr (ve_sender m)) w w'.
Proof.
  apply keeps_use. destruct m; simpl; try apply keeps_fmap;
    unfold Create, Deposit, ExtendTime, Merge, Withdraw; repeat walk1; simpl; chain.
Qed.

Lemma nft_send_effect w c i sd rc w' : nft_keeper_Send w c i sd rc = Ok w' → effect [SNft] nobody w w'.
Proof. apply keeps_use. unfold nft_keeper_Send. repeat walk1; chain. Qed.

(** The voter's end blocker emits nothing: [Emit] returns before any emission. *)
Lemma voter_end ctx w : voter_EndBlocker ctx w = Ok w.
Proof. unfold voter_EndBlocker, EmitReward, Emit. destruct (u64 _ <? _); reflexivity. Qed.
End ModuleEffects.

(** ** The oracle module *)
Section OracleEffects.
Context `{!Sdk, !SdkExt, !BankKeeper, !NftKeeper, !StakingKeeper, !DistrKeeper, !SdkLaws, !BankLaws}.
Implicit Types c : Chain.

Definition oracle_addr : Addr := GetModuleAddress oracle_ModuleName.
Definition distr_addr : Addr := GetModuleAddress distribution_ModuleName.

Lemma transferred_within P b b' from to cs :
  transferred b b' from to cs → P from → P to → only_pay P b b'.
Proof.
  intros Ht Hf Hp a d Ha. destruct (Ht d) as [_ ->]. unfold if_addr.
  rewrite !decide_False by (by intros ->). lia.
Qed.

Lemma set_oracle_effect P s c : effect [SOracle] P (ch_world c) (ch_world (set_ch_oracle s c)).
Proof. apply effect_write; [stores|reflexivity]. Qed.

(** A message of the oracle writes the oracle's store and charges nobody. *)
Lemma oracle_handler_effect ctx c m c' :
  oracle_NewHandler ctx c m = Ok c' →
  effect [SOracle] nobody (ch_world c) (ch_world c') ∧ ch_staking c' = ch_staking c ∧
  ch_distr c' = ch_distr c.
Proof.
  destruct m; simpl; unfold AggregateExchangeRatePrevote, AggregateExchangeRateVote,
    DelegateFeedConsent; intros E; inv_ok E; subst; (split; [apply set_oracle_effect|done]).
Qed.

Lemma oracle_proposal_effect c p c' :
  HandleRegisterTargetProposal c p = Ok c' → effect [SOracle] nobody (ch_world c) (ch_world c').
Proof.
  unfold HandleRegisterTargetProposal. intros E. inv_ok E. subst. apply set_oracle_effect.
Qed.

Context `{!GoSort, !MapOrder}.

(** What the end of a vote period and of a slash window may charge: rewards go
    from the oracle's account to the distribution module. *)
Definition oracle_payers (a : Addr) : Prop := a = oracle_addr ∨ a = distr_addr.

Lemma tally_period_effect P c c' t claims :
  tally_period c = Ok (c', t, claims) → effect [SOracle] P (ch_world c) (ch_world c').
Proof.
  unfold tally_period, tally_ballots. intros E. inv_ok E; simplify_eq; inv_ok E2; simplify_eq;
    apply effect_write; [stores|reflexivity|stores|reflexivity].
Qed.

Lemma RewardBallotWinners_effect S c vp win targets claims c' :
  RewardBallotWinners c vp win targets claims = Ok c' →
  effect S oracle_payers (ch_world c) (ch_world c').
Proof.
  unfold RewardBallotWinners. cbv zeta. intros E. destruct (_ =? 0) in E; [by injection E as <-|].
  inv_ok E. destruct (SendCoinsFromModuleToModule _ _ _ _) as [b| |] eqn:Es; try discriminate E.
  injection E as <-. split; [by intros []|]. simpl.
  apply SendCoinsFromModuleToModule_Ok in Es. eapply transferred_within; [exact Es|by left|by right].
Qed.

Lemma slash_effect P ctx c c' :
  SlashAndResetMissCounters ctx c = Ok c' → effect [SOracle] P (ch_world c) (ch_world c').
Proof.
  unfold SlashAndResetMissCounters. intros E. inv_ok E. clear E0 E1.
  revert E. generalize (IterateMissCounters (ch_oracle c)). intros l. generalize c at 2 3.
  induction l as [|e l IH]; intros c0 E; simpl in E; [by injection E as <-|].
  apply bind_Ok in E as (c1 & E1 & E). transitivity (ch_world c1); [|by apply IH].
  unfold slash_operator in E1. inv_ok E1; simplify_eq;
    (apply effect_write; [stores|reflexivity]).
Qed.

Lemma oracle_end_effect ctx c c' :
  oracle_EndBlocker ctx c = Ok c' → effect [SOracle] oracle_payers (ch_world c) (ch_world c').
Proof.
  unfold oracle_EndBlocker. cbv zeta. intros E. apply bind_Ok in E as (last & _ & E).
  apply bind_Ok in E as (c1 & E1 & E). transitivity (ch_world c1).
  - destruct last; [|by injection E1 as <-]. unfold end_vote_period in E1.
    apply bind_Ok in E1 as ([[c2 t] claims] & E2 & E1). apply bind_Ok in E1 as (c3 & E3 & E1).
    injection E1 as <-. etransitivity; [by eapply tally_period_effect|].
    etransitivity; [by eapply RewardBallotWinners_effect|]. apply set_oracle_effect.
  - apply bind_Ok in E as (slash & _ & E). destruct slash; [by eapply slash_effect|by injection E as <-].
Qed.
End OracleEffects.

(** ** The vesting module *)

(** [FundCommunityPool] moves the coins to the distribution module. *)
Class CommunityPoolLaws `{Sdk, BankKeeper, !CommunityPool} : Prop := {
  FundCommunityPool_Ok b p cs a b' p' :
    FundCommunityPool b p cs a = Ok (b', p') → transferred b b' a distr_addr cs;
}.

Section VestingEffects.
Context `{!Sdk, !SdkExt, !CoinParser, !BankKeeper, !NftKeeper, !AccountKeeper, !CommunityPool}.
Context `{!SdkLaws, !BankLaws, !CommunityPoolLaws}.
Implicit Types (ctx : Ctx) (w : World) (c : VChain).

Inductive vesting_msg :=
| XAddAirdrops (m : MsgAddAirdrops)
| XExecuteAirdrops (m : MsgExecuteAirdrops)
| XSetAllocationAddress (m : MsgSetAllocationAddress).

Definition vesting_handler w (m : vesting_msg) : outcome World :=
  match m with
  | XAddAirdrops m => AddAirdrops w m
  | XExecuteAirdrops m => ExecuteAirdrops w m
  | XSetAllocationAddress m => SetAllocationAddress w m
  end.

Definition vesting_addr : Addr := GetModuleAddress vesting_ModuleName.
Definition vesting_payer (a : Addr) : Prop := a = vesting_addr.

Lemma pay_add_airdrops_effect P l st st' :
  for_each add_airdrop l st = Ok st' → effect [SVesting] P st.1 st'.1.
Proof.
  revert st. induction l as [|x l IH]; intros [w t] E; simpl in E; [by injection E as <-|].
  apply bind_Ok in E as (v & E1 & E). etransitivity; [|by apply IH]. inv_ok E1. subst. simpl. chain.
Qed.

Lemma pay_execute_airdrop_effect w a w' :
  execute_airdrop w a = Ok w' → effect [SVesting] vesting_payer w w'.
Proof.
  apply keeps_use. unfold execute_airdrop.
  assert (vesting_payer (GetModuleAddress vesting_ModuleName)) by done. repeat walk1; chain.
Qed.

Lemma pay_execute_airdrops_effect l n k w w' :
  execute_airdrops l n k w = Ok w' → effect [SVesting] vesting_payer w w'.
Proof.
  revert n w. induction l as [|a l IH]; intros n w E; simpl in E; [by injection E as <-|].
  apply bind_Ok in E as (v & E1%pay_execute_airdrop_effect & E). etransitivity; [exact E1|].
  destruct (_ <=? _) in E; [by injection E as <-|by eapply IH].
Qed.

(** A vesting message mints from the module's account and charges nobody
    else. *)
Lemma vesting_handler_effect w m w' :
  vesting_handler w m = Ok w' → effect [SVesting] vesting_payer w w'.
Proof.
  destruct m as [m|m|m]; simpl; intros E.
  - unfold AddAirdrops in E. inv_ok E. subst.
    apply (pay_add_airdrops_effect vesting_payer) in E1. simpl in E1. etransitivity; [exact E1|]. chain.
  - unfold ExecuteAirdrops in E. apply bind_Ok in E as (u & _ & E).
    by eapply pay_execute_airdrops_effect.
  - revert E. apply keeps_use. unfold SetAllocationAddress. repeat walk1; chain.
Qed.

(** The accounts whose vested coins are claimed at the end of a block. *)
Definition vesting_accounts (a : Addr) : Prop :=
  a = getVestingAddress StakingRewardVestingName ∨ a = getVestingAddress CommunityPoolVestingName ∨
  a = getVestingAddress TeamVestingName.

Lemma IsAllPositive_nonneg cs d : IsAllPositive cs = true → 0 ≤ coins_amt d cs.
Proof.
  unfold IsAllPositive. intros [_ Hf]%andb_true_iff. apply coins_amt_nonneg.
  apply Forall_forall. intros x Hx. apply Is_true_eq_left, forallb_True, Forall_forall with (x := x) in Hf; [|done].
  apply Is_true_true in Hf. lia.
Qed.

Lemma claim_vested_effect P ctx c vn dn da c' :
  claim_vested ctx c (vn, dn, da) = Ok c' → P (getVestingAddress vn) →
  effect [] P (vc_world c) (vc_world c').
Proof.
  unfold claim_vested. cbv zeta. intros E Hp.
  destruct (IsAllPositive _) eqn:Hn; simpl in E; [|by injection E as <-].
  assert (∀ d, 0 ≤ coins_amt d (SpendableAt ctx (vc_accounts c) (w_bank (vc_world c)) (getVestingAddress vn)))
    as Hc by (intros d; by apply IsAllPositive_nonneg).
  destruct (negb _) in E; [|destruct (negb _) in E].
  - unfold on_world in E. apply bind_Ok in E as (w & E1%pay_must_bank_Ok & E). injection E as <-. simpl.
    by eapply account_to_module_effect.
  - unfold on_world in E. apply bind_Ok in E as (w & E1%pay_must_bank_Ok & E). injection E as <-. simpl.
    by eapply send_effect.
  - destruct (FundCommunityPool _ _ _ _) as [[b p]| |] eqn:Ef; try discriminate E.
    injection E as <-. split; [by intros []|]. simpl.
    apply FundCommunityPool_Ok in Ef. by eapply transferred_pays.
Qed.

Lemma vesting_end_effect ctx c c' :
  vesting_EndBlocker ctx c = Ok c' →
  effect [] vesting_accounts (vc_world c) (vc_world c').
Proof.
  unfold vesting_EndBlocker, ClaimVested. intros E. apply bind_Ok in E as (last & _ & E).
  destruct last; [|by injection E as <-]. apply bind_Ok in E as (team & _ & E).
  cbn [for_each] in E. repeat (apply bind_Ok in E as (? & ?%(claim_vested_effect vesting_accounts) & E);
    [|unfold vesting_accounts; tauto]).
  injection E as <-. repeat (etransitivity; [eassumption|]). reflexivity.
Qed.
End VestingEffects.
