(* ===== verification/Machine.v ===== *)
(** The application ([src/app/app.go]): the modules put together.

    The module manager's lists and the services the modules register decide
    which message reaches which handler and what happens at the start and the
    end of a block.  The modules that are not part of the repository (the SDK's
    governance, crisis, slashing ..., the EVM, IBC, the bridge) with their
    messages, the ante handler, and the bank, erc20 and staking extensions,
    which are modelled on states of their own in [Bank.v], [Erc20Keeper.v] and
    [Staking.v], are the parameters of [OtherModules]. *)

From stdpp Require Import base gmap strings list relations.
From Stdlib Require Import ZArith Lia.
From S2P Require Import Prelude Sdk SdkExt Types MakerTypes VeTypes OracleTypes GaugeTypes VestingTypes World OracleKeeper OracleBallot OracleEnd MakerKeeper MakerCalc MakerMsg MakerGov MakerInv MakerEffects MakerSafety VeKeeper VeVoting VeMsg VeEmission VeInv VeSafety VeHistory Voter Vesting Payments.

#[local] Open Scope string_scope.
#[local] Open Scope Z_scope.

(** ** Modules and their order *)

Inductive module :=
| Mgenutil | Mauth | Mbank | Mcapability | Mfeegrant | Mcrisis | Mgov | Mslashing | Mdistr
| Mstaking | Mupgrade | Mevidence | Mibc | Mparams | Mtransfer | Mevm | Mfeemarket | Merc20
| Moracle | Mmaker | Mnft | Mve | Mgauge | Mvoter | Mvesting | Mgravity | Mbech32ibc.

#[export] Instance module_eq_dec : EqDecision module.
Proof. solve_decision. Defined.

(** [module.NewManager(...)]. *)
Definition app_modules : list module :=
  [Mgenutil; Mauth; Mbank; Mcapability; Mfeegrant; Mcrisis; Mgov; Mslashing; Mdistr; Mstaking;
   Mupgrade; Mevidence; Mibc; Mparams; Mtransfer; Mevm; Mfeemarket; Merc20; Moracle; Mmaker; Mnft;
   Mve; Mgauge; Mvoter; Mvesting; Mgravity; Mbech32ibc].

Definition OrderBeginBlockers : list module :=
  [Mupgrade; Mcapability; Mfeemarket; Mevm; Mdistr; Mslashing; Mevidence; Mstaking; Mibc;
   Mgenutil; Mauth; Mbank; Mfeegrant; Mcrisis; Mgov; Mparams; Mtransfer; Merc20; Moracle; Mmaker;
   Mnft; Mve; Mgauge; Mvoter; Mvesting; Mgravity; Mbech32ibc].

Definition OrderEndBlockers : list module :=
  [Mcrisis; Mgov; Mstaking; Mevm; Mfeemarket; Moracle; Mmaker;
   Mgenutil; Mauth; Mbank; Mcapability; Mfeegrant; Mslashing; Mdistr; Mupgrade; Mevidence; Mibc;
   Mparams; Mtransfer; Merc20; Mnft; Mve; Mgauge; Mvoter; Mvesting; Mgravity; Mbech32ibc].

Definition OrderInitGenesis : list module :=
  [Mcapability; Mauth; Mbank; Mdistr; Mnft; Mve; Mstaking; Mslashing; Mgov; Mcrisis; Mibc;
   Mgenutil; Mevidence; Mtransfer; Moracle; Mevm; Mfeemarket; Mfeegrant; Mparams; Mupgrade;
   Merc20; Mmaker; Mgauge; Mvoter; Mvesting; Mgravity; Mbech32ibc].

(** [assertNoForgottenModules]: the manager panics when a list leaves a module
    out. *)
Definition forgets_no_module (l : list module) : bool :=
  forallb (fun m => bool_decide (m ∈ l)) app_modules.

(** The three lists name every module exactly once. *)
Lemma orders_complete :
  Forall (fun l => forgets_no_module l = true ∧ NoDup l ∧ length l = length app_modules)
    [OrderBeginBlockers; OrderEndBlockers; OrderInitGenesis].
Proof.
  rewrite !Forall_cons.
  split_and!; first [done | apply Forall_nil_2 | apply (bool_decide_unpack _); by vm_compute].
Qed.

(** ** Message services *)

Inductive msg_service :=
| SvcBank | SvcSdkStaking | SvcStaking | SvcErc20 | SvcOracle | SvcMaker | SvcNft | SvcVe
| SvcSdkVesting | SvcVesting.

#[export] Instance msg_service_eq_dec : EqDecision msg_service.
Proof. solve_decision. Defined.

(** What [RegisterServices] of a module of the repository registers on the
    message router; the other modules register services of their own. *)
Definition bank_RegisterServices : list msg_service := [SvcBank].
Definition staking_RegisterServices : list msg_service := [SvcSdkStaking; SvcStaking].
Definition erc20_RegisterServices : list msg_service := [SvcErc20].
Definition oracle_RegisterServices : list msg_service := [SvcOracle].
Definition maker_RegisterServices : list msg_service := [SvcMaker].
Definition nft_RegisterServices : list msg_service := [SvcNft].
(** Only the query service. *)
Definition ve_RegisterServices : list msg_service := [].
Definition gauge_RegisterServices : list msg_service := [].
Definition voter_RegisterServices : list msg_service := [].
Definition vesting_RegisterServices : list msg_service := [SvcSdkVesting; SvcVesting].

Definition RegisterServices (m : module) : list msg_service :=
  match m with
  | Mbank => bank_RegisterServices
  | Mstaking => staking_RegisterServices
  | Merc20 => erc20_RegisterServices
  | Moracle => oracle_RegisterServices
  | Mmaker => maker_RegisterServices
  | Mnft => nft_RegisterServices
  | Mve => ve_RegisterServices
  | Mgauge => gauge_RegisterServices
  | Mvoter => voter_RegisterServices
  | Mvesting => vesting_RegisterServices
  | _ => []
  end.

(** [app.mm.RegisterServices]. *)
Definition registered_services : list msg_service := concat (RegisterServices <$> app_modules).

(** ** Module accounts *)

Inductive Permission := Minter | Burner | Staker.

(** Names of module accounts outside the repository. *)
Class ModuleNames := {
  BondedPoolName : string;
  NotBondedPoolName : string;
  gov_ModuleName : string;
  transfer_ModuleName : string;
  evm_ModuleName : string;
  nft_ModuleName : string;
  gravity_ModuleName : string;
  mgravity_ModuleName : string;
}.

Section Accounts.
Context `{!Sdk, !ModuleNames}.

Definition maccPerms : list (string * list Permission) :=
  [(feeCollectorName, []);
   (distribution_ModuleName, []);
   (BondedPoolName, [Burner; Staker]);
   (NotBondedPoolName, [Burner; Staker]);
   (gov_ModuleName, [Burner]);
   (transfer_ModuleName, [Minter; Burner]);
   (evm_ModuleName, [Minter; Burner]);
   ("erc20", [Minter; Burner]);
   (oracle_ModuleName, []);
   (maker_ModuleName, [Minter; Burner; Staker]);
   (nft_ModuleName, []);
   (ve_ModuleName, [Burner]);
   (EmissionPoolName, [Minter]);
   (DistributionPoolName, []);
   (gauge_ModuleName, []);
   (voter_ModuleName, []);
   (vesting_ModuleName, [Minter]);
   (gravity_ModuleName, [Minter; Burner]);
   (mgravity_ModuleName, [Minter; Burner])].

Definition allowedReceivingModAcc (acc : string) : bool := bool_decide (acc = oracle_ModuleName).

Definition GetMaccPerms : list (string * list Permission) := maccPerms.

(** The addresses of the module accounts, as strings. *)
Definition ModuleAccountAddrs : list string :=
  (fun e => AccAddress_String (GetModuleAddress e.1)) <$> maccPerms.

(** The module accounts with whether transfers to them are refused; a later
    entry of the same address replaces an earlier one. *)
Definition BlockedAddrs : gmap string bool :=
  foldl (fun m e =>
    <[AccAddress_String (GetModuleAddress e.1) := negb (allowedReceivingModAcc e.1)]> m)
    ∅ maccPerms.
End Accounts.

Section BlockedLemmas.
Context `{!Sdk, !SdkLaws, !ModuleNames}.

Lemma blocked_fold (l : list (string * list Permission)) (m : gmap string bool) (n : string) :
  (∀ a b : Addr, AccAddress_String a = AccAddress_String b → a = b) →
  foldl (fun m (e : string * list Permission) =>
    <[AccAddress_String (GetModuleAddress e.1) := negb (allowedReceivingModAcc e.1)]> m) m l
    !! AccAddress_String (GetModuleAddress n) =
  if decide (n ∈ l.*1) then Some (negb (allowedReceivingModAcc n))
  else m !! AccAddress_String (GetModuleAddress n).
Proof.
  intros Hinj. revert m. induction l as [|[x ps] l IH]; intros m; simpl; [done|]. rewrite IH.
  destruct (decide (n ∈ l.*1)); [by rewrite decide_True by set_solver|].
  destruct (decide (n = x)) as [->|Hn].
  - rewrite lookup_insert_eq, decide_True by set_solver. done.
  - rewrite decide_False by set_solver. apply lookup_insert_ne.
    intros E%Hinj%GetModuleAddress_inj. congruence.
Qed.

(** Of the module accounts, the oracle's is the only one that users may send
    coins to; every account of the list is known as a module account. *)
Theorem only_oracle_receives n :
  (∀ a b : Addr, AccAddress_String a = AccAddress_String b → a = b) →
  BlockedAddrs !! AccAddress_String (GetModuleAddress n) =
  (if decide (n ∈ maccPerms.*1) then Some (bool_decide (n ≠ oracle_ModuleName)) else None).
Proof.
  intros Hinj. unfold BlockedAddrs. rewrite blocked_fold by done. case_decide; [|done].
  unfold allowedReceivingModAcc. f_equal. destruct (decide (n = oracle_ModuleName)) as [->|Hn].
  - rewrite bool_decide_true, bool_decide_false by (done || congruence). done.
  - by rewrite bool_decide_false, bool_decide_true.
Qed.

(** The accounts that the modules mint and burn with have the permission. *)
Theorem minters_and_burners :
  (∀ n, n ∈ [maker_ModuleName; EmissionPoolName; vesting_ModuleName; "erc20"] →
     ∃ ps, (n, ps) ∈ maccPerms ∧ Minter ∈ ps) ∧
  (∀ n, n ∈ [maker_ModuleName; ve_ModuleName; "erc20"] → ∃ ps, (n, ps) ∈ maccPerms ∧ Burner ∈ ps).
Proof.
  unfold maccPerms. split; intros n Hn; repeat (apply elem_of_cons in Hn as [->|Hn]); try set_solver;
    eexists; (split; [repeat first [left; reflexivity | right]|set_solver]).
Qed.
End BlockedLemmas.

(** ** Messages and their signers ([types/msgs.go] of the modules) *)

(** The nft module's message; its own checks are the module's. *)
Record nft_MsgSend := mkNftSend {
  ns_ClassId : string; ns_Id : string; ns_Sender : string; ns_Receiver : string }.

Class NftMsgs := {
  nft_MsgSend_ValidateBasic : nft_MsgSend → outcome unit;
  nft_MsgSend_GetSigners : nft_MsgSend → outcome (list Addr);
}.

Inductive AppMsg :=
| AMaker (m : maker_msg)
| AVe (m : ve_msg)
| AOracle (m : OracleMsg)
| AVesting (m : vesting_msg)
| ANft (m : nft_MsgSend).

Section Signers.
Context `{!Sdk, !SdkExt, !CoinParser, !NftMsgs}.

(** [GetSigners] panics when the address does not parse. *)
Definition signer_of (s : string) : outcome (list Addr) :=
  match AccAddressFromBech32 s with Ok a => Ok [a] | _ => Panic end.

Definition MsgMintBySwap_GetSigners (m : MsgMintBySwap) := signer_of (mbs_Sender m).
Definition MsgBurnBySwap_GetSigners (m : MsgBurnBySwap) := signer_of (bbs_Sender m).
Definition MsgBuyBacking_GetSigners (m : MsgBuyBacking) := signer_of (bb_Sender m).
Definition MsgSellBacking_GetSigners (m : MsgSellBacking) := signer_of (sb_Sender m).
Definition MsgMintByCollateral_GetSigners (m : MsgMintByCollateral) := signer_of (mbc_Sender m).
Definition MsgBurnByCollateral_GetSigners (m : MsgBurnByCollateral) := signer_of (bbc_Sender m).
Definition MsgDepositCollateral_GetSigners (m : MsgDepositCollateral) := signer_of (dc_Sender m).
Definition MsgRedeemCollateral_GetSigners (m : MsgRedeemCollateral) := signer_of (rc_Sender m).
Definition MsgLiquidateCollateral_GetSigners (m : MsgLiquidateCollateral) := signer_of (lc_Sender m).

Definition maker_GetSigners (m : maker_msg) : outcome (list Addr) :=
  match m with
  | MMintBySwap m => MsgMintBySwap_GetSigners m
  | MBurnBySwap m => MsgBurnBySwap_GetSigners m
  | MBuyBacking m => MsgBuyBacking_GetSigners m
  | MSellBacking m => MsgSellBacking_GetSigners m
  | MMintByCollateral m => MsgMintByCollateral_GetSigners m
  | MBurnByCollateral m => MsgBurnByCollateral_GetSigners m
  | MDepositCollateral m => MsgDepositCollateral_GetSigners m
  | MRedeemCollateral m => MsgRedeemCollateral_GetSigners m
  | MLiquidateCollateral m => MsgLiquidateCollateral_GetSigners m
  end.

Definition MsgCreate_GetSigners (m : MsgCreate) := signer_of (cr_Sender m).
Definition MsgDeposit_GetSigners (m : MsgDeposit) := signer_of (de_Sender m).
Definition MsgExtendTime_GetSigners (m : MsgExtendTime) := signer_of (et_Sender m).
Definition MsgMerge_GetSigners (m : MsgMerge) := signer_of (VeTypes.me_Sender m).
Definition MsgWithdraw_GetSigners (m : MsgWithdraw) := signer_of (wd_Sender m).

Definition ve_GetSigners (m : ve_msg) : outcome (list Addr) :=
  match m with
  | VCreate m => MsgCreate_GetSigners m
  | VDeposit m => MsgDeposit_GetSigners m
  | VExtendTime m => MsgExtendTime_GetSigners m
  | VMerge m => MsgMerge_GetSigners m
  | VWithdraw m => MsgWithdraw_GetSigners m
  end.

Definition MsgAggregateExchangeRatePrevote_GetSigners (m : MsgAggregateExchangeRatePrevote) :=
  signer_of (mp_Feeder m).
Definition MsgAggregateExchangeRateVote_GetSigners (m : MsgAggregateExchangeRateVote) :=
  signer_of (mv_Feeder m).
(** The account of the operator. *)
Definition MsgDelegateFeedConsent_GetSigners (m : MsgDelegateFeedConsent) : outcome (list Addr) :=
  match ValAddressFromBech32 (md_Operator m) with Ok a => Ok [a] | _ => Panic end.

Definition oracle_GetSigners (m : OracleMsg) : outcome (list Addr) :=
  match m with
  | OPrevote m => MsgAggregateExchangeRatePrevote_GetSigners m
  | OVote m => MsgAggregateExchangeRateVote_GetSigners m
  | ODelegate m => MsgDelegateFeedConsent_GetSigners m
  end.

Definition oracle_ValidateBasic (m : OracleMsg) : outcome unit :=
  match m with
  | OPrevote m => MsgAggregateExchangeRatePrevote_ValidateBasic m
  | OVote m => MsgAggregateExchangeRateVote_ValidateBasic m
  | ODelegate m => MsgDelegateFeedConsent_ValidateBasic m
  end.

Definition MsgAddAirdrops_GetSigners (m : MsgAddAirdrops) := signer_of (ma_Sender m).
Definition MsgExecuteAirdrops_GetSigners (m : MsgExecuteAirdrops) :=
  signer_of (VestingTypes.me_Sender m).
Definition MsgSetAllocationAddress_GetSigners (m : MsgSetAllocationAddress) := signer_of (ms_Sender m).

Definition vesting_GetSigners (m : vesting_msg) : outcome (list Addr) :=
  match m with
  | XAddAirdrops m => MsgAddAirdrops_GetSigners m
  | XExecuteAirdrops m => MsgExecuteAirdrops_GetSigners m
  | XSetAllocationAddress m => MsgSetAllocationAddress_GetSigners m
  end.

Definition vesting_ValidateBasic (m : vesting_msg) : outcome unit :=
  match m with
  | XAddAirdrops m => MsgAddAirdrops_ValidateBasic m
  | XExecuteAirdrops m => MsgExecuteAirdrops_ValidateBasic m
  | XSetAllocationAddress m => MsgSetAllocationAddress_ValidateBasic m
  end.

Definition app_GetSigners (m : AppMsg) : outcome (list Addr) :=
  match m with
  | AMaker m => maker_GetSigners m
  | AVe m => ve_GetSigners m
  | AOracle m => oracle_GetSigners m
  | AVesting m => vesting_GetSigners m
  | ANft m => nft_MsgSend_GetSigners m
  end.

Definition app_ValidateBasic (m : AppMsg) : outcome unit :=
  match m with
  | AMaker m => maker_ValidateBasic m
  | AVe m => ve_ValidateBasic m
  | AOracle m => oracle_ValidateBasic m
  | AVesting m => vesting_ValidateBasic m
  | ANft m => nft_MsgSend_ValidateBasic m
  end.

Definition service_of (m : AppMsg) : msg_service :=
  match m with
  | AMaker _ => SvcMaker
  | AVe _ => SvcVe
  | AOracle _ => SvcOracle
  | AVesting _ => SvcVesting
  | ANft _ => SvcNft
  end.
End Signers.

(** ** The state of the application and its transactions *)

Section App.
Context `{!Sdk, !SdkExt, !CoinParser, !BankKeeper, !NftKeeper, !NftMsgs}.
Context `{!StakingKeeper, !DistrKeeper, !AccountKeeper, !CommunityPool, !GoSort, !MapOrder}.

Record AppState := mkApp {
  app_world : World;
  app_staking : staking_state;
  app_distr : distr_state;
  app_accounts : acct_state;
  app_pool : pool_state;
}.

Implicit Types (a : AppState) (ctx : Ctx) (w : World).

Definition set_app_world w a : AppState :=
  mkApp w (app_staking a) (app_distr a) (app_accounts a) (app_pool a).
Definition app_chain a : Chain := mkChain _ _ _ _ (app_world a) (app_staking a) (app_distr a).
Definition set_chain (c : Chain) a : AppState :=
  mkApp (ch_world c) (ch_staking c) (ch_distr c) (app_accounts a) (app_pool a).
Definition app_vchain a : VChain := mkVChain _ _ _ _ (app_world a) (app_accounts a) (app_pool a).
Definition set_vchain (c : VChain) a : AppState :=
  mkApp (vc_world c) (app_staking a) (app_distr a) (vc_accounts c) (vc_pool c).

Definition in_world (f : World → outcome World) a : outcome AppState :=
  w ← f (app_world a); Ok (set_app_world w a).
Definition in_chain (f : Chain → outcome Chain) a : outcome AppState :=
  c ← f (app_chain a); Ok (set_chain c a).
Definition in_vchain (f : VChain → outcome VChain) a : outcome AppState :=
  c ← f (app_vchain a); Ok (set_vchain c a).

(** The keeper's field [getDelegatedAmount] of the ve module. *)
Context (dlg : option (World → Z → Z)).

(** The message servers' methods. *)
Definition msg_server ctx a (m : AppMsg) : outcome AppState :=
  match m with
  | AMaker m => in_world (fun w => maker_NewHandler ctx w m) a
  | AVe m => in_world (fun w => ve_handler dlg ctx w m) a
  | AOracle m => in_chain (fun c => oracle_NewHandler ctx c m) a
  | AVesting m => in_world (fun w => vesting_handler w m) a
  | ANft m =>
      in_world (fun w => nft_keeper_Send w (ns_ClassId m) (ns_Id m) (ns_Sender m) (ns_Receiver m)) a
  end.

(** The handlers of the old routes ([handler.go]): those of the ve and the
    vesting module know no message; the nft module has none. *)
Definition legacy_handler ctx a (m : AppMsg) : outcome AppState :=
  match m with
  | AMaker m => in_world (fun w => maker_NewHandler ctx w m) a
  | AOracle m => in_chain (fun c => oracle_NewHandler ctx c m) a
  | AVe _ | AVesting _ | ANft _ => Err ErrUnknownRequest
  end.

(** A message with verified signatures of [signed] on an application that
    registered the services [svcs]: the service of the message when it is
    registered, the old route otherwise. *)
Definition deliver (svcs : list msg_service) ctx (signed : list Addr) a (m : AppMsg) :
    outcome AppState :=
  _ ← app_ValidateBasic m;
  signers ← app_GetSigners m;
  fail_if negb (bool_decide (Forall (fun s => s ∈ signed) signers)) with ErrUnauthorized ;;
  if decide (service_of m ∈ svcs) then msg_server ctx a m else legacy_handler ctx a m.

(** ** Proposals: the routes of the governance router

    The routes of the maker and the oracle, and of the parameter changes those
    of the maker; proposals of the other routes (community pool, upgrades, IBC,
    bank, bridge) are work of the other modules. *)

Inductive app_proposal :=
| GMaker (p : maker_proposal)
| GOracle (p : TargetParams)
(* a change of the maker's parameters, checked by the validators of the pairs *)
| GMakerParams (p : MakerParams).

Definition update_maker_params w (p : MakerParams) : outcome World :=
  _ ← validateBackingRatioStep (mp_BackingRatioStep p);
  _ ← validateBackingRatioPriceBand (mp_BackingRatioPriceBand p);
  _ ← validateBackingRatioCooldownPeriod (mp_BackingRatioCooldownPeriod p);
  _ ← validateMintBurnPriceBias (mp_MintPriceBias p);
  _ ← validateMintBurnPriceBias (mp_BurnPriceBias p);
  _ ← validateRebackBonus (mp_RebackBonus p);
  _ ← validateLiquidationCommissionFee (mp_LiquidationCommissionFee p);
  Ok (maker_SetParams w p).

(** The content of a proposal passed [ValidateBasic] when it was submitted. *)
Definition gov_route a (p : app_proposal) : outcome AppState :=
  match p with
  | GMaker p =>
      _ ← maker_proposal_ValidateBasic p;
      in_world (fun w => maker_NewProposalHandler w p) a
  | GOracle p => in_chain (fun c => HandleRegisterTargetProposal c p) a
  | GMakerParams p => in_world (fun w => update_maker_params w p) a
  end.

(** ** Blocks *)

(** The modules outside: the messages of their services (bank, staking, erc20,
    governance, the EVM, IBC, the bridge ...), the ante handler, which charges
    the fees of a transaction to its payer or to who granted them, the work of
    the modules at the start and the end of a block, and of governance the
    proposals whose voting period ends, each with the content when it passed,
    and the settlement of their deposits. *)
Class OtherModules := {
  ext_msg : Type;
  ext_ValidateBasic : ext_msg → outcome unit;
  ext_GetSigners : ext_msg → outcome (list Addr);
  ext_server : Ctx → AppState → ext_msg → outcome AppState;
  ante_handler : Ctx → list Addr → list (AppMsg + ext_msg) → AppState → outcome AppState;
  ext_BeginBlock : module → Ctx → AppState → outcome AppState;
  ext_EndBlock : module → Ctx → AppState → outcome AppState;
  gov_ended : Ctx → AppState → list (Z * option app_proposal);
  gov_settle : Ctx → Z → AppState → outcome AppState;
}.
Context `{!OtherModules}.

(** *** Transactions *)

(** The accounts whose signatures were verified, and the messages. *)
Definition Tx : Type := list Addr * list (AppMsg + ext_msg).

Definition msg_ValidateBasic (m : AppMsg + ext_msg) : outcome unit :=
  match m with inl m => app_ValidateBasic m | inr m => ext_ValidateBasic m end.

Definition msg_GetSigners (m : AppMsg + ext_msg) : outcome (list Addr) :=
  match m with inl m => app_GetSigners m | inr m => ext_GetSigners m end.

(** [validateBasicTxMsgs]: a transaction has messages, and each passes its
    checks. *)
Definition validateBasicTxMsgs (msgs : list (AppMsg + ext_msg)) : outcome unit :=
  fail_if (length msgs =? 0)%nat with ErrInvalidRequest ;;
  for_each (fun _ m => msg_ValidateBasic m) msgs tt.

Definition check_signed (signed : list Addr) (_ : unit) (m : AppMsg + ext_msg) : outcome unit :=
  signers ← msg_GetSigners m;
  fail_if negb (bool_decide (Forall (fun s => s ∈ signed) signers)) with ErrUnauthorized ;; Ok tt.

Definition run_msg svcs ctx (signed : list Addr) a (m : AppMsg + ext_msg) : outcome AppState :=
  match m with inl m => deliver svcs ctx signed a m | inr m => ext_server ctx a m end.

(** What comes before the messages: their checks, the signatures, the fees. *)
Definition run_ante ctx (tx : Tx) a : outcome AppState :=
  _ ← validateBasicTxMsgs tx.2;
  _ ← for_each (check_signed tx.1) tx.2 tt;
  ante_handler ctx tx.1 tx.2 a.

(** [BaseApp.DeliverTx]: the ante handler's writes stay when a message fails,
    those of the messages are dropped together. *)
Definition DeliverTx svcs ctx a (tx : Tx) : AppState :=
  match run_ante ctx tx a with
  | Ok a1 => match for_each (run_msg svcs ctx tx.1) tx.2 a1 with Ok a2 => a2 | _ => a1 end
  | _ => a
  end.

(** *** Begin and end *)

(** The handler of a proposal runs in a branch of the state that is written
    back when it returns no error; a panic ends the block. *)
Definition gov_execute ctx a (e : Z * option app_proposal) : outcome AppState :=
  a ← gov_settle ctx e.1 a;
  match e.2 with
  | None => Ok a
  | Some p => match gov_route a p with Ok a' => Ok a' | Err _ => Ok a | Panic => Panic end
  end.

Definition module_BeginBlock ctx a (m : module) : outcome AppState :=
  match m with
  | Moracle | Mmaker | Mve | Mgauge | Mvoter | Mvesting => Ok a
  | _ => ext_BeginBlock m ctx a
  end.

Definition module_EndBlock ctx a (m : module) : outcome AppState :=
  match m with
  | Mgov => for_each (gov_execute ctx) (gov_ended ctx a) a
  | Moracle => in_chain (oracle_EndBlocker ctx) a
  | Mmaker => in_world (maker_EndBlocker ctx) a
  | Mve => in_world (ve_EndBlocker ctx) a
  | Mgauge => Ok a
  | Mvoter => in_world (voter_EndBlocker ctx) a
  | Mvesting => in_vchain (vesting_EndBlocker ctx) a
  | _ => ext_EndBlock m ctx a
  end.

Definition BeginBlocker ctx a : outcome AppState := for_each (module_BeginBlock ctx) OrderBeginBlockers a.
Definition EndBlocker ctx a : outcome AppState := for_each (module_EndBlock ctx) OrderEndBlockers a.

(** One block: its start, its transactions, its end. *)
Definition run_block svcs ctx (txs : list Tx) a : outcome AppState :=
  a ← BeginBlocker ctx a;
  EndBlocker ctx (fold_left (DeliverTx svcs ctx) txs a).

(** ** Genesis *)

Record AppGenesis := mkAppGenesis {
  ag_ve : string;
  ag_oracle : OracleGenesisState;
  ag_maker : MakerGenesisState;
  ag_vesting : VestingGenesisState;
}.

(** The genesis of the modules in the order of the manager; the others, whose
    states are there already, change no store of these, and those of the gauge
    and the voter have parameters only. *)
Definition module_InitGenesis ctx (gs : AppGenesis) a (m : module) : outcome AppState :=
  match m with
  | Mve => in_world (fun w => ve_InitGenesis w (ag_ve gs)) a
  | Moracle =>
      in_world (fun w => s ← oracle_InitGenesis (w_oracle w) (ag_oracle gs); Ok (set_oracle s w)) a
  | Mmaker => Ok (set_app_world (maker_InitGenesis (app_world a) (ag_maker gs)) a)
  | Mvesting => in_vchain (fun c => vesting_InitGenesis ctx c (ag_vesting gs)) a
  | _ => Ok a
  end.

Definition InitGenesis ctx (gs : AppGenesis) a : outcome AppState :=
  for_each (module_InitGenesis ctx gs) OrderInitGenesis a.
End App.

Arguments AppState {_ _ _ _ _ _}.
