(* ===== verification/MachineProps.v ===== *)
(** Properties of the whole application: nobody pays without signing, the
    modules keep their invariants together, which messages reach their
    handlers, and what the end of a block needs. *)

From stdpp Require Import base gmap strings list relations.
From Stdlib Require Import ZArith Lia.
From S2P Require Import Prelude Sdk SdkExt Types MakerTypes VeTypes OracleTypes GaugeTypes VestingTypes World OracleKeeper OracleBallot OracleEnd MakerKeeper MakerCalc MakerMsg MakerGov MakerInv MakerEffects MakerSafety VeKeeper VeVoting VeMsg VeEmission VeInv VeSafety VeHistory Voter Vesting OracleOrder OracleReward OracleHistory SdkRef SdkExtRef MakerDemo VeDemo OracleProps VestingProps Payments Machine.

#[local] Open Scope string_scope.
#[local] Open Scope Z_scope.

(** A store outside a short list. *)
Ltac store_out :=
  let K := fresh "K" in
  intros K; repeat (apply elem_of_cons in K as [K|K]; [discriminate K|]); by apply elem_of_nil in K.

(** Two modules have different addresses. *)
Ltac names := let K := fresh "K" in intros K; apply GetModuleAddress_inj in K; discriminate K.

(** ** The rest of the chain *)

Section Env.
Context `{!Sdk, !SdkExt, !CoinParser, !BankKeeper, !NftKeeper, !NftMsgs}.
Context `{!StakingKeeper, !DistrKeeper, !AccountKeeper, !CommunityPool, !GoSort, !MapOrder}.
Implicit Types (a b : AppState) (ctx : Ctx) (w : World).

(** The address of some module. *)
Definition is_module (x : Addr) : Prop := ∃ n, x = GetModuleAddress n.

(** Any account, of a user or of a module, but those of the maker and the ve
    module. *)
Definition outsider (x : Addr) : Prop := x ≠ maker_addr ∧ x ≠ ve_addr.

(** What the other modules do, by their messages, in the ante handler and at
    the start and the end of a block: transfers, fees, fee grants, conversions,
    EVM calls, delegations ... move coins of any account but the maker's and the
    ve module's, for which nobody can sign, and leave the stores of these
    modules alone; and slashing a validator slashes the locks delegated to it. *)
Inductive env_step ctx : AppState → AppState → Prop :=
| env_outside a b : effect [] outsider (app_world a) (app_world b) → env_step ctx a b
| env_slash a veID x w :
    is_Some (vs_LockedAmountByUser (w_ve (app_world a)) !! veID) →
    x ≤ lb_Amount (GetLockedAmountByUser (app_world a) veID) →
    SlashLockedAmountByUser ctx (app_world a) veID x = Ok w → env_step ctx a (set_app_world w a).

Class OtherModulesLaws `{!OtherModules} : Prop := {
  ext_server_Ok ctx a m b : ext_server ctx a m = Ok b → rtc (env_step ctx) a b;
  ante_handler_Ok ctx signed msgs a b : ante_handler ctx signed msgs a = Ok b → rtc (env_step ctx) a b;
  ext_BeginBlock_Ok m ctx a b : ext_BeginBlock m ctx a = Ok b → rtc (env_step ctx) a b;
  ext_EndBlock_Ok m ctx a b : ext_EndBlock m ctx a = Ok b → rtc (env_step ctx) a b;
  gov_settle_Ok ctx i a b : gov_settle ctx i a = Ok b → rtc (env_step ctx) a b;
}.

(** The accounts a message names are users' accounts. *)
Definition app_users (m : AppMsg) : Prop :=
  match m with
  | AMaker m => Forall (fun s => ∀ n, AccAddressFromBech32 s ≠ Ok (GetModuleAddress n)) (msg_accounts m)
  | AVe m => ∀ n, AccAddressFromBech32 (ve_sender m) ≠ Ok (GetModuleAddress n)
  | _ => True
  end.
End Env.

Section Laws.
Context `{!Sdk, !SdkExt, !CoinParser, !BankKeeper, !NftKeeper, !NftMsgs}.
Context `{!StakingKeeper, !DistrKeeper, !AccountKeeper, !CommunityPool, !GoSort, !MapOrder}.
Context `{!SdkLaws, !BankLaws, !NftLaws, !CommunityPoolLaws}.
Context (dlg : option (World → Z → Z)) (svcs : list msg_service).
Implicit Types (a b : AppState) (ctx : Ctx) (w : World) (x : Addr).

(** ** Effects of the steps of the application *)

Lemma in_world_Ok f a b : in_world f a = Ok b → ∃ w, f (app_world a) = Ok w ∧ b = set_app_world w a.
Proof. unfold in_world. intros E. apply bind_Ok in E as (w & E1 & E). exists w. split; [done|congruence]. Qed.
Lemma in_chain_Ok f a b : in_chain f a = Ok b → ∃ c, f (app_chain a) = Ok c ∧ b = set_chain c a.
Proof. unfold in_chain. intros E. apply bind_Ok in E as (c & E1 & E). exists c. split; [done|congruence]. Qed.
Lemma in_vchain_Ok f a b : in_vchain f a = Ok b → ∃ c, f (app_vchain a) = Ok c ∧ b = set_vchain c a.
Proof. unfold in_vchain. intros E. apply bind_Ok in E as (c & E1 & E). exists c. split; [done|congruence]. Qed.

Lemma maker_signer m : maker_GetSigners m = signer_of (maker_sender m).
Proof. by destruct m. Qed.
Lemma ve_signer m : ve_GetSigners m = signer_of (ve_sender m).
Proof. by destruct m. Qed.

Lemma signer_of_Ok s l x : signer_of s = Ok l → AccAddressFromBech32 s = Ok x → x ∈ l.
Proof. unfold signer_of. intros E Hx. rewrite Hx in E. injection E as <-. set_solver. Qed.

(** A delivered message passed its checks and ran in one of the two ways. *)
Lemma deliver_Ok ctx signed a m b :
  deliver dlg svcs ctx signed a m = Ok b →
  app_ValidateBasic m = Ok tt ∧
  (∃ l, app_GetSigners m = Ok l ∧ Forall (fun s => s ∈ signed) l) ∧
  (msg_server dlg ctx a m = Ok b ∧ service_of m ∈ svcs ∨ legacy_handler ctx a m = Ok b).
Proof.
  unfold deliver. intros E. apply bind_Ok in E as ([] & E1 & E). apply bind_Ok in E as (l & E2 & E).
  apply guard_err_Ok in E as [G E]. apply negb_false_iff, bool_decide_eq_true in G.
  split_and!; [done|eauto|]. destruct (decide _); auto.
Qed.

Lemma legacy_server ctx a m b : legacy_handler ctx a m = Ok b → msg_server dlg ctx a m = Ok b.
Proof. by destruct m. Qed.

(** Whose coins a message may take: those of its signers and of modules. *)
Definition may_pay (l : list Addr) x : Prop := x ∈ l ∨ is_module x.

Definition all_stores : list store := [SMaker; SOracle; SVe; SGauge; SVoter; SVesting; SNft].

Lemma all_stores_in (S : list store) s : s ∈ S → s ∈ all_stores.
Proof. intros _. unfold all_stores. destruct s; repeat first [left; reflexivity | right]. Qed.

Lemma server_pays ctx a m b l :
  msg_server dlg ctx a m = Ok b → app_GetSigners m = Ok l →
  effect all_stores (may_pay l) (app_world a) (app_world b).
Proof.
  intros E Hl. destruct m as [m|m|m|m|m]; simpl in E, Hl.
  - apply in_world_Ok in E as (w & E%maker_handler_effect & ->). rewrite maker_signer in Hl.
    eapply effect_mono; [exact E|apply all_stores_in|]. intros x [->|Hx]; [right; by eexists|left; by eapply signer_of_Ok].
  - apply in_world_Ok in E as (w & E%ve_handler_effect & ->). rewrite ve_signer in Hl.
    eapply effect_mono; [exact E|apply all_stores_in|]. intros x [->|Hx]; [right; by eexists|left; by eapply signer_of_Ok].
  - apply in_chain_Ok in E as (c & [E _]%oracle_handler_effect & ->).
    eapply effect_mono; [exact E|apply all_stores_in|by intros x []].
  - apply in_world_Ok in E as (w & E%vesting_handler_effect & ->).
    eapply effect_mono; [exact E|apply all_stores_in|]. intros x ->. right. by eexists.
  - apply in_world_Ok in E as (w & E%nft_send_effect & ->).
    eapply effect_mono; [exact E|apply all_stores_in|by intros x []].
Qed.

Lemma slash_lock_effect ctx w (i x : Z) w' :
  SlashLockedAmountByUser ctx w i x = Ok w' → effect [SVe] (eq ve_addr) w w'.
Proof.
  unfold SlashLockedAmountByUser. intros E. inv_ok E.
  destruct (on_bank _ w) as [w1| |] eqn:Eb; try discriminate. injection E2 as <-.
  transitivity w1; [by eapply pay_burn_effect|]. eapply (user_checkpoint_effect [SVe] (eq ve_addr)) in E; [|left].
  etransitivity; [|exact E]. apply effect_write; [stores|reflexivity].
Qed.

Lemma update_params_effect P w p w' : update_maker_params w p = Ok w' → effect [SMaker] P w w'.
Proof. apply keeps_use. unfold update_maker_params. repeat walk1. chain. Qed.

Lemma gov_route_effect a p b :
  gov_route a p = Ok b → effect [SMaker; SOracle] nobody (app_world a) (app_world b).
Proof.
  destruct p as [p|p|p]; simpl; intros E.
  - apply bind_Ok in E as (? & _ & E). apply in_world_Ok in E as (w & E%maker_proposal_effect & ->).
    eapply effect_mono; [exact E|set_solver|done].
  - apply in_chain_Ok in E as (c & E%oracle_proposal_effect & ->).
    eapply effect_mono; [exact E|set_solver|done].
  - apply in_world_Ok in E as (w & E & ->). eapply effect_mono; [by eapply (update_params_effect nobody)|set_solver|done].
Qed.

Context `{!OtherModules}.

(** The modules of the repository with work at the end of a block. *)
Definition end_modules : list module := [Moracle; Mmaker; Mve; Mgauge; Mvoter; Mvesting].

Ltac end_cases Hm :=
  unfold end_modules in Hm; repeat (apply elem_of_cons in Hm as [->|Hm]); [..|by apply elem_of_nil in Hm].

(** The end of a block takes coins from module accounts only. *)
Lemma module_end_pays ctx a m b :
  m ∈ end_modules → module_EndBlock ctx a m = Ok b →
  effect all_stores is_module (app_world a) (app_world b).
Proof.
  intros Hm E. end_cases Hm; simpl in E.
  - apply in_chain_Ok in E as (c & E%oracle_end_effect & ->).
    eapply effect_mono; [exact E|apply all_stores_in|]. intros x [->| ->]; by eexists.
  - apply in_world_Ok in E as (w & E%maker_end_effect & ->). eapply effect_mono; [exact E|apply all_stores_in|by intros ? []].
  - apply in_world_Ok in E as (w & E & ->). eapply (ve_end_effect [SVe] is_module) in E; [|left].
    eapply effect_mono; [exact E|apply all_stores_in|done].
  - by injection E as <-.
  - apply in_world_Ok in E as (w & E & ->). rewrite voter_end in E. by injection E as <-.
  - apply in_vchain_Ok in E as (c & E%vesting_end_effect & ->).
    eapply effect_mono; [exact E|apply all_stores_in|]. intros x [->|[->| ->]]; by eexists.
Qed.

(** A delivered message takes coins from its signers, all of whom signed, and
    from module accounts. *)
Lemma deliver_pays ctx signed a m b :
  deliver dlg svcs ctx signed a m = Ok b →
  ∃ l, app_GetSigners m = Ok l ∧ Forall (fun s => s ∈ signed) l ∧
    effect all_stores (may_pay l) (app_world a) (app_world b).
Proof.
  intros (_ & (l & Hl & Hs) & E)%deliver_Ok. exists l. split_and!; [done..|].
  apply (server_pays ctx a m); [|done]. destruct E as [[? _]|?%legacy_server]; done.
Qed.

(** The account [x] signs a message of the modules of the repository. *)
Definition signs x (m : AppMsg) : Prop := ∃ l, app_GetSigners m = Ok l ∧ x ∈ l.

Lemma unsigned_msgs ctx signed (ms : list AppMsg) a b x d :
  for_each (run_msg dlg svcs ctx signed) (inl <$> ms) a = Ok b → ¬ is_module x →
  Forall (fun m => ¬ signs x m) ms →
  bal (w_bank (app_world a)) x d ≤ bal (w_bank (app_world b)) x d.
Proof.
  intros E Hx Hs. revert a E. induction Hs as [|m ms Hm _ IH]; intros a E; simpl in E; [by injection E as <-|].
  apply bind_Ok in E as (c & (l & Hl & _ & E1)%deliver_pays & E). etransitivity; [|by apply IH].
  apply E1. intros [Hin|Hmod]; [apply Hm; by exists l|done].
Qed.

(** C1. Nobody pays without signing.  An account that is not a module's loses
    no coin of any denomination by a message of these modules (maker, ve,
    oracle, vesting, nft) that it does not sign, in whatever transaction the
    message is; by a whole transaction of such messages, beyond what the ante
    handler charged before them; by a proposal of the maker or the oracle or a
    change of the maker's parameters that is executed; and by what the oracle,
    maker, ve, gauge, voter and vesting modules do at the end of a block.  Fees
    and fee grants, which the ante handler takes, and the messages of the other
    modules (a transfer, an ERC-20 allowance in the EVM) are outside of it: the
    theorem assumes nothing of them. *)
Theorem nobody_pays_unsigned x d :
  ¬ is_module x →
  (∀ ctx signed a m b, deliver dlg svcs ctx signed a m = Ok b → ¬ signs x m ∨ x ∉ signed →
     bal (w_bank (app_world a)) x d ≤ bal (w_bank (app_world b)) x d) ∧
  (∀ ctx signed ms a b, run_ante ctx (signed, inl <$> ms) a = Ok b → Forall (fun m => ¬ signs x m) ms →
     bal (w_bank (app_world b)) x d ≤
     bal (w_bank (app_world (DeliverTx dlg svcs ctx a (signed, inl <$> ms)))) x d) ∧
  (∀ a p b, gov_route a p = Ok b → bal (w_bank (app_world a)) x d ≤ bal (w_bank (app_world b)) x d) ∧
  (∀ ctx a m b, m ∈ end_modules → module_EndBlock ctx a m = Ok b →
     bal (w_bank (app_world a)) x d ≤ bal (w_bank (app_world b)) x d).
Proof.
  intros Hx. split_and!.
  - intros ctx signed a m b (l & Hl & Hf & E)%deliver_pays Hs. apply E. intros [Hin|Hm]; [|done].
    destruct Hs as [Hs|Hs]; apply Hs; [by exists l|by eapply Forall_forall in Hf].
  - intros ctx signed ms a b Ha Hs. unfold DeliverTx. rewrite Ha. simpl.
    destruct (for_each _ _ _) as [c| |] eqn:E; [by eapply unsigned_msgs|lia..].
  - intros a p b E%gov_route_effect. apply E. by intros [].
  - intros ctx a m b Hm E. apply module_end_pays in E; [|done]. by apply E.
Qed.

(** ** The application as a state machine *)

Context `{!OtherModulesLaws}.

(** What others may write besides: the parameters of the oracle, gauge, voter
    and vesting modules, by proposals. *)
Definition other_stores : list store := [SOracle; SGauge; SVoter; SVesting].

Inductive app_step ctx : AppState → AppState → Prop :=
| app_tx a signed m b : app_users m → deliver dlg svcs ctx signed a m = Ok b → app_step ctx a b
| app_passed a p b : gov_route a p = Ok b → app_step ctx a b
| app_end a m b : m ∈ end_modules → module_EndBlock ctx a m = Ok b → app_step ctx a b
| app_env a b : env_step ctx a b → app_step ctx a b
| app_other a b : effect other_stores outsider (app_world a) (app_world b) → app_step ctx a b.

(** Before genesis the modules have stored nothing. *)
Record pre_genesis (gs : AppGenesis) a : Prop := {
  pg_maker : empty_store (w_maker (app_world a));
  pg_ve : ve_store_empty (app_world a);
  pg_class : nft_HasClass (w_nft (app_world a)) VeNftClassId = false;
  pg_tokens s : nft_HasNFT (w_nft (app_world a)) VeNftClassId s = false;
  pg_coins x d : 0 ≤ bal (w_bank (app_world a)) x d;
  pg_valid : maker_GenesisState_Validate (ag_maker gs) = Ok tt;
}.

(** States reachable at a block time from genesis, with block times that do not
    go back and before 2^62 checkpoints were made. *)
Inductive app_reach (gs : AppGenesis) : Z → AppState → Prop :=
| app_genesis ctx a b :
    pre_genesis gs a → 0 ≤ BlockTime ctx < 2 ^ 63 → InitGenesis ctx gs a = Ok b →
    app_reach gs (BlockTime ctx) b
| app_run t a ctx b :
    app_reach gs t a → t ≤ BlockTime ctx < 2 ^ 63 → app_step ctx a b →
    GetEpoch (app_world b) < 2 ^ 62 → app_reach gs (BlockTime ctx) b.

(** ** A block is a sequence of steps *)

Lemma env_steps ctx a b : rtc (env_step ctx) a b → rtc (app_step ctx) a b.
Proof. induction 1 as [|x y z St _ IH]; [reflexivity|]. eapply rtc_l; [by apply app_env|exact IH]. Qed.

Lemma for_each_steps {A} (R : relation AppState) (f : AppState → A → outcome AppState) (l : list A) a b :
  (∀ a (y : A) b, f a y = Ok b → rtc R a b) → for_each f l a = Ok b → rtc R a b.
Proof.
  intros Hf. revert a. induction l as [|y l IH]; intros a E; simpl in E; [by injection E as <-|].
  apply bind_Ok in E as (c & E1 & E). etransitivity; [by eapply Hf|by apply IH].
Qed.

Lemma gov_execute_steps ctx a e b : gov_execute ctx a e = Ok b → rtc (app_step ctx) a b.
Proof.
  unfold gov_execute. intros E. apply bind_Ok in E as (a1 & E1 & E).
  etransitivity; [by eapply env_steps, gov_settle_Ok|]. destruct e.2 as [p|]; [|by injection E as <-].
  destruct (gov_route a1 p) as [a2| |] eqn:Eg; inversion E; subst; [|reflexivity].
  apply rtc_once. by eapply app_passed.
Qed.

Lemma module_end_steps ctx a m b : module_EndBlock ctx a m = Ok b → rtc (app_step ctx) a b.
Proof.
  intros E. destruct (decide (m ∈ end_modules)) as [Hm|Hm]; [apply rtc_once; by eapply app_end|].
  destruct m; simpl in E; first [by eapply env_steps, ext_EndBlock_Ok | idtac];
    try (destruct Hm; unfold end_modules; set_solver).
  revert E. apply for_each_steps, gov_execute_steps.
Qed.

(** The accounts that the messages of these modules name in a transaction. *)
Definition tx_users (tx : Tx) : Prop :=
  Forall (fun m => match m with inl m => app_users m | inr _ => True end) tx.2.

Lemma DeliverTx_steps ctx a tx : tx_users tx → rtc (app_step ctx) a (DeliverTx dlg svcs ctx a tx).
Proof.
  intros Hu. unfold DeliverTx. destruct (run_ante ctx tx a) as [a1| |] eqn:Ea; [|reflexivity..].
  unfold run_ante in Ea. apply bind_Ok in Ea as (? & _ & Ea). apply bind_Ok in Ea as (? & _ & Ea).
  etransitivity; [by eapply env_steps, ante_handler_Ok|].
  destruct (for_each _ _ _) as [a2| |] eqn:E; [|reflexivity..]. clear a Ea. revert a1 E.
  unfold tx_users in Hu. induction Hu as [|m ms Hm _ IH]; intros a E; simpl in E; [by injection E as <-|].
  apply bind_Ok in E as (c & E1 & E). etransitivity; [|by apply IH].
  destruct m as [m|m]; simpl in E1; [apply rtc_once; by eapply app_tx|by eapply env_steps, ext_server_Ok].
Qed.

Lemma run_block_steps ctx txs a b :
  Forall tx_users txs → run_block dlg svcs ctx txs a = Ok b → rtc (app_step ctx) a b.
Proof.
  intros Hu E. unfold run_block in E. apply bind_Ok in E as (a1 & E1 & E).
  apply (for_each_steps (app_step ctx)) in E1; cycle 1.
  { intros a0 m b0 E0. destruct m; simpl in E0;
      first [by injection E0 as <- | by eapply env_steps, ext_BeginBlock_Ok]. }
  apply (for_each_steps (app_step ctx)) in E; [|apply module_end_steps].
  etransitivity; [exact E1|etransitivity; [|exact E]]. clear E E1.
  revert a1. induction Hu as [|tx txs Hx _ IH]; intros a1; simpl; [reflexivity|].
  etransitivity; [by apply DeliverTx_steps|apply IH].
Qed.

(** ** Each module sees a run of its own machine *)

Lemma maker_step_params ctx w w' :
  maker_step ctx w w' → maker_inv (w_maker w) → ms_Params (w_maker w') = ms_Params (w_maker w).
Proof.
  intros [ctx' w0 m w1 Hv Hu E|ctx' w0 p w1 Hv E|ctx' w0 w1 E] I.
  - destruct (maker_NewHandler_effect _ _ _ _ I Hv Hu E)
      as [(d & k & y & i & [(p & t & _ & _ & Es) _ _ _])
      |(z & d & c & g & i & n & k & [(y & p & t & z' & _ & _ & _ & _ & Es) _ _ _] & _)];
      by rewrite Es.
  - by destruct (maker_NewProposalHandler_effect _ _ _ Hv E) as [_ Hp _ _ _ _].
  - by apply AdjustBackingRatio_frame in E as (_ & _ & ? & _).
Qed.

Lemma Params_Validate_valid p : maker_Params_Validate p = Ok tt → params_valid p.
Proof.
  unfold maker_Params_Validate. intros E. inv_ok E. zbool. unfold OneDec, precision in *.
  split_and!; unfold validateBackingRatioStep, validateBackingRatioPriceBand,
    validateBackingRatioCooldownPeriod, validateMintBurnPriceBias, validateRebackBonus,
    validateLiquidationCommissionFee, guard_err, OneDec, precision;
    repeat match goal with |- context [if ?c then _ else _] => destruct c eqn:? end; zbool; done || lia.
Qed.

Lemma maker_reach_params gs w : maker_reach gs w → params_valid (ms_Params (w_maker w)).
Proof.
  induction 1 as [w He Hb Hg|ctx w w' R IH Hs|w w' _ _ [(p & Hp & Hm) _]].
  - by apply Params_Validate_valid.
  - rewrite (maker_step_params _ _ _ Hs); [done|]. by apply (maker_reach_inv gs).
  - by rewrite Hm.
Qed.

Lemma maker_reach_frame gs S P w w' :
  maker_reach gs w → effect S P w w' → SMaker ∉ S → ¬ P maker_addr → maker_reach gs w'.
Proof.
  intros R [Es Ep] HS HP. eapply reach_other; [exact R|]. split.
  - exists (ms_Params (w_maker w)). split; [by eapply maker_reach_params|].
    rewrite (Es SMaker HS). unfold maker_SetParams. simpl. by destruct (w_maker w).
  - intros d. by apply Ep.
Qed.

Lemma ve_reach_frame denom t ctx S P w w' :
  ve_reach dlg denom t w → effect S P w w' → SVe ∉ S → SNft ∉ S → ¬ P ve_addr →
  t ≤ BlockTime ctx < 2 ^ 63 → ve_reach dlg denom (BlockTime ctx) w'.
Proof.
  intros R [Es Ep] K1 K2 HP Ht. pose proof (Es SVe K1) as Ev. simpl in Ev.
  apply (ve_reach_step _ _ t w); [done..| |].
  - apply VeOther; [done|by apply (Es SNft)|]. unfold lbal, LockDenom. rewrite Ev.
    by apply Ep.
  - destruct (ve_reach_hist dlg _ _ _ R) as (_ & _ & He). unfold GetEpoch in *. by rewrite Ev.
Qed.

(** Both modules at once. *)
Definition both gs denom t w : Prop := maker_reach gs w ∧ ve_reach dlg denom t w.

Lemma both_frame gs denom t ctx S P w w' :
  both gs denom t w → effect S P w w' → SMaker ∉ S → SVe ∉ S → SNft ∉ S →
  ¬ P maker_addr → ¬ P ve_addr → t ≤ BlockTime ctx < 2 ^ 63 → both gs denom (BlockTime ctx) w'.
Proof.
  intros [R1 R2] E ??????. split; [by eapply maker_reach_frame|by eapply ve_reach_frame].
Qed.

Lemma ve_not_charged m : app_users (AMaker m) → ¬ charged maker_addr (maker_sender m) ve_addr.
Proof.
  intros Hu [E|E]; [revert E; names|]. simpl in Hu. rewrite Forall_forall in Hu.
  apply (Hu (maker_sender m)) in E; [done|]. destruct m; simpl; left.
Qed.

Lemma maker_not_charged m : app_users (AVe m) → ¬ charged ve_addr (ve_sender m) maker_addr.
Proof. intros Hu [E|E]; [revert E; names|]. by apply Hu in E. Qed.

Lemma users_accounts m : app_users (AMaker m) → user_accounts m.
Proof. intros Hu. eapply Forall_impl; [exact Hu|]. intros s Hs. apply (Hs maker_ModuleName). Qed.

Section Step.
Context (gs : MakerGenesisState) (denom : string) (t : Z) (ctx : Ctx).
Hypothesis Ht : t ≤ BlockTime ctx < 2 ^ 63.

Lemma server_both a m b :
  both gs denom t (app_world a) → app_ValidateBasic m = Ok tt → app_users m →
  msg_server dlg ctx a m = Ok b → GetEpoch (app_world b) < 2 ^ 62 →
  both gs denom (BlockTime ctx) (app_world b).
Proof.
  intros R Hv Hu E He. destruct m as [m|m|m|m|m]; simpl in E, Hv.
  - apply in_world_Ok in E as (w & E & ->). simpl in *. destruct R as [R1 R2]. split.
    + eapply reach_step; [exact R1|]. by apply (step_msg ctx _ m); [|apply users_accounts|].
    + apply maker_handler_effect in E. eapply ve_reach_frame; [exact R2|exact E|store_out..|by apply ve_not_charged|done].
  - apply in_world_Ok in E as (w & E & ->). simpl in *. destruct R as [R1 R2]. split.
    + apply ve_handler_effect in E. eapply maker_reach_frame; [exact R1|exact E|store_out|by apply maker_not_charged].
    + eapply ve_reach_step; [exact R2|done| |done]. apply (VeDeliver dlg ctx _ m); [done|apply (Hu ve_ModuleName)|done].
  - apply in_chain_Ok in E as (c & [E _]%oracle_handler_effect & ->).
    eapply both_frame; [exact R|exact E|store_out..|by intros []|by intros []|done].
  - apply in_world_Ok in E as (w & E%vesting_handler_effect & ->).
    eapply both_frame; [exact R|exact E|store_out..|names|names|done].
  - apply in_world_Ok in E as (w & E & ->). simpl in *. destruct R as [R1 R2]. split.
    + apply nft_send_effect in E. eapply maker_reach_frame; [exact R1|exact E|store_out|by intros []].
    + eapply ve_reach_step; [exact R2|done| |done]. by eapply VeSendToken.
Qed.

Lemma params_update w p w' :
  update_maker_params w p = Ok w' → params_valid p ∧ w' = maker_SetParams w p.
Proof.
  unfold update_maker_params. intros E. inv_ok E. split; [|congruence].
  repeat match goal with r : unit |- _ => destruct r end. by split_and!.
Qed.

Lemma gov_both a p b :
  both gs denom t (app_world a) → gov_route a p = Ok b → both gs denom (BlockTime ctx) (app_world b).
Proof.
  intros R E. destruct p as [p|p|p]; simpl in E.
  - apply bind_Ok in E as ([] & Hv & E). apply in_world_Ok in E as (w & E & ->). destruct R as [R1 R2]. split.
    + eapply reach_step; [exact R1|]. by apply (step_proposal ctx _ p).
    + apply maker_proposal_effect in E. eapply ve_reach_frame; [exact R2|exact E|store_out..|by intros []|done].
  - apply in_chain_Ok in E as (c & E%oracle_proposal_effect & ->).
    eapply both_frame; [exact R|exact E|store_out..|by intros []|by intros []|done].
  - apply in_world_Ok in E as (w & E & ->). destruct R as [R1 R2]. split.
    + apply params_update in E as [Hp ->]. eapply reach_other; [exact R1|]. split; [by exists p|]. intros d. apply Z.le_refl.
    + eapply ve_reach_frame; [exact R2|by eapply (update_params_effect nobody)|store_out..|by intros []|done].
Qed.

Lemma end_both a m b :
  both gs denom t (app_world a) → m ∈ end_modules → module_EndBlock ctx a m = Ok b →
  GetEpoch (app_world b) < 2 ^ 62 → both gs denom (BlockTime ctx) (app_world b).
Proof.
  intros R Hm E He. assert (effect [] nobody (app_world a) (app_world a)) as Kr by reflexivity.
  unfold end_modules in Hm. repeat (apply elem_of_cons in Hm as [->|Hm]); [..|by apply elem_of_nil in Hm]; simpl in E.
  - apply in_chain_Ok in E as (c & E%oracle_end_effect & ->).
    eapply both_frame; [exact R|exact E|store_out..| | |done]; (intros [E0|E0]; revert E0; names).
  - apply in_world_Ok in E as (w & E & ->). destruct R as [R1 R2]. split.
    + eapply reach_step; [exact R1|]. by apply (step_end_block ctx).
    + apply maker_end_effect in E. eapply ve_reach_frame; [exact R2|exact E|store_out..|by intros []|done].
  - apply in_world_Ok in E as (w & E & ->). destruct R as [R1 R2]. split.
    + eapply (ve_end_effect [SVe] nobody) in E; [|left].
      eapply maker_reach_frame; [exact R1|exact E|store_out|by intros []].
    + eapply ve_reach_step; [exact R2|done| |done]. by apply VeEndBlock.
  - injection E as <-. eapply both_frame; [exact R|exact Kr|store_out..|by intros []|by intros []|done].
  - apply in_world_Ok in E as (w & E & ->). rewrite voter_end in E. injection E as <-. simpl.
    eapply both_frame; [exact R|exact Kr|store_out..|by intros []|by intros []|done].
  - apply in_vchain_Ok in E as (c & E%vesting_end_effect & ->).
    eapply both_frame; [exact R|exact E|store_out..| | |done]; (intros [E0|[E0|E0]]; revert E0; names).
Qed.

Lemma env_both a b :
  both gs denom t (app_world a) → env_step ctx a b → GetEpoch (app_world b) < 2 ^ 62 →
  both gs denom (BlockTime ctx) (app_world b).
Proof.
  intros R St He. destruct St as [a b E|a i x w Hs Hx E].
  - eapply both_frame; [exact R|exact E|store_out..| | |done]; intros [? ?]; done.
  - destruct R as [R1 R2]. simpl in *. split.
    + eapply maker_reach_frame; [exact R1|by eapply slash_lock_effect|store_out|]. names.
    + eapply ve_reach_step; [exact R2|done| |done]. by eapply VeSlash.
Qed.

Lemma app_step_both a b :
  both gs denom t (app_world a) → app_step ctx a b → GetEpoch (app_world b) < 2 ^ 62 →
  both gs denom (BlockTime ctx) (app_world b).
Proof.
  intros R St He. destruct St as [a signed m b Hu E|a p b E|a m b Hm E|a b E|a b E].
  - apply deliver_Ok in E as (Hv & _ & E).
    eapply server_both; [exact R|exact Hv|exact Hu| |done]. destruct E as [[? _]|?%legacy_server]; done.
  - by eapply gov_both.
  - by eapply end_both.
  - by eapply env_both.
  - eapply both_frame; [exact R|exact E|store_out..| | |done]; intros [? ?]; done.
Qed.
End Step.

(** ** Genesis *)

Lemma allocation_effect c vn amount st dur c' :
  createContinuousVestingAccount c vn amount st dur = Ok c' →
  effect [SVesting] vesting_payer (vc_world c) (vc_world c').
Proof.
  unfold createContinuousVestingAccount. intros E.
  apply bind_Ok in E as (amt & _ & E). apply bind_Ok in E as (cs & Hc & E).
  apply bind_Ok in E as (acc & _ & E). apply bind_Ok in E as (w1 & E1%pay_must_bank_Ok & E).
  apply bind_Ok in E as (w2 & E2%pay_must_bank_Ok & E). injection E as <-. simpl.
  transitivity w1; [eapply mint_effect|eapply module_to_account_effect]; eauto using NewCoins_nonneg. done.
Qed.

(** The allocation of the vesting module: coins of its own, then the emission
    of the ve module, then coins of its own. *)
Lemma vesting_genesis_parts ctx c vgs c' :
  vesting_InitGenesis ctx c vgs = Ok c' →
  effect [SVesting] vesting_payer (vc_world c) (vc_world c') ∨
  ∃ w1 (x : Z) w2, effect [SVesting] vesting_payer (vc_world c) w1 ∧ AddTotalEmission w1 x = Ok w2 ∧
    effect [SVesting] vesting_payer w2 (vc_world c').
Proof.
  unfold vesting_InitGenesis. cbv zeta. intros E. apply bind_Ok in E as (cu & _ & E).
  apply bind_Ok in E as (te & _ & E).
  set (c0 := vc_set_world _ c) in E.
  assert (effect [SVesting] vesting_payer (vc_world c) (vc_world c0)) as K0
    by (apply effect_write; [stores|reflexivity]).
  destruct (_ <=? _) in E; [|left; by injection E as <-]. right.
  unfold AllocateAtGenesis in E.
  apply bind_Ok in E as (c1 & E1%allocation_effect & E). apply bind_Ok in E as (c2 & E2%allocation_effect & E).
  apply bind_Ok in E as (c3 & E3%allocation_effect & E). apply bind_Ok in E as (w & Ea & E).
  apply bind_Ok in E as (amt & _ & E). apply bind_Ok in E as (cs & Hc & E).
  apply bind_Ok in E as (w1 & E4%pay_must_bank_Ok & E). apply bind_Ok in E as (cst & _ & E).
  apply bind_Ok in E as (w2 & E5%pay_must_bank_Ok & E). injection E as <-. simpl.
  exists (vc_world c3), (al_VeVestingAmount (vg_Params vgs)), w. split_and!; [|exact Ea|].
  - by etransitivity; [exact K0|etransitivity; [exact E1|etransitivity; [exact E2|exact E3]]].
  - transitivity w1; [eapply mint_effect|eapply module_to_account_effect]; eauto using NewCoins_nonneg. done.
Qed.

Lemma add_emission_effect P w (x : Z) w' : AddTotalEmission w x = Ok w' → effect [SVe] P w w'.
Proof. unfold AddTotalEmission. intros E. inv_ok E. subst. apply effect_write; [stores|reflexivity]. Qed.

Lemma ve_genesis_effect w denom w' : ve_InitGenesis w denom = Ok w' → effect [SVe; SNft] nobody w w'.
Proof.
  unfold ve_InitGenesis. destruct (HasNftClass _); intros E.
  - injection E as <-. apply effect_write; [stores|reflexivity].
  - destruct (SaveNftClass _) as [w1| |] eqn:Es; try discriminate E. injection E as <-.
    unfold SaveNftClass in Es. apply (on_nft_effect [SVe; SNft] nobody) in Es; [|right; left].
    etransitivity; [|etransitivity; [exact Es|]]; (apply effect_write; [stores|reflexivity]).
Qed.

(** Adding to the emission is a step of the ve module only. *)
Lemma emission_both gs denom t ctx w (y : Z) w' :
  both gs denom t w → AddTotalEmission w y = Ok w' → t ≤ BlockTime ctx < 2 ^ 63 →
  both gs denom (BlockTime ctx) w'.
Proof.
  intros [R1 R2] E Ht. split.
  - eapply maker_reach_frame; [exact R1|by eapply (add_emission_effect nobody)|store_out|by intros []].
  - destruct (ve_reach_hist dlg _ _ _ R2) as (_ & _ & He).
    eapply ve_reach_step; [exact R2|done|by eapply VeAddEmission|].
    unfold AddTotalEmission in E. inv_ok E. by subst.
Qed.

Lemma genesis_both gs ctx a b :
  pre_genesis gs a → 0 ≤ BlockTime ctx < 2 ^ 63 → InitGenesis ctx gs a = Ok b →
  both (ag_maker gs) (ag_ve gs) (BlockTime ctx) (app_world b).
Proof.
  intros [Hm Hv Hc Hk Hb Hg] Ht E. unfold InitGenesis, OrderInitGenesis in E.
  simpl in E. apply bind_Ok in E as (a1 & E1 & E). apply in_world_Ok in E1 as (w1 & E1 & ->).
  apply bind_Ok in E as (a2 & E2 & E). apply in_world_Ok in E2 as (w2 & E2 & ->).
  apply bind_Ok in E2 as (s & _ & E2). injection E2 as <-.
  apply bind_Ok in E as (a3 & E3 & E). injection E as <-. apply in_vchain_Ok in E3 as (c & E3 & ->).
  simpl in E3 |- *. set (w3 := maker_InitGenesis (set_oracle s w1) (ag_maker gs)) in E3.
  destruct (ve_genesis_effect _ _ _ E1) as [Fs Fp].
  assert (∀ x d, 0 ≤ bal (w_bank w1) x d) as Hb1.
  { intros x d. etransitivity; [apply (Hb x d)|]. apply Fp. by intros []. }
  assert (both (ag_maker gs) (ag_ve gs) (BlockTime ctx) w3) as R3.
  { split.
    - apply reach_genesis; [|intros d; apply Hb1|done]. simpl. rewrite (Fs SMaker); [done|store_out].
    - eapply (ve_reach_frame _ (BlockTime ctx) _ [SMaker; SOracle] nobody w1); [|apply effect_write; [stores|reflexivity]
        |store_out..|by intros []|lia].
      eapply ve_reach_genesis; [exact Hc|exact Hk|exact Hv|apply Hb1|exact E1|lia]. }
  assert (∀ w w', both (ag_maker gs) (ag_ve gs) (BlockTime ctx) w → effect [SVesting] vesting_payer w w' →
    both (ag_maker gs) (ag_ve gs) (BlockTime ctx) w') as Kv.
  { intros w w' R K0. eapply both_frame; [exact R|exact K0|store_out..|names|names|lia]. }
  apply vesting_genesis_parts in E3 as [E3|(v1 & y & v2 & P1 & P2 & P3)]; [by eapply Kv|].
  eapply Kv; [|exact P3]. eapply (emission_both _ _ (BlockTime ctx)); [|exact P2|lia]. by eapply Kv.
Qed.

(** Every reachable state of the application is reachable for the maker module
    and for the ve module. *)
Lemma app_reach_both gs t a :
  app_reach gs t a → both (ag_maker gs) (ag_ve gs) t (app_world a).
Proof.
  induction 1 as [ctx a b Hp Ht E|t a ctx b _ IH Ht St He]; [by eapply genesis_both|].
  by eapply app_step_both.
Qed.

(** C2. The modules keep their promises together.  In every state the
    application reaches from genesis, whatever services are registered, the
    maker's books agree and its account covers what it owes in every
    denomination, the ve module's account covers the locks, each lock has its
    token and each token its lock, and the state is one that each of the two
    modules reaches on its own.  The steps, in any order, are: messages of these
    modules that name no module account as sender or receiver; executed
    proposals of the maker and the oracle and changes of the maker's parameters;
    ends of blocks; slashes of at most the lock; and anything the rest of the
    chain does (transfers, fees and fee grants, conversions, EVM calls, staking,
    parameters of the oracle, gauge, voter and vesting modules) that takes no
    coins from the accounts of the maker and the ve module and writes neither
    their stores nor the tokens.  So a change of the ve module's parameters is
    no step; block times do not go back and fewer than 2^62 checkpoints were
    made. *)
Theorem modules_keep_promises gs t a :
  app_reach gs t a →
  maker_inv (w_maker (app_world a)) ∧
  (∀ d, obligation (w_maker (app_world a)) d ≤ bal (w_bank (app_world a)) maker_addr d) ∧
  locked_sum (app_world a) ≤ bal (w_bank (app_world a)) ve_addr (LockDenom (app_world a)) ∧
  (∀ s, nft_HasNFT (w_nft (app_world a)) VeNftClassId s = true →
     ∃ veID, s = VeIDFromUint64 veID ∧
       is_Some (vs_LockedAmountByUser (w_ve (app_world a)) !! veID)) ∧
  maker_reach (ag_maker gs) (app_world a) ∧ ve_reach dlg (ag_ve gs) t (app_world a).
Proof.
  intros [R1 R2]%app_reach_both. destruct (maker_reach_inv _ _ R1) as (I & _ & Sl).
  destruct (ve_reach_inv dlg _ _ _ R2) as [_ _ Tk So _].
  split_and!; try done. intros d. specialize (Sl d). unfold slack, mbal in Sl. lia.
Qed.

(** ** Messages without a service *)

Lemma effect_locks S P w w' :
  effect S P w w' → SVe ∉ S → vs_LockedAmountByUser (w_ve w') = vs_LockedAmountByUser (w_ve w).
Proof. intros [Es _] HS. by rewrite (Es SVe HS). Qed.

Lemma emission_locks w (y : Z) w' :
  AddTotalEmission w y = Ok w' → vs_LockedAmountByUser (w_ve w') = vs_LockedAmountByUser (w_ve w).
Proof. unfold AddTotalEmission. intros E. inv_ok E. by subst. Qed.

Lemma genesis_no_locks gs ctx a b :
  pre_genesis gs a → InitGenesis ctx gs a = Ok b → vs_LockedAmountByUser (w_ve (app_world b)) = ∅.
Proof.
  intros [_ (Hv & _) _ _ _ _] E. unfold InitGenesis, OrderInitGenesis in E.
  simpl in E. apply bind_Ok in E as (a1 & E1 & E). apply in_world_Ok in E1 as (w1 & E1 & ->).
  apply bind_Ok in E as (a2 & E2 & E). apply in_world_Ok in E2 as (w2 & E2 & ->).
  apply bind_Ok in E2 as (s & _ & E2). injection E2 as <-.
  apply bind_Ok in E as (a3 & E3 & E). injection E as <-. apply in_vchain_Ok in E3 as (c & E3 & ->).
  simpl in E3 |- *.
  assert (vs_LockedAmountByUser (w_ve w1) = ∅) as Hw.
  { unfold ve_InitGenesis in E1. destruct (HasNftClass _); [by injection E1 as <-|].
    destruct (SaveNftClass _) as [w0| |] eqn:Es; try discriminate E1. injection E1 as <-.
    unfold SaveNftClass, on_nft in Es. inv_ok Es. by subst. }
  apply vesting_genesis_parts in E3 as [E3|(v1 & y & v2 & P1 & P2 & P3)].
  - apply effect_locks in E3; [|store_out]. by rewrite E3.
  - apply effect_locks in P1, P3; [|store_out..]. by rewrite P3, (emission_locks _ _ _ P2), P1.
Qed.

Lemma step_no_locks ctx a b :
  SvcVe ∉ svcs → app_step ctx a b → vs_LockedAmountByUser (w_ve (app_world a)) = ∅ →
  vs_LockedAmountByUser (w_ve (app_world b)) = ∅.
Proof.
  intros Hs St Hn. destruct St as [a signed m b Hu E|a p b E|a m b Hm E|a b E|a b E].
  - apply deliver_Ok in E as (_ & _ & E). assert (service_of m ≠ SvcVe) as Hm.
    { destruct E as [[_ ?] | E]; [by intros Hq; rewrite Hq in *|by destruct m]. }
    assert (msg_server dlg ctx a m = Ok b) as Es by (destruct E as [[? _]|?%legacy_server]; done).
    clear E. destruct m as [m|m|m|m|m]; simpl in Es; [|done|..].
    + apply in_world_Ok in Es as (w & E%maker_handler_effect & ->). simpl. rewrite <- Hn.
      eapply effect_locks; [exact E|store_out].
    + apply in_chain_Ok in Es as (c & [E _]%oracle_handler_effect & ->). simpl. rewrite <- Hn.
      apply (effect_locks _ _ _ _ E). store_out.
    + apply in_world_Ok in Es as (w & E%vesting_handler_effect & ->). simpl. rewrite <- Hn.
      eapply effect_locks; [exact E|store_out].
    + apply in_world_Ok in Es as (w & E%nft_send_effect & ->). simpl. rewrite <- Hn.
      eapply effect_locks; [exact E|store_out].
  - apply gov_route_effect in E. rewrite <- Hn. eapply effect_locks; [exact E|store_out].
  - unfold end_modules in Hm. repeat (apply elem_of_cons in Hm as [->|Hm]); [..|by apply elem_of_nil in Hm]; simpl in E.
    + apply in_chain_Ok in E as (c & E%oracle_end_effect & ->). simpl. rewrite <- Hn. apply (effect_locks _ _ _ _ E). store_out.
    + apply in_world_Ok in E as (w & E%maker_end_effect & ->). simpl. rewrite <- Hn. eapply effect_locks; [exact E|store_out].
    + apply in_world_Ok in E as (w & E%RegulateCheckpoint_frame & ->). simpl. by rewrite (vf_locked _ _ E).
    + by injection E as <-.
    + apply in_world_Ok in E as (w & E & ->). rewrite voter_end in E. by injection E as <-.
    + apply in_vchain_Ok in E as (c & E%vesting_end_effect & ->). simpl. rewrite <- Hn. apply (effect_locks _ _ _ _ E). store_out.
  - destruct E as [a b E|a i x w [lb Hl] _ _]; [rewrite <- Hn; eapply effect_locks; [exact E|store_out]|].
    by rewrite Hn in Hl.
  - rewrite <- Hn. eapply effect_locks; [exact E|store_out].
Qed.

Lemma reach_no_locks gs t a :
  SvcVe ∉ svcs → app_reach gs t a → vs_LockedAmountByUser (w_ve (app_world a)) = ∅.
Proof.
  intros Hs. induction 1 as [ctx a b Hp Ht E|t a ctx b _ IH Ht St He];
    [by eapply genesis_no_locks|by eapply step_no_locks].
Qed.
End Laws.

Section Wired.
Context `{!Sdk, !SdkExt, !CoinParser, !BankKeeper, !NftKeeper, !NftMsgs}.
Context `{!StakingKeeper, !DistrKeeper, !AccountKeeper, !CommunityPool, !GoSort, !MapOrder}.
Context `{!SdkLaws, !BankLaws, !NftLaws, !CommunityPoolLaws, !OtherModules, !OtherModulesLaws}.
Context (dlg : option (World → Z → Z)).
Implicit Types (a b : AppState) (ctx : Ctx) (w : World).

Lemma ve_service_missing : SvcVe ∉ registered_services.
Proof. apply (bool_decide_unpack _). by vm_compute. Qed.

(** C39. The ve module takes no messages.  Its [RegisterServices] registers
    only the query service and its old handler knows no message, so with the
    services the application registers every well-formed and signed ve message
    is refused as an unknown request, and in no reachable state is there a
    lock. *)
Theorem ve_messages_refused gs t a :
  app_reach dlg registered_services gs t a →
  vs_LockedAmountByUser (w_ve (app_world a)) = ∅ ∧
  ∀ ctx m sender, ve_ValidateBasic m = Ok tt → AccAddressFromBech32 (ve_sender m) = Ok sender →
    deliver dlg registered_services ctx [sender] a (AVe m) = Err ErrUnknownRequest.
Proof.
  intros R. split; [eapply (reach_no_locks dlg registered_services); [apply ve_service_missing|exact R]|].
  intros ctx m sender Hv Hs. unfold deliver. simpl. rewrite Hv. simpl. rewrite ve_signer.
  unfold signer_of. rewrite Hs. simpl. rewrite bool_decide_true by (repeat constructor). simpl.
  reflexivity.
Qed.

(** ** The end of a block without a price *)

Context `{!SdkExtLaws, HOL : !MapOrderLaws _}.

Definition names_denom (denom : string) (v : AggregateVote) : Prop :=
  denom ∈ ert_Denom <$> av_ExchangeRateTuples v.

Lemma add_tuples_denom denom voter power ts votes :
  denom ∉ ert_Denom <$> ts → votes !! denom = None → foldl (add_tuple voter power) votes ts !! denom = None.
Proof.
  revert votes. induction ts as [|t ts IH]; intros votes Hn Hv; simpl; [done|].
  rewrite fmap_cons, not_elem_of_cons in Hn. apply IH; [tauto|]. unfold add_tuple.
  rewrite lookup_insert_ne; [done|]. intros Hd. by destruct Hn.
Qed.

Lemma organize_denom s claims denom :
  (∀ v vote, os_Votes s !! v = Some vote → ¬ names_denom denom vote) →
  OrganizeBallotByDenom s claims !! denom = None.
Proof.
  intros Hn. unfold OrganizeBallotByDenom, IterateAggregateExchangeRateVotes. rewrite lookup_fmap.
  assert (∀ e, e ∈ val_iter (os_Votes s) → ¬ names_denom denom e.2) as Hl.
  { intros [v vote] He. rewrite val_iter_perm in He. apply elem_of_map_to_list in He. by eapply Hn. }
  assert (∀ l m, (∀ e, e ∈ l → ¬ names_denom denom e.2) → m !! denom = None →
    foldl (aggregateHandler claims) m l !! denom = None) as Hf.
  { induction l as [|[v vote] l IH]; intros m Hm Hd; simpl; [done|]. apply IH; [set_solver|].
    unfold aggregateHandler. destruct (claims !! _); [|done]. apply add_tuples_denom; [|done].
    apply (Hm (v, vote)). set_solver. }
  by rewrite Hf.
Qed.

Lemma pick_denom n p l denom :
  pk_votes p !! denom = None → pk_votes (foldl (pick_step n) p l) !! denom = None.
Proof.
  revert p. induction l as [|[d bl] l IH]; intros p Hp; simpl; [done|]. apply IH. unfold pick_step.
  assert (delete d (pk_votes p) !! denom = None) as Hx by (apply lookup_delete_None; by right).
  destruct (pk_targets p !! d); [|exact Hx]. unfold ballotIsPassing.
  repeat match goal with |- context [if ?c then _ else _] => destruct c end; assumption.
Qed.

Lemma tally_denom ref vm rm band l st st' denom :
  denom ∉ l.*1 → for_each (tally_step ref vm rm band) l st = Ok st' → st.1 !! denom = None →
  st'.1 !! denom = None.
Proof.
  revert st. induction l as [|[d bl] l IH]; intros [rates cl] Hn E Hr; simpl in E; [by injection E as <-|].
  apply bind_Ok in E as ([rates1 cl1] & E1 & E). rewrite fmap_cons, not_elem_of_cons in Hn. destruct Hn as [Hd Hn].
  eapply IH; [exact Hn|exact E|]. simpl in *. apply bind_Ok in E1 as (bl' & _ & E1).
  apply bind_Ok in E1 as ([xr cl2] & _ & E1).
  assert (∀ r, <[d := r]> rates !! denom = None) as Hi by (intros r; by rewrite lookup_insert_ne).
  destruct (decide _); [injection E1 as <- _; apply Hi|]. destruct (_ =? _); [by injection E1 as <- _|].
  apply bind_Ok in E1 as (r & _ & E1). injection E1 as <- _. apply Hi.
Qed.

Lemma tally_period_denom c c' t claims denom :
  (∀ v vote, os_Votes (ch_oracle c) !! v = Some vote → ¬ names_denom denom vote) →
  tally_period c = Ok (c', t, claims) → os_ExchangeRates (ch_oracle c') !! denom = None.
Proof.
  intros Hn. unfold tally_period. intros E. apply bind_Ok in E as (cl0 & _ & E). cbv zeta in E.
  apply bind_Ok in E as (p & Ep & E). apply bind_Ok in E as ([c1 cl1] & E1 & E). injection E as <- _ _.
  assert (os_ExchangeRates (ch_oracle c1) !! denom = None) as Hr.
  { unfold tally_ballots in E1. case_decide; [injection E1 as <- _; simpl; by rewrite clear_rates_spec|].
    apply bind_Ok in E1 as (rm & _ & E1). apply bind_Ok in E1 as ([rates cl] & E2 & E1). injection E1 as <- _. simpl.
    eapply (tally_denom _ _ _ _ _ _ (rates, cl) denom); [|exact E2|simpl; by rewrite clear_rates_spec].
    unfold PickReferenceGridb in Ep. apply bind_Ok in Ep as (n & _ & Ep). injection Ep as <-.
    rewrite range_perm. intros Hin. apply list_elem_of_fmap in Hin as ([d bl] & -> & Hin).
    apply elem_of_map_to_list in Hin. simpl in Hin. rewrite pick_denom in Hin; [done|].
    apply organize_denom. intros v vote Hv. apply (Hn v vote). by rewrite clear_rates_spec in Hv. }
  revert Hr. change (ch_oracle (set_ch_oracle ?s c1)) with s. generalize (ch_oracle c1).
  generalize (range site_miss cl1). induction l as [|e l IH]; intros s Hs; [done|]. simpl. apply IH.
  unfold count_miss. by destruct (_ =? _).
Qed.

Lemma foldl_rates {A} (f : OracleStore → A → OracleStore) l s :
  (∀ s (y : A), os_ExchangeRates (f s y) = os_ExchangeRates s) →
  os_ExchangeRates (foldl f s l) = os_ExchangeRates s.
Proof. intros Hf. revert s. induction l as [|y l IH]; intros s; [done|]. simpl. by rewrite IH. Qed.

Lemma ClearBallots_rates ctx s vp : os_ExchangeRates (ClearBallots ctx s vp) = os_ExchangeRates s.
Proof.
  unfold ClearBallots. rewrite !foldl_rates; [done|..]; intros s0 [v e]; [|done]. by destruct (_ <? _).
Qed.

Lemma slash_rates ctx c c' :
  SlashAndResetMissCounters ctx c = Ok c' →
  os_ExchangeRates (ch_oracle c') = os_ExchangeRates (ch_oracle c).
Proof.
  rewrite slash_all. intros E. apply bind_Ok in E as (n & _ & E). apply bind_Ok in E as (stk & _ & E).
  by injection E as <-.
Qed.

(** A denomination that no vote of the period names has no rate after the last
    block of the period. *)
Lemma oracle_end_denom ctx c c' denom :
  IsPeriodLastBlock ctx (VotePeriod (ch_oracle c)) = Ok true →
  (∀ v vote, os_Votes (ch_oracle c) !! v = Some vote → ¬ names_denom denom vote) →
  oracle_EndBlocker ctx c = Ok c' → os_ExchangeRates (ch_oracle c') !! denom = None.
Proof.
  intros Hl Hn E. unfold oracle_EndBlocker in E. cbv zeta in E.
  change (op_VotePeriod _) with (VotePeriod (ch_oracle c)) in E. rewrite Hl in E.
  apply bind_Ok in E as (last & El & E). injection El as <-. apply bind_Ok in E as (c1 & E1 & E).
  assert (os_ExchangeRates (ch_oracle c1) !! denom = None) as Hr.
  { unfold end_vote_period in E1. apply bind_Ok in E1 as ([[c2 t] cl] & E2 & E1).
    apply bind_Ok in E1 as (c3 & E3 & E1). injection E1 as <-.
    change (ch_oracle (set_ch_oracle ?s c3)) with s. rewrite ClearBallots_rates.
    destruct (RewardBallotWinners_effect [] _ _ _ _ _ _ E3) as [Es _].
    unfold ch_oracle. rewrite (Es SOracle) by store_out. by eapply tally_period_denom. }
  apply bind_Ok in E as (slash & _ & E). destruct slash; [|by injection E as <-].
  by rewrite (slash_rates _ _ _ E).
Qed.

Lemma maker_end_price ctx w w' :
  maker_EndBlocker ctx w = Ok w' →
  BackingRatioCooldownPeriod w ≤ i64 (BlockHeight ctx - GetBackingRatioLastBlock w) →
  BackingRatioStep w ≠ 0 → os_ExchangeRates (w_oracle w) !! MicroUSMDenom ≠ None.
Proof.
  unfold maker_EndBlocker, AdjustBackingRatio. intros E Hc Hs Hn.
  rewrite (proj2 (Z.ltb_ge _ _) Hc), (proj2 (Z.eqb_neq _ _) Hs) in E.
  apply bind_Ok in E as (band & _ & E). unfold GetExchangeRate in E. by rewrite Hn in E.
Qed.

Lemma env_same ctx a b :
  rtc (env_step ctx) a b → effect [SVe] (fun _ => True) (app_world a) (app_world b).
Proof.
  induction 1 as [|a b c St _ IH]; [reflexivity|]. etransitivity; [|exact IH]. destruct St as [a b E|a i x w _ _ E].
  - eapply effect_mono; [exact E|by intros s Hs%elem_of_nil|done].
  - eapply effect_mono; [by eapply slash_lock_effect|done..].
Qed.

Lemma for_each_cons {A B} (f : B → A → outcome B) x l s :
  for_each f (x :: l) s = f s x ≫= fun s => for_each f l s.
Proof. done. Qed.

(** C40. A vote period without a price stops the chain.  When no vote of the
    period names the stable coin, an adjustment of the backing ratio is due and
    no proposal ends in the block, the last block of the period has no end: the
    oracle, which comes before the maker, clears the rate, and the maker's end
    blocker cannot do without. *)
Theorem silent_period_halts ctx a b :
  (∀ c, gov_ended ctx c = []) →
  IsPeriodLastBlock ctx (VotePeriod (w_oracle (app_world a))) = Ok true →
  (∀ v vote, os_Votes (w_oracle (app_world a)) !! v = Some vote → ¬ names_denom MicroUSMDenom vote) →
  BackingRatioCooldownPeriod (app_world a) ≤
    i64 (BlockHeight ctx - GetBackingRatioLastBlock (app_world a)) →
  BackingRatioStep (app_world a) ≠ 0 →
  EndBlocker ctx a ≠ Ok b.
Proof.
  intros Hg Hl Hn Hc Hs E. unfold EndBlocker, OrderEndBlockers in E.
  assert (∀ m c d, ext_EndBlock m ctx c = Ok d → effect [SVe] (fun _ => True) (app_world c) (app_world d))
    as Ke by (intros m c d E0; eapply env_same, ext_EndBlock_Ok; exact E0).
  rewrite for_each_cons in E. apply bind_Ok in E as (a1 & E1%Ke & E).
  rewrite for_each_cons in E. apply bind_Ok in E as (a2 & E2 & E).
  simpl in E2. rewrite Hg in E2. injection E2 as <-.
  do 3 (rewrite for_each_cons in E; apply bind_Ok in E as (? & ?%Ke & E)).
  rewrite for_each_cons in E. apply bind_Ok in E as (a6 & E6 & E).
  rewrite for_each_cons in E. apply bind_Ok in E as (a7 & E7 & _).
  match type of E6 with module_EndBlock _ ?c _ = _ =>
    assert (effect [SVe] (fun _ => True) (app_world a) (app_world c)) as [Es _]
      by (repeat (etransitivity; [eassumption|]); reflexivity) end.
  pose proof (Es SOracle ltac:(store_out)) as Eo. pose proof (Es SMaker ltac:(store_out)) as Em. simpl in Eo, Em.
  apply in_chain_Ok in E6 as (c & E6 & ->). apply in_world_Ok in E7 as (w & E7 & ->). simpl in E7.
  destruct (oracle_end_effect _ _ _ E6) as [Fs _]. specialize (Fs SMaker ltac:(store_out)). simpl in Fs.
  eapply maker_end_price; [exact E7|..].
  - unfold BackingRatioCooldownPeriod, GetBackingRatioLastBlock. rewrite Fs, Em. exact Hc.
  - unfold BackingRatioStep. rewrite Fs, Em. exact Hs.
  - eapply (oracle_end_denom ctx); [| |exact E6]; unfold ch_oracle; simpl; rewrite Eo; done.
Qed.
End Wired.

(** * A concrete application *)

Module MachineDemo.
Import MakerDemo VeDemo OracleDemo VestingPropsWitness.

#[export] Instance nft_msgs : NftMsgs := {|
  nft_MsgSend_ValidateBasic _ := Ok tt;
  nft_MsgSend_GetSigners m := signer_of (ns_Sender m) |}.

(** A bank whose message transfers coins of its sender, an ante handler whose
    fees alice granted to everybody, and other modules that do nothing on their
    own. *)
Record transfer := mkTransfer { tr_from : Addr; tr_to : Addr; tr_coin : Coin }.

(** Nobody signs for the accounts of the maker and the ve module. *)
Definition pay_from (from to : Addr) (c : Coin) (a : AppState) : outcome AppState :=
  fail_if Amount c <? 0 with ErrInvalidRequest ;;
  fail_if bool_decide (from = maker_addr) || bool_decide (from = ve_addr) with ErrUnauthorized ;;
  in_world (on_bank (fun b => SendCoins b from to [c])) a.

#[export] Instance small_bank : OtherModules := {|
  ext_msg := transfer;
  ext_ValidateBasic m := fail_if Amount (tr_coin m) <=? 0 with ErrInvalidRequest ;; Ok tt;
  ext_GetSigners m := Ok [tr_from m];
  ext_server _ a m := pay_from (tr_from m) (tr_to m) (tr_coin m) a;
  ante_handler _ _ _ a := pay_from "alice" (GetModuleAddress feeCollectorName) (mkCoin "airon" 5) a;
  ext_BeginBlock _ _ a := Ok a;
  ext_EndBlock _ _ a := Ok a;
  gov_ended _ _ := [];
  gov_settle _ _ a := Ok a |}.

Lemma pay_from_env ctx from to c a b : pay_from from to c a = Ok b → rtc (env_step ctx) a b.
Proof.
  unfold pay_from. intros E. apply guard_err_Ok in E as [G0%Z.ltb_ge E]. apply guard_err_Ok in E as [G E].
  apply orb_false_iff in G as [G1%bool_decide_eq_false G2%bool_decide_eq_false].
  apply in_world_Ok in E as (w & E & ->). apply rtc_once, env_outside. simpl. eapply send_effect; [exact E| |done].
  intros d. simpl. case_decide; lia.
Qed.

#[export] Instance small_bank_laws : OtherModulesLaws.
Proof.
  split; [intros ???? E; exact (pay_from_env _ _ _ _ _ _ E)|intros ????? E; exact (pay_from_env _ _ _ _ _ _ E)|..];
    intros ???? [= <-]; reflexivity.
Qed.

#[export] Instance community_laws : CommunityPoolLaws.
Proof.
  split. simpl. intros b p cs x b' p' E. apply bind_Ok in E as (b1 & E1 & E). injection E as <- <-.
  exact (SendCoins_Ok _ _ _ _ _ E1).
Qed.

(** Addresses of modules begin with an m. *)
Lemma not_module x : String.get 0 x ≠ Some (Ascii.ascii_of_nat 109) → ¬ is_module x.
Proof. intros Hx [n ->]. apply Hx. simpl. unfold module_addr. by destruct (_ <=? _)%nat. Qed.

Definition ap0 : AppState := mkApp pre0 ostaking [] ∅ tt.
Definition gen1 : AppGenesis := mkAppGenesis AttoIronDenom oracle_DefaultGenesis gs0 genesis1.
Definition gctx : Ctx := vctx 0 t1.
Definition ap1 : AppState := ok_or ap0 (InitGenesis gctx gen1 ap0).

(** A proposal registers the backing coin; in the next block alice mints grid,
    bob sends her coins, and she tries to lock coins. *)
Definition pctx : Ctx := vctx 1000 t1.
Definition ap2 : AppState := ok_or ap1 (gov_route ap1 (GMaker (PRegisterBacking busd))).
Definition bctx : Ctx := vctx 1001 (t1 + 6).
Definition tx_mint : Tx := (["alice"], inl <$> [AMaker (MMintBySwap MakerDemo.mint1)]).
Definition txs1 : list Tx :=
  [tx_mint; (["bob"], [inr (mkTransfer "bob" "alice" (mkCoin "uusm" 7))]);
   (["alice"], [inl (AVe (VCreate create1))])].
Definition ap3 : AppState := ok_or ap2 (run_block no_dlg registered_services bctx txs1 ap2).

(** The same application with the ve service registered. *)
Definition svcs1 : list msg_service := SvcVe :: registered_services.
Definition ap4 : AppState := ok_or ap2 (deliver no_dlg svcs1 bctx ["alice"] ap2 (AVe (VCreate create1))).

Example machine_runs :
  is_ok (InitGenesis gctx gen1 ap0) && is_ok (gov_route ap1 (GMaker (PRegisterBacking busd))) &&
  is_ok (run_block no_dlg registered_services bctx txs1 ap2) &&
  is_ok (deliver no_dlg registered_services bctx ["alice"] ap2 (AMaker (MMintBySwap MakerDemo.mint1))) &&
  is_ok (deliver no_dlg svcs1 bctx ["alice"] ap2 (AVe (VCreate create1))) = true.
Proof. by vm_compute. Qed.

(** The transfer takes bob's coins, and alice pays the fees of all three. *)
Example block_moves :
  (bal (w_bank (app_world ap3)) "bob" "uusm" =? 10 ^ 25 - 7) &&
  (bal (w_bank (app_world ap3)) "alice" "uusm" =? bal (w_bank (app_world ap4)) "alice" "uusm" + 99507) &&
  (bal (w_bank (app_world ap3)) "alice" "airon" =? 10 ^ 25 - 15) = true.
Proof. by vm_compute. Qed.

(** ** The theorems on it *)

Lemma pre_genesis0 : pre_genesis gen1 ap0.
Proof.
  split.
  - by vm_compute.
  - by split_and!.
  - by vm_compute.
  - intros s. reflexivity.
  - intros x d. change (0 <= get_bal bank0 x d). unfold get_bal, bank0. simpl.
    repeat (rewrite lookup_insert; case_decide; [simpl; lia|]). rewrite lookup_empty. simpl. lia.
  - by vm_compute.
Qed.

Lemma reach_ap1 svcs : app_reach no_dlg svcs gen1 t1 ap1.
Proof.
  apply (app_genesis no_dlg svcs gen1 gctx ap0); [exact pre_genesis0|by vm_compute|].
  apply (is_ok_or ap0). by vm_compute.
Qed.

Lemma reach_next svcs t a ctx b :
  app_reach no_dlg svcs gen1 t a → ((t <=? BlockTime ctx) && (BlockTime ctx <? 2 ^ 63))%Z = true →
  app_step no_dlg svcs ctx a b → (GetEpoch (app_world b) <? 2 ^ 62)%Z = true →
  app_reach no_dlg svcs gen1 (BlockTime ctx) b.
Proof. intros R Ht St He. zbool. by eapply (app_run no_dlg svcs gen1 t a). Qed.

Lemma reach_ap2 svcs : app_reach no_dlg svcs gen1 t1 ap2.
Proof.
  apply (reach_next svcs t1 ap1 pctx ap2); [apply reach_ap1|by vm_compute| |by vm_compute].
  apply (app_passed no_dlg svcs pctx ap1 (GMaker (PRegisterBacking busd))).
  apply (is_ok_or ap1). by vm_compute.
Qed.

Lemma reach_ap4 : app_reach no_dlg svcs1 gen1 (t1 + 6) ap4.
Proof.
  apply (reach_next svcs1 t1 ap2 bctx ap4); [apply reach_ap2|by vm_compute| |by vm_compute].
  apply (app_tx no_dlg svcs1 bctx ap2 ["alice"] (AVe (VCreate create1))).
  - intros n E. injection E as E. apply (not_module "alice"); [done|by exists n].
  - apply (is_ok_or ap2). by vm_compute.
Qed.

Lemma nobody_pays_unsigned_witness :
  is_ok (run_ante bctx tx_mint ap2) = true ∧
  bal (w_bank (app_world (ok_or ap2 (run_ante bctx tx_mint ap2)))) "bob" "uusm" ≤
  bal (w_bank (app_world (DeliverTx no_dlg registered_services bctx ap2 tx_mint))) "bob" "uusm" ∧
  bal (w_bank (app_world ap1)) "bob" "uusm" ≤ bal (w_bank (app_world ap2)) "bob" "uusm".
Proof.
  destruct (nobody_pays_unsigned no_dlg registered_services "bob" "uusm") as (_ & T & G & _);
    [by apply not_module|]. split_and!.
  - by vm_compute.
  - apply T; [apply (is_ok_or ap2); by vm_compute|]. repeat constructor. intros (l & [= <-] & Hl). set_solver.
  - apply (G ap1 (GMaker (PRegisterBacking busd))). apply (is_ok_or ap1). by vm_compute.
Defined.

Lemma modules_keep_promises_witness :
  obligation (w_maker (app_world ap4)) "ubusd" ≤ bal (w_bank (app_world ap4)) maker_addr "ubusd" ∧
  locked_sum (app_world ap4) ≤ bal (w_bank (app_world ap4)) ve_addr (LockDenom (app_world ap4)) ∧
  (locked_sum (app_world ap4) =? 10 ^ 18)%Z = true.
Proof.
  destruct (modules_keep_promises no_dlg svcs1 gen1 (t1 + 6) ap4 reach_ap4) as (_ & M & V & _).
  split; [apply M|]. split; [exact V|by vm_compute].
Defined.

Lemma ve_messages_refused_witness :
  vs_LockedAmountByUser (w_ve (app_world ap2)) = ∅ ∧
  deliver no_dlg registered_services bctx ["alice"] ap2 (AVe (VCreate create1)) = Err ErrUnknownRequest.
Proof.
  destruct (ve_messages_refused no_dlg gen1 t1 ap2 (reach_ap2 _)) as [L D].
  split; [exact L|]. by apply (D bctx (VCreate create1) "alice").
Defined.

(** The last block of a vote period in which nobody voted. *)
Definition sctx : Ctx := vctx 1009 (t1 + 60).
Lemma silent_period_halts_witness : EndBlocker sctx ap2 ≠ Ok ap2.
Proof.
  apply silent_period_halts; [done|by vm_compute| |by vm_compute|by vm_compute].
  intros v vote Hv. change (os_Votes (w_oracle (app_world ap2))) with (∅ : gmap string AggregateVote) in Hv.
  by rewrite lookup_empty in Hv.
Defined.
End MachineDemo.
