(* ===== verification/Keys.v ===== *)
(** The stores of the modules as byte stores ([types/keys.go] of the modules).

    The other files model the store of a module as a record with one field per
    key prefix.  The chain keeps one map from bytes to bytes per module.  Here
    are the key functions of the modules, byte for byte, and the interface
    [Layout] between the two views: the keys of a module, which are the calls of
    its key functions, as a data type, their bytes, and the entry of the record
    (the slot) that a key reads and writes.  Two calls may name one slot: in the
    gauge and the voter module different arguments make the same bytes.  An
    instance per module discharges [LayoutLaws]; what follows from them, for any
    codec of the values, is proved once. *)

From stdpp Require Import base gmap strings list.
From Stdlib Require Import ZArith Lia Ascii.
From S2P Require Import Prelude Sdk SdkExt SdkEvm Types MakerTypes VeTypes OracleTypes GaugeTypes VestingTypes StakingTypes Erc20Types World OracleKeeper VeKeeper VeEmission GaugeKeeper Voter SdkRef.

#[local] Open Scope string_scope.
#[local] Open Scope Z_scope.

(** ** Layouts *)

Class Layout (S : Type) := {
  (** the calls of the key functions *)
  key : Type;
  (** the entries of the record *)
  slot : Type;
  key_slot : key → slot;
  value : slot → Type;
  (** the bytes of a key *)
  key_bytes : key → string;
  (** the prefix under which an iterator finds the key *)
  key_family : key → string;
  (** identifiers of 64 bits, addresses of 1 to 255 bytes *)
  key_ok : key → Prop;
  read : S → ∀ x : slot, option (value x);
  (** [None] deletes *)
  write : S → ∀ x : slot, option (value x) → S;
}.

Class LayoutLaws (S : Type) `{!Layout S} : Prop := {
  read_write (s : S) x o : read (write s x o) x = o;
  read_write_ne (s : S) x x' o : x ≠ x' → read (write s x o) x' = read s x';
  key_bytes_slot (k k' : key) :
    key_ok k → key_ok k' → key_bytes k = key_bytes k' ↔ key_slot k = key_slot k';
  key_family_spec (k k' : key) :
    key_ok k → String.prefix (key_family k') (key_bytes k) = true ↔ key_family k = key_family k';
}.

(** The generated code that marshals the values. *)
Class Codec (S : Type) `{!Layout S} := {
  marshal : ∀ x : slot, value x → string;
  unmarshal : ∀ x : slot, string → option (value x);
}.

Class CodecLaws (S : Type) `{!Layout S, !Codec S} : Prop :=
  unmarshal_marshal (x : slot) (v : value x) : unmarshal x (marshal x v) = Some v.

(** ** Byte stores *)

Abbreviation ByteStore := (gmap string string).

Section ByteStore.
Context {S : Type} `{!Layout S, !Codec S}.
Implicit Types (s : S) (m : ByteStore).

(** Setting, deleting and getting with the key functions and the codec. *)
Definition byte_write m (k : key) (o : option (value (key_slot k))) : ByteStore :=
  match o with
  | Some v => <[key_bytes k := marshal (key_slot k) v]> m
  | None => delete (key_bytes k) m
  end.

Definition byte_read m (k : key) : option (value (key_slot k)) :=
  m !! key_bytes k ≫= unmarshal (key_slot k).

(** An iterator over a prefix. *)
Definition byte_family m (p : string) : ByteStore := filter (fun e => String.prefix p e.1 = true) m.

(** The byte store [m] holds what the record [s] holds, and nothing else. *)
Record represents s m : Prop := {
  rep_read k : key_ok k → m !! key_bytes k = marshal (key_slot k) <$> read s (key_slot k);
  rep_only b : is_Some (m !! b) → ∃ k, key_ok k ∧ b = key_bytes k;
}.

(** A sequence of writes. *)
Definition writes : Type := list {k : key & option (value (key_slot k))}.

Definition run_writes (l : writes) s : S :=
  fold_left (fun s e => write s (key_slot (projT1 e)) (projT2 e)) l s.
Definition run_byte_writes (l : writes) m : ByteStore :=
  fold_left (fun m e => byte_write m (projT1 e) (projT2 e)) l m.

Context `{!LayoutLaws S, !CodecLaws S}.

Lemma byte_write_same m k o : byte_write m k o !! key_bytes k = marshal (key_slot k) <$> o.
Proof. destruct o; simpl; by simplify_map_eq. Qed.

Lemma byte_write_ne m k o b : b ≠ key_bytes k → byte_write m k o !! b = m !! b.
Proof. intros. destruct o; simpl; by simplify_map_eq. Qed.

Lemma represents_write s m k o :
  key_ok k → represents s m → represents (write s (key_slot k) o) (byte_write m k o).
Proof.
  intros Hk [R O]. constructor.
  - intros k' Hk'. destruct (decide (key_bytes k' = key_bytes k)) as [E|E].
    + rewrite E, byte_write_same. apply key_bytes_slot in E; [|done..]. by rewrite E, read_write.
    + rewrite byte_write_ne by done. rewrite read_write_ne; [by apply R|].
      intros E'. apply E. by apply key_bytes_slot.
  - intros b Hb. destruct (decide (b = key_bytes k)) as [->|E]; [by exists k|].
    rewrite byte_write_ne in Hb by done. by apply O.
Qed.

Lemma represents_writes l s m :
  Forall (fun e => key_ok (projT1 e)) l → represents s m →
  represents (run_writes l s) (run_byte_writes l m).
Proof.
  intros Hl. revert s m. induction Hl as [|[k o] l Hk _ IH]; intros s m R; simpl; [done|].
  by apply IH, represents_write.
Qed.

Lemma represents_read s m k : key_ok k → represents s m → byte_read m k = read s (key_slot k).
Proof.
  intros Hk [R _]. unfold byte_read. rewrite (R k Hk). destruct (read s (key_slot k)); simpl; [|done].
  apply unmarshal_marshal.
Qed.

(** An iterator over any prefix visits the keys that start with it. *)
Lemma represents_prefix s m p b x :
  represents s m →
  byte_family m p !! b = Some x ↔
  ∃ k v, key_ok k ∧ String.prefix p (key_bytes k) = true ∧ read s (key_slot k) = Some v ∧
    b = key_bytes k ∧ x = marshal (key_slot k) v.
Proof.
  intros [R O]. unfold byte_family. rewrite map_lookup_filter_Some. simpl. split.
  - intros [Hx Hp]. destruct (O b) as (k & Hk & ->); [by eexists|]. rewrite (R k Hk) in Hx.
    destruct (read s (key_slot k)) as [v|] eqn:E; simplify_eq/=. by exists k, v.
  - intros (k & v & Hk & Hf & Hv & -> & ->). by rewrite (R k Hk), Hv.
Qed.

Lemma represents_family s m k b x :
  represents s m →
  byte_family m (key_family k) !! b = Some x ↔
  ∃ k' v, key_ok k' ∧ key_family k' = key_family k ∧ read s (key_slot k') = Some v ∧
    b = key_bytes k' ∧ x = marshal (key_slot k') v.
Proof.
  intros R. rewrite represents_prefix by done.
  split; intros (k' & v & Hk' & Hf & ?); exists k', v; (split_and!; [done|by apply key_family_spec|tauto..]).
Qed.
End ByteStore.

(** What a layout promises for every codec: from a byte store that represents
    the record, any writes lead to one that represents the record with the same
    writes; every key then reads the same on both sides; and an iterator over a
    prefix of a family visits the entries of that family and no other. *)
Definition refines_bytes (S : Type) `{!Layout S} : Prop :=
  ∀ (C : Codec S), CodecLaws S → ∀ (s : S) (m : ByteStore) (l : writes),
    represents s m → Forall (fun e => key_ok (projT1 e)) l →
    represents (run_writes l s) (run_byte_writes l m) ∧
    (∀ k, key_ok k → byte_read (run_byte_writes l m) k = read (run_writes l s) (key_slot k)) ∧
    (∀ k b x, byte_family (run_byte_writes l m) (key_family k) !! b = Some x ↔
       ∃ k' v, key_ok k' ∧ key_family k' = key_family k ∧
         read (run_writes l s) (key_slot k') = Some v ∧ b = key_bytes k' ∧ x = marshal (key_slot k') v).

(** No two keys of a module have the same bytes. *)
Definition keys_distinct (S : Type) `{!Layout S} : Prop :=
  ∀ k k' : key, key_ok k → key_ok k' → key_bytes k = key_bytes k' → k = k'.

Lemma layout_refines (S : Type) `{!Layout S, !LayoutLaws S} : refines_bytes S.
Proof.
  intros C HC s m l R Hl. pose proof (represents_writes l s m Hl R) as R'.
  split_and!; [done| |].
  - intros k Hk. by apply represents_read.
  - intros k b x. by apply represents_family.
Qed.

Lemma layout_distinct (S : Type) `{!Layout S, !LayoutLaws S} :
  (∀ k k' : key, key_slot k = key_slot k' → k = k') → keys_distinct S.
Proof. intros Hi k k' Hk Hk' E. apply Hi. by apply key_bytes_slot. Qed.

(** ** Pieces of keys *)

Definition prefix_byte (n : Z) : string := String (byte_of n) "".

(** [address.MustLengthPrefix] of the SDK: the length in a byte, then the bytes. *)
Class AddressPrefix := { MustLengthPrefix : string → string }.

Definition addr_ok (a : Addr) : Prop := (1 ≤ String.length a ≤ 255)%nat.
Definition u64_ok (n : Z) : Prop := 0 ≤ n < 2 ^ 64.

Class AddressPrefixLaws `{!AddressPrefix} : Prop :=
  MustLengthPrefix_spec a :
    addr_ok a → MustLengthPrefix a = String (byte_of (Z.of_nat (String.length a))) a.

Arguments Uint64ToBigEndian : simpl never.

Lemma append_cons c s t : String c s ++ t = String c (s ++ t).
Proof. done. Qed.

Lemma append_nil_l s : "" ++ s = s.
Proof. done. Qed.

Lemma append_nil_r s : s ++ "" = s.
Proof. induction s as [|c s IH]; [done|by rewrite append_cons, IH]. Qed.

Lemma append_length s t : String.length (s ++ t) = (String.length s + String.length t)%nat.
Proof. induction s as [|c s IH]; [done|]. rewrite append_cons. simpl. by rewrite IH. Qed.

Lemma append_head_inj s s' t t' :
  String.length s = String.length s' → s ++ t = s' ++ t' → s = s' ∧ t = t'.
Proof.
  revert s'. induction s as [|c s IH]; intros [|c' s'] Hl E; try discriminate; [done|].
  rewrite !append_cons in E. injection Hl as Hl. injection E as -> E. by destruct (IH _ Hl E) as [-> ->].
Qed.

Lemma append_tail_inj s s' t t' :
  String.length t = String.length t' → s ++ t = s' ++ t' → s = s' ∧ t = t'.
Proof.
  intros Hl E. apply append_head_inj; [|done].
  apply (f_equal String.length) in E. rewrite !append_length in E. lia.
Qed.

Lemma string_tail c s s' : String c s = String c s' → s = s'.
Proof. by intros [= ->]. Qed.

Lemma be_inj n n' : u64_ok n → u64_ok n' → Uint64ToBigEndian n = Uint64ToBigEndian n' → n = n'.
Proof. apply Uint64ToBigEndian_inj. Qed.

Lemma be_head_inj n n' t t' :
  u64_ok n → u64_ok n' → Uint64ToBigEndian n ++ t = Uint64ToBigEndian n' ++ t' → n = n' ∧ t = t'.
Proof.
  intros Hn Hn' [E ->]%append_head_inj; [|unfold Uint64ToBigEndian; by rewrite !big_endian_length].
  split; [by apply Uint64ToBigEndian_inj|done].
Qed.

Lemma be_tail_inj n n' s s' :
  u64_ok n → u64_ok n' → s ++ Uint64ToBigEndian n = s' ++ Uint64ToBigEndian n' → s = s' ∧ n = n'.
Proof.
  intros Hn Hn' [-> E]%append_tail_inj; [|unfold Uint64ToBigEndian; by rewrite !big_endian_length].
  split; [done|by apply Uint64ToBigEndian_inj].
Qed.

Lemma byte_of_inj n n' : 0 ≤ n < 256 → 0 ≤ n' < 256 → byte_of n = byte_of n' → n = n'.
Proof.
  intros Hn Hn' E. apply (f_equal (fun a => Z.of_nat (nat_of_ascii a))) in E.
  rewrite !byte_of_value, !Z.mod_small in E by lia. done.
Qed.

Lemma prefixed_inj `{!AddressPrefix, !AddressPrefixLaws} a a' t t' :
  addr_ok a → addr_ok a' → MustLengthPrefix a ++ t = MustLengthPrefix a' ++ t' → a = a' ∧ t = t'.
Proof.
  intros Ha Ha' E. rewrite !MustLengthPrefix_spec in E by done. unfold addr_ok in *.
  rewrite !append_cons in E. injection E as Eb E. apply byte_of_inj in Eb; [|lia..].
  apply append_head_inj in E; [done|lia].
Qed.

Lemma prefixed_inj_end `{!AddressPrefix, !AddressPrefixLaws} a a' :
  addr_ok a → addr_ok a' → MustLengthPrefix a = MustLengthPrefix a' → a = a'.
Proof.
  intros Ha Ha' E. rewrite <-(append_nil_r (MustLengthPrefix a)), <-(append_nil_r (MustLengthPrefix a')) in E.
  by apply prefixed_inj in E as [-> _].
Qed.

Lemma prefix_empty s : String.prefix "" s = true.
Proof. by destruct s. Qed.

Lemma byte_families n n' s :
  String.prefix (prefix_byte n') (prefix_byte n ++ s) = true ↔ prefix_byte n = prefix_byte n'.
Proof.
  unfold prefix_byte. rewrite append_cons. simpl. destruct (ascii_dec (byte_of n') (byte_of n)) as [->|Hn].
  - by rewrite prefix_empty.
  - split; [done|intros [= E]; congruence].
Qed.

Create HintDb keys.

(** Two keys of the same bytes: the prefixes differ, or what follows them is
    split from the front and from the back. *)
Ltac split_key E :=
  first
    [ apply string_tail in E
    | apply prefixed_inj in E as [-> E]; [|by intuition auto..]
    | apply be_head_inj in E as [-> E]; [|by intuition auto..]
    | apply be_tail_inj in E as [E ->]; [|by intuition auto..]
    | apply prefixed_inj_end in E as ->; [|by intuition auto..]
    | apply be_inj in E as ->; [|by intuition auto..] ].
Ltac same_bytes k k' Hk Hk' E :=
  destruct k, k'; cbn in Hk, Hk', E; autounfold with keys in E;
  unfold prefix_byte in E; rewrite ?append_cons, ?append_nil_l in E;
  first [reflexivity | discriminate E | repeat split_key E; subst; reflexivity].
Ltac same_key := intros k k' Hk Hk'; split; [intros E; same_bytes k k' Hk Hk' E|intros E; change (k = k') in E; by subst].

(** The same where the bytes of two keys may clash. *)
Ltac key_pieces_in E :=
  autounfold with keys in E; unfold prefix_byte in E; rewrite ?append_cons, ?append_nil_l in E.
Ltac clash_bytes k k' Hk Hk' E :=
  destruct k, k'; cbn in Hk, Hk', E |- *; key_pieces_in E;
  first [discriminate E | repeat split_key E; subst; first [done | by split]].
Ltac clash_same k k' :=
  destruct k, k'; cbn; autounfold with keys; unfold prefix_byte; rewrite ?append_cons, ?append_nil_l;
  intros E; first [by simplify_eq | by rewrite E | by (destruct E as [E ->]; rewrite E)].
Ltac clash_slot k k' :=
  destruct k, k'; cbn; intros E; unfold RewardKey, UserVeIDByAddressKey, PoolWeightedVotesKey,
    PoolWeightedVotesByUserKey; first [by simplify_eq | intuition congruence].

Ltac key_families_with tac :=
  let k := fresh in let k' := fresh in let Hk := fresh in
  intros k k' Hk;
  let H := fresh in let H' := fresh in
  assert (∃ n s, key_family k = prefix_byte n ∧ key_bytes k = prefix_byte n ++ s)
    as (? & ? & H & H') by (destruct k; first [tac Hk | eexists _, _; by split]);
  rewrite H, H'; clear;
  assert (∃ n, key_family k' = prefix_byte n) as [? ->] by (destruct k'; by eexists);
  apply byte_families.
Ltac key_families := key_families_with ltac:(fun _ => fail).
Ltac read_back := intros [] []; cbn; try done; intros o; apply lookup_partial_alter_eq.
Ltac read_other :=
  intros [] k k' o Hk; destruct k, k'; cbn; try done; try congruence;
  apply lookup_partial_alter_ne; congruence.

(** ** ve ([src/x/ve/types/keys.go]) *)

Definition KeyPrefixTotalLockedAmount := prefix_byte 1.
Definition KeyPrefixLockedAmountByUser := prefix_byte 2.
Definition KeyPrefixNextVeID := prefix_byte 3.
Definition KeyPrefixVeEpoch := prefix_byte 4.
Definition KeyPrefixVePointHistoryByEpoch := prefix_byte 5.
Definition KeyPrefixVeUserEpoch := prefix_byte 6.
Definition KeyPrefixVeUserPointHistoryByUserEpoch := prefix_byte 7.
Definition KeyPrefixSlopeChange := prefix_byte 8.
Definition KeyPrefixAttached := prefix_byte 9.
Definition KeyPrefixVoted := prefix_byte 10.
Definition KeyPrefixTotalEmission := prefix_byte 11.
Definition KeyPrefixEmissionAtLastPeriod := prefix_byte 12.
Definition KeyPrefixEmissionLastTimestamp := prefix_byte 13.
Definition KeyPrefixDistributionAccruedLastTimestamp := prefix_byte 14.
Definition KeyPrefixDistributionTotalAmount := prefix_byte 15.
Definition KeyPrefixDistributionPerPeriod := prefix_byte 16.
Definition KeyPrefixDistributionClaimLastTimestampByUser := prefix_byte 17.

Definition TotalLockedAmountKey : string := KeyPrefixTotalLockedAmount.
Definition LockedAmountByUserKey (veID : Z) : string :=
  KeyPrefixLockedAmountByUser ++ Uint64ToBigEndian veID.
Definition NextVeIDKey : string := KeyPrefixNextVeID.
Definition ve_EpochKey : string := KeyPrefixVeEpoch.
Definition ve_PointKey (epoch : Z) : string := KeyPrefixVePointHistoryByEpoch ++ Uint64ToBigEndian epoch.
Definition ve_UserEpochKey (veID : Z) : string := KeyPrefixVeUserEpoch ++ Uint64ToBigEndian veID.
Definition ve_UserPointKey (veID userEpoch : Z) : string :=
  (KeyPrefixVeUserPointHistoryByUserEpoch ++ Uint64ToBigEndian veID) ++ Uint64ToBigEndian userEpoch.
Definition SlopeChangeKey (timestamp : Z) : string := KeyPrefixSlopeChange ++ Uint64ToBigEndian timestamp.
Definition AttachedKey (veID : Z) : string := KeyPrefixAttached ++ Uint64ToBigEndian veID.
Definition VotedKey (veID : Z) : string := KeyPrefixVoted ++ Uint64ToBigEndian veID.
Definition TotalEmissionKey : string := KeyPrefixTotalEmission.
Definition EmissionAtLastPeriodKey : string := KeyPrefixEmissionAtLastPeriod.
Definition EmissionLastTimestampKey : string := KeyPrefixEmissionLastTimestamp.
Definition DistributionAccruedLastTimestampKey : string := KeyPrefixDistributionAccruedLastTimestamp.
Definition DistributionTotalAmountKey : string := KeyPrefixDistributionTotalAmount.
Definition DistributionPerPeriodKey (timestamp : Z) : string :=
  KeyPrefixDistributionPerPeriod ++ Uint64ToBigEndian timestamp.
Definition DistributionClaimLastTimestampByUserKey (veID : Z) : string :=
  KeyPrefixDistributionClaimLastTimestampByUser ++ Uint64ToBigEndian veID.

#[export] Hint Unfold
  KeyPrefixTotalLockedAmount KeyPrefixLockedAmountByUser KeyPrefixNextVeID KeyPrefixVeEpoch
  KeyPrefixVePointHistoryByEpoch KeyPrefixVeUserEpoch KeyPrefixVeUserPointHistoryByUserEpoch
  KeyPrefixSlopeChange KeyPrefixAttached KeyPrefixVoted KeyPrefixTotalEmission
  KeyPrefixEmissionAtLastPeriod KeyPrefixEmissionLastTimestamp
  KeyPrefixDistributionAccruedLastTimestamp KeyPrefixDistributionTotalAmount
  KeyPrefixDistributionPerPeriod KeyPrefixDistributionClaimLastTimestampByUser
  TotalLockedAmountKey LockedAmountByUserKey NextVeIDKey ve_EpochKey ve_PointKey ve_UserEpochKey
  ve_UserPointKey SlopeChangeKey AttachedKey VotedKey TotalEmissionKey EmissionAtLastPeriodKey
  EmissionLastTimestampKey DistributionAccruedLastTimestampKey DistributionTotalAmountKey
  DistributionPerPeriodKey DistributionClaimLastTimestampByUserKey : keys.

Inductive ve_key :=
| VkTotalLocked | VkLocked (veID : Z) | VkNextVeID | VkEpoch | VkPoint (epoch : Z)
| VkUserEpoch (veID : Z) | VkUserPoint (veID userEpoch : Z) | VkSlopeChange (timestamp : Z)
| VkAttached (veID : Z) | VkVoted (veID : Z) | VkTotalEmission | VkEmissionAtLastPeriod
| VkEmissionLastTimestamp | VkAccruedLastTimestamp | VkDistributionTotal
| VkPerPeriod (timestamp : Z) | VkClaimLastTimestamp (veID : Z).

Definition ve_value (k : ve_key) : Type :=
  match k with
  | VkLocked _ => LockedBalance
  | VkPoint _ | VkUserPoint _ _ => Checkpoint
  | VkVoted _ => bool
  | _ => Z
  end.

Definition ve_key_ok (k : ve_key) : Prop :=
  match k with
  | VkLocked n | VkPoint n | VkUserEpoch n | VkSlopeChange n | VkAttached n | VkVoted n
  | VkPerPeriod n | VkClaimLastTimestamp n => u64_ok n
  | VkUserPoint n n' => u64_ok n ∧ u64_ok n'
  | _ => True
  end.

Definition ve_key_family (k : ve_key) : string :=
  match k with
  | VkTotalLocked => KeyPrefixTotalLockedAmount
  | VkLocked _ => KeyPrefixLockedAmountByUser
  | VkNextVeID => KeyPrefixNextVeID
  | VkEpoch => KeyPrefixVeEpoch
  | VkPoint _ => KeyPrefixVePointHistoryByEpoch
  | VkUserEpoch _ => KeyPrefixVeUserEpoch
  | VkUserPoint _ _ => KeyPrefixVeUserPointHistoryByUserEpoch
  | VkSlopeChange _ => KeyPrefixSlopeChange
  | VkAttached _ => KeyPrefixAttached
  | VkVoted _ => KeyPrefixVoted
  | VkTotalEmission => KeyPrefixTotalEmission
  | VkEmissionAtLastPeriod => KeyPrefixEmissionAtLastPeriod
  | VkEmissionLastTimestamp => KeyPrefixEmissionLastTimestamp
  | VkAccruedLastTimestamp => KeyPrefixDistributionAccruedLastTimestamp
  | VkDistributionTotal => KeyPrefixDistributionTotalAmount
  | VkPerPeriod _ => KeyPrefixDistributionPerPeriod
  | VkClaimLastTimestamp _ => KeyPrefixDistributionClaimLastTimestampByUser
  end.

Definition ve_key_bytes (k : ve_key) : string :=
  match k with
  | VkTotalLocked => TotalLockedAmountKey
  | VkLocked veID => LockedAmountByUserKey veID
  | VkNextVeID => NextVeIDKey
  | VkEpoch => ve_EpochKey
  | VkPoint epoch => ve_PointKey epoch
  | VkUserEpoch veID => ve_UserEpochKey veID
  | VkUserPoint veID userEpoch => ve_UserPointKey veID userEpoch
  | VkSlopeChange timestamp => SlopeChangeKey timestamp
  | VkAttached veID => AttachedKey veID
  | VkVoted veID => VotedKey veID
  | VkTotalEmission => TotalEmissionKey
  | VkEmissionAtLastPeriod => EmissionAtLastPeriodKey
  | VkEmissionLastTimestamp => EmissionLastTimestampKey
  | VkAccruedLastTimestamp => DistributionAccruedLastTimestampKey
  | VkDistributionTotal => DistributionTotalAmountKey
  | VkPerPeriod timestamp => DistributionPerPeriodKey timestamp
  | VkClaimLastTimestamp veID => DistributionClaimLastTimestampByUserKey veID
  end.

Definition ve_read (s : VeStore) (k : ve_key) : option (ve_value k) :=
  match k with
  | VkTotalLocked => vs_TotalLockedAmount s
  | VkLocked veID => vs_LockedAmountByUser s !! veID
  | VkNextVeID => vs_NextVeID s
  | VkEpoch => vs_Epoch s
  | VkPoint epoch => vs_PointHistoryByEpoch s !! epoch
  | VkUserEpoch veID => vs_UserEpoch s !! veID
  | VkUserPoint veID userEpoch => vs_UserPointHistoryByUserEpoch s !! (veID, userEpoch)
  | VkSlopeChange timestamp => vs_SlopeChange s !! timestamp
  | VkAttached veID => vs_Attached s !! veID
  | VkVoted veID => vs_Voted s !! veID
  | VkTotalEmission => vs_TotalEmission s
  | VkEmissionAtLastPeriod => vs_EmissionAtLastPeriod s
  | VkEmissionLastTimestamp => vs_EmissionLastTimestamp s
  | VkAccruedLastTimestamp => vs_DistributionAccruedLastTimestamp s
  | VkDistributionTotal => vs_DistributionTotalAmount s
  | VkPerPeriod timestamp => vs_DistributionPerPeriod s !! timestamp
  | VkClaimLastTimestamp veID => vs_DistributionClaimLastTimestampByUser s !! veID
  end.

(** An entry of a finite map set or deleted. *)
Definition put `{Countable K} {V} (k : K) (o : option V) (m : gmap K V) : gmap K V :=
  partial_alter (fun _ => o) k m.

Definition ve_write (s : VeStore) (k : ve_key) : option (ve_value k) → VeStore :=
  match k with
  | VkTotalLocked => fun o => vs_set_TotalLockedAmount o s
  | VkLocked veID => fun o => vs_set_LockedAmountByUser (put veID o (vs_LockedAmountByUser s)) s
  | VkNextVeID => fun o => vs_set_NextVeID o s
  | VkEpoch => fun o => vs_set_Epoch o s
  | VkPoint epoch => fun o => vs_set_PointHistoryByEpoch (put epoch o (vs_PointHistoryByEpoch s)) s
  | VkUserEpoch veID => fun o => vs_set_UserEpoch (put veID o (vs_UserEpoch s)) s
  | VkUserPoint veID userEpoch => fun o =>
      vs_set_UserPointHistoryByUserEpoch (put (veID, userEpoch) o (vs_UserPointHistoryByUserEpoch s)) s
  | VkSlopeChange timestamp => fun o => vs_set_SlopeChange (put timestamp o (vs_SlopeChange s)) s
  | VkAttached veID => fun o => vs_set_Attached (put veID o (vs_Attached s)) s
  | VkVoted veID => fun o => vs_set_Voted (put veID o (vs_Voted s)) s
  | VkTotalEmission => fun o => vs_set_TotalEmission o s
  | VkEmissionAtLastPeriod => fun o => vs_set_EmissionAtLastPeriod o s
  | VkEmissionLastTimestamp => fun o => vs_set_EmissionLastTimestamp o s
  | VkAccruedLastTimestamp => fun o => vs_set_DistributionAccruedLastTimestamp o s
  | VkDistributionTotal => fun o => vs_set_DistributionTotalAmount o s
  | VkPerPeriod timestamp => fun o =>
      vs_set_DistributionPerPeriod (put timestamp o (vs_DistributionPerPeriod s)) s
  | VkClaimLastTimestamp veID => fun o =>
      vs_set_DistributionClaimLastTimestampByUser
        (put veID o (vs_DistributionClaimLastTimestampByUser s)) s
  end.

#[export] Instance ve_layout : Layout VeStore :=
  Build_Layout _ ve_key ve_key (fun k => k) ve_value ve_key_bytes ve_key_family ve_key_ok ve_read ve_write.

#[export] Instance ve_layout_laws : LayoutLaws VeStore.
Proof. split; [read_back|read_other|same_key|key_families]. Qed.

(** ** Oracle ([src/x/oracle/types/keys.go]) *)

Definition ExchangeRateKey := prefix_byte 1.
Definition FeederDelegationKey := prefix_byte 2.
Definition MissCounterKey := prefix_byte 3.
Definition AggregateExchangeRatePrevoteKey := prefix_byte 4.
Definition AggregateExchangeRateVoteKey := prefix_byte 5.
Definition VoteTargetKey := prefix_byte 6.
Definition TargetKey := prefix_byte 7.

Section Oracle.
Context `{!AddressPrefix}.

Definition GetExchangeRateKey (denom : string) : string := ExchangeRateKey ++ denom.
Definition GetFeederDelegationKey (v : Addr) : string := FeederDelegationKey ++ MustLengthPrefix v.
Definition GetMissCounterKey (v : Addr) : string := MissCounterKey ++ MustLengthPrefix v.
Definition GetAggregateExchangeRatePrevoteKey (v : Addr) : string :=
  AggregateExchangeRatePrevoteKey ++ MustLengthPrefix v.
Definition GetAggregateExchangeRateVoteKey (v : Addr) : string :=
  AggregateExchangeRateVoteKey ++ MustLengthPrefix v.
Definition GetVoteTargetKey (d : string) : string := VoteTargetKey ++ d.
Definition GetTargetKey (d : string) : string := TargetKey ++ d.

(** [key[1:]], which panics on the empty key. *)
Definition drop_byte (key : string) : outcome string :=
  match key with "" => Panic | String _ s => Ok s end.
Definition ExtractDenomFromVoteTargetKey (key : string) : outcome string := drop_byte key.
Definition ExtractDenomFromTargetKey (key : string) : outcome string := drop_byte key.

(** The denomination is read back from the keys of an iterator. *)
Lemma extract_denom d :
  ExtractDenomFromVoteTargetKey (GetVoteTargetKey d) = Ok d ∧
  ExtractDenomFromTargetKey (GetTargetKey d) = Ok d.
Proof. done. Qed.

Inductive oracle_key :=
| OkRate (denom : string) | OkFeeder (v : Addr) | OkMiss (v : Addr) | OkPrevote (v : Addr)
| OkVote (v : Addr) | OkVoteTarget (denom : string) | OkTarget (denom : string).

Definition oracle_value (k : oracle_key) : Type :=
  match k with
  | OkRate _ => Dec
  | OkFeeder _ => Addr
  | OkMiss _ => Z
  | OkPrevote _ => AggregatePrevote
  | OkVote _ => AggregateVote
  | OkVoteTarget _ | OkTarget _ => string
  end.

Definition oracle_key_ok (k : oracle_key) : Prop :=
  match k with
  | OkFeeder v | OkMiss v | OkPrevote v | OkVote v => addr_ok v
  | OkRate _ | OkVoteTarget _ | OkTarget _ => True
  end.

Definition oracle_key_family (k : oracle_key) : string :=
  match k with
  | OkRate _ => ExchangeRateKey
  | OkFeeder _ => FeederDelegationKey
  | OkMiss _ => MissCounterKey
  | OkPrevote _ => AggregateExchangeRatePrevoteKey
  | OkVote _ => AggregateExchangeRateVoteKey
  | OkVoteTarget _ => VoteTargetKey
  | OkTarget _ => TargetKey
  end.

Definition oracle_key_bytes (k : oracle_key) : string :=
  match k with
  | OkRate denom => GetExchangeRateKey denom
  | OkFeeder v => GetFeederDelegationKey v
  | OkMiss v => GetMissCounterKey v
  | OkPrevote v => GetAggregateExchangeRatePrevoteKey v
  | OkVote v => GetAggregateExchangeRateVoteKey v
  | OkVoteTarget denom => GetVoteTargetKey denom
  | OkTarget denom => GetTargetKey denom
  end.

Definition oracle_read (s : OracleStore) (k : oracle_key) : option (oracle_value k) :=
  match k with
  | OkRate denom => os_ExchangeRates s !! denom
  | OkFeeder v => os_FeederDelegations s !! v
  | OkMiss v => os_MissCounters s !! v
  | OkPrevote v => os_Prevotes s !! v
  | OkVote v => os_Votes s !! v
  | OkVoteTarget denom => os_VoteTargets s !! denom
  | OkTarget denom => os_Targets s !! denom
  end.

Definition oracle_write (s : OracleStore) (k : oracle_key) : option (oracle_value k) → OracleStore :=
  match k with
  | OkRate denom => fun o => with_rates (put denom o (os_ExchangeRates s)) s
  | OkFeeder v => fun o => with_feeders (put v o (os_FeederDelegations s)) s
  | OkMiss v => fun o => with_misses (put v o (os_MissCounters s)) s
  | OkPrevote v => fun o => with_prevotes (put v o (os_Prevotes s)) s
  | OkVote v => fun o => with_votes (put v o (os_Votes s)) s
  | OkVoteTarget denom => fun o => with_vote_targets (put denom o (os_VoteTargets s)) s
  | OkTarget denom => fun o => with_targets (put denom o (os_Targets s)) s
  end.

#[export] Instance oracle_layout : Layout OracleStore :=
  Build_Layout _ oracle_key oracle_key (fun k => k) oracle_value oracle_key_bytes oracle_key_family oracle_key_ok
    oracle_read oracle_write.
End Oracle.

#[export] Hint Unfold
  ExchangeRateKey FeederDelegationKey MissCounterKey AggregateExchangeRatePrevoteKey
  AggregateExchangeRateVoteKey VoteTargetKey TargetKey GetExchangeRateKey GetFeederDelegationKey
  GetMissCounterKey GetAggregateExchangeRatePrevoteKey GetAggregateExchangeRateVoteKey
  GetVoteTargetKey GetTargetKey : keys.

#[export] Instance oracle_layout_laws `{!AddressPrefix, !AddressPrefixLaws} : LayoutLaws OracleStore.
Proof. split; [read_back|read_other|same_key|key_families]. Qed.

(** ** Maker ([src/x/maker/types/keys.go]; the keys in the files that use them)

    The prefix of the accounts' collateral comes twice: the function is given
    the prefix on a store that has it already. *)

Definition KeyPrefixBackingRatio := prefix_byte 1.
Definition KeyPrefixBackingRatioLastBlock := prefix_byte 2.
Definition KeyPrefixBackingParams := prefix_byte 3.
Definition KeyPrefixCollateralParams := prefix_byte 4.
Definition KeyPrefixBackingTotal := prefix_byte 5.
Definition KeyPrefixCollateralTotal := prefix_byte 6.
Definition KeyPrefixBackingPool := prefix_byte 7.
Definition KeyPrefixCollateralPool := prefix_byte 8.
Definition KeyPrefixCollateralAccount := prefix_byte 10.

Section Maker.
Context `{!AddressPrefix}.

Definition keyByAddrDenom (prefix : string) (addr : Addr) (denom : string) : string :=
  (prefix ++ MustLengthPrefix addr) ++ denom.

Inductive maker_key :=
| MkRatio | MkRatioLastBlock | MkBackingParams (denom : string) | MkCollateralParams (denom : string)
| MkBackingTotal | MkCollateralTotal | MkBackingPool (denom : string) | MkCollateralPool (denom : string)
| MkAccount (addr : Addr) (denom : string).

Definition maker_value (k : maker_key) : Type :=
  match k with
  | MkRatio => Dec
  | MkRatioLastBlock => Z
  | MkBackingParams _ => BackingRiskParams
  | MkCollateralParams _ => CollateralRiskParams
  | MkBackingTotal => TotalBacking
  | MkCollateralTotal => TotalCollateral
  | MkBackingPool _ => PoolBacking
  | MkCollateralPool _ => PoolCollateral
  | MkAccount _ _ => AccountCollateral
  end.

Definition maker_key_ok (k : maker_key) : Prop :=
  match k with MkAccount addr _ => addr_ok addr | _ => True end.

Definition maker_key_family (k : maker_key) : string :=
  match k with
  | MkRatio => KeyPrefixBackingRatio
  | MkRatioLastBlock => KeyPrefixBackingRatioLastBlock
  | MkBackingParams _ => KeyPrefixBackingParams
  | MkCollateralParams _ => KeyPrefixCollateralParams
  | MkBackingTotal => KeyPrefixBackingTotal
  | MkCollateralTotal => KeyPrefixCollateralTotal
  | MkBackingPool _ => KeyPrefixBackingPool
  | MkCollateralPool _ => KeyPrefixCollateralPool
  | MkAccount _ _ => KeyPrefixCollateralAccount
  end.

Definition maker_key_bytes (k : maker_key) : string :=
  match k with
  | MkRatio => KeyPrefixBackingRatio
  | MkRatioLastBlock => KeyPrefixBackingRatioLastBlock
  | MkBackingParams denom => KeyPrefixBackingParams ++ denom
  | MkCollateralParams denom => KeyPrefixCollateralParams ++ denom
  | MkBackingTotal => KeyPrefixBackingTotal
  | MkCollateralTotal => KeyPrefixCollateralTotal
  | MkBackingPool denom => KeyPrefixBackingPool ++ denom
  | MkCollateralPool denom => KeyPrefixCollateralPool ++ denom
  | MkAccount addr denom =>
      KeyPrefixCollateralAccount ++ keyByAddrDenom KeyPrefixCollateralAccount addr denom
  end.

Definition maker_read (s : MakerStore) (k : maker_key) : option (maker_value k) :=
  match k with
  | MkRatio => ms_BackingRatio s
  | MkRatioLastBlock => ms_BackingRatioLastBlock s
  | MkBackingParams denom => ms_BackingParams s !! denom
  | MkCollateralParams denom => ms_CollateralParams s !! denom
  | MkBackingTotal => ms_BackingTotal s
  | MkCollateralTotal => ms_CollateralTotal s
  | MkBackingPool denom => ms_BackingPool s !! denom
  | MkCollateralPool denom => ms_CollateralPool s !! denom
  | MkAccount addr denom => ms_CollateralAccount s !! (addr, denom)
  end.

Definition maker_write (s : MakerStore) (k : maker_key) : option (maker_value k) → MakerStore :=
  let 'mkMakerStore p br lb bp cp bt ct bpool cpool acc := s in
  match k with
  | MkRatio => fun o => mkMakerStore p o lb bp cp bt ct bpool cpool acc
  | MkRatioLastBlock => fun o => mkMakerStore p br o bp cp bt ct bpool cpool acc
  | MkBackingParams denom => fun o => mkMakerStore p br lb (put denom o bp) cp bt ct bpool cpool acc
  | MkCollateralParams denom => fun o => mkMakerStore p br lb bp (put denom o cp) bt ct bpool cpool acc
  | MkBackingTotal => fun o => mkMakerStore p br lb bp cp o ct bpool cpool acc
  | MkCollateralTotal => fun o => mkMakerStore p br lb bp cp bt o bpool cpool acc
  | MkBackingPool denom => fun o => mkMakerStore p br lb bp cp bt ct (put denom o bpool) cpool acc
  | MkCollateralPool denom => fun o => mkMakerStore p br lb bp cp bt ct bpool (put denom o cpool) acc
  | MkAccount addr denom => fun o =>
      mkMakerStore p br lb bp cp bt ct bpool cpool (put (addr, denom) o acc)
  end.

#[export] Instance maker_layout : Layout MakerStore :=
  Build_Layout _ maker_key maker_key (fun k => k) maker_value maker_key_bytes maker_key_family maker_key_ok maker_read maker_write.
End Maker.

#[export] Hint Unfold
  KeyPrefixBackingRatio KeyPrefixBackingRatioLastBlock KeyPrefixBackingParams KeyPrefixCollateralParams
  KeyPrefixBackingTotal KeyPrefixCollateralTotal KeyPrefixBackingPool KeyPrefixCollateralPool
  KeyPrefixCollateralAccount keyByAddrDenom : keys.

#[export] Instance maker_layout_laws `{!AddressPrefix, !AddressPrefixLaws} : LayoutLaws MakerStore.
Proof. split; [read_back|read_other|same_key|key_families]. Qed.

(** ** Vesting ([src/x/vesting/types/keys.go]) *)

Definition KeyPrefixAllocationAddress := prefix_byte 1.
Definition KeyPrefixAirdropsTotalAmount := prefix_byte 2.
Definition KeyPrefixAirdrops := prefix_byte 3.
Definition KeyPrefixAirdropsCompleted := prefix_byte 4.

Section Vesting.
Context `{!AddressPrefix}.

Definition AllocationAddrKey : string := KeyPrefixAllocationAddress.
Definition AirdropsTotalAmountKey : string := KeyPrefixAirdropsTotalAmount.
Definition AirdropsKey (acc : Addr) : string := KeyPrefixAirdrops ++ MustLengthPrefix acc.
Definition AirdropsCompletedKey (acc : Addr) : string := KeyPrefixAirdropsCompleted ++ MustLengthPrefix acc.

Inductive vesting_key := XkAddresses | XkTotal | XkAirdrop (acc : Addr) | XkCompleted (acc : Addr).

Definition vesting_value (k : vesting_key) : Type :=
  match k with
  | XkAddresses => AllocationAddresses
  | XkTotal => Z
  | XkAirdrop _ | XkCompleted _ => Airdrop
  end.

Definition vesting_key_ok (k : vesting_key) : Prop :=
  match k with XkAirdrop acc | XkCompleted acc => addr_ok acc | _ => True end.

Definition vesting_key_family (k : vesting_key) : string :=
  match k with
  | XkAddresses => KeyPrefixAllocationAddress
  | XkTotal => KeyPrefixAirdropsTotalAmount
  | XkAirdrop _ => KeyPrefixAirdrops
  | XkCompleted _ => KeyPrefixAirdropsCompleted
  end.

Definition vesting_key_bytes (k : vesting_key) : string :=
  match k with
  | XkAddresses => AllocationAddrKey
  | XkTotal => AirdropsTotalAmountKey
  | XkAirdrop acc => AirdropsKey acc
  | XkCompleted acc => AirdropsCompletedKey acc
  end.

Definition vesting_read (s : VestingStore) (k : vesting_key) : option (vesting_value k) :=
  match k with
  | XkAddresses => vst_Addresses s
  | XkTotal => vst_AirdropTotal s
  | XkAirdrop acc => vst_Airdrops s !! acc
  | XkCompleted acc => vst_Completed s !! acc
  end.

Definition vesting_write (s : VestingStore) (k : vesting_key) : option (vesting_value k) → VestingStore :=
  let 'mkVestingStore p ad tot air comp := s in
  match k with
  | XkAddresses => fun o => mkVestingStore p o tot air comp
  | XkTotal => fun o => mkVestingStore p ad o air comp
  | XkAirdrop acc => fun o => mkVestingStore p ad tot (put acc o air) comp
  | XkCompleted acc => fun o => mkVestingStore p ad tot air (put acc o comp)
  end.

#[export] Instance vesting_layout : Layout VestingStore :=
  Build_Layout _ vesting_key vesting_key (fun k => k) vesting_value vesting_key_bytes vesting_key_family vesting_key_ok
    vesting_read vesting_write.
End Vesting.

#[export] Hint Unfold
  KeyPrefixAllocationAddress KeyPrefixAirdropsTotalAmount KeyPrefixAirdrops KeyPrefixAirdropsCompleted
  AllocationAddrKey AirdropsTotalAmountKey AirdropsKey AirdropsCompletedKey : keys.

#[export] Instance vesting_layout_laws `{!AddressPrefix, !AddressPrefixLaws} : LayoutLaws VestingStore.
Proof. split; [read_back|read_other|same_key|key_families]. Qed.

(** ** Token pairs ([src/x/erc20/types/keys.go]) *)

Definition KeyPrefixTokenPair := prefix_byte 1.
Definition KeyPrefixTokenPairByERC20 := prefix_byte 2.
Definition KeyPrefixTokenPairByDenom := prefix_byte 3.

Inductive erc20_key := EkPair (id : string) | EkByERC20 (erc20 : EthAddr) | EkByDenom (denom : string).

Definition erc20_value (k : erc20_key) : Type :=
  match k with EkPair _ => TokenPair | EkByERC20 _ | EkByDenom _ => string end.

Definition erc20_key_family (k : erc20_key) : string :=
  match k with
  | EkPair _ => KeyPrefixTokenPair
  | EkByERC20 _ => KeyPrefixTokenPairByERC20
  | EkByDenom _ => KeyPrefixTokenPairByDenom
  end.

Definition erc20_key_bytes (k : erc20_key) : string :=
  match k with
  | EkPair id => KeyPrefixTokenPair ++ id
  | EkByERC20 erc20 => KeyPrefixTokenPairByERC20 ++ erc20
  | EkByDenom denom => KeyPrefixTokenPairByDenom ++ denom
  end.

Definition erc20_read (s : Erc20Store) (k : erc20_key) : option (erc20_value k) :=
  match k with
  | EkPair id => es_TokenPair s !! id
  | EkByERC20 erc20 => es_ByERC20 s !! erc20
  | EkByDenom denom => es_ByDenom s !! denom
  end.

Definition erc20_write (s : Erc20Store) (k : erc20_key) : option (erc20_value k) → Erc20Store :=
  match k with
  | EkPair id => fun o => es_set_TokenPair (put id o (es_TokenPair s)) s
  | EkByERC20 erc20 => fun o => es_set_ByERC20 (put erc20 o (es_ByERC20 s)) s
  | EkByDenom denom => fun o => es_set_ByDenom (put denom o (es_ByDenom s)) s
  end.

#[export] Hint Unfold KeyPrefixTokenPair KeyPrefixTokenPairByERC20 KeyPrefixTokenPairByDenom : keys.

#[export] Instance erc20_layout : Layout Erc20Store :=
  Build_Layout _ erc20_key erc20_key (fun k => k) erc20_value erc20_key_bytes erc20_key_family (fun _ => True)
    erc20_read erc20_write.

#[export] Instance erc20_layout_laws : LayoutLaws Erc20Store.
Proof. split; [read_back|read_other|same_key|key_families]. Qed.

(** ** Locks delegated to validators ([src/x/staking/types/keys.go])

    These prefixes share the store of the SDK's staking keeper; the layout is of
    the part under them. *)

Definition VeValidatorsKey := prefix_byte 161.
Definition VeDelegationKey := prefix_byte 162.
Definition VeUnbondingDelegationKey := prefix_byte 163.
Definition VeRedelegationKey := prefix_byte 164.
Definition VeTokensKey := prefix_byte 165.

(** [make([]byte, n)], and [copy(key[i:j], src)]. *)
Fixpoint make_bytes (n : nat) : string :=
  match n with O => "" | S n => String (byte_of 0) (make_bytes n) end.
Definition copy_bytes (key : string) (i j : nat) (src : string) : string :=
  let n := Nat.min (j - i) (String.length src) in
  String.substring 0 i key ++ String.substring 0 n src ++ String.substring (i + n) (String.length key - (i + n)) key.

Section Staking.
Context `{!AddressPrefix}.

Definition GetVeValidatorKey (operatorAddr : Addr) : string :=
  VeValidatorsKey ++ MustLengthPrefix operatorAddr.
Definition GetVeDelegationsKey (delAddr : Addr) : string := VeDelegationKey ++ MustLengthPrefix delAddr.
Definition GetVeDelegationKey (delAddr valAddr : Addr) : string :=
  GetVeDelegationsKey delAddr ++ MustLengthPrefix valAddr.
Definition GetVeUBDsKey (delAddr : Addr) : string := VeUnbondingDelegationKey ++ MustLengthPrefix delAddr.
Definition GetVeUBDKey (delAddr valAddr : Addr) : string :=
  GetVeUBDsKey delAddr ++ MustLengthPrefix valAddr.
Definition GetVeREDsKey (delAddr : Addr) : string := VeRedelegationKey ++ MustLengthPrefix delAddr.
Definition GetVeREDKey (delAddr valSrcAddr valDstAddr : Addr) : string :=
  let d := String.length delAddr in
  let s := String.length valSrcAddr in
  let t := String.length valDstAddr in
  let key := make_bytes (1 + 3 + d + s + t) in
  let key := copy_bytes key 0 (2 + d) (GetVeREDsKey delAddr) in
  let key := copy_bytes key (2 + d) (3 + d) (prefix_byte (Z.of_nat s)) in
  let key := copy_bytes key (3 + d) (3 + d + s) valSrcAddr in
  let key := copy_bytes key (3 + d + s) (4 + d + s) (prefix_byte (Z.of_nat t)) in
  copy_bytes key (4 + d + s) (String.length key) valDstAddr.
Definition GetVeTokensKey (veID : Z) : string := VeTokensKey ++ Uint64ToBigEndian veID.
End Staking.

Lemma make_bytes_length n : String.length (make_bytes n) = n.
Proof. induction n as [|n IH]; simpl; [done|by rewrite IH]. Qed.

Lemma make_bytes_add n n' : make_bytes (n + n') = make_bytes n ++ make_bytes n'.
Proof. induction n as [|n IH]; [done|]. simpl. by rewrite IH, append_cons. Qed.

Lemma append_assoc s t u : (s ++ t) ++ u = s ++ t ++ u.
Proof. induction s as [|c s IH]; [done|]. by rewrite !append_cons, IH. Qed.

Lemma substring_head s t : String.substring 0 (String.length s) (s ++ t) = s.
Proof. induction s as [|c s IH]; [by destruct t|]. rewrite append_cons. simpl. by rewrite IH. Qed.

Lemma substring_tail s t : String.substring (String.length s) (String.length t) (s ++ t) = t.
Proof.
  induction s as [|c s IH]; [|by rewrite append_cons]. rewrite append_nil_l. simpl.
  rewrite <-(append_nil_r t) at 2. apply substring_head.
Qed.

(** Copying over a part of the same length replaces it. *)
Lemma copy_bytes_part s t u src i j :
  i = String.length s → j = (i + String.length src)%nat → String.length t = String.length src →
  copy_bytes (s ++ t ++ u) i j src = s ++ src ++ u.
Proof.
  intros -> -> Hl. unfold copy_bytes.
  replace (Nat.min _ _) with (String.length src) by lia.
  rewrite substring_head. f_equal.
  rewrite <-(append_nil_r src) at 2. rewrite substring_head. f_equal.
  rewrite <-append_assoc.
  replace (String.length s + String.length src)%nat with (String.length (s ++ t)) by (rewrite append_length; lia).
  replace (String.length ((s ++ t) ++ u) - _)%nat with (String.length u) by (rewrite !append_length; lia).
  apply substring_tail.
Qed.

(** The key of a redelegation is put together in a buffer; for addresses of at
    most 255 bytes it is the three of them, each with its length. *)
Lemma GetVeREDKey_plain `{!AddressPrefix, !AddressPrefixLaws} a b c :
  addr_ok a → addr_ok b → addr_ok c →
  GetVeREDKey a b c = VeRedelegationKey ++ MustLengthPrefix a ++ MustLengthPrefix b ++ MustLengthPrefix c.
Proof.
  intros Ha Hb Hc. unfold GetVeREDKey, GetVeREDsKey. rewrite !MustLengthPrefix_spec by done.
  set (d := String.length a). set (s := String.length b). set (t := String.length c).
  set (A := VeRedelegationKey ++ String (byte_of (Z.of_nat d)) a).
  assert (String.length A = (2 + d)%nat) as HA by done.
  replace (1 + 3 + d + s + t)%nat with ((2 + d) + (1 + (s + (1 + t))))%nat by lia.
  rewrite !make_bytes_add.
  rewrite <-(append_nil_l (make_bytes (2 + d) ++ _)).
  rewrite (copy_bytes_part "" (make_bytes (2 + d))) by (rewrite ?make_bytes_length, ?HA; simpl; lia).
  rewrite append_nil_l.
  rewrite (copy_bytes_part A (make_bytes 1)) by (rewrite ?make_bytes_length; simpl; lia).
  rewrite <-(append_assoc A).
  rewrite (copy_bytes_part _ (make_bytes s)) by (rewrite ?append_length, ?make_bytes_length, ?HA; simpl; lia).
  rewrite <-(append_assoc _ b).
  rewrite (copy_bytes_part _ (make_bytes 1)) by (rewrite ?append_length, ?make_bytes_length, ?HA; simpl; lia).
  rewrite <-(append_assoc _ (prefix_byte (Z.of_nat t))), <-(append_nil_r (make_bytes t)).
  rewrite (copy_bytes_part _ (make_bytes t) "")
    by (rewrite ?append_length, ?make_bytes_length, ?HA; simpl; lia).
  subst A. unfold VeRedelegationKey, prefix_byte. by rewrite append_nil_r, !append_assoc.
Qed.

Section StakingLayout.
Context `{!AddressPrefix}.

Inductive staking_key :=
| SkValidator (v : Addr) | SkDelegation (d v : Addr) | SkUnbonding (d v : Addr)
| SkRedelegation (d src dst : Addr) | SkTokens (veID : Z).

Definition staking_value (k : staking_key) : Type :=
  match k with
  | SkValidator _ => VeValidator
  | SkDelegation _ _ => VeDelegation
  | SkUnbonding _ _ => VeUnbondingDelegation
  | SkRedelegation _ _ _ => VeRedelegation
  | SkTokens _ => Z
  end.

Definition staking_key_ok (k : staking_key) : Prop :=
  match k with
  | SkValidator v => addr_ok v
  | SkDelegation d v | SkUnbonding d v => addr_ok d ∧ addr_ok v
  | SkRedelegation d src dst => addr_ok d ∧ addr_ok src ∧ addr_ok dst
  | SkTokens veID => u64_ok veID
  end.

Definition staking_key_family (k : staking_key) : string :=
  match k with
  | SkValidator _ => VeValidatorsKey
  | SkDelegation _ _ => VeDelegationKey
  | SkUnbonding _ _ => VeUnbondingDelegationKey
  | SkRedelegation _ _ _ => VeRedelegationKey
  | SkTokens _ => VeTokensKey
  end.

Definition staking_key_bytes (k : staking_key) : string :=
  match k with
  | SkValidator v => GetVeValidatorKey v
  | SkDelegation d v => GetVeDelegationKey d v
  | SkUnbonding d v => GetVeUBDKey d v
  | SkRedelegation d src dst => GetVeREDKey d src dst
  | SkTokens veID => GetVeTokensKey veID
  end.

Definition staking_read (s : StakingStore) (k : staking_key) : option (staking_value k) :=
  match k with
  | SkValidator v => ss_VeValidators s !! v
  | SkDelegation d v => ss_VeDelegations s !! (d, v)
  | SkUnbonding d v => ss_VeUnbondingDelegations s !! (d, v)
  | SkRedelegation d src dst => ss_VeRedelegations s !! (d, src, dst)
  | SkTokens veID => ss_VeTokens s !! veID
  end.

Definition staking_write (s : StakingStore) (k : staking_key) : option (staking_value k) → StakingStore :=
  match k with
  | SkValidator v => fun o => ss_set_VeValidators (put v o (ss_VeValidators s)) s
  | SkDelegation d v => fun o => ss_set_VeDelegations (put (d, v) o (ss_VeDelegations s)) s
  | SkUnbonding d v => fun o =>
      ss_set_VeUnbondingDelegations (put (d, v) o (ss_VeUnbondingDelegations s)) s
  | SkRedelegation d src dst => fun o =>
      ss_set_VeRedelegations (put (d, src, dst) o (ss_VeRedelegations s)) s
  | SkTokens veID => fun o => ss_set_VeTokens (put veID o (ss_VeTokens s)) s
  end.

#[export] Instance staking_layout : Layout StakingStore :=
  Build_Layout _ staking_key staking_key (fun k => k) staking_value staking_key_bytes staking_key_family staking_key_ok
    staking_read staking_write.
End StakingLayout.

#[export] Hint Unfold
  VeValidatorsKey VeDelegationKey VeUnbondingDelegationKey VeRedelegationKey VeTokensKey
  GetVeValidatorKey GetVeDelegationsKey GetVeDelegationKey GetVeUBDsKey GetVeUBDKey
  GetVeTokensKey : keys.

Lemma staking_bytes_inj `{!AddressPrefix, !AddressPrefixLaws} k k' :
  staking_key_ok k → staking_key_ok k' → staking_key_bytes k = staking_key_bytes k' → k = k'.
Proof.
  set (plain := fun k => match k with
    | SkRedelegation a b c =>
        VeRedelegationKey ++ MustLengthPrefix a ++ MustLengthPrefix b ++ MustLengthPrefix c
    | k => staking_key_bytes k
    end).
  assert (∀ k, staking_key_ok k → staking_key_bytes k = plain k) as Hp.
  { intros [] Hk; try done. by apply GetVeREDKey_plain; destruct Hk as (? & ? & ?). }
  intros Hk Hk' E. rewrite !Hp in E by done. subst plain. clear Hp. same_bytes k k' Hk Hk' E.
Qed.

#[export] Instance staking_layout_laws `{!AddressPrefix, !AddressPrefixLaws} : LayoutLaws StakingStore.
Proof.
  split; [read_back|read_other|intros k k' Hk Hk'; split; [by apply staking_bytes_inj|]; intros E; change (k = k') in E; by subst|].
  key_families_with ltac:(fun Hk => eexists _, _; split; [done|]; by apply GetVeREDKey_plain; destruct Hk as (? & ? & ?)).
Qed.

(** ** Voter ([src/x/voter/types/keys.go])

    The votes of pools and of users are under one prefix: the key of a pool
    whose denomination starts with the eight bytes of an identifier is also that
    of a vote of this user.  The record has one map for both. *)

Definition KeyPrefixTotalVotes := prefix_byte 1.
Definition KeyPrefixTotalVotesByUser := prefix_byte 2.
Definition KeyPrefixPoolWeightedVotes := prefix_byte 3.
Definition KeyPrefixIndex := prefix_byte 5.
Definition KeyPrefixIndexAtLastUpdatedByGauge := prefix_byte 6.
Definition KeyPrefixClaimableRewardByGauge := prefix_byte 7.

Definition TotalVotesKey : string := KeyPrefixTotalVotes.
Definition TotalVotesByUserKey (veID : Z) : string := KeyPrefixTotalVotesByUser ++ Uint64ToBigEndian veID.
Definition voter_PoolWeightedVotesKey (poolDenom : string) : string :=
  KeyPrefixPoolWeightedVotes ++ poolDenom.
Definition voter_PoolWeightedVotesByUserKey (veID : Z) (poolDenom : string) : string :=
  (KeyPrefixPoolWeightedVotes ++ Uint64ToBigEndian veID) ++ poolDenom.
Definition IndexKey : string := KeyPrefixIndex.
Definition IndexAtLastUpdatedByGaugeKey (poolDenom : string) : string :=
  KeyPrefixIndexAtLastUpdatedByGauge ++ poolDenom.
Definition ClaimableRewardByGaugeKey (poolDenom : string) : string :=
  KeyPrefixClaimableRewardByGauge ++ poolDenom.

Inductive voter_key :=
| PkTotal | PkTotalByUser (veID : Z) | PkPool (poolDenom : string)
| PkPoolByUser (veID : Z) (poolDenom : string) | PkIndex
| PkIndexAt (poolDenom : string) | PkClaimable (poolDenom : string).

Inductive voter_slot :=
| PsTotal | PsTotalByUser (veID : Z) | PsVotes (k : string) | PsIndex
| PsIndexAt (poolDenom : string) | PsClaimable (poolDenom : string).

Definition voter_key_slot (k : voter_key) : voter_slot :=
  match k with
  | PkTotal => PsTotal
  | PkTotalByUser veID => PsTotalByUser veID
  | PkPool poolDenom => PsVotes (PoolWeightedVotesKey poolDenom)
  | PkPoolByUser veID poolDenom => PsVotes (PoolWeightedVotesByUserKey veID poolDenom)
  | PkIndex => PsIndex
  | PkIndexAt poolDenom => PsIndexAt poolDenom
  | PkClaimable poolDenom => PsClaimable poolDenom
  end.

Definition voter_key_ok (k : voter_key) : Prop :=
  match k with PkTotalByUser veID | PkPoolByUser veID _ => u64_ok veID | _ => True end.

Definition voter_key_family (k : voter_key) : string :=
  match k with
  | PkTotal => KeyPrefixTotalVotes
  | PkTotalByUser _ => KeyPrefixTotalVotesByUser
  | PkPool _ | PkPoolByUser _ _ => KeyPrefixPoolWeightedVotes
  | PkIndex => KeyPrefixIndex
  | PkIndexAt _ => KeyPrefixIndexAtLastUpdatedByGauge
  | PkClaimable _ => KeyPrefixClaimableRewardByGauge
  end.

Definition voter_key_bytes (k : voter_key) : string :=
  match k with
  | PkTotal => TotalVotesKey
  | PkTotalByUser veID => TotalVotesByUserKey veID
  | PkPool poolDenom => voter_PoolWeightedVotesKey poolDenom
  | PkPoolByUser veID poolDenom => voter_PoolWeightedVotesByUserKey veID poolDenom
  | PkIndex => IndexKey
  | PkIndexAt poolDenom => IndexAtLastUpdatedByGaugeKey poolDenom
  | PkClaimable poolDenom => ClaimableRewardByGaugeKey poolDenom
  end.

Definition voter_read (s : VoterStore) (x : voter_slot) : option Z :=
  match x with
  | PsTotal => vo_TotalVotes s
  | PsTotalByUser veID => vo_TotalVotesByUser s !! veID
  | PsVotes k => vo_Votes s !! k
  | PsIndex => vo_Index s
  | PsIndexAt poolDenom => vo_IndexAtLastUpdated s !! poolDenom
  | PsClaimable poolDenom => vo_Claimable s !! poolDenom
  end.

Definition voter_write (s : VoterStore) (x : voter_slot) (o : option Z) : VoterStore :=
  match x with
  | PsTotal => vo_set_TotalVotes o s
  | PsTotalByUser veID => vo_set_TotalVotesByUser (put veID o (vo_TotalVotesByUser s)) s
  | PsVotes k => vo_set_Votes (put k o (vo_Votes s)) s
  | PsIndex => vo_set_Index o s
  | PsIndexAt poolDenom => vo_set_IndexAtLastUpdated (put poolDenom o (vo_IndexAtLastUpdated s)) s
  | PsClaimable poolDenom => vo_set_Claimable (put poolDenom o (vo_Claimable s)) s
  end.

#[export] Hint Unfold
  KeyPrefixTotalVotes KeyPrefixTotalVotesByUser KeyPrefixPoolWeightedVotes KeyPrefixIndex
  KeyPrefixIndexAtLastUpdatedByGauge KeyPrefixClaimableRewardByGauge TotalVotesKey
  TotalVotesByUserKey voter_PoolWeightedVotesKey voter_PoolWeightedVotesByUserKey IndexKey
  IndexAtLastUpdatedByGaugeKey ClaimableRewardByGaugeKey : keys.

#[export] Instance voter_layout : Layout VoterStore :=
  Build_Layout _ voter_key voter_slot voter_key_slot (fun _ => Z) voter_key_bytes voter_key_family
    voter_key_ok voter_read voter_write.

(** When two keys of the module are the same bytes. *)
Definition voter_clash (k k' : voter_key) : Prop :=
  match k, k' with
  | PkPool d, PkPoolByUser veID d' | PkPoolByUser veID d', PkPool d => d = Uint64ToBigEndian veID ++ d'
  | _, _ => k = k'
  end.

Lemma voter_bytes_clash k k' :
  voter_key_ok k → voter_key_ok k' → voter_key_bytes k = voter_key_bytes k' ↔ voter_clash k k'.
Proof.
  intros Hk Hk'. split; [|clash_same k k'].
  intros E. clash_bytes k k' Hk Hk' E.
Qed.

Lemma voter_slot_clash k k' :
  voter_key_ok k → voter_key_ok k' → voter_key_slot k = voter_key_slot k' ↔ voter_clash k k'.
Proof.
  intros Hk Hk'. split; [|clash_slot k k'].
  intros E. destruct k, k'; simpl in *; unfold PoolWeightedVotesKey, PoolWeightedVotesByUserKey in E;
    try (by simplify_eq).
  assert (∀ u v, PsVotes u = PsVotes v → u = v) as Hi by (by intros u v [= ->]).
  apply Hi in E. split_key E. by subst.
Qed.

#[export] Instance voter_layout_laws : LayoutLaws VoterStore.
Proof.
  split; [read_back|read_other| |key_families].
  intros k k' Hk Hk'. etransitivity; [by apply voter_bytes_clash|]. symmetry. by apply voter_slot_clash.
Qed.

(** ** Gauge ([src/x/gauge/types/keys.go])

    The functions take the key of a pool, of a gauge or a bribe.  Where it is
    followed by the denomination of a reward or by an address, nothing
    separates the two, and other pairs make the same bytes: the entry of the
    record is that of what the two make together. *)

Definition KeyPrefixGaugeDenom := prefix_byte 1.
Definition KeyPrefixTotalDepositedAmount := prefix_byte 3.
Definition KeyPrefixDepositedAmountByUser := prefix_byte 4.
Definition KeyPrefixTotalDerivedAmount := prefix_byte 5.
Definition KeyPrefixDerivedAmountByUser := prefix_byte 6.
Definition KeyPrefixReward := prefix_byte 7.
Definition KeyPrefixUserReward := prefix_byte 8.
Definition KeyPrefixUserVeIDByAddress := prefix_byte 9.
Definition KeyPrefixEpoch := prefix_byte 10.
Definition KeyPrefixPointHistoryByEpoch := prefix_byte 11.
Definition KeyPrefixUserEpoch := prefix_byte 12.
Definition KeyPrefixUserPointHistoryByUserEpoch := prefix_byte 13.
Definition KeyPrefixRewardEpoch := prefix_byte 14.
Definition KeyPrefixRewardPointHistoryByRewardEpoch := prefix_byte 15.

Definition TotalDepositedAmountKey (g : string) : string := KeyPrefixTotalDepositedAmount ++ g.
Definition DepositedAmountByUserKey (g : string) (veID : Z) : string :=
  (KeyPrefixDepositedAmountByUser ++ g) ++ Uint64ToBigEndian veID.
Definition TotalDerivedAmountKey (g : string) : string := KeyPrefixTotalDerivedAmount ++ g.
Definition DerivedAmountByUserKey (g : string) (veID : Z) : string :=
  (KeyPrefixDerivedAmountByUser ++ g) ++ Uint64ToBigEndian veID.
Definition RewardKeyPrefix (g : string) : string := KeyPrefixReward ++ g.
Definition gauge_RewardKey (g rewardDenom : string) : string := RewardKeyPrefix g ++ rewardDenom.
Definition UserRewardKey (g rewardDenom : string) (veID : Z) : string :=
  ((KeyPrefixUserReward ++ g) ++ rewardDenom) ++ Uint64ToBigEndian veID.
Definition gauge_UserVeIDByAddressKey (g : string) (acc : Addr) : string :=
  (KeyPrefixUserVeIDByAddress ++ g) ++ acc.
Definition gauge_EpochKey (g : string) : string := KeyPrefixEpoch ++ g.
Definition gauge_PointKey (g : string) (epoch : Z) : string :=
  (KeyPrefixPointHistoryByEpoch ++ g) ++ Uint64ToBigEndian epoch.
Definition gauge_UserEpochKey (g : string) (veID : Z) : string :=
  (KeyPrefixUserEpoch ++ g) ++ Uint64ToBigEndian veID.
Definition gauge_UserPointKey (g : string) (veID epoch : Z) : string :=
  ((KeyPrefixUserPointHistoryByUserEpoch ++ g) ++ Uint64ToBigEndian veID) ++ Uint64ToBigEndian epoch.
Definition RewardEpochKey (g rewardDenom : string) : string := (KeyPrefixRewardEpoch ++ g) ++ rewardDenom.
Definition RewardPointKey (g rewardDenom : string) (epoch : Z) : string :=
  ((KeyPrefixRewardPointHistoryByRewardEpoch ++ g) ++ rewardDenom) ++ Uint64ToBigEndian epoch.

Inductive gauge_key :=
| GkGauge (denom : string) | GkTotalDeposited (g : string) | GkDeposited (g : string) (veID : Z)
| GkTotalDerived (g : string) | GkDerived (g : string) (veID : Z) | GkReward (g rewardDenom : string)
| GkUserReward (g rewardDenom : string) (veID : Z) | GkUserVeID (g : string) (acc : Addr)
| GkEpoch (g : string) | GkPoint (g : string) (epoch : Z) | GkUserEpoch (g : string) (veID : Z)
| GkUserPoint (g : string) (veID epoch : Z) | GkRewardEpoch (g rewardDenom : string)
| GkRewardPoint (g rewardDenom : string) (epoch : Z).

Inductive gauge_slot :=
| GsGauge (denom : string) | GsTotalDeposited (g : string) | GsDeposited (g : string) (veID : Z)
| GsTotalDerived (g : string) | GsDerived (g : string) (veID : Z) | GsReward (gd : string)
| GsUserReward (gd : string) (veID : Z) | GsUserVeID (ga : string) | GsEpoch (g : string)
| GsPoint (g : string) (epoch : Z) | GsUserEpoch (g : string) (veID : Z)
| GsUserPoint (g : string) (veID epoch : Z) | GsRewardEpoch (gd : string)
| GsRewardPoint (gd : string) (epoch : Z).

Definition gauge_key_slot (k : gauge_key) : gauge_slot :=
  match k with
  | GkGauge denom => GsGauge denom
  | GkTotalDeposited g => GsTotalDeposited g
  | GkDeposited g veID => GsDeposited g veID
  | GkTotalDerived g => GsTotalDerived g
  | GkDerived g veID => GsDerived g veID
  | GkReward g rewardDenom => GsReward (RewardKey g rewardDenom)
  | GkUserReward g rewardDenom veID => GsUserReward (RewardKey g rewardDenom) veID
  | GkUserVeID g acc => GsUserVeID (UserVeIDByAddressKey g acc)
  | GkEpoch g => GsEpoch g
  | GkPoint g epoch => GsPoint g epoch
  | GkUserEpoch g veID => GsUserEpoch g veID
  | GkUserPoint g veID epoch => GsUserPoint g veID epoch
  | GkRewardEpoch g rewardDenom => GsRewardEpoch (RewardKey g rewardDenom)
  | GkRewardPoint g rewardDenom epoch => GsRewardPoint (RewardKey g rewardDenom) epoch
  end.

Definition gauge_value (x : gauge_slot) : Type :=
  match x with
  | GsGauge _ => string
  | GsReward _ => Reward
  | GsUserReward _ _ => UserReward
  | GsPoint _ _ | GsUserPoint _ _ _ | GsRewardPoint _ _ => GaugePoint
  | _ => Z
  end.

Definition gauge_key_ok (k : gauge_key) : Prop :=
  match k with
  | GkDeposited _ n | GkDerived _ n | GkUserReward _ _ n | GkPoint _ n | GkUserEpoch _ n
  | GkRewardPoint _ _ n => u64_ok n
  | GkUserPoint _ n n' => u64_ok n ∧ u64_ok n'
  | _ => True
  end.

Definition gauge_key_family (k : gauge_key) : string :=
  match k with
  | GkGauge _ => KeyPrefixGaugeDenom
  | GkTotalDeposited _ => KeyPrefixTotalDepositedAmount
  | GkDeposited _ _ => KeyPrefixDepositedAmountByUser
  | GkTotalDerived _ => KeyPrefixTotalDerivedAmount
  | GkDerived _ _ => KeyPrefixDerivedAmountByUser
  | GkReward _ _ => KeyPrefixReward
  | GkUserReward _ _ _ => KeyPrefixUserReward
  | GkUserVeID _ _ => KeyPrefixUserVeIDByAddress
  | GkEpoch _ => KeyPrefixEpoch
  | GkPoint _ _ => KeyPrefixPointHistoryByEpoch
  | GkUserEpoch _ _ => KeyPrefixUserEpoch
  | GkUserPoint _ _ _ => KeyPrefixUserPointHistoryByUserEpoch
  | GkRewardEpoch _ _ => KeyPrefixRewardEpoch
  | GkRewardPoint _ _ _ => KeyPrefixRewardPointHistoryByRewardEpoch
  end.

Definition gauge_key_bytes (k : gauge_key) : string :=
  match k with
  | GkGauge denom => GaugeKey denom
  | GkTotalDeposited g => TotalDepositedAmountKey g
  | GkDeposited g veID => DepositedAmountByUserKey g veID
  | GkTotalDerived g => TotalDerivedAmountKey g
  | GkDerived g veID => DerivedAmountByUserKey g veID
  | GkReward g rewardDenom => gauge_RewardKey g rewardDenom
  | GkUserReward g rewardDenom veID => UserRewardKey g rewardDenom veID
  | GkUserVeID g acc => gauge_UserVeIDByAddressKey g acc
  | GkEpoch g => gauge_EpochKey g
  | GkPoint g epoch => gauge_PointKey g epoch
  | GkUserEpoch g veID => gauge_UserEpochKey g veID
  | GkUserPoint g veID epoch => gauge_UserPointKey g veID epoch
  | GkRewardEpoch g rewardDenom => RewardEpochKey g rewardDenom
  | GkRewardPoint g rewardDenom epoch => RewardPointKey g rewardDenom epoch
  end.

Definition gauge_read (s : GaugeStore) (x : gauge_slot) : option (gauge_value x) :=
  match x with
  | GsGauge denom => gs_Gauges s !! denom
  | GsTotalDeposited g => gs_TotalDeposited s !! g
  | GsDeposited g veID => gs_Deposited s !! (g, veID)
  | GsTotalDerived g => gs_TotalDerived s !! g
  | GsDerived g veID => gs_Derived s !! (g, veID)
  | GsReward gd => gs_Reward s !! gd
  | GsUserReward gd veID => gs_UserReward s !! (gd, veID)
  | GsUserVeID ga => gs_UserVeID s !! ga
  | GsEpoch g => gs_Epoch s !! g
  | GsPoint g epoch => gs_Point s !! (g, epoch)
  | GsUserEpoch g veID => gs_UserEpoch s !! (g, veID)
  | GsUserPoint g veID epoch => gs_UserPoint s !! (g, veID, epoch)
  | GsRewardEpoch gd => gs_RewardEpoch s !! gd
  | GsRewardPoint gd epoch => gs_RewardPoint s !! (gd, epoch)
  end.

Definition gauge_write (s : GaugeStore) (x : gauge_slot) : option (gauge_value x) → GaugeStore :=
  match x with
  | GsGauge denom => fun o => gs_set_Gauges (put denom o (gs_Gauges s)) s
  | GsTotalDeposited g => fun o => gs_set_TotalDeposited (put g o (gs_TotalDeposited s)) s
  | GsDeposited g veID => fun o => gs_set_Deposited (put (g, veID) o (gs_Deposited s)) s
  | GsTotalDerived g => fun o => gs_set_TotalDerived (put g o (gs_TotalDerived s)) s
  | GsDerived g veID => fun o => gs_set_Derived (put (g, veID) o (gs_Derived s)) s
  | GsReward gd => fun o => gs_set_Reward (put gd o (gs_Reward s)) s
  | GsUserReward gd veID => fun o => gs_set_UserReward (put (gd, veID) o (gs_UserReward s)) s
  | GsUserVeID ga => fun o => gs_set_UserVeID (put ga o (gs_UserVeID s)) s
  | GsEpoch g => fun o => gs_set_Epoch (put g o (gs_Epoch s)) s
  | GsPoint g epoch => fun o => gs_set_Point (put (g, epoch) o (gs_Point s)) s
  | GsUserEpoch g veID => fun o => gs_set_UserEpoch (put (g, veID) o (gs_UserEpoch s)) s
  | GsUserPoint g veID epoch => fun o => gs_set_UserPoint (put (g, veID, epoch) o (gs_UserPoint s)) s
  | GsRewardEpoch gd => fun o => gs_set_RewardEpoch (put gd o (gs_RewardEpoch s)) s
  | GsRewardPoint gd epoch => fun o => gs_set_RewardPoint (put (gd, epoch) o (gs_RewardPoint s)) s
  end.

#[export] Hint Unfold
  KeyPrefixGaugeDenom KeyPrefixTotalDepositedAmount KeyPrefixDepositedAmountByUser
  KeyPrefixTotalDerivedAmount KeyPrefixDerivedAmountByUser KeyPrefixReward KeyPrefixUserReward
  KeyPrefixUserVeIDByAddress KeyPrefixEpoch KeyPrefixPointHistoryByEpoch KeyPrefixUserEpoch
  KeyPrefixUserPointHistoryByUserEpoch KeyPrefixRewardEpoch KeyPrefixRewardPointHistoryByRewardEpoch
  prefixGaugeDenom GaugeKey TotalDepositedAmountKey DepositedAmountByUserKey TotalDerivedAmountKey
  DerivedAmountByUserKey RewardKeyPrefix gauge_RewardKey UserRewardKey gauge_UserVeIDByAddressKey
  gauge_EpochKey gauge_PointKey gauge_UserEpochKey gauge_UserPointKey RewardEpochKey RewardPointKey : keys.

#[export] Instance gauge_layout : Layout GaugeStore :=
  Build_Layout _ gauge_key gauge_slot gauge_key_slot gauge_value gauge_key_bytes gauge_key_family
    gauge_key_ok gauge_read gauge_write.

(** When two keys of the module are the same bytes. *)
Definition gauge_clash (k k' : gauge_key) : Prop :=
  match k, k' with
  | GkReward g d, GkReward g' d' | GkRewardEpoch g d, GkRewardEpoch g' d'
  | GkUserVeID g d, GkUserVeID g' d' => g ++ d = g' ++ d'
  | GkUserReward g d n, GkUserReward g' d' n' | GkRewardPoint g d n, GkRewardPoint g' d' n' =>
      g ++ d = g' ++ d' ∧ n = n'
  | _, _ => k = k'
  end.

Lemma gauge_bytes_clash k k' :
  gauge_key_ok k → gauge_key_ok k' → gauge_key_bytes k = gauge_key_bytes k' ↔ gauge_clash k k'.
Proof.
  intros Hk Hk'. split; [|clash_same k k'].
  intros E. clash_bytes k k' Hk Hk' E.
Qed.

Lemma gauge_slot_clash k k' : gauge_key_slot k = gauge_key_slot k' ↔ gauge_clash k k'.
Proof.
  split; [|clash_slot k k']. intros E. destruct k, k'; simpl in *; try discriminate E; by simplify_eq.
Qed.

#[export] Instance gauge_layout_laws : LayoutLaws GaugeStore.
Proof.
  split; [read_back|read_other| |key_families].
  intros k k' Hk Hk'. etransitivity; [by apply gauge_bytes_clash|]. symmetry. apply gauge_slot_clash.
Qed.

(** ** The accessors of the keepers are writes of one key *)

Section Accessors.
Context `{!Sdk, !BankKeeper, !NftKeeper}.
Implicit Types w : World.

(** One key of the ve store set or deleted. *)
Definition ve_put w (k : ve_key) (o : option (ve_value k)) : World := set_ve (ve_write (w_ve w) k o) w.

Lemma ve_accessors w n n' x (l : LockedBalance) (p : Checkpoint) (b : bool) :
  SetTotalLockedAmount w x = ve_put w VkTotalLocked (Some x) ∧
  SetLockedAmountByUser w n l = ve_put w (VkLocked n) (Some l) ∧
  DeleteLockedAmountByUser w n = ve_put w (VkLocked n) None ∧
  SetNextVeID w x = ve_put w VkNextVeID (Some x) ∧
  SetVeAttached w n x = ve_put w (VkAttached n) (Some x) ∧
  SetVeVoted w n b = ve_put w (VkVoted n) (Some b) ∧
  SetEpoch w x = ve_put w VkEpoch (Some x) ∧
  SetCheckpoint w n p = ve_put w (VkPoint n) (Some p) ∧
  SetUserEpoch w n x = ve_put w (VkUserEpoch n) (Some x) ∧
  SetUserCheckpoint w n n' p = ve_put w (VkUserPoint n n') (Some p) ∧
  SetSlopeChange w n x = ve_put w (VkSlopeChange n) (Some x) ∧
  SetTotalEmission w x = ve_put w VkTotalEmission (Some x) ∧
  SetEmissionAtLastPeriod w x = ve_put w VkEmissionAtLastPeriod (Some x) ∧
  SetEmissionLastTimestamp w x = ve_put w VkEmissionLastTimestamp (Some x) ∧
  SetDistributionAccruedLastTimestamp w x = ve_put w VkAccruedLastTimestamp (Some x) ∧
  SetDistributionTotalAmount w x = ve_put w VkDistributionTotal (Some x) ∧
  SetDistributionPerPeriod w n x = ve_put w (VkPerPeriod n) (Some x) ∧
  SetDistributionClaimLastTimestampByUser w n x = ve_put w (VkClaimLastTimestamp n) (Some x).
Proof. split_and!; reflexivity. Qed.

Lemma oracle_accessors `{!AddressPrefix} (s : OracleStore) denom v x (d : Addr) p a :
  SetExchangeRate s denom x = oracle_write s (OkRate denom) (Some x) ∧
  DeleteExchangeRate s denom = oracle_write s (OkRate denom) None ∧
  SetFeederDelegation s v d = oracle_write s (OkFeeder v) (Some d) ∧
  SetMissCounter s v x = oracle_write s (OkMiss v) (Some x) ∧
  DeleteMissCounter s v = oracle_write s (OkMiss v) None ∧
  SetAggregateExchangeRatePrevote s v p = oracle_write s (OkPrevote v) (Some p) ∧
  DeleteAggregateExchangeRatePrevote s v = oracle_write s (OkPrevote v) None ∧
  SetAggregateExchangeRateVote s v a = oracle_write s (OkVote v) (Some a) ∧
  DeleteAggregateExchangeRateVote s v = oracle_write s (OkVote v) None ∧
  SetVoteTarget s denom = oracle_write s (OkVoteTarget denom) (Some denom) ∧
  SetTarget s denom = oracle_write s (OkTarget denom) (Some denom).
Proof. split_and!; reflexivity. Qed.

Lemma gauge_accessors (b : Base) w denom n n' x (r : Reward) (u : UserReward) (p : GaugePoint) (acc : Addr) :
  let g := Base_prefixKey b in
  let put w (k : gauge_key) o := on_gauge (fun s => gauge_write s (gauge_key_slot k) o) w in
  SetGauge w denom = put w (GkGauge denom) (Some denom) ∧
  SetTotalDepositedAmount b w x = put w (GkTotalDeposited g) (Some x) ∧
  SetDepositedAmountByUser b w n x = put w (GkDeposited g n) (Some x) ∧
  DeleteDepositedAmountByUser b w n = put w (GkDeposited g n) None ∧
  SetTotalDerivedAmount b w x = put w (GkTotalDerived g) (Some x) ∧
  SetDerivedAmountByUser b w n x = put w (GkDerived g n) (Some x) ∧
  SetReward b w denom r = put w (GkReward g denom) (Some r) ∧
  SetUserReward b w denom n u = put w (GkUserReward g denom n) (Some u) ∧
  SetUserVeIDByAddress b w acc x = put w (GkUserVeID g acc) (Some x) ∧
  DeleteUserVeIDByAddress b w acc = put w (GkUserVeID g acc) None ∧
  SetRewardEpoch b w denom x = put w (GkRewardEpoch g denom) (Some x) ∧
  SetRewardCheckpoint b w denom n' p = put w (GkRewardPoint g denom n') (Some p).
Proof. split_and!; reflexivity. Qed.

Lemma voter_accessors w n x denom :
  let put w (k : voter_key) o := on_voter (fun s => voter_write s (voter_key_slot k) o) w in
  SetTotalVotes w x = put w PkTotal (Some x) ∧
  SetTotalVotesByUser w n x = put w (PkTotalByUser n) (Some x) ∧
  DeleteTotalVotesByUser w n = put w (PkTotalByUser n) None ∧
  SetPoolWeightedVotes w denom x = put w (PkPool denom) (Some x) ∧
  SetPoolWeightedVotesByUser w n denom x = put w (PkPoolByUser n denom) (Some x) ∧
  DeletePoolWeightedVotesByUser w n denom = put w (PkPoolByUser n denom) None ∧
  SetIndex w x = put w PkIndex (Some x) ∧
  SetIndexAtLastUpdatedByGauge w denom x = put w (PkIndexAt denom) (Some x) ∧
  SetClaimableRewardByGauge w denom x = put w (PkClaimable denom) (Some x).
Proof. split_and!; reflexivity. Qed.
End Accessors.

(** ** The iterator over the rewards of a pool *)

Lemma reward_prefix g k :
  String.prefix (RewardKeyPrefix g) (gauge_key_bytes k) = true ↔
  ∃ g' d, k = GkReward g' d ∧ String.prefix g (g' ++ d) = true.
Proof.
  split.
  - destruct k; cbn; try done. intros Hp. by exists g0, rewardDenom.
  - intros (g' & d & -> & Hp). exact Hp.
Qed.

(** It visits what any pool stored under a key that starts with the pool's. *)
Lemma reward_family `{!Codec GaugeStore} (s : GaugeStore) m g b x :
  represents s m →
  byte_family m (RewardKeyPrefix g) !! b = Some x ↔
  ∃ g' d v, String.prefix g (g' ++ d) = true ∧ gs_Reward s !! RewardKey g' d = Some v ∧
    b = gauge_RewardKey g' d ∧ x = marshal (GsReward (RewardKey g' d) : slot (S := GaugeStore)) v.
Proof.
  intros R. rewrite represents_prefix by done. split.
  - intros (k & v & _ & (g' & d & -> & Hp)%reward_prefix & Hv & -> & ->). by exists g', d, v.
  - intros (g' & d & v & Hp & Hv & -> & ->). exists (GkReward g' d), v.
    split_and!; [done| |done..]. apply reward_prefix. by exists g', d.
Qed.

Lemma IterateRewards_spec `{!Sdk, !BankKeeper, !NftKeeper} (b : Base) (w : World) r :
  r ∈ IterateRewards b w ↔
  ∃ gd, String.prefix (Base_prefixKey b) gd = true ∧ gs_Reward (w_gauge w) !! gd = Some r.
Proof.
  unfold IterateRewards. rewrite list_elem_of_fmap. split.
  - intros ([gd r'] & -> & [Hp Hi]%list_elem_of_filter). rewrite kv_iter_perm, elem_of_map_to_list in Hi. by exists gd.
  - intros (gd & Hp & Hi). exists (gd, r). split; [done|]. apply list_elem_of_filter.
    split; [done|]. by rewrite kv_iter_perm, elem_of_map_to_list.
Qed.

(** ** The stores refine byte stores *)

(** C38. The records that stand for the stores of the eight modules are
    faithful to the bytes underneath.  With the keys the modules compute, for
    every codec that reads back what it wrote, any sequence of writes keeps the
    byte store in step with the record, every key reads the same in both, and
    an iterator over a one-byte prefix visits the entries of that prefix and no
    other.  In the maker, ve, oracle, vesting, staking and erc20 modules no two
    keys have the same bytes.  In the other two some do, and exactly these: in
    the gauge module the keys of rewards (of users, epochs and checkpoints too)
    and of addresses whose pool key and denomination, or address, read the same
    one after the other; in the voter module the key of a pool whose
    denomination is the eight bytes of an identifier and a denomination, and
    that of this user's vote for this denomination.  The iterator over the
    rewards of a pool visits what any pool stored under a key that starts with
    its key, and so does [IterateRewards] of the keeper.  Identifiers are of 64
    bits, addresses of 1 to 255 bytes. *)
Theorem stores_refine_bytes `{!AddressPrefix, !AddressPrefixLaws, !Sdk, !BankKeeper, !NftKeeper} :
  (refines_bytes MakerStore ∧ refines_bytes VeStore ∧ refines_bytes OracleStore ∧
   refines_bytes GaugeStore ∧ refines_bytes VoterStore ∧ refines_bytes VestingStore ∧
   refines_bytes StakingStore ∧ refines_bytes Erc20Store) ∧
  (keys_distinct MakerStore ∧ keys_distinct VeStore ∧ keys_distinct OracleStore ∧
   keys_distinct VestingStore ∧ keys_distinct StakingStore ∧ keys_distinct Erc20Store) ∧
  (∀ k k', gauge_key_ok k → gauge_key_ok k' →
     gauge_key_bytes k = gauge_key_bytes k' ↔ gauge_clash k k') ∧
  (∀ k k', voter_key_ok k → voter_key_ok k' →
     voter_key_bytes k = voter_key_bytes k' ↔ voter_clash k k') ∧
  (∀ (C : Codec GaugeStore) (w : World) m (b : Base), represents (w_gauge w) m →
     (∀ k x, byte_family m (RewardKeyPrefix (Base_prefixKey b)) !! k = Some x ↔
        ∃ g d r, String.prefix (Base_prefixKey b) (g ++ d) = true ∧
          gs_Reward (w_gauge w) !! RewardKey g d = Some r ∧ k = gauge_RewardKey g d ∧
          x = marshal (GsReward (RewardKey g d) : slot (S := GaugeStore)) r) ∧
     (∀ r, r ∈ IterateRewards b w ↔
        ∃ g d, byte_family m (RewardKeyPrefix (Base_prefixKey b)) !! gauge_RewardKey g d =
          Some (marshal (GsReward (RewardKey g d) : slot (S := GaugeStore)) r) ∧
          gs_Reward (w_gauge w) !! RewardKey g d = Some r)).
Proof.
  split_and!; try (apply layout_refines, _); try (apply (layout_distinct _); intros k k' E; exact E);
    [apply gauge_bytes_clash|apply voter_bytes_clash|].
  intros C w m b R. split; [intros k x; by apply reward_family|]. intros r. rewrite IterateRewards_spec. split.
  - intros (gd & Hp & Hr). assert (RewardKey gd "" = gd) as E by apply append_nil_r.
    assert (gs_Reward (w_gauge w) !! RewardKey gd "" = Some r) as Hr' by (by rewrite E).
    exists gd, "". split; [|exact Hr']. apply (reward_family (w_gauge w) m _ _ _ R). exists gd, "", r.
    split_and!; [|done..]. change (gd ++ "") with (RewardKey gd ""). by rewrite E.
  - intros (g & d & Hb & Hr). exists (RewardKey g d). split; [|done].
    apply map_lookup_filter_Some in Hb as [_ Hp].
    apply (reward_prefix _ (GkReward g d)) in Hp as (g' & d' & [= -> ->] & Hp). exact Hp.
Qed.

(** Both clashes: a pool of eight bytes and more, and the rewards of two pools. *)
Example keys_clash :
  voter_key_bytes (PkPool "pooldenom") = voter_key_bytes (PkPoolByUser 8101816765994331759 "m") ∧
  gauge_key_bytes (GkReward (GaugeKey "uusd") "xatom") = gauge_key_bytes (GkReward (GaugeKey "uusdx") "atom").
Proof. by vm_compute. Qed.

Module KeysDemo.
Import SdkRef.

#[export] Instance demo_prefix : AddressPrefix :=
  {| MustLengthPrefix a := String (byte_of (Z.of_nat (String.length a))) a |}.

#[export] Instance demo_prefix_laws : AddressPrefixLaws.
Proof. by intros a Ha. Qed.

(** Numbers by their binary digits. *)
Fixpoint digits (p : positive) : string :=
  match p with
  | xH => ""
  | xO p => String (byte_of 48) (digits p)
  | xI p => String (byte_of 49) (digits p)
  end.
Fixpoint undigits (s : string) : positive :=
  match s with
  | "" => xH
  | String c s => if decide (c = byte_of 48) then xO (undigits s) else xI (undigits s)
  end.

Lemma undigits_digits p : undigits (digits p) = p.
Proof. induction p as [p IH|p IH|]; simpl; [by rewrite IH..|done]. Qed.

#[export] Instance demo_codec : Codec VoterStore :=
  Build_Codec VoterStore voter_layout (fun _ (v : Z) => digits (encode v)) (fun _ s => decode (A := Z) (undigits s)).

#[export] Instance demo_codec_laws : CodecLaws VoterStore.
Proof. intros k v. simpl. rewrite undigits_digits. apply decode_encode. Qed.

Definition votes1 : writes (S := VoterStore) :=
  [existT (PkTotalByUser 1) (Some 5); existT (PkPool "pool") (Some 5); existT (PkPoolByUser 1 "pool") (Some 5);
   existT PkTotal (Some 5); existT (PkTotalByUser 2) (Some 7); existT (PkTotalByUser 2) None].

Lemma votes1_ok : Forall (fun e => key_ok (projT1 e)) votes1.
Proof. repeat constructor; cbv; done. Qed.

Lemma empty_represented : represents voter_store0 (∅ : ByteStore).
Proof.
  constructor.
  - intros [] _; by rewrite lookup_empty.
  - intros b [x Hx]. by rewrite lookup_empty in Hx.
Qed.

Lemma stores_refine_bytes_witness :
  represents (run_writes votes1 voter_store0) (run_byte_writes votes1 ∅) ∧
  byte_read (run_byte_writes votes1 ∅) (PkTotalByUser 1 : key (S := VoterStore)) = Some 5 ∧
  byte_read (run_byte_writes votes1 ∅) (PkTotalByUser 2 : key (S := VoterStore)) = None ∧
  gauge_key_bytes (GkReward (GaugeKey "uusd") "xatom") = gauge_key_bytes (GkReward (GaugeKey "uusdx") "atom") ∧
  voter_key_bytes (PkPool "pool") ≠ voter_key_bytes (PkPoolByUser 1 "pool").
Proof.
  destruct stores_refine_bytes as ((_ & _ & _ & _ & Hv & _) & _ & Hg & Hc & _).
  destruct (Hv _ _ voter_store0 ∅ votes1 empty_represented votes1_ok) as (Hr & Hk & _).
  split_and!; [exact Hr|vm_compute; reflexivity..|by apply Hg|].
  intros E. apply Hc in E; [|cbv; done..]. discriminate E.
Defined.
End KeysDemo.
